(* ===== verification/_CoqProject ===== *)
-Q . S2P
Prelude.v
Shared.v
Address.v
Objects.v
Riscv.v
LinkedList.v
Capability.v
PageTable.v
CNode.v
Thread.v
RoundRobin.v
Ipc.v
Untyped.v
Syscall.v
SyscallAtomic.v
SyscallProps.v
Trap.v
TrapProps.v
WellTyped.v
Boot.v
Elf.v
RootServer.v
BootTyped.v
BootSpace.v
BootAsm.v
VSpace.v
BootRun.v
Entry.v
UserLib.v
UserProg.v
CapLib.v
CapLibProps.v
LibMap.v
LibRetype.v
LibThread.v
LibConfigure.v
RootProg.v
RootProps.v
System.v
Direct.v
Rendezvous.v
Signals.v
Spawn.v
SystemTyped.v
Witnesses.v
BootWitnesses.v
SystemWitnesses.v
LibWitnesses.v
