(* ===== verification/Prelude.v ===== *)
(** * Zoeax: verification of a capability microkernel

    Zoeax ([src/kernel]) is a small seL4-like kernel for one RISC-V hart with
    Sv48 paging, written in Rust, together with the crate both sides of its
    system-call boundary share ([src/shared]), a user library
    ([src/libzoea]), the root server the kernel starts ([src/rootserver]) and
    the program the root server loads ([src/simple]). User threads hold capabilities in capability nodes; a
    system call names a capability by a path, and the kernel invokes it:
    untyped memory is retyped into objects, capabilities are copied and
    minted, page tables and pages are mapped, threads are configured and
    resumed, messages and signals are exchanged. A trap saves the registers of
    the running thread, the dispatcher handles the system call or the timer
    tick, the scheduler picks the next thread, and its registers are restored.

    ** How the code is modelled

    Kernel code is a function in a state-and-error monad ([M], below): a run
    ends in a value or an error (each with the state it left), in a panic, in
    an access without meaning ([Undef]) or, for a loop given too little fuel,
    in [OutOfFuel]. An error undoes nothing, as with Rust's [?]. Machine
    integers are [Z] with the width written out; the build is the debug
    profile, so arithmetic overflow panics. The kernel state ([Objects.KState])
    has the static variables and a memory that maps start addresses to objects
    ([Objects.kobject]): thread control blocks, endpoints, notifications, page
    tables, capability slots, message pages and the boot information. Pointers are addresses, so the
    aliasing of control blocks between the run queue, the endpoint queues and
    [CURRENT_PROC] is that of the code. A capability slot that was never
    written is empty and a page or page table that was never written is zero,
    since the boot code clears all free memory. A local [CNodeEntry] whose address escapes
    into the derivation list lives at an address of its own, the argument
    [tmp] of the operations concerned. User code is a tree of the effects it
    has ([UserProg.Prog]): system calls with the registers they are made with,
    and accesses to memory through the current page tables. Kernel and threads
    together are a step relation ([System.sys_step]). Sizes, alignments and addresses the
    compiler and the linker choose are the fields of [Objects.KernelLayout].

    ** Files

    - [Prelude]: outcomes, the monad with its notations and laws, record
      update, machine integers, the predicates [ReadOnly], [NoError] and
      [ErrAtomic] with the [atomic] hint database, lemmas on bits.
    - [Shared]: [shared/src/*.rs], the enumerations and their encodings, the
      register file, alignment, the IPC buffer; [KernelError].
    - [Address]: [kernel/src/address.rs].
    - [Objects]: the data types of [kernel/src/object/*.rs], [list.rs],
      [capability.rs] and [scheduler.rs], the kernel state, typed accessors.
    - [Riscv]: [kernel/src/{riscv,sbi,uart,timer}.rs], CSRs and firmware calls.
    - [LinkedList]: [kernel/src/list.rs]; refinement of a FIFO queue.
    - [Capability]: [kernel/src/capability.rs]; the [Capability] trait is a
      record of operations ([CAP_TYPE], [derive], [init_object], ...), with one
      value per implementation in the file of its object.
    - [PageTable]: [kernel/src/object/page_table.rs] and
      [kernel/src/capability/page_table.rs]; walks, translation, mapping.
    - [CNode]: [kernel/src/object/cnode.rs] and
      [kernel/src/capability/cnode.rs]; slots, lookup, derivation list.
    - [Thread]: [kernel/src/object/tcb.rs], [kernel/src/capability/tcb.rs] and
      [kernel/src/scheduler.rs]; [RoundRobin]: what the scheduler guarantees.
    - [Ipc]: [kernel/src/object/{endpoint,notification}.rs] and the
      capabilities to them.
    - [Untyped]: [kernel/src/capability/untyped.rs].
    - [Syscall]: [kernel/src/syscall.rs], one definition per capability type;
      [SyscallAtomic] and [SyscallProps]: its properties.
    - [Trap]: [kernel/src/handler.rs], the assembly as instruction lists with
      an interpreter and the dispatcher [handle_trap]; [TrapProps].
    - [WellTyped], [BootTyped] and [SystemTyped]: the values that traps, the
      boot and the user programs store have the types the source declares.
    - [Boot]: [kernel/src/init/{pm,vm}.rs] and the resource manager of
      [kernel/src/init/root_server.rs].
    - [Elf]: [shared/src/elf.rs] and the part of [shared/src/elf/def.rs] that
      is used; the trait [ProgramMapper] is a record of operations, and the
      loader works over any effects ([Elf.Effect]), those of the kernel's and
      of the root server's mapper being instances.
    - [BootAsm]: [kernel/src/boot.S] and the constants of
      [kernel/src/kernel.ld], the assembly as instruction lists with an
      interpreter, and the translation of addresses by the processor.
    - [RootServer]: the rest of [kernel/src/init/root_server.rs] and
      [kernel/src/init.rs]; [BootSpace]: the address space it builds;
      [BootRun]: the thread it starts.
    - [VSpace]: address spaces as finite maps, refined by the page and
      page-table capabilities; the half of the kernel.
    - [Entry]: [kernel_main] of [kernel/src/main.rs], and kernel data as the
      assembly finds it in memory.
    - [UserLib]: [libzoea/src/syscall.rs]; [UserProg]: programs made of its
      calls; [CapLib]: [libzoea/src/caps.rs]; [CapLibProps], [LibMap],
      [LibRetype], [LibThread] and [LibConfigure]: its properties, down to the
      kernel's objects.
    - [RootProg]: [rootserver/src/*.rs], [simple/src/*.rs] and the output of
      [libzoea/src/lib.rs]; [RootProps]: the root server ends.
    - [System]: kernel and threads together; [Direct]: runs of one thread in
      it; [Rendezvous]: two threads that meet at an endpoint; [Signals]: at a
      notification; [Spawn]: a thread that another one starts.
    - [Witnesses], [BootWitnesses], [SystemWitnesses] and [LibWitnesses]:
      concrete states on which the theorems apply, among them a complete boot and a run of the
      root server with the programs it starts.

    ** What is shown

    - System calls: an error leaves the state as it was apart from the
      caller's result registers ([failed_syscall_atomic]); copying, minting
      and retyping do what they say ([cnode_copy_derives],
      [cnode_mint_sets_word], [retype_creates_object]); requests and results
      survive their encodings ([retype_request_roundtrip],
      [syscall_result_roundtrip]).
    - Types: every trap ([trap_well_typed]) and the boot ([boot_well_typed])
      keep the state well typed: words within their width, known capability
      types, tables of 512 entries, buffers of their length; so do the programs
      of the repository, and no state the system reaches is ill typed
      ([system_well_typed]).
    - The user library: a capability that [copy] returns names the slot the
      kernel filled, and one that can not be derived is refused
      ([library_copy]); one that [retype_single] returns names the slot of the
      new object, of any of the six types ([library_retype]); [mint] does so in the root
      node ([library_mint]) and in no other ([library_mint_astray]); a page
      that is mapped can be written and read at its address
      ([library_map_access]); a thread gets the registers it was given and is
      last in the run queue ([start_thread_call]).
    - The system: whatever threads do and whenever the timer fires, the save
      area is that of the running thread ([system_reg_base]); the root server
      ends whatever the kernel answers ([root_server_ends]); a complete run of
      boot, root server and second program is evaluated
      ([root_server_completes]).
      What a program of one thread does when its calls are followed directly,
      as in the theorems on the library, it does in the system
      ([direct_run_steps]); a thread that is configured, given registers and
      resumed runs in its own address space with them
      ([launched_thread_runs]).
    - Scheduling: [round_robin], and [quantum_round], with and without a request
      that is pending; the list behind it refines a queue ([ll_fifo_refines]).
    - Boot: the assembly ends at [kernel_main] with tables that map the kernel
      where it was linked ([boot_code_maps]), and those of [kernel_vm_init]
      take over without moving it ([kernel_tables_map]); the image's loadable
      segments reach the mapper
      ([map_self_loads]), a page can be mapped whatever tables are missing
      ([create_mapped_page_maps]), a segment gets pages of its own with its
      bytes ([map_program_maps]), the root server ends up running in its
      address space ([boot_starts_root_server]), and the processor enters it in
      user mode at its entry point ([kernel_main_enters_root_server]).
    - Address spaces: whatever requests follow each other, errors included, as
      long as every table put in place is an unused one, the capabilities do to
      the tables in memory what the same requests do to a map from pages to
      entries ([vspace_refines]); single requests
      ([page_cap_map_correct], [page_cap_map_unmap], [page_cap_map_branches],
      [pt_cap_map_progress]).
    - Memory: objects never overlap ([retype_single], [retypes_disjoint]), the
      boot allocators hand out disjoint memory ([allocations_disjoint],
      [untyped_blocks_tile]).
    - Messages and signals: a message passes from the program of one thread to
      that of another, in either order of arrival ([rendezvous],
      [rendezvous_sender_first]), unless the first one is still linked to
      another thread, which panics the kernel; the kernel's part of it
      ([ep_send_delivers], [ep_recv_delivers], [ep_waits],
      [badge_reaches_receiver]). A signal ends the wait of another thread's
      program ([signal_wakes_waiter], with the same exception), and signals nobody waits for are
      collected ([library_signals_collected]); the kernel's part
      ([signals_accumulate], [wait_then_signal]).
    - Traps: [trap_return_roundtrip]; the assembly that leaves and enters the
      kernel does to memory and processor what the kernel model says it does to
      the current thread's registers ([user_cycle_refines]).
    - Capability spaces: [lookup_terminates], [lookup_in_bounds],
      [lookup_path_extend].
    - Where the code falls short of its intent, as theorems: two threads
      waiting at one endpoint ([ep_two_waiters_panic]), a thread that can not
      block ([scheduled_thread_cannot_block]), a blocked thread that runs
      ([blocked_thread_scheduled]), a page table in two address spaces
      ([copied_table_shared]), retyping several objects at once
      ([retype_many_overruns]), derivation links to a dead local
      ([insert_cap_stores]), a lookup that never returns
      ([lookup_radix0_diverges]), a slot the library gives out and the kernel
      refuses ([library_retype_last_slot]), user pages in the kernel's half of
      every address space ([kernel_half_shared]), a second configuration of a
      thread, which panics the kernel ([library_configure_twice]).

    ** Fuel

    The lookup loop has 65 rounds ([CNode.LOOKUP_FUEL]): the
    shift of the first round panics unless fewer than 64 bits remain after it,
    and each further round translates at least one bit unless a node has radix 0; it is shown
    to be enough, and that in the excluded case no number of rounds is. The
    debug traversal of the capability space ([Syscall.print_level]) follows 64
    levels; the loop over the untyped blocks needs at most 47 rounds, which is
    shown. Mapping a page installs at most three tables
    ([RootServer.TABLES_FUEL]), which is shown, and an ELF header counts its
    program headers in 16 bits ([Elf.HEADERS_FUEL]). The root server's loop
    over page tables has a round for each free slot of its node
    ([RootProg.user_tables_fuel]), which is shown to be enough. The evaluated
    run takes [SystemWitnesses.RUN_STEPS] steps, after which no program has
    anything left to do. All other recursions are structural.

    ** What is not modelled

    Text the kernel prints for diagnosis, the source positions in errors, TLB
    fences and the contents of user pages other than message buffers have no
    counterpart in the state; of the programs loaded the state records which
    bytes were copied where ([Objects.loads]). The text [core::fmt] makes of a
    value is a parameter ([RootProg.Formatter]), as are the firmware beyond its
    two calls and the places the linker chooses. A page fault of a thread is a
    kernel panic, as in the source. Memory is known by one address per object:
    the static tables of the kernel also appear, at another address, in its
    window, where only a walk into the kernel's half reaches them
    ([VSpace.kernel_half_shared] takes the shared table at that address). The
    entry that several kernel functions build in a local variable is at one
    address of the stack, [tmp], a parameter; what it held stays there after
    the call. The
    boot assembly and the kernel are separate models: the statics of the image
    have their initial values in the kernel state, and a panic, which prints
    and halts, is an outcome. Of address translation the accessed and dirty
    bits, which the boot tables leave to the processor, are not modelled. The
    CSR accessors no modelled code uses, and the ELF structures no code reads
    (sections, symbols, relocations, notes) stay outside. *)

From stdpp Require Export base numbers list gmap.
From Stdlib Require Export ZArith Lia.
#[global] Open Scope Z_scope.
#[global] Arguments Z.testbit : simpl never.
#[global] Arguments Z.lor : simpl never.
#[global] Arguments Z.land : simpl never.
#[global] Arguments Z.shiftl : simpl never.
#[global] Arguments Z.shiftr : simpl never.
#[global] Arguments Z.modulo : simpl never.
#[global] Arguments Z.div : simpl never.
#[global] Arguments Z.pow : simpl never.

(** ** Outcomes of kernel code *)

(** Why a panic was raised: arithmetic overflow (the default build is the
    debug profile, where it is checked), [assert!], an out-of-range index,
    [unwrap] of an absent value, [todo!], or an explicit [panic!]. *)
Inductive panic_kind :=
  | PArith | PAssert | PIndex | PUnwrap | PTodo | PExplicit.

(** The result of running a piece of kernel code in state [S] with error
    type [E]. An error keeps the state reached so far: Rust's [?] returns
    early and undoes nothing. [Undef] is a memory access the model gives no
    meaning to (a pointer to an object of another type, or to memory no
    object was ever written to). *)
Inductive outcome (S E A : Type) :=
  | Ok (a : A) (s : S)
  | Err (e : E) (s : S)
  | Panic (k : panic_kind)
  | Undef
  | OutOfFuel.
Arguments Ok {S E A} a s.
Arguments Err {S E A} e s.
Arguments Panic {S E A} k.
Arguments Undef {S E A}.
Arguments OutOfFuel {S E A}.

(** Kernel code as a state-and-error monad. *)
Definition M (S E A : Type) : Type := S → outcome S E A.

Definition ret {S E A} (a : A) : M S E A := λ s, Ok a s.
Definition throw {S E A} (e : E) : M S E A := λ s, Err e s.
Definition panic {S E A} (k : panic_kind) : M S E A := λ _, Panic k.
Definition undef {S E A} : M S E A := λ _, Undef.
Definition get {S E} : M S E S := λ s, Ok s s.
Definition put {S E} (s : S) : M S E unit := λ _, Ok tt s.
Definition gets {S E A} (f : S → A) : M S E A := λ s, Ok (f s) s.
Definition modify {S E} (f : S → S) : M S E unit := λ s, Ok tt (f s).

Definition bind {S E A B} (m : M S E A) (f : A → M S E B) : M S E B :=
  λ s, match m s with
       | Ok a s' => f a s'
       | Err e s' => Err e s'
       | Panic k => Panic k
       | Undef => Undef
       | OutOfFuel => OutOfFuel
       end.

Declare Scope kernel_scope.
Delimit Scope kernel_scope with kernel.
Notation "'let*' x ':=' m 'in' k" := (bind m (fun x => k))
  (at level 200, x name, m at level 100, k at level 200, right associativity) : kernel_scope.
Notation "'let*' ' p ':=' m 'in' k" := (bind m (fun p => k))
  (at level 200, p strict pattern, m at level 100, k at level 200, right associativity) : kernel_scope.
Notation "m ';;;' k" := (bind m (fun _ => k))
  (at level 199, right associativity) : kernel_scope.
#[global] Open Scope kernel_scope.

(** [cond.then_some(()).ok_or(e)?] *)
Definition guard {S E} (c : bool) (e : E) : M S E unit := if c then ret tt else throw e.
(** [opt.ok_or(e)?] *)
Definition ok_or {S E A} (o : option A) (e : E) : M S E A :=
  match o with Some a => ret a | None => throw e end.
(** [assert!(c)] *)
Definition rassert {S E} (c : bool) : M S E unit := if c then ret tt else panic PAssert.
(** [opt.unwrap()] *)
Definition unwrap {S E A} (o : option A) : M S E A :=
  match o with Some a => ret a | None => panic PUnwrap end.
(** [res.unwrap()] of a fallible call: an error becomes a panic. *)
Definition unwrap_res {S E E' A} (m : M S E A) : M S E' A :=
  λ s, match m s with
       | Ok a s' => Ok a s'
       | Err _ _ => Panic PUnwrap
       | Panic k => Panic k
       | Undef => Undef
       | OutOfFuel => OutOfFuel
       end.
(** [if let Err(e) = m { handler }] and [m.map_err]: observe the result. *)
Definition try_ {S E E' A} (m : M S E A) : M S E' (A + E) :=
  λ s, match m s with
       | Ok a s' => Ok (inl a) s'
       | Err e s' => Ok (inr e) s'
       | Panic k => Panic k
       | Undef => Undef
       | OutOfFuel => OutOfFuel
       end.

(** ** Functional record update

    [r <| f := v |>] replaces one field. A record opts in with an [Eta]
    instance that lists its fields; the updater of a field is computed from it. *)
Class Eta (R : Type) := eta : R → R.
Class Upd {R T} (proj : R → T) := upd : (T → T) → R → R.
Arguments upd {R T} proj {_} f r.

Ltac solve_upd proj :=
  lazymatch type of proj with
  | ?R → ?T =>
      let i := constr:(_ : Eta R) in
      let e := eval hnf in i in
      lazymatch eval pattern proj in e with
      | ?g _ => let u := eval cbv beta in (λ (f : T → T), g (λ r, f (proj r))) in exact u
      end
  end.
#[export] Hint Extern 1 (Upd ?proj) => solve_upd proj : typeclass_instances.

Notation "r <| proj := v |>" := (upd proj (λ _, v) r)
  (at level 8, left associativity, format "r <| proj  :=  v |>").
Notation "r <| proj ::= f |>" := (upd proj f r)
  (at level 8, left associativity, format "r <| proj  ::=  f |>").

(** ** Machine integers: [usize] and [u64] are 64 bits wide, [Z] in [0, 2^64) *)

Definition W : Z := 2 ^ 64.

Definition usize_add {S E} (a b : Z) : M S E Z :=
  if a + b <? W then ret (a + b) else panic PArith.
Definition usize_sub {S E} (a b : Z) : M S E Z :=
  if b <=? a then ret (a - b) else panic PArith.
Definition usize_mul {S E} (a b : Z) : M S E Z :=
  if a * b <? W then ret (a * b) else panic PArith.
(** [a << n]: bits shifted out are lost, a shift by 64 or more panics. *)
Definition usize_shl {S E} (a n : Z) : M S E Z :=
  if n <? 64 then ret (Z.shiftl a n mod W) else panic PArith.
Definition usize_shr {S E} (a n : Z) : M S E Z :=
  if n <? 64 then ret (Z.shiftr a n) else panic PArith.
(** [2_usize.pow(n)] *)
Definition usize_pow2 {S E} (n : Z) : M S E Z :=
  if n <? 64 then ret (2 ^ n) else panic PArith.
(** [!a] *)
Definition usize_not (a : Z) : Z := W - 1 - a.
(** A left shift by a constant below 64, which cannot panic. *)
Definition shl64 (a n : Z) : Z := Z.shiftl a n mod W.

Definition as_u8 (a : Z) : Z := a mod 2 ^ 8.
Definition as_u16 (a : Z) : Z := a mod 2 ^ 16.
Definition as_u32 (a : Z) : Z := a mod 2 ^ 32.

Definition is_usize (a : Z) : Prop := 0 ≤ a < W.
Definition is_u32 (a : Z) : Prop := 0 ≤ a < 2 ^ 32.
Definition is_pow2 (a : Z) : Prop := ∃ k, 0 ≤ k ∧ a = 2 ^ k.

(** ** Reasoning about the monad *)

Lemma bind_Ok {S E A B} (m : M S E A) (f : A → M S E B) s a s' :
  m s = Ok a s' → bind m f s = f a s'.
Proof. unfold bind. by intros ->. Qed.

Lemma bind_Err {S E A B} (m : M S E A) (f : A → M S E B) s e s' :
  m s = Err e s' → bind m f s = Err e s'.
Proof. unfold bind. by intros ->. Qed.

Lemma bind_Panic {S E A B} (m : M S E A) (f : A → M S E B) s k :
  m s = Panic k → bind m f s = Panic k.
Proof. unfold bind. by intros ->. Qed.

Lemma bind_Ok_inv {S E A B} (m : M S E A) (f : A → M S E B) s b s' :
  bind m f s = Ok b s' → ∃ a s1, m s = Ok a s1 ∧ f a s1 = Ok b s'.
Proof. unfold bind. destruct (m s) as [a s1| | | |]; [eauto|done..]. Qed.

Lemma bind_Err_inv {S E A B} (m : M S E A) (f : A → M S E B) s e s' :
  bind m f s = Err e s' →
  m s = Err e s' ∨ ∃ a s1, m s = Ok a s1 ∧ f a s1 = Err e s'.
Proof. unfold bind. destruct (m s) as [a s1| | | |]; naive_solver. Qed.

Lemma bind_assoc {S E A B C} (m : M S E A) (f : A → M S E B) (g : B → M S E C) s :
  bind (bind m f) g s = bind m (λ a, bind (f a) g) s.
Proof. unfold bind. by destruct (m s). Qed.

(** Two computations that agree on every state can replace each other at the
    head of a sequence. *)
#[export] Instance bind_proper {S E A B} :
  Proper (pointwise_relation S eq ==> pointwise_relation A (pointwise_relation S eq)
          ==> pointwise_relation S eq) (@bind S E A B).
Proof. intros m m' Hm f f' Hf s. unfold bind. rewrite (Hm s). by destruct (m' s); try apply Hf. Qed.

(** Unfold the primitive steps of a computation. *)
Ltac mred :=
  cbv beta delta [bind ret throw panic undef get put gets modify guard ok_or rassert unwrap
                  unwrap_res try_]; cbv beta iota.
Ltac mred_in H :=
  cbv beta delta [bind ret throw panic undef get put gets modify guard ok_or rassert unwrap
                  unwrap_res try_] in H; cbv beta iota in H.

(** Decompose [H : bind m f s = Ok b s'] into its two steps. *)
Ltac inv_bind H :=
  let a := fresh "a" in let s := fresh "s" in let H1 := fresh "Hm" in
  apply bind_Ok_inv in H as (a & s & H1 & H).

(** Split boolean comparisons on [Z] in the goal or a hypothesis. *)
Ltac zcase :=
  match goal with
  | |- context [?a <? ?b] => destruct (Z.ltb_spec a b)
  | |- context [?a <=? ?b] => destruct (Z.leb_spec a b)
  | |- context [?a =? ?b] => destruct (Z.eqb_spec a b)
  | H : context [?a <? ?b] |- _ => destruct (Z.ltb_spec a b)
  | H : context [?a <=? ?b] |- _ => destruct (Z.leb_spec a b)
  | H : context [?a =? ?b] |- _ => destruct (Z.eqb_spec a b)
  end.

(** ** Computations that only read, never fail, or fail cleanly *)

(** [ReadOnly m]: a result of [m] comes with the state [m] started in.
    [NoError m]: [m] never returns an error value.
    [ErrAtomic m]: when [m] returns an error, it has changed nothing. *)
Definition ReadOnly {S E A} (m : M S E A) : Prop := ∀ s a s', m s = Ok a s' → s' = s.
Definition NoError {S E A} (m : M S E A) : Prop := ∀ s e s', m s ≠ Err e s'.
Definition ErrAtomic {S E A} (m : M S E A) : Prop := ∀ s e s', m s = Err e s' → s' = s.

Section atomic.
Context {S E : Type}.

Lemma ro_bind {A B} (m : M S E A) (f : A → M S E B) :
  ReadOnly m → (∀ a, ReadOnly (f a)) → ReadOnly (bind m f).
Proof. intros Hm Hf s b s' H. inv_bind H. apply Hm in Hm0 as ->. by eapply Hf. Qed.
Lemma ne_bind {A B} (m : M S E A) (f : A → M S E B) :
  NoError m → (∀ a, NoError (f a)) → NoError (bind m f).
Proof. intros Hm Hf s e s' [H|(a & s1 & _ & H)]%bind_Err_inv; [by eapply Hm|by eapply Hf]. Qed.
Lemma ea_bind_ro {A B} (m : M S E A) (f : A → M S E B) :
  ReadOnly m → ErrAtomic m → (∀ a, ErrAtomic (f a)) → ErrAtomic (bind m f).
Proof.
  intros Hr Hm Hf s e s' [H|(a & s1 & H1 & H)]%bind_Err_inv; [by eapply Hm|].
  apply Hr in H1 as ->. by eapply Hf.
Qed.
Lemma ea_bind_ne {A B} (m : M S E A) (f : A → M S E B) :
  ErrAtomic m → (∀ a, NoError (f a)) → ErrAtomic (bind m f).
Proof.
  intros Hm Hf s e s' [H|(a & s1 & _ & H)]%bind_Err_inv; [by eapply Hm|]. by apply Hf in H.
Qed.
Lemma ne_ea {A} (m : M S E A) : NoError m → ErrAtomic m.
Proof. intros Hm s e s' H. by apply Hm in H. Qed.

Lemma ro_ret {A} (a : A) : ReadOnly (ret (S := S) (E := E) a).
Proof. intros s b s' [= -> ->]. done. Qed.
Lemma ne_ret {A} (a : A) : NoError (ret (S := S) (E := E) a).
Proof. done. Qed.
Lemma ro_throw {A} (e : E) : ReadOnly (throw (S := S) (A := A) e).
Proof. done. Qed.
Lemma ea_throw {A} (e : E) : ErrAtomic (throw (S := S) (A := A) e).
Proof. intros s e' s' [= _ ->]. done. Qed.
Lemma ro_panic {A} k : ReadOnly (panic (S := S) (E := E) (A := A) k).
Proof. done. Qed.
Lemma ne_panic {A} k : NoError (panic (S := S) (E := E) (A := A) k).
Proof. done. Qed.
Lemma ro_undef {A} : ReadOnly (undef (S := S) (E := E) (A := A)).
Proof. done. Qed.
Lemma ne_undef {A} : NoError (undef (S := S) (E := E) (A := A)).
Proof. done. Qed.
Lemma ro_gets {A} (f : S → A) : ReadOnly (gets (E := E) f).
Proof. intros s a s' [= _ ->]. done. Qed.
Lemma ne_gets {A} (f : S → A) : NoError (gets (E := E) f).
Proof. done. Qed.
Lemma ne_modify (f : S → S) : NoError (modify (E := E) f).
Proof. done. Qed.
Lemma ne_unwrap_res {E' A} (m : M S E A) : NoError (unwrap_res (E' := E') m).
Proof. intros s e s'. unfold unwrap_res. by destruct (m s). Qed.
Lemma ne_try {E' A} (m : M S E A) : NoError (try_ (E' := E') m).
Proof. intros s e s'. unfold try_. by destruct (m s). Qed.
Lemma ro_try {E' A} (m : M S E A) : ReadOnly m → ErrAtomic m → ReadOnly (try_ (E' := E') m).
Proof.
  intros Hr He s a s'. unfold try_. destruct (m s) eqn:Hm; intros [= _ <-]; [by eapply Hr|by eapply He].
Qed.
Lemma ro_unwrap_res {E' A} (m : M S E A) : ReadOnly m → ReadOnly (unwrap_res (E' := E') m).
Proof. intros Hr s a s'. unfold unwrap_res. destruct (m s) eqn:Hm; intros [= _ <-]. by eapply Hr. Qed.
End atomic.

Create HintDb atomic.
#[export] Hint Resolve ro_ret ne_ret ro_throw ea_throw ro_panic ne_panic ro_undef ne_undef ro_gets
  ne_gets ne_modify ne_unwrap_res ne_try ro_try ro_unwrap_res : atomic.

(** Decide these properties along the structure of a computation: leaves by
    the hint database, [match] by case analysis, [bind] by the rule that fits
    (a read-only first step, or a rest that cannot fail). *)
Ltac atomic :=
  intros; cbv beta zeta;
  first
    [ solve [auto with atomic nocore]
    | lazymatch goal with
      | |- ReadOnly (bind _ _) => apply ro_bind; [atomic|intros; atomic]
      | |- NoError (bind _ _) => apply ne_bind; [atomic|intros; atomic]
      | |- ErrAtomic (bind _ _) =>
          first [ solve [apply ea_bind_ro; [atomic|atomic|intros; atomic]]
                | apply ea_bind_ne; [atomic|intros; atomic] ]
      | |- _ (match ?x with _ => _ end) => destruct x; atomic
      | |- ErrAtomic _ => apply ne_ea; solve [auto with atomic nocore]
      end ].

(** ** Checked arithmetic *)

Lemma usize_add_Ok {S E} a b (s : S) : a + b < W → @usize_add S E a b s = Ok (a + b) s.
Proof. intros. unfold usize_add. by rewrite (proj2 (Z.ltb_lt _ _)). Qed.

Lemma usize_sub_Ok {S E} a b (s : S) : b ≤ a → @usize_sub S E a b s = Ok (a - b) s.
Proof. intros. unfold usize_sub. by rewrite (proj2 (Z.leb_le _ _)). Qed.

Lemma usize_mul_Ok {S E} a b (s : S) : a * b < W → @usize_mul S E a b s = Ok (a * b) s.
Proof. intros. unfold usize_mul. by rewrite (proj2 (Z.ltb_lt _ _)). Qed.

Lemma usize_shr_Ok {S E} a n (s : S) : n < 64 → @usize_shr S E a n s = Ok (Z.shiftr a n) s.
Proof. intros. unfold usize_shr. by rewrite (proj2 (Z.ltb_lt _ _)). Qed.

Lemma usize_pow2_Ok {S E} n (s : S) : n < 64 → @usize_pow2 S E n s = Ok (2 ^ n) s.
Proof. intros. unfold usize_pow2. by rewrite (proj2 (Z.ltb_lt _ _)). Qed.

Create HintDb kernel.
#[export] Hint Resolve usize_add_Ok usize_sub_Ok usize_mul_Ok usize_shr_Ok usize_pow2_Ok : kernel.

(** Checked arithmetic, assertions and [ok_or] read nothing and write nothing. *)
Lemma ro_guard {S E} c e : ReadOnly (guard (S := S) (E := E) c e).
Proof. unfold guard. atomic. Qed.
Lemma ea_guard {S E} c e : ErrAtomic (guard (S := S) (E := E) c e).
Proof. unfold guard. atomic. Qed.
Lemma ro_ok_or {S E A} (o : option A) e : ReadOnly (ok_or (S := S) (E := E) o e).
Proof. unfold ok_or. atomic. Qed.
Lemma ea_ok_or {S E A} (o : option A) e : ErrAtomic (ok_or (S := S) (E := E) o e).
Proof. unfold ok_or. atomic. Qed.
Lemma ro_rassert {S E} c : ReadOnly (rassert (S := S) (E := E) c).
Proof. unfold rassert. atomic. Qed.
Lemma ne_rassert {S E} c : NoError (rassert (S := S) (E := E) c).
Proof. unfold rassert. atomic. Qed.
#[export] Hint Resolve ro_guard ea_guard ro_ok_or ea_ok_or ro_rassert ne_rassert : atomic.
#[export] Hint Extern 1 (ReadOnly (usize_add _ _)) => (unfold usize_add; atomic) : atomic.
#[export] Hint Extern 1 (ReadOnly (usize_sub _ _)) => (unfold usize_sub; atomic) : atomic.
#[export] Hint Extern 1 (ReadOnly (usize_mul _ _)) => (unfold usize_mul; atomic) : atomic.
#[export] Hint Extern 1 (ReadOnly (usize_shl _ _)) => (unfold usize_shl; atomic) : atomic.
#[export] Hint Extern 1 (ReadOnly (usize_shr _ _)) => (unfold usize_shr; atomic) : atomic.
#[export] Hint Extern 1 (ReadOnly (usize_pow2 _)) => (unfold usize_pow2; atomic) : atomic.
#[export] Hint Extern 1 (NoError (usize_add _ _)) => (unfold usize_add; atomic) : atomic.
#[export] Hint Extern 1 (NoError (usize_sub _ _)) => (unfold usize_sub; atomic) : atomic.
#[export] Hint Extern 1 (NoError (usize_mul _ _)) => (unfold usize_mul; atomic) : atomic.
#[export] Hint Extern 1 (NoError (usize_shl _ _)) => (unfold usize_shl; atomic) : atomic.
#[export] Hint Extern 1 (NoError (usize_shr _ _)) => (unfold usize_shr; atomic) : atomic.
#[export] Hint Extern 1 (NoError (usize_pow2 _)) => (unfold usize_pow2; atomic) : atomic.

(** ** Bit fields *)

(** Bits of the operations the kernel's encodings are built from. *)
Lemma testbit_mod_pow2 a n i : 0 ≤ n → 0 ≤ i →
  Z.testbit (a mod 2 ^ n) i = (i <? n) && Z.testbit a i.
Proof.
  intros. destruct (Z.ltb_spec i n).
  - by rewrite Z.mod_pow2_bits_low.
  - by rewrite Z.mod_pow2_bits_high by lia.
Qed.

Lemma testbit_high a n i : 0 ≤ a < 2 ^ n → 0 ≤ n ≤ i → Z.testbit a i = false.
Proof.
  intros. rewrite <- (Z.mod_small a (2 ^ n)) by lia. apply Z.mod_pow2_bits_high; lia.
Qed.

(** Below a shifted field there is room for a small one: [or] is addition. *)
Lemma lor_shiftl_add a b n : 0 ≤ n → 0 ≤ b < 2 ^ n →
  Z.lor (Z.shiftl a n) b = a * 2 ^ n + b.
Proof.
  intros Hn Hb. rewrite <- Z.shiftl_mul_pow2 by lia. symmetry.
  rewrite Z.add_nocarry_lxor.
  - apply Z.bits_inj'. intros i Hi. rewrite Z.lxor_spec, Z.lor_spec.
    destruct (Z.ltb_spec i n).
    + rewrite Z.shiftl_spec_low by lia. by rewrite xorb_false_l.
    + rewrite (testbit_high b n i) by lia. by rewrite xorb_false_r, orb_false_r.
  - apply Z.bits_inj'. intros i Hi. rewrite Z.land_spec, Z.bits_0.
    destruct (Z.ltb_spec i n).
    + by rewrite Z.shiftl_spec_low.
    + by rewrite (testbit_high b n i), andb_false_r by lia.
Qed.

Lemma lor_pow2_add a b n : 0 ≤ n → a mod 2 ^ n = 0 → 0 ≤ b < 2 ^ n → Z.lor a b = a + b.
Proof.
  intros Hn Ha Hb.
  assert (a = Z.shiftl (a / 2 ^ n) n) as Hs.
  { rewrite Z.shiftl_mul_pow2 by lia. pose proof (Z.div_mod a (2 ^ n)). lia. }
  rewrite Hs at 1. rewrite lor_shiftl_add by lia. rewrite Z.shiftl_mul_pow2 in Hs by lia. lia.
Qed.

Lemma land_lnot_ones a n : 0 ≤ n → 0 ≤ a < W → n ≤ 64 →
  Z.land a (usize_not (Z.ones n)) = (a / 2 ^ n) * 2 ^ n.
Proof.
  intros Hn Ha Hn'. rewrite <- Z.shiftl_mul_pow2, <- Z.shiftr_div_pow2 by lia.
  apply Z.bits_inj'. intros i Hi. rewrite Z.land_spec.
  assert (usize_not (Z.ones n) = Z.ones (64 - n) * 2 ^ n) as ->.
  { unfold usize_not, W. rewrite !Z.ones_equiv. replace 64 with ((64 - n) + n) at 1 by lia.
    rewrite Z.pow_add_r by lia. lia. }
  rewrite <- Z.shiftl_mul_pow2 by lia. rewrite !Z.shiftl_spec by lia.
  destruct (Z.ltb_spec i n).
  - rewrite !(Z.testbit_neg_r _ (i - n)) by lia. by rewrite andb_false_r.
  - rewrite Z.shiftr_spec by lia. replace (i - n + n) with i by lia.
    destruct (Z.ltb_spec i 64).
    + rewrite Z.ones_spec_low by lia. by rewrite andb_true_r.
    + by rewrite (testbit_high a 64 i) by (unfold W in *; lia).
Qed.

Lemma land_lnot_pow2 a n : 0 ≤ n ≤ 64 → 0 ≤ a < W →
  Z.land a (usize_not (2 ^ n - 1)) = (a / 2 ^ n) * 2 ^ n.
Proof.
  intros. replace (2 ^ n - 1) with (Z.ones n) by (rewrite Z.ones_equiv; lia).
  apply land_lnot_ones; lia.
Qed.


(** ** Finite maps *)

Lemma alter_is_insert {A} (f : A → A) (m : gmap Z A) i x :
  m !! i = Some x → alter f i m = <[i := f x]> m.
Proof.
  intros Hi. apply map_eq. intros j. destruct (decide (i = j)) as [->|].
  - by rewrite lookup_insert_eq, lookup_alter_eq, Hi.
  - by rewrite lookup_insert_ne, lookup_alter_ne.
Qed.
