(* ===== verification/Shared.v ===== *)
(** * The [shared] crate

    Enumerations and structures both sides of the system call boundary use
    ([shared/src/*.rs]), with the integer encodings they cross it in, the
    alignment helpers, and the IPC buffer. *)

From S2P Require Import Prelude.

(** ** [err_kind.rs] *)

Module ErrKind.
Inductive ErrKind :=
  | NoMemory
  | PteNotFound
  | OutOfMemory
  | InvalidUserAddress
  | UnknownCapType
  | UnexpectedCapType
  | CanNotNewFromDeviceMemory
  | NoEnoughSlot
  | NotEmptySlot
  | SlotIsEmpty
  | VaddressAlreadyMapped
  | PageTableAlreadyMapped
  | PageTableNotMappedYet
  | PageAlreadyMapped
  | PageNotMappedYet
  | UnknownInvocation
  | CanNotDerivable
  | InvalidOperation
  | CapNotFound
  | NotAligned
  | UnknownSysCall
  | NotRootPageTable.

#[global] Instance ErrKind_eq_dec : EqDecision ErrKind.
Proof. solve_decision. Defined.

(** [e as usize]: [#[repr(u8)]], numbered from 1. *)
Definition errkind_as_usize (e : ErrKind) : Z :=
  match e with
  | NoMemory => 1
  | PteNotFound => 2
  | OutOfMemory => 3
  | InvalidUserAddress => 4
  | UnknownCapType => 5
  | UnexpectedCapType => 6
  | CanNotNewFromDeviceMemory => 7
  | NoEnoughSlot => 8
  | NotEmptySlot => 9
  | SlotIsEmpty => 10
  | VaddressAlreadyMapped => 11
  | PageTableAlreadyMapped => 12
  | PageTableNotMappedYet => 13
  | PageAlreadyMapped => 14
  | PageNotMappedYet => 15
  | UnknownInvocation => 16
  | CanNotDerivable => 17
  | InvalidOperation => 18
  | CapNotFound => 19
  | NotAligned => 20
  | UnknownSysCall => 21
  | NotRootPageTable => 22
  end.

(** [TryFrom<usize>]: the arms in the order of the source. *)
Definition errkind_try_from (e_val : Z) : option ErrKind :=
  if e_val =? errkind_as_usize NoMemory then Some NoMemory else
  if e_val =? errkind_as_usize PteNotFound then Some PteNotFound else
  if e_val =? errkind_as_usize OutOfMemory then Some OutOfMemory else
  if e_val =? errkind_as_usize InvalidUserAddress then Some InvalidUserAddress else
  if e_val =? errkind_as_usize UnknownCapType then Some UnknownCapType else
  if e_val =? errkind_as_usize UnexpectedCapType then Some UnexpectedCapType else
  if e_val =? errkind_as_usize CanNotNewFromDeviceMemory then Some CanNotNewFromDeviceMemory else
  if e_val =? errkind_as_usize NoEnoughSlot then Some NoEnoughSlot else
  if e_val =? errkind_as_usize NotEmptySlot then Some NotEmptySlot else
  if e_val =? errkind_as_usize SlotIsEmpty then Some SlotIsEmpty else
  if e_val =? errkind_as_usize VaddressAlreadyMapped then Some VaddressAlreadyMapped else
  if e_val =? errkind_as_usize PageAlreadyMapped then Some PageAlreadyMapped else
  if e_val =? errkind_as_usize PageNotMappedYet then Some PageNotMappedYet else
  if e_val =? errkind_as_usize PageTableAlreadyMapped then Some PageTableAlreadyMapped else
  if e_val =? errkind_as_usize PageTableNotMappedYet then Some PageTableNotMappedYet else
  if e_val =? errkind_as_usize UnknownInvocation then Some UnknownInvocation else
  if e_val =? errkind_as_usize CanNotDerivable then Some CanNotDerivable else
  if e_val =? errkind_as_usize InvalidOperation then Some InvalidOperation else
  if e_val =? errkind_as_usize CapNotFound then Some CapNotFound else
  if e_val =? errkind_as_usize NotAligned then Some NotAligned else
  None.
End ErrKind.
Notation ErrKind := ErrKind.ErrKind.

(** [KernelError] of [kernel/src/common.rs]. [e_place] (source position, in
    debug builds) is only ever printed and is left out. *)
Record KernelError := { e_kind : ErrKind; e_val : Z }.
Definition kerr (k : ErrKind) : KernelError := {| e_kind := k; e_val := 0 |}.
Definition kerr_val (k : ErrKind) (v : Z) : KernelError := {| e_kind := k; e_val := v |}.

(** ** [cap_type.rs] *)

Module CapabilityType.
Inductive CapabilityType :=
  | Untyped
  | Tcb
  | EndPoint
  | CNode
  | Notification
  | PageTable
  | Page.

#[global] Instance CapabilityType_eq_dec : EqDecision CapabilityType.
Proof. solve_decision. Defined.

Definition cap_type_as_u8 (t : CapabilityType) : Z :=
  match t with
  | Untyped => 1
  | Tcb => 3
  | EndPoint => 5
  | CNode => 7
  | Notification => 9
  | PageTable => 2
  | Page => 4
  end.

Definition cap_type_try_from (value : Z) : ErrKind + CapabilityType :=
  if value =? cap_type_as_u8 Untyped then inr Untyped else
  if value =? cap_type_as_u8 Tcb then inr Tcb else
  if value =? cap_type_as_u8 EndPoint then inr EndPoint else
  if value =? cap_type_as_u8 CNode then inr CNode else
  if value =? cap_type_as_u8 Notification then inr Notification else
  if value =? cap_type_as_u8 Page then inr Page else
  if value =? cap_type_as_u8 PageTable then inr PageTable else
  inl ErrKind.UnknownCapType.
End CapabilityType.
Notation CapabilityType := CapabilityType.CapabilityType.

(** ** [inv_labels.rs] *)

Module InvLabel.
Inductive InvLabel :=
  | PutChar
  | CNodeTraverse
  | UntypedRetype
  | TcbConfigure
  | TcbWriteReg
  | TcbResume
  | TcbSetIpcBuffer
  | NotifyWait
  | NotifySend
  | CNodeCopy
  | CNodeMint
  | CNodeMove
  | PageMap
  | PageUnMap
  | PageTableMap
  | PageTableUnMap
  | PageTableMakeRoot
  | EpSend
  | EpRecv.

#[global] Instance InvLabel_eq_dec : EqDecision InvLabel.
Proof. solve_decision. Defined.

Definition label_as_usize (l : InvLabel) : Z :=
  match l with
  | PutChar => 0
  | CNodeTraverse => 1
  | UntypedRetype => 2
  | TcbConfigure => 3
  | TcbWriteReg => 4
  | TcbResume => 5
  | TcbSetIpcBuffer => 6
  | NotifyWait => 7
  | NotifySend => 8
  | CNodeCopy => 9
  | CNodeMint => 10
  | CNodeMove => 11
  | PageMap => 12
  | PageUnMap => 13
  | PageTableMap => 14
  | PageTableUnMap => 15
  | PageTableMakeRoot => 16
  | EpSend => 17
  | EpRecv => 18
  end.

Definition label_try_from (value : Z) : ErrKind + InvLabel :=
  if value =? label_as_usize PutChar then inr PutChar else
  if value =? label_as_usize CNodeTraverse then inr CNodeTraverse else
  if value =? label_as_usize UntypedRetype then inr UntypedRetype else
  if value =? label_as_usize TcbConfigure then inr TcbConfigure else
  if value =? label_as_usize TcbWriteReg then inr TcbWriteReg else
  if value =? label_as_usize TcbResume then inr TcbResume else
  if value =? label_as_usize TcbSetIpcBuffer then inr TcbSetIpcBuffer else
  if value =? label_as_usize NotifyWait then inr NotifyWait else
  if value =? label_as_usize NotifySend then inr NotifySend else
  if value =? label_as_usize CNodeCopy then inr CNodeCopy else
  if value =? label_as_usize CNodeMint then inr CNodeMint else
  if value =? label_as_usize CNodeMove then inr CNodeMove else
  if value =? label_as_usize PageMap then inr PageMap else
  if value =? label_as_usize PageUnMap then inr PageUnMap else
  if value =? label_as_usize PageTableMap then inr PageTableMap else
  if value =? label_as_usize PageTableUnMap then inr PageTableUnMap else
  if value =? label_as_usize PageTableMakeRoot then inr PageTableMakeRoot else
  if value =? label_as_usize EpSend then inr EpSend else
  if value =? label_as_usize EpRecv then inr EpRecv else
  inl ErrKind.UnknownInvocation.
End InvLabel.
Notation InvLabel := InvLabel.InvLabel.

(** ** [syscall_no.rs] *)

Module SysCallNo.
Inductive SysCallNo := Print | Call | Send | Recv.
Definition syscall_no_as_usize (n : SysCallNo) : Z :=
  match n with Print => 0 | Call => 1 | Send => 2 | Recv => 3 end.
End SysCallNo.
Notation SysCallNo := SysCallNo.SysCallNo.

(** ** [registers.rs] *)

Module Register.
Inductive Register :=
  | Ra | Sp | Gp | Tp | T0 | T1 | T2 | S0 | S1 | A0 | A1 | A2 | A3 | A4 | A5 | A6 | A7 | S2 |
  S3 | S4 | S5 | S6 | S7 | S8 | S9 | S10 | S11 | T3 | T4 | T5 | T6 | SCause | SStatus | SEpc.
End Register.
Notation Register := Register.Register.

(** [#[repr(C)]]: the fields are laid out in this order, eight bytes each. *)
Record Registers := {
  ra : Z; sp : Z; gp : Z; tp : Z; t0 : Z; t1 : Z; t2 : Z; t3 : Z; t4 : Z; t5 : Z; t6 : Z; a0 :
  Z; a1 : Z; a2 : Z; a3 : Z; a4 : Z; a5 : Z; a6 : Z; a7 : Z; s0 : Z; s1 : Z; s2 : Z; s3 : Z; s4
  : Z; s5 : Z; s6 : Z; s7 : Z; s8 : Z; s9 : Z; s10 : Z; s11 : Z; scause : Z; sstatus : Z; sepc :
  Z
}.

#[export] Instance Registers_eta : Eta Registers := λ r,
  {| ra := ra r; sp := sp r; gp := gp r; tp := tp r; t0 := t0 r; t1 := t1 r; t2 := t2 r; t3 :=
  t3 r; t4 := t4 r; t5 := t5 r; t6 := t6 r; a0 := a0 r; a1 := a1 r; a2 := a2 r; a3 := a3 r; a4
  := a4 r; a5 := a5 r; a6 := a6 r; a7 := a7 r; s0 := s0 r; s1 := s1 r; s2 := s2 r; s3 := s3 r;
  s4 := s4 r; s5 := s5 r; s6 := s6 r; s7 := s7 r; s8 := s8 r; s9 := s9 r; s10 := s10 r; s11 :=
  s11 r; scause := scause r; sstatus := sstatus r; sepc := sepc r |}.

#[export] Instance Registers_eq_dec : EqDecision Registers.
Proof. solve_decision. Defined.

Definition Registers_null : Registers :=
  {| ra := 0; sp := 0; gp := 0; tp := 0; t0 := 0; t1 := 0; t2 := 0; t3 := 0; t4 := 0; t5 := 0;
  t6 := 0; a0 := 0; a1 := 0; a2 := 0; a3 := 0; a4 := 0; a5 := 0; a6 := 0; a7 := 0; s0 := 0; s1
  := 0; s2 := 0; s3 := 0; s4 := 0; s5 := 0; s6 := 0; s7 := 0; s8 := 0; s9 := 0; s10 := 0; s11 :=
  0; scause := 0; sstatus := 0; sepc := 0 |}.

(** [impl Index<Register>] and [impl IndexMut<Register>]. *)
Definition regs_index (r : Registers) (reg : Register) : Z :=
  match reg with
  | Register.Ra => r.(ra)
  | Register.Sp => r.(sp)
  | Register.Gp => r.(gp)
  | Register.Tp => r.(tp)
  | Register.T0 => r.(t0)
  | Register.T1 => r.(t1)
  | Register.T2 => r.(t2)
  | Register.T3 => r.(t3)
  | Register.T4 => r.(t4)
  | Register.T5 => r.(t5)
  | Register.T6 => r.(t6)
  | Register.A0 => r.(a0)
  | Register.A1 => r.(a1)
  | Register.A2 => r.(a2)
  | Register.A3 => r.(a3)
  | Register.A4 => r.(a4)
  | Register.A5 => r.(a5)
  | Register.A6 => r.(a6)
  | Register.A7 => r.(a7)
  | Register.S0 => r.(s0)
  | Register.S1 => r.(s1)
  | Register.S2 => r.(s2)
  | Register.S3 => r.(s3)
  | Register.S4 => r.(s4)
  | Register.S5 => r.(s5)
  | Register.S6 => r.(s6)
  | Register.S7 => r.(s7)
  | Register.S8 => r.(s8)
  | Register.S9 => r.(s9)
  | Register.S10 => r.(s10)
  | Register.S11 => r.(s11)
  | Register.SCause => r.(scause)
  | Register.SStatus => r.(sstatus)
  | Register.SEpc => r.(sepc)
  end.

Definition regs_index_mut (r : Registers) (reg : Register) (v : Z) : Registers :=
  match reg with
  | Register.Ra => r <| ra := v |>
  | Register.Sp => r <| sp := v |>
  | Register.Gp => r <| gp := v |>
  | Register.Tp => r <| tp := v |>
  | Register.T0 => r <| t0 := v |>
  | Register.T1 => r <| t1 := v |>
  | Register.T2 => r <| t2 := v |>
  | Register.T3 => r <| t3 := v |>
  | Register.T4 => r <| t4 := v |>
  | Register.T5 => r <| t5 := v |>
  | Register.T6 => r <| t6 := v |>
  | Register.A0 => r <| a0 := v |>
  | Register.A1 => r <| a1 := v |>
  | Register.A2 => r <| a2 := v |>
  | Register.A3 => r <| a3 := v |>
  | Register.A4 => r <| a4 := v |>
  | Register.A5 => r <| a5 := v |>
  | Register.A6 => r <| a6 := v |>
  | Register.A7 => r <| a7 := v |>
  | Register.S0 => r <| s0 := v |>
  | Register.S1 => r <| s1 := v |>
  | Register.S2 => r <| s2 := v |>
  | Register.S3 => r <| s3 := v |>
  | Register.S4 => r <| s4 := v |>
  | Register.S5 => r <| s5 := v |>
  | Register.S6 => r <| s6 := v |>
  | Register.S7 => r <| s7 := v |>
  | Register.S8 => r <| s8 := v |>
  | Register.S9 => r <| s9 := v |>
  | Register.S10 => r <| s10 := v |>
  | Register.S11 => r <| s11 := v |>
  | Register.SCause => r <| scause := v |>
  | Register.SStatus => r <| sstatus := v |>
  | Register.SEpc => r <| sepc := v |>
  end.

(** The memory image of a [Registers]: its 34 words. *)
Definition registers_words (r : Registers) : list Z :=
  [ra r; sp r; gp r; tp r; t0 r; t1 r; t2 r; t3 r; t4 r; t5 r; t6 r; a0 r; a1 r; a2 r; a3 r; a4
  r; a5 r; a6 r; a7 r; s0 r; s1 r; s2 r; s3 r; s4 r; s5 r; s6 r; s7 r; s8 r; s9 r; s10 r; s11 r;
  scause r; sstatus r; sepc r].

Definition registers_of_words (ws : list Z) : Registers :=
  {| ra := nth 0 ws 0; sp := nth 1 ws 0; gp := nth 2 ws 0; tp := nth 3 ws 0; t0 := nth 4 ws 0;
  t1 := nth 5 ws 0; t2 := nth 6 ws 0; t3 := nth 7 ws 0; t4 := nth 8 ws 0; t5 := nth 9 ws 0; t6
  := nth 10 ws 0; a0 := nth 11 ws 0; a1 := nth 12 ws 0; a2 := nth 13 ws 0; a3 := nth 14 ws 0; a4
  := nth 15 ws 0; a5 := nth 16 ws 0; a6 := nth 17 ws 0; a7 := nth 18 ws 0; s0 := nth 19 ws 0; s1
  := nth 20 ws 0; s2 := nth 21 ws 0; s3 := nth 22 ws 0; s4 := nth 23 ws 0; s5 := nth 24 ws 0; s6
  := nth 25 ws 0; s7 := nth 26 ws 0; s8 := nth 27 ws 0; s9 := nth 28 ws 0; s10 := nth 29 ws 0;
  s11 := nth 30 ws 0; scause := nth 31 ws 0; sstatus := nth 32 ws 0; sepc := nth 33 ws 0 |}.

(** ** [lib.rs] *)

Definition PAGE_SIZE : Z := 4096.

(** [value.is_multiple_of(align)]: only zero is a multiple of zero. *)
Definition is_aligned (value align : Z) : bool :=
  if align =? 0 then value =? 0 else value mod align =? 0.

Definition align_up {S E} (value align : Z) : M S E Z :=
  let* t := usize_add value align in
  let* t := usize_sub t 1 in
  let* m := usize_sub align 1 in
  ret (Z.land t (usize_not m)).

Definition align_down {S E} (value align : Z) : M S E Z :=
  let* m := usize_sub align 1 in
  ret (Z.land value (usize_not m)).

(** ** [types.rs] *)

Definition MESSAGE_LEN : Z := 128.

Record IPCBuffer := { tag : Z; message : list Z; user_data : Z }.
#[export] Instance IPCBuffer_eta : Eta IPCBuffer :=
  λ b, {| tag := tag b; message := message b; user_data := user_data b |}.

(** All-zero memory read as an [IPCBuffer]. *)
Definition IPCBuffer_zero : IPCBuffer :=
  {| tag := 0; message := replicate (Z.to_nat MESSAGE_LEN) 0; user_data := 0 |}.

(** A type with a word-by-word memory image, as [write_as] and [read_as] copy it. *)
Class WordImage (T : Type) := {
  size_of : Z;
  to_words : T → list Z;
  of_words : list Z → T;
}.
Arguments size_of T {_}.
#[export] Instance Registers_image : WordImage Registers :=
  {| size_of := 34 * 8; to_words := registers_words; of_words := registers_of_words |}.

Definition write_as {T} `{WordImage T} (b : IPCBuffer) (v : T) : ErrKind + IPCBuffer :=
  if size_of T <=? MESSAGE_LEN * 8 then
    inr (b <| message ::= λ m, to_words v ++ drop (length (to_words v)) m |>)
  else inl ErrKind.InvalidOperation.

Definition read_as (T : Type) `{WordImage T} (b : IPCBuffer) : ErrKind + T :=
  if size_of T <=? MESSAGE_LEN * 8 then inr (of_words b.(message))
  else inl ErrKind.InvalidOperation.

Record UntypedInfo := { bits : Z; idx : Z; is_device : bool }.
Definition UntypedInfo_default : UntypedInfo := {| bits := 0; idx := 0; is_device := false |}.

Record BootInfo := {
  ipc_buffer_addr : Z; root_cnode_idx : Z; root_vspace_idx : Z; untyped_num : Z;
  firtst_empty_idx : Z; msg : list Z; untyped_infos : list UntypedInfo
}.
Definition BootInfo_default : BootInfo :=
  {| ipc_buffer_addr := 0; root_cnode_idx := 0; root_vspace_idx := 0; untyped_num := 0;
     firtst_empty_idx := 0; msg := replicate 32 0;
     untyped_infos := replicate 32 UntypedInfo_default |}.
#[export] Instance BootInfo_eta : Eta BootInfo := λ b,
  {| ipc_buffer_addr := ipc_buffer_addr b; root_cnode_idx := root_cnode_idx b;
     root_vspace_idx := root_vspace_idx b; untyped_num := untyped_num b;
     firtst_empty_idx := firtst_empty_idx b; msg := msg b; untyped_infos := untyped_infos b |}.

(** ** Properties *)

(** [align_up] of a [usize] to a power of two returns, without overflow,
    the least multiple of the alignment that is not below the value. *)
Lemma align_up_spec {S E} (value align : Z) (s : S) :
  0 ≤ value → is_pow2 align → value + align < W →
  ∃ r, align_up (E:=E) value align s = Ok r s ∧
       r mod align = 0 ∧ value ≤ r < value + align.
Proof.
  intros Hv (k & Hk & ->) Hlt.
  assert (0 < 2 ^ k) by lia.
  assert (k ≤ 64).
  { destruct (Z.le_gt_cases k 64) as [|Hgt]; [done|].
    assert (2 ^ 64 < 2 ^ k) by (apply Z.pow_lt_mono_r; lia). unfold W in *. lia. }
  unfold align_up.
  rewrite (bind_Ok _ _ _ _ _ (usize_add_Ok _ _ _ Hlt)).
  rewrite (bind_Ok _ _ _ (value + 2 ^ k - 1) s) by (apply usize_sub_Ok; lia).
  rewrite (bind_Ok _ _ _ (2 ^ k - 1) s) by (apply usize_sub_Ok; lia).
  unfold ret. rewrite land_lnot_pow2 by lia.
  eexists. split; [reflexivity|]. split; [apply Z.mod_mul; lia|].
  pose proof (Z.div_mod (value + 2 ^ k - 1) (2 ^ k)).
  pose proof (Z.mod_pos_bound (value + 2 ^ k - 1) (2 ^ k)). lia.
Qed.
