(* ===== verification/Address.v ===== *)
(** * Addresses

    [kernel/src/address.rs]: physical, user-virtual and kernel-virtual
    addresses. All three are a [usize]; the conversions between them are the
    definitions below. Physical memory is mapped at [KERNEL_V_ADDR_PFX]. *)

From S2P Require Import Prelude.

Definition KERNEL_V_ADDR_PFX : Z := 0xffff800000000000.

(** [Address::add] and [ops::Add]: a checked addition. *)
Definition addr_add {S E} (addr val : Z) : M S E Z := usize_add addr val.
(** [ops::Sub]: a checked subtraction. *)
Definition addr_sub {S E} (addr rhs : Z) : M S E Z := usize_sub addr rhs.

(** [From<PhysAddr> for KernelVAddress] *)
Definition kva_of_phys (p : Z) : Z := Z.lor p KERNEL_V_ADDR_PFX.
(** [From<KernelVAddress> for PhysAddr] *)
Definition phys_of_kva (k : Z) : Z := Z.land k (usize_not KERNEL_V_ADDR_PFX).

(** [VirtAddr::get_vpn] *)
Definition get_vpn (addr idx : Z) : Z := Z.land (Z.shiftr addr (12 + idx * 9)) 0x1ff.

(** An address in the window where physical memory is mapped. *)
Definition is_kva (k : Z) : Prop := KERNEL_V_ADDR_PFX ≤ k < W.
(** A physical address the window covers. *)
Definition is_phys (p : Z) : Prop := 0 ≤ p < 2 ^ 47.

Lemma kva_of_phys_add p : is_phys p → kva_of_phys p = KERNEL_V_ADDR_PFX + p.
Proof.
  unfold is_phys, kva_of_phys. intros Hp. rewrite Z.lor_comm.
  apply (lor_pow2_add _ _ 47); [lia|reflexivity|done].
Qed.

Lemma phys_of_kva_mod k : 0 ≤ k → phys_of_kva k = k mod 2 ^ 47.
Proof.
  intros. unfold phys_of_kva.
  replace (usize_not KERNEL_V_ADDR_PFX) with (Z.ones 47) by reflexivity.
  by apply Z.land_ones.
Qed.

(** The physical address of a physical address seen through the kernel
    window is that physical address. *)
Lemma phys_kva_roundtrip p : is_phys p → phys_of_kva (kva_of_phys p) = p.
Proof.
  intros Hp. rewrite kva_of_phys_add by done. unfold is_phys in Hp.
  rewrite phys_of_kva_mod by (unfold KERNEL_V_ADDR_PFX; lia).
  rewrite <- Zplus_mod_idemp_l. replace (KERNEL_V_ADDR_PFX mod 2 ^ 47) with 0 by reflexivity.
  apply Z.mod_small; lia.
Qed.

(** Conversely every address of the window is the image of its physical address. *)
Lemma kva_phys_roundtrip k : is_kva k → kva_of_phys (phys_of_kva k) = k ∧ is_phys (phys_of_kva k).
Proof.
  unfold is_kva, KERNEL_V_ADDR_PFX. intros Hk.
  rewrite phys_of_kva_mod by lia.
  assert (k mod 2 ^ 47 = k - 0xffff800000000000) as ->.
  { symmetry. apply Z.mod_unique_pos with 0x1ffff; unfold W in *; lia. }
  assert (is_phys (k - 0xffff800000000000)) by (unfold is_phys, W in *; lia).
  split; [|done]. rewrite kva_of_phys_add by done. unfold KERNEL_V_ADDR_PFX. lia.
Qed.

Lemma is_kva_of_phys p : is_phys p → is_kva (kva_of_phys p).
Proof.
  intros Hp. rewrite kva_of_phys_add by done. unfold is_phys, is_kva, KERNEL_V_ADDR_PFX, W in *. lia.
Qed.

(** A page-table index selects one of the 512 entries. *)
Lemma get_vpn_bound a i : 0 ≤ get_vpn a i < 512.
Proof.
  unfold get_vpn. change 0x1ff with (Z.ones 9). rewrite Z.land_ones by lia.
  change 512 with (2 ^ 9). apply Z.mod_pos_bound. lia.
Qed.

Lemma get_vpn_arith a i : 0 ≤ i → get_vpn a i = a / 2 ^ (12 + i * 9) mod 512.
Proof.
  intros. unfold get_vpn. change 0x1ff with (Z.ones 9).
  rewrite Z.land_ones, Z.shiftr_div_pow2 by lia. reflexivity.
Qed.

(** Two user addresses of the 48-bit space with the same four page-table
    indices are in the same page: the walk separates any two pages. *)
Lemma get_vpn_separates v w :
  0 ≤ v < 2 ^ 48 → 0 ≤ w < 2 ^ 48 →
  get_vpn v 0 = get_vpn w 0 → get_vpn v 1 = get_vpn w 1 →
  get_vpn v 2 = get_vpn w 2 → get_vpn v 3 = get_vpn w 3 →
  v / 4096 = w / 4096.
Proof.
  intros Hv Hw. rewrite !get_vpn_arith by lia.
  change (12 + 0 * 9) with 12. change (12 + 1 * 9) with 21.
  change (12 + 2 * 9) with 30. change (12 + 3 * 9) with 39.
  change (2 ^ 12) with 4096. change (2 ^ 21) with 2097152. change (2 ^ 30) with 1073741824.
  change (2 ^ 39) with 549755813888. change (2 ^ 48) with 281474976710656 in *.
  intros. Z.div_mod_to_equations. lia.
Qed.
