(* ===== verification/Objects.v ===== *)
(** * Kernel objects and the kernel state

    The data of every kernel object ([kernel/src/object/*.rs],
    [kernel/src/list.rs], [kernel/src/capability.rs],
    [kernel/src/scheduler.rs]), the memory they live in and the accessors
    through which the operations of the other files reach it.

    Memory is a finite map from kernel-virtual addresses to objects: an object
    is found at the address of its first byte. An address that holds nothing
    is memory that was not written since the boot code zero-filled free RAM;
    read as a capability slot or as a page it is zero, and read as any other
    object it is [Undef]. An address that holds an object of another type is
    [Undef] too. *)

From S2P Require Import Prelude Shared Address.

(** ** Capabilities and capability slots *)

(** [CapabilityData<K>] ([capability.rs]); [K] is a phantom type. *)
Record CapabilityData := {
  cap_type : Z;        (* NonZeroU8 *)
  cap_right : Z;       (* u8 *)
  address_top : Z;     (* u16 *)
  address_bottom : Z;  (* u32 *)
  cap_dep_val : Z;     (* u64 *)
}.
#[export] Instance CapabilityData_eta : Eta CapabilityData := λ c,
  {| cap_type := cap_type c; cap_right := cap_right c; address_top := address_top c;
     address_bottom := address_bottom c; cap_dep_val := cap_dep_val c |}.
#[export] Instance CapabilityData_eq_dec : EqDecision CapabilityData.
Proof. solve_decision. Defined.

(** [ManagementDB([usize; 2])] ([object/cnode.rs]): word 0 holds the previous
    entry of the derivation list in its upper 48 bits, word 1 the next one. *)
Record ManagementDB := { mdb_word0 : Z; mdb_word1 : Z }.
#[export] Instance ManagementDB_eta : Eta ManagementDB := λ m,
  {| mdb_word0 := mdb_word0 m; mdb_word1 := mdb_word1 m |}.
#[export] Instance ManagementDB_eq_dec : EqDecision ManagementDB.
Proof. solve_decision. Defined.

Record CNodeEntry := { cap : CapabilityData; mdb : ManagementDB }.
#[export] Instance CNodeEntry_eta : Eta CNodeEntry := λ e, {| cap := cap e; mdb := mdb e |}.
#[export] Instance CNodeEntry_eq_dec : EqDecision CNodeEntry.
Proof. solve_decision. Defined.

(** [CSlot<T> = Option<CNodeEntry<T>>]; [None] is a zero [cap_type] byte, so a
    slot has the size of an entry. *)
Definition CSlot : Type := option CNodeEntry.
Definition size_of_CNodeEntry : Z := 32.

(** ** Linked lists ([list.rs]) *)

Record ListItem (T : Type) := { value : T; next : option Z }.
Arguments value {T} l.
Arguments next {T} l.
Arguments Build_ListItem {T} value next.
#[export] Instance ListItem_eta T : Eta (ListItem T) := λ i, {| value := value i; next := next i |}.

Record LinkedList := { ll_head : option Z; ll_last : option Z }.
#[export] Instance LinkedList_eta : Eta LinkedList := λ l, {| ll_head := ll_head l; ll_last := ll_last l |}.
#[export] Instance LinkedList_eq_dec : EqDecision LinkedList.
Proof. solve_decision. Defined.

Definition LinkedList_new : LinkedList := {| ll_head := None; ll_last := None |}.
Definition ListItem_new {T} (v : T) : ListItem T := {| value := v; next := None |}.
Definition next_is_none {T} (i : ListItem T) : bool := bool_decide (next i = None).

(** ** Threads ([object/tcb.rs]) *)

Inductive ThreadState := Inactive | Runnable | Blocked | Idle.
#[export] Instance ThreadState_eq_dec : EqDecision ThreadState.
Proof. solve_decision. Defined.

Record ThreadInfo := {
  status : ThreadState;
  time_slice : Z;
  root_cnode : CSlot;
  vspace : CSlot;
  registers : Registers;
  ipc_buffer : CSlot;
  badge : Z;
  tid : Z;
}.
#[export] Instance ThreadInfo_eta : Eta ThreadInfo := λ t,
  {| status := status t; time_slice := time_slice t; root_cnode := root_cnode t;
     vspace := vspace t; registers := registers t; ipc_buffer := ipc_buffer t;
     badge := badge t; tid := tid t |}.
#[export] Instance ThreadInfo_eq_dec : EqDecision ThreadInfo.
Proof. solve_decision. Defined.

Definition ThreadInfo_default : ThreadInfo :=
  {| status := Inactive; time_slice := 0; root_cnode := None; vspace := None;
     registers := Registers_null; ipc_buffer := None; badge := 0; tid := 0 |}.

Definition ThreadInfo_idle_init : ThreadInfo :=
  {| status := Idle; time_slice := 0; root_cnode := None; vspace := None;
     registers := Registers_null; ipc_buffer := None; badge := 0; tid := 0 |}.

Definition ThreadControlBlock : Type := ListItem ThreadInfo.

(** ** Endpoints, notifications and page tables *)

Inductive EndpointState := EpStSend | EpStRecv | EpStIdel.
#[export] Instance EndpointState_eq_dec : EqDecision EndpointState.
Proof. solve_decision. Defined.

Record Endpoint := { ep_state : EndpointState; queue : LinkedList }.
#[export] Instance Endpoint_eta : Eta Endpoint := λ e, {| ep_state := ep_state e; queue := queue e |}.
Definition Endpoint_new : Endpoint := {| ep_state := EpStIdel; queue := LinkedList_new |}.

Record Notification := { notify_bit : Z; wait_queue : LinkedList; bit_is_set : bool }.
#[export] Instance Notification_eta : Eta Notification := λ n,
  {| notify_bit := notify_bit n; wait_queue := wait_queue n; bit_is_set := bit_is_set n |}.
Definition Notification_new : Notification :=
  {| notify_bit := 0; wait_queue := LinkedList_new; bit_is_set := false |}.

(** [PageTable([Pte; 512])]: the entries' words. *)
Notation PageTable := (list Z) (only parsing).
Definition PageTable_new : PageTable := replicate 512 0.

(** ** Memory and the kernel's static variables *)

Inductive kobject :=
  | OSlot (s : CSlot)
  | OTcb (t : ThreadControlBlock)
  | OEndpoint (e : Endpoint)
  | ONotification (n : Notification)
  | OPageTable (t : PageTable)
  | OPage (b : IPCBuffer)
  | OBootInfo (b : BootInfo).

(** [CpuVar] ([scheduler.rs]). [cur_reg_base] points to the [registers] of a
    thread: it is represented by the address of that thread's control block. *)
Record CpuVar := { sptop : Z; sscratch : Z; cur_reg_base : Z }.
#[export] Instance CpuVar_eta : Eta CpuVar := λ c,
  {| sptop := sptop c; sscratch := sscratch c; cur_reg_base := cur_reg_base c |}.

Record Scheduler := { runqueue : LinkedList; requested : bool }.
#[export] Instance Scheduler_eta : Eta Scheduler := λ s,
  {| runqueue := runqueue s; requested := requested s |}.
Definition Scheduler_new : Scheduler := {| runqueue := LinkedList_new; requested := false |}.

Record KState := {
  heap : gmap Z kobject;
  scheduler : Scheduler;   (* static SCHEDULER *)
  current_proc : Z;        (* static CURRENT_PROC *)
  cpu_var : CpuVar;        (* static CPU_VAR *)
  tcbidx : Z;              (* static TCBIDX (debug builds) *)
  satp : Z;                (* CSR satp *)
  time : Z;                (* CSR time *)
  timer : Z;               (* the deadline last given to the SBI timer *)
  console : list Z;        (* characters written by the [PutChar] call *)
  stvec : Z; sie : Z; csr_sscratch : Z;   (* the CSRs of these names *)
  loads : list (Z * Z * Z);
    (* program bytes copied into user pages: source, destination and size of
       each [ptr::copy], in order *)
}.
#[export] Instance KState_eta : Eta KState := λ k,
  {| heap := heap k; scheduler := scheduler k; current_proc := current_proc k;
     cpu_var := cpu_var k; tcbidx := tcbidx k; satp := satp k; time := time k;
     timer := timer k; console := console k; stvec := stvec k; sie := sie k;
     csr_sscratch := csr_sscratch k; loads := loads k |}.

(** Fallible kernel code: [KernelResult] over the kernel state. *)
Definition K (A : Type) : Type := M KState KernelError A.

(** What the compiler and the linker choose: the addresses of the statics, and
    the size and alignment of the types without a fixed representation. *)
Class KernelLayout := {
  IDLE_THREAD : Z;
  KERNEL_VM_ROOT : Z;
  LV2TABLE : Z;
  CPU_VAR : Z;
  idle_entry : Z;          (* the address of [scheduler::idle] *)
  size_of_tcb : Z; align_of_tcb : Z;
  size_of_endpoint : Z; align_of_endpoint : Z;
  size_of_notification : Z; align_of_notification : Z;
}.

(** What holds of every size and alignment (a power of two that divides the
    size), and that these objects are small. *)
Record size_align_ok (size align : Z) : Prop := {
  sa_pow2 : is_pow2 align;
  sa_size : 0 < size < 2 ^ 16;
  sa_small : align ≤ 4096;
  sa_mult : size mod align = 0;
}.
Class KernelLayoutOk `{KernelLayout} : Prop := {
  tcb_layout : size_align_ok size_of_tcb align_of_tcb;
  endpoint_layout : size_align_ok size_of_endpoint align_of_endpoint;
  notification_layout : size_align_ok size_of_notification align_of_notification;
}.

Lemma heap_set s h : heap (s <| heap := h |>) = h.
Proof. reflexivity. Qed.
Lemma heap_set_set s h h' : s <| heap := h |> <| heap := h' |> = s <| heap := h' |>.
Proof. reflexivity. Qed.
Lemma heap_set_id s : s <| heap := heap s |> = s.
Proof. by destruct s. Qed.
#[export] Hint Rewrite heap_set heap_set_set heap_set_id : kstate.

(** ** Accessors *)

Definition set_heap (a : Z) (o : kobject) : K unit := 
  modify (λ s, s <| heap := <[a := o]> (heap s) |>).

Definition read_tcb (a : Z) : K ThreadControlBlock :=
  let* h := gets heap in
  match h !! a with Some (OTcb t) => ret t | _ => undef end.
Definition write_tcb (a : Z) (t : ThreadControlBlock) : K unit := set_heap a (OTcb t).
Definition modify_tcb (a : Z) (f : ThreadInfo → ThreadInfo) : K unit :=
  let* t := read_tcb a in write_tcb a (t <| value ::= f |>).

Definition read_endpoint (a : Z) : K Endpoint :=
  let* h := gets heap in
  match h !! a with Some (OEndpoint e) => ret e | _ => undef end.
Definition write_endpoint (a : Z) (e : Endpoint) : K unit := set_heap a (OEndpoint e).

Definition read_notification (a : Z) : K Notification :=
  let* h := gets heap in
  match h !! a with Some (ONotification n) => ret n | _ => undef end.
Definition write_notification (a : Z) (n : Notification) : K unit := set_heap a (ONotification n).

(** Page tables, slots and pages: untouched memory is zero. *)
Definition table_at (h : gmap Z kobject) (a : Z) : option PageTable :=
  match h !! a with Some (OPageTable t) => Some t | None => Some PageTable_new | _ => None end.
Definition read_page_table (a : Z) : K PageTable :=
  let* h := gets heap in
  match table_at h a with Some t => ret t | None => undef end.
Definition write_page_table (a : Z) (t : PageTable) : K unit := set_heap a (OPageTable t).

Definition slot_at (h : gmap Z kobject) (a : Z) : option CSlot :=
  match h !! a with Some (OSlot s) => Some s | None => Some None | _ => None end.
Definition read_slot (a : Z) : K CSlot :=
  let* h := gets heap in
  match slot_at h a with Some s => ret s | None => undef end.
Definition write_slot_at (a : Z) (s : CSlot) : K unit := set_heap a (OSlot s).

Definition read_page (a : Z) : K IPCBuffer :=
  let* h := gets heap in
  match h !! a with Some (OPage b) => ret b | None => ret IPCBuffer_zero | _ => undef end.
Definition write_page (a : Z) (b : IPCBuffer) : K unit := set_heap a (OPage b).

(** A reference to an entry: the slot there must be occupied. *)
Definition read_entry (a : Z) : K CNodeEntry :=
  let* s := read_slot a in
  match s with Some e => ret e | None => undef end.
Definition write_entry (a : Z) (e : CNodeEntry) : K unit := write_slot_at a (Some e).
Definition modify_entry (a : Z) (f : CNodeEntry → CNodeEntry) : K unit :=
  let* e := read_entry a in write_entry a (f e).
