(* ===== verification/Riscv.v ===== *)
(** * Processor and firmware access ([kernel/src/riscv.rs], [kernel/src/sbi.rs])

    Reading and writing the control and status registers the kernel uses, and
    calls to the supervisor binary interface. The registers are fields of the
    kernel state. Of the firmware the state has what its two documented calls
    set: the deadline of the timer and the characters on the console. *)

From S2P Require Import Prelude Shared Address Objects.

(** ** [riscv.rs] *)

Definition SIE_SSIE : Z := Z.shiftl 1 1.
Definition SIE_STIE : Z := Z.shiftl 1 5.
Definition SIE_SEIE : Z := Z.shiftl 1 9.
Definition SSTATUS_SPIE : Z := Z.shiftl 1 5.
Definition SSTATUS_SPP : Z := Z.shiftl 1 8.

Definition r_sie : K Z := gets sie.
Definition w_sie (val : Z) : K unit := modify (λ s, s <| sie := val |>).
Definition w_stvec (addr : Z) : K unit := modify (λ s, s <| stvec := addr |>).
Definition w_sscratch (val : Z) : K unit := modify (λ s, s <| csr_sscratch := val |>).
Definition r_time : K Z := gets time.

(** ** [sbi.rs] *)

(** The extensions called: the timer (function 0), and the legacy [putchar]. *)
Definition TIMER : Z := 0x54494D45.
Definition PUTCHAR : Z := 1.
(** [sbi_call] with one argument; the others are zero in every call. *)
Definition sbi_call (arg0 fid eid : Z) : K unit :=
  if (eid =? TIMER) && (fid =? 0) then modify (λ s, s <| timer := arg0 |>)
  else if eid =? PUTCHAR then modify (λ s, s <| console ::= λ c, c ++ [arg0] |>)
  else undef.

(** ** [uart.rs] and [timer.rs] *)

Definition putchar (ch : Z) : K unit := sbi_call ch 0 PUTCHAR.
(** [Uart::write_str], and [_print] of the text that formatting makes of its
    arguments: [write_str] never fails, so neither does the [unwrap]. *)
Fixpoint uart_write_str (s : list Z) : K unit :=
  match s with [] => ret tt | ch :: s' => putchar ch ;;; uart_write_str s' end.
Definition uart_print (text : list Z) : K unit := uart_write_str text.
Definition set_timer (val : Z) : K unit :=
  let* rd_time := r_time in
  let* deadline := usize_add val rd_time in
  sbi_call deadline 0 TIMER.

(** What is printed is added to the console, in order. *)
Lemma uart_print_console text s : uart_print text s = Ok tt (s <| console ::= λ c, c ++ text |>).
Proof.
  unfold uart_print. revert s. induction text as [|ch text IH]; intros s; cbn [uart_write_str].
  - unfold ret, upd. rewrite app_nil_r. by destruct s.
  - rewrite (bind_Ok _ _ _ tt (s <| console ::= λ c, c ++ [ch] |>)) by done. rewrite IH. unfold upd. cbn. by rewrite <- app_assoc.
Qed.
