(* ===== verification/LinkedList.v ===== *)
(** * Intrusive linked lists ([kernel/src/list.rs])

    The run queue, the endpoint queues and the notification queues are
    singly linked through the [next] field of the thread control blocks in
    memory. [push] and [pop] are modelled on the pointers, and related to
    plain lists of thread addresses by [list_rep]. *)

From S2P Require Import Prelude Shared Address Objects Riscv.

(** ** Operations *)

(** [LinkedList::push] *)
Definition ll_push (self : LinkedList) (item : Z) : K LinkedList :=
  match self.(ll_last) with
  | Some prev_last =>
      let* p := read_tcb prev_last in
      write_tcb prev_last (p <| next := Some item |>) ;;;
      ret (self <| ll_last := Some item |>)
  | None => ret {| ll_head := Some item; ll_last := Some item |}
  end.

(** [LinkedList::is_empty] *)
Definition ll_is_empty (self : LinkedList) : bool := bool_decide (self.(ll_head) = None).

(** [LinkedList::pop]: the popped item keeps its own [next]. *)
Definition ll_pop (self : LinkedList) : K (option Z * LinkedList) :=
  let result := self.(ll_head) in
  let* nxt := match result with
              | Some ptr => let* t := read_tcb ptr in ret (next t)
              | None => ret None
              end in
  ret (result, {| ll_head := nxt;
                  ll_last := match nxt with None => None | Some _ => self.(ll_last) end |}).

(** ** What a list in memory represents *)

(** The items [xs] are threads chained in this order, the last one having no
    [next]. *)
Fixpoint chain (h : gmap Z kobject) (xs : list Z) : Prop :=
  match xs with
  | [] => True
  | x :: xs' => (∃ t, h !! x = Some (OTcb t) ∧ next t = head xs') ∧ chain h xs'
  end.

Record list_rep (h : gmap Z kobject) (q : LinkedList) (xs : list Z) : Prop := {
  lr_nodup : NoDup xs;
  lr_head : ll_head q = head xs;
  lr_last : ll_last q = last xs;
  lr_chain : chain h xs;
}.

(** The memory after [push]: the old last item points to the new one. *)
Definition set_next (n : option Z) (o : kobject) : kobject :=
  match o with OTcb t => OTcb (t <| next := n |>) | _ => o end.
Definition link_last (xs : list Z) (x : Z) (h : gmap Z kobject) : gmap Z kobject :=
  match last xs with Some y => alter (set_next (Some x)) y h | None => h end.

(** ** Lemmas *)

Lemma read_tcb_Ok a t s : heap s !! a = Some (OTcb t) → read_tcb a s = Ok t s.
Proof. intros Ha. unfold read_tcb. mred. by rewrite Ha. Qed.

Lemma modify_tcb_Ok a t f s :
  heap s !! a = Some (OTcb t) →
  modify_tcb a f s = Ok tt (s <| heap := <[a := OTcb (t <| value ::= f |>)]> (heap s) |>).
Proof. intros Ha. unfold modify_tcb. by rewrite (bind_Ok _ _ _ _ _ (read_tcb_Ok _ _ _ Ha)). Qed.


Lemma chain_frame h h' xs : (∀ x, x ∈ xs → h' !! x = h !! x) → chain h xs → chain h' xs.
Proof.
  induction xs as [|x xs IH]; [done|]. simpl. intros Hag [(t & Ht & Hn) Hc].
  split; [|apply IH; set_solver]. exists t. by rewrite Hag by set_solver.
Qed.

Lemma chain_tcb h xs x : chain h xs → x ∈ xs → ∃ t, h !! x = Some (OTcb t).
Proof.
  induction xs as [|y xs IH]; [set_solver|]. intros [(t & ? & ?) ?] [->|]%elem_of_cons; eauto.
Qed.

(** The values (everything but the link) of the items a chain consists of do
    not matter to it. *)
Lemma chain_value h xs a t f :
  h !! a = Some (OTcb t) → chain h xs → chain (<[a := OTcb (t <| value ::= f |>)]> h) xs.
Proof.
  intros Ha. induction xs as [|x xs IH]; [done|]. intros [(u & Hu & Hn) Hc].
  split; [|by apply IH]. destruct (decide (a = x)) as [->|].
  - rewrite lookup_insert_eq. exists (t <| value ::= f |>). naive_solver.
  - rewrite lookup_insert_ne by done. eauto.
Qed.

Lemma list_rep_value h q xs a t f :
  h !! a = Some (OTcb t) → list_rep h q xs →
  list_rep (<[a := OTcb (t <| value ::= f |>)]> h) q xs.
Proof. intros Ha []. split; [done..|]. by apply chain_value. Qed.

Lemma list_rep_frame h h' q xs :
  (∀ x, x ∈ xs → h' !! x = h !! x) → list_rep h q xs → list_rep h' q xs.
Proof. intros Hag []. split; [done..|]. by apply (chain_frame h). Qed.

Lemma list_rep_is_empty h q xs : list_rep h q xs → ll_is_empty q = bool_decide (xs = []).
Proof.
  intros Hr. unfold ll_is_empty. rewrite (lr_head _ _ _ Hr). by destruct xs.
Qed.

Lemma list_rep_new h : list_rep h LinkedList_new [].
Proof. by split; try constructor. Qed.

Lemma list_rep_nil_inv h q : list_rep h q [] → q = LinkedList_new.
Proof. destruct q. intros [_ Hh Hl _]. simpl in *. by subst. Qed.

Lemma link_last_frame xs x h a : last xs ≠ Some a → link_last xs x h !! a = h !! a.
Proof.
  unfold link_last. destruct (last xs) as [y|]; [|done].
  intros. rewrite lookup_alter_ne; [done|congruence].
Qed.

Lemma last_elem_of {A} (xs : list A) y : last xs = Some y → y ∈ xs.
Proof. intros (l & ->)%last_Some. set_solver. Qed.

Lemma link_last_frame_notin xs x h a : a ∉ xs → link_last xs x h !! a = h !! a.
Proof. intros Ha. apply link_last_frame. intros ?%last_elem_of. done. Qed.

Lemma chain_snoc h xs x t :
  NoDup (xs ++ [x]) → chain h xs → h !! x = Some (OTcb t) → next t = None →
  chain (link_last xs x h) (xs ++ [x]).
Proof.
  induction xs as [|y xs IH]; simpl; intros Hnd Hc Hx Hn.
  - split; [|done]. exists t. done.
  - apply NoDup_cons in Hnd as [Hy Hnd]. destruct Hc as [(u & Hu & Hun) Hc].
    destruct xs as [|z xs].
    + simpl. unfold link_last. simpl. rewrite lookup_alter_eq, Hu. simpl.
      split; [eexists; split; [done|done]|].
      split; [|done]. rewrite lookup_alter_ne by set_solver. eauto.
    + unfold link_last in *. rewrite last_cons_cons. split; [|by apply IH].
      exists u. split; [|done]. destruct (last (z :: xs)) as [w|] eqn:Hw; [|done].
      rewrite lookup_alter_ne; [done|]. intros ->. apply last_elem_of in Hw. set_solver.
Qed.

(** ** Specifications *)

(** Pushing a thread that is in no list (its [next] is empty) onto a list
    that represents [xs] makes it represent [xs ++ [x]]; the only memory that
    changes is the link of the old last thread. *)
Lemma ll_push_rep s q xs x t :
  list_rep (heap s) q xs → x ∉ xs → heap s !! x = Some (OTcb t) → next t = None →
  ∃ q', ll_push q x s = Ok q' (s <| heap := link_last xs x (heap s) |>) ∧
        list_rep (link_last xs x (heap s)) q' (xs ++ [x]).
Proof.
  intros [Hnd Hh Hl Hc] Hx Ht Hn. unfold ll_push. rewrite Hl.
  assert (NoDup (xs ++ [x])) as Hnd'.
  { apply NoDup_app. split; [done|]. split; [set_solver|apply NoDup_singleton]. }
  assert (chain (link_last xs x (heap s)) (xs ++ [x])) as Hc' by by apply (chain_snoc _ _ _ t).
  destruct (last xs) as [y|] eqn:Hy.
  - destruct (chain_tcb _ _ _ Hc (last_elem_of _ _ Hy)) as (u & Hu).
    eexists. split.
    + rewrite (bind_Ok _ _ _ _ _ (read_tcb_Ok _ _ _ Hu)).
      unfold link_last. rewrite Hy, (alter_is_insert _ _ _ _ Hu). reflexivity.
    + split; simpl; [done| |by rewrite last_snoc|done].
      rewrite Hh. destruct xs; [done|done].
  - apply last_None in Hy as ->. eexists. split.
    + unfold ret. unfold link_last. simpl. by destruct s.
    + by split.
Qed.

(** Popping a list that represents [x :: xs] returns [x], leaves a list
    that represents [xs], and changes no memory: in particular the popped
    thread's [next] still points to the head of the remaining list. *)
Lemma ll_pop_rep s q x xs :
  list_rep (heap s) q (x :: xs) →
  ∃ q' t, ll_pop q s = Ok (Some x, q') s ∧ list_rep (heap s) q' xs ∧
          heap s !! x = Some (OTcb t) ∧ next t = head xs.
Proof.
  intros [Hnd Hh Hl [(t & Ht & Hn) Hc]]. simpl in Hh. unfold ll_pop. rewrite Hh.
  eexists _, t. rewrite (bind_Ok _ _ _ (head xs) s); [split; [reflexivity|]|].
  - split; [|done]. apply NoDup_cons in Hnd as [_ Hnd]. split; simpl; [done|done| |done].
    rewrite Hl. by destruct xs.
  - rewrite (bind_Ok _ _ _ _ _ (read_tcb_Ok _ _ _ Ht)). by rewrite Hn.
Qed.

Lemma ll_pop_empty s q : list_rep (heap s) q [] → ll_pop q s = Ok (None, LinkedList_new) s.
Proof. intros ->%list_rep_nil_inv. reflexivity. Qed.

Lemma link_last_tcb xs x h a t :
  h !! a = Some (OTcb t) →
  ∃ t', link_last xs x h !! a = Some (OTcb t') ∧ value t' = value t ∧
        (last xs ≠ Some a → t' = t).
Proof.
  intros Ha. destruct (decide (last xs = Some a)) as [Hl|Hl].
  - unfold link_last. rewrite Hl, lookup_alter_eq, Ha. simpl. eexists. naive_solver.
  - rewrite link_last_frame by done. eauto.
Qed.

(** ** Refinement: a list is a FIFO queue *)

Inductive qop := QPush (x : Z) | QPop.

(** A sequence of operations on the list in memory, and on a queue of addresses. *)
Fixpoint run_ops (ops : list qop) (q : LinkedList) : K (list (option Z) * LinkedList) :=
  match ops with
  | [] => ret ([], q)
  | QPush x :: ops => let* q' := ll_push q x in run_ops ops q'
  | QPop :: ops =>
      let* r := ll_pop q in
      let* rest := run_ops ops (snd r) in
      ret (fst r :: fst rest, snd rest)
  end.
Fixpoint queue_ops (ops : list qop) (xs : list Z) : list (option Z) * list Z :=
  match ops with
  | [] => ([], xs)
  | QPush x :: ops => queue_ops ops (xs ++ [x])
  | QPop :: ops => let rest := queue_ops ops (tail xs) in (head xs :: fst rest, snd rest)
  end.
Definition pushed (ops : list qop) : list Z :=
  omap (λ o, match o with QPush x => Some x | QPop => None end) ops.

(** A thread that can be pushed: it is linked to nothing. *)
Definition unlinked (h : gmap Z kobject) (x : Z) : Prop :=
  ∃ t, h !! x = Some (OTcb t) ∧ next t = None.

(** C7: from a list that represents [xs], any sequence of pushes (of distinct
    unlinked threads) and pops runs without panic or undefined access, the pops
    return what a first-in-first-out queue returns, and the final list
    represents the final queue. *)
Theorem ll_fifo_refines ops s q xs :
  list_rep (heap s) q xs →
  NoDup (xs ++ pushed ops) → Forall (unlinked (heap s)) (pushed ops) →
  ∃ q' h', run_ops ops q s = Ok (fst (queue_ops ops xs), q') (s <| heap := h' |>) ∧
           list_rep h' q' (snd (queue_ops ops xs)).
Proof.
  revert s q xs. induction ops as [|[x|] ops IH]; intros s q xs Hr Hnd Hun; simpl.
  - exists q, (heap s). split; [by destruct s|done].
  - apply Forall_cons in Hun as [(t & Ht & Hn) Hun]. cbn [pushed omap list_omap] in Hnd.
    fold (pushed ops) in Hnd. assert (x ∉ xs) as Hx.
    { intros Hx. apply NoDup_app in Hnd as (_ & Hd & _). apply (Hd x Hx). set_solver. }
    destruct (ll_push_rep s q xs x t) as (q' & Hp & Hr'); [done..|].
    rewrite (bind_Ok _ _ _ _ _ Hp).
    destruct (IH (s <| heap := link_last xs x (heap s) |>) q' (xs ++ [x])) as (q'' & h' & Ho & Hr'');
      [done|by rewrite <- app_assoc| |].
    + apply NoDup_app in Hnd as (_ & Hd & Hnd'). apply NoDup_cons in Hnd' as [Hxo _].
      rewrite Forall_forall in Hun |- *. intros y Hy.
      assert (y ∉ xs) by (intros Hyx; apply (Hd y Hyx); set_solver).
      destruct (Hun y Hy) as (u & Hu & Hun'). exists u. simpl.
      by rewrite link_last_frame_notin.
    + exists q'', h'. split; [|done]. rewrite Ho. by destruct s.
  - destruct xs as [|x xs]; simpl.
    + rewrite (bind_Ok _ _ _ _ _ (ll_pop_empty _ _ Hr)).
      destruct (IH s LinkedList_new []) as (q' & h' & Ho & Hr'); [apply list_rep_new|done|done|].
      exists q', h'. by rewrite (bind_Ok _ _ _ _ _ Ho).
    + destruct (ll_pop_rep _ _ _ _ Hr) as (q' & t & Hp & Hr' & _).
      rewrite (bind_Ok _ _ _ _ _ Hp).
      destruct (IH s q' xs) as (q'' & h' & Ho & Hr''); [done| |done|].
      { simpl in Hnd. by apply NoDup_cons in Hnd as [_ ?]. }
      exists q'', h'. by rewrite (bind_Ok _ _ _ _ _ Ho).
Qed.
