(* ===== verification/Capability.v ===== *)
(** * Capabilities ([kernel/src/capability.rs])

    The packed representation of a capability, the run-time type checks that
    guard every cast, and the [Capability] trait as a record of operations;
    its implementations are in the files of the object types. *)

From S2P Require Import Prelude Shared Address Objects Riscv.

(** ** [CapabilityData] *)

(** [cap_try_from_u8] *)
Definition cap_try_from_u8 (val : Z) : K CapabilityType :=
  match CapabilityType.cap_type_try_from val with
  | inr t => ret t
  | inl _ => throw (kerr ErrKind.UnknownCapType)
  end.

Definition get_cap_type (c : CapabilityData) : K CapabilityType := cap_try_from_u8 c.(cap_type).

(** [CapabilityData::replicate]: a field-by-field copy. *)
Definition cap_replicate (c : CapabilityData) : CapabilityData :=
  {| cap_type := cap_type c; cap_right := cap_right c; address_top := address_top c;
     address_bottom := address_bottom c; cap_dep_val := cap_dep_val c |}.

Definition set_cap_dep_val (c : CapabilityData) (val : Z) : CapabilityData :=
  c <| cap_dep_val := val |>.

Definition get_address (c : CapabilityData) : Z :=
  Z.lor (Z.shiftl c.(address_top) 32) c.(address_bottom).

Definition set_address (c : CapabilityData) (address : Z) : CapabilityData :=
  let address_top' := as_u16 (Z.land (Z.shiftr address 32) 0xffff) in
  let address_bottom' := as_u32 (Z.land address 0xffffffff) in
  c <| address_top := address_top' |> <| address_bottom := address_bottom' |>.

(** [CapabilityData::new] *)
Definition cap_new (t : CapabilityType) (address dep_val : Z) : CapabilityData :=
  set_address {| cap_type := CapabilityType.cap_type_as_u8 t; cap_right := 0; address_top := 0;
                 address_bottom := 0; cap_dep_val := dep_val |} address.

(** The kernel-virtual address of the object a capability names. *)
Definition cap_kva (c : CapabilityData) : Z := kva_of_phys (get_address c).

(** [try_ref_as] and [try_ref_mut_as]: the cast succeeds when the type byte is
    that of the requested type. The reference returned is the capability itself. *)
Definition try_ref_as (want : CapabilityType) (c : CapabilityData) : K CapabilityData :=
  let* t := get_cap_type c in
  guard (bool_decide (want = t)) (kerr ErrKind.UnexpectedCapType) ;;;
  ret c.

(** ** The [Capability] trait *)

Record Capability := {
  CAP_TYPE : CapabilityType;
  create_cap_dep_val : Z → Z → K Z;
  get_object_size : Z → K Z;
  align_of_object : Z;
  can_be_retyped_from_device_memory : bool;
  derive : CapabilityData → K CapabilityData;
  init_object : CapabilityData → K unit;
}.

(** The provided methods of the trait. *)
Definition default_create_cap_dep_val (addr user_size : Z) : K Z := ret 0.
Definition default_derive (self : CapabilityData) : K CapabilityData :=
  throw (kerr ErrKind.CanNotDerivable).

(** [CapabilityData::init] *)
Definition cap_init (C : Capability) (address user_size : Z) : K CapabilityData :=
  let* dep_val := create_cap_dep_val C address user_size in
  ret (cap_new (CAP_TYPE C) (phys_of_kva address) dep_val).

(** ** Properties *)

Lemma set_address_fields c a :
  0 ≤ a → address_top (set_address c a) = a / 2 ^ 32 mod 2 ^ 16 ∧
          address_bottom (set_address c a) = a mod 2 ^ 32.
Proof.
  intros. unfold set_address, as_u16, as_u32. simpl.
  change 0xffff with (Z.ones 16). change 0xffffffff with (Z.ones 32).
  rewrite !Z.land_ones, Z.shiftr_div_pow2, !Zmod_mod by lia. done.
Qed.

Lemma get_set_address c a : 0 ≤ a < 2 ^ 48 → get_address (set_address c a) = a.
Proof.
  intros Ha. destruct (set_address_fields c a) as [Ht Hb]; [lia|].
  unfold get_address. rewrite Ht, Hb, lor_shiftl_add by (try apply Z.mod_pos_bound; lia).
  change (2 ^ 48) with 281474976710656 in *. change (2 ^ 32) with 4294967296.
  change (2 ^ 16) with 65536. Z.div_mod_to_equations. lia.
Qed.

Lemma get_address_cap_new t a v : 0 ≤ a < 2 ^ 48 → get_address (cap_new t a v) = a.
Proof. apply get_set_address. Qed.

Lemma cap_new_type t a v : cap_type (cap_new t a v) = CapabilityType.cap_type_as_u8 t.
Proof. reflexivity. Qed.

Lemma cap_new_dep t a v : cap_dep_val (cap_new t a v) = v.
Proof. reflexivity. Qed.

Lemma cap_type_roundtrip t :
  CapabilityType.cap_type_try_from (CapabilityType.cap_type_as_u8 t) = inr t.
Proof. by destruct t. Qed.

Lemma get_cap_type_new t a v s : get_cap_type (cap_new t a v) s = Ok t s.
Proof. unfold get_cap_type, cap_try_from_u8. by rewrite cap_new_type, cap_type_roundtrip. Qed.

Lemma cap_kva_new t k v : is_kva k → cap_kva (cap_new t (phys_of_kva k) v) = k.
Proof.
  intros Hk. destruct (kva_phys_roundtrip k Hk) as [Hr Hp]. unfold cap_kva.
  rewrite get_address_cap_new by (unfold is_phys in Hp; lia). done.
Qed.

(** [get_cap_type] is a function of the type byte and leaves the state alone. *)
Lemma get_cap_type_Ok c t s s' :
  get_cap_type c s = Ok t s' ↔ CapabilityType.cap_type_try_from (cap_type c) = inr t ∧ s' = s.
Proof.
  unfold get_cap_type, cap_try_from_u8.
  destruct (CapabilityType.cap_type_try_from (cap_type c)); unfold ret, throw; naive_solver.
Qed.

Lemma try_ref_as_Ok t c s :
  CapabilityType.cap_type_try_from (cap_type c) = inr t → try_ref_as t c s = Ok c s.
Proof.
  intros Ht. unfold try_ref_as.
  rewrite (bind_Ok _ _ _ t s) by by apply get_cap_type_Ok.
  unfold guard. by rewrite bool_decide_eq_true_2.
Qed.

(** A capability built for an object of the kernel window names that
    object and its type: reading the packed address back gives the object's
    kernel address, and the checked cast succeeds for that type only. *)
Lemma cap_new_roundtrip t k v s want :
  is_kva k →
  let c := cap_new t (phys_of_kva k) v in
  cap_kva c = k ∧ cap_dep_val c = v ∧
  try_ref_as want c s =
    (if decide (want = t) then Ok c s else Err (kerr ErrKind.UnexpectedCapType) s).
Proof.
  intros Hk c. split; [by apply cap_kva_new|]. split; [done|].
  unfold try_ref_as. rewrite (bind_Ok _ _ _ t s) by apply get_cap_type_new.
  case_decide as Hd.
  - by rewrite bool_decide_eq_true_2.
  - by rewrite bool_decide_eq_false_2.
Qed.
