(* ===== verification/PageTable.v ===== *)
(** * Page tables and pages

    [kernel/src/object/page_table.rs] (Sv48 page tables: entries, the walk,
    mapping and unmapping) and [kernel/src/capability/page_table.rs] (the
    capabilities to them). *)

From S2P Require Import Prelude Shared Address Objects Riscv Capability.

Definition SATP_SV48 : Z := Z.shiftl 9 60.
Definition PAGE_V : Z := Z.shiftl 1 0.
Definition PAGE_R : Z := Z.shiftl 1 1.
Definition PAGE_W : Z := Z.shiftl 1 2.
Definition PAGE_X : Z := Z.shiftl 1 3.
Definition PAGE_U : Z := Z.shiftl 1 4.
Definition KERNEL_CODE_PFX : Z := 0xffffffff00000000.

(** From unix-style permission bits to RISC-V ones. *)
Definition get_user_flags (flags : Z) : Z :=
  Z.lor (Z.lor (if Z.land flags 0x1 =? 0x1 then PAGE_X else 0x0)
               (if Z.land flags 0x2 =? 0x2 then PAGE_W else 0x0))
        (if Z.land flags 0x4 =? 0x4 then PAGE_R else 0x0).

(** ** [Pte] *)

Definition pte_is_valid (pte : Z) : bool := negb (Z.land pte PAGE_V =? 0).
Definition pte_get_address (pte : Z) : Z := Z.land (shl64 pte 2) (usize_not 0xfff).
(** [Pte::write] of a physical address. *)
Definition pte_write (phys flags : Z) : Z := Z.lor (shl64 (Z.shiftr phys 12) 10) flags.
(** [Pte::as_page_table]: the address of the next table. *)
Definition pte_as_page_table (pte : Z) : Z := kva_of_phys (pte_get_address pte).

(** Indexing a table: [page_table[vpn]]. *)
Definition read_pte (table vpn : Z) : K Z :=
  let* t := read_page_table table in
  match t !! Z.to_nat vpn with Some pte => ret pte | None => panic PIndex end.
Definition write_pte (table vpn pte : Z) : K unit :=
  let* t := read_page_table table in
  match t !! Z.to_nat vpn with
  | Some _ => write_page_table table (<[Z.to_nat vpn := pte]> t)
  | None => panic PIndex
  end.

(** ** [PageTable] *)

(** [PageTable::walk]: the level the walk stops at and the entry there, as the
    table's address and the index. *)
Fixpoint walk_levels (levels : list Z) (page_table vaddr : Z) : K (Z * (Z * Z)) :=
  match levels with
  | [] =>
      read_pte page_table (get_vpn vaddr 0) ;;;
      ret (0, (page_table, get_vpn vaddr 0))
  | level :: levels' =>
      let vpn := get_vpn vaddr level in
      let* pte := read_pte page_table vpn in
      if negb (pte_is_valid pte) then ret (level, (page_table, vpn))
      else walk_levels levels' (pte_as_page_table pte) vaddr
  end.
Definition walk (page_table vaddr : Z) : K (Z * (Z * Z)) := walk_levels [3; 2; 1] page_table vaddr.

(** [PageTable::map] *)
Definition pt_map (self parent vaddr : Z) : K Z :=
  let* '(level, entry) := walk parent vaddr in
  if level =? 0 then throw (kerr ErrKind.VaddressAlreadyMapped)
  else
    write_pte (fst entry) (snd entry) (pte_write (phys_of_kva self) PAGE_V) ;;;
    usize_sub level 1.

(** [PageTable::activate] *)
Definition pt_activate (self : Z) : K unit :=
  modify (λ s, s <| satp := Z.lor SATP_SV48 (Z.shiftr (phys_of_kva self) 12) |>).

Section Layout.
Context `{KernelLayout}.

(** [PageTable::copy_global_mapping] *)
Definition copy_global_mapping (self : Z) : K unit :=
  let* k_root := read_page_table KERNEL_VM_ROOT in
  write_page_table self k_root.

(** [PageTable::activate_kernel_table] *)
Definition activate_kernel_table : K unit :=
  let address := Z.land KERNEL_VM_ROOT (usize_not KERNEL_CODE_PFX) in
  modify (λ s, s <| satp := Z.lor SATP_SV48 (Z.shiftr address 12) |>).
End Layout.

(** ** [Page] *)

(** [Page::map] *)
Definition page_map (self parent vaddr flags : Z) : K unit :=
  let* '(level, entry) := walk parent vaddr in
  if negb (level =? 0) then throw (kerr_val ErrKind.PageTableNotMappedYet (as_u16 level))
  else
    let* pte := read_pte (fst entry) (snd entry) in
    if pte_is_valid pte then throw (kerr ErrKind.VaddressAlreadyMapped)
    else write_pte (fst entry) (snd entry) (pte_write (phys_of_kva self) (Z.lor flags PAGE_V)).

(** [Page::unmap] *)
Definition page_unmap (self parent vaddr : Z) : K unit :=
  let* '(level, entry) := walk parent vaddr in
  if negb (level =? 0) then throw (kerr_val ErrKind.PageTableNotMappedYet (as_u16 level))
  else
    let* pte := read_pte (fst entry) (snd entry) in
    if negb (pte_is_valid pte) then throw (kerr ErrKind.PageNotMappedYet)
    else if negb (self =? kva_of_phys (pte_get_address pte)) then
      throw (kerr ErrKind.InvalidOperation)
    else write_pte (fst entry) (snd entry) 0.

(** ** [PageTableCap] *)

(** [| padding 14 | is_root 1 | is_mapped 1 | mapped_address 48 |] *)
Definition is_mapped (c : CapabilityData) : bool := Z.land (Z.shiftr c.(cap_dep_val) 48) 0x1 =? 1.
Definition is_root (c : CapabilityData) : bool := Z.land (Z.shiftr c.(cap_dep_val) 49) 0x1 =? 1.
Definition set_mapped (c : CapabilityData) (vaddr : Z) : CapabilityData :=
  c <| cap_dep_val ::= λ v, Z.lor v (Z.lor (Z.shiftl 0x1 48) (Z.land vaddr 0xffffffffffff)) |>.
Definition set_root (c : CapabilityData) : CapabilityData :=
  c <| cap_dep_val ::= λ v, Z.lor v (Z.shiftl 0x1 49) |>.

(** [PageTableCap::map]: the new level and the updated capability. *)
Definition pt_cap_map (self root_table : CapabilityData) (vaddr : Z) : K (Z * CapabilityData) :=
  guard (negb (is_mapped self)) (kerr ErrKind.PageTableAlreadyMapped) ;;;
  let parent_table := cap_kva root_table in
  let table := cap_kva self in
  let* level := pt_map table parent_table vaddr in
  ret (level, set_mapped self vaddr).

(** [PageTableCap::activate] *)
Definition pt_cap_activate (self : CapabilityData) : K unit :=
  guard (is_root self) (kerr ErrKind.NotRootPageTable) ;;;
  pt_activate (cap_kva self).

(** [PageTableCap::make_as_root] *)
Definition make_as_root `{KernelLayout} (self : CapabilityData) : K CapabilityData :=
  guard (negb (is_mapped self)) (kerr ErrKind.PageTableAlreadyMapped) ;;;
  let root_table := cap_kva self in
  copy_global_mapping root_table ;;;
  ret (set_root (set_mapped self root_table)).

(** [impl Capability for PageTableCap] *)
Definition page_table_derive (self : CapabilityData) : K CapabilityData := ret (cap_replicate self).
Definition page_table_init_object (self : CapabilityData) : K unit :=
  write_page_table (cap_kva self) PageTable_new.
Definition PageTableCap : Capability := {|
  CAP_TYPE := CapabilityType.PageTable;
  create_cap_dep_val := default_create_cap_dep_val;
  get_object_size := λ _, ret PAGE_SIZE;
  align_of_object := 4096;
  can_be_retyped_from_device_memory := false;
  derive := page_table_derive;
  init_object := page_table_init_object;
|}.

(** ** [PageCap] *)

(** [PageCap::map] *)
Definition page_cap_map (self root_table : CapabilityData) (vaddr flags : Z) : K CapabilityData :=
  guard (negb (is_mapped self)) (kerr ErrKind.PageAlreadyMapped) ;;;
  let parent_table := cap_kva root_table in
  page_map (cap_kva self) parent_table vaddr flags ;;;
  ret (set_mapped self vaddr).

Definition get_mapped_address (c : CapabilityData) : Z :=
  Z.land c.(cap_dep_val) (usize_not (shl64 0xffff 48)).
Definition set_unmapped (c : CapabilityData) : CapabilityData := c <| cap_dep_val := 0 |>.

(** [PageCap::unmap] *)
Definition page_cap_unmap (self root_table : CapabilityData) : K CapabilityData :=
  guard (is_mapped self) (kerr ErrKind.PageNotMappedYet) ;;;
  let vaddr := get_mapped_address self in
  page_unmap (cap_kva self) (cap_kva root_table) vaddr ;;;
  ret (set_unmapped self).

(** [impl Capability for PageCap]. [Page] is a zero-sized type: writing
    [Page::new()] writes nothing. *)
Definition page_derive (self : CapabilityData) : K CapabilityData :=
  guard (is_mapped self) (kerr ErrKind.PageTableNotMappedYet) ;;;
  ret ((cap_replicate self) <| cap_dep_val := 0 |>).
Definition PageCap : Capability := {|
  CAP_TYPE := CapabilityType.Page;
  create_cap_dep_val := default_create_cap_dep_val;
  get_object_size := λ _, ret PAGE_SIZE;
  align_of_object := 4096;
  can_be_retyped_from_device_memory := false;
  derive := page_derive;
  init_object := λ _, ret tt;
|}.

(** ** Entries *)

Lemma pte_write_arith phys flags :
  0 ≤ phys < 2 ^ 56 → 0 ≤ flags < 2 ^ 10 →
  pte_write phys flags = phys / 2 ^ 12 * 2 ^ 10 + flags.
Proof.
  intros Hp Hf. unfold pte_write, shl64. rewrite Z.shiftr_div_pow2 by lia.
  assert (0 ≤ phys / 2 ^ 12 < 2 ^ 44) as Hq.
  { split; [apply Z.div_pos; lia|apply Z.div_lt_upper_bound; lia]. }
  rewrite Z.mod_small.
  - by apply lor_shiftl_add.
  - rewrite Z.shiftl_mul_pow2 by lia. unfold W. lia.
Qed.

(** Reading back a written entry: the page-aligned address. *)
Lemma pte_get_address_write phys flags :
  0 ≤ phys < 2 ^ 56 → 0 ≤ flags < 2 ^ 10 →
  pte_get_address (pte_write phys flags) = phys / 2 ^ 12 * 2 ^ 12.
Proof.
  intros Hp Hf. rewrite pte_write_arith by done. unfold pte_get_address, shl64.
  assert (0 ≤ phys / 2 ^ 12 < 2 ^ 44) as Hq.
  { split; [apply Z.div_pos; lia|apply Z.div_lt_upper_bound; lia]. }
  rewrite Z.shiftl_mul_pow2, Z.mod_small by (unfold W; lia).
  change 0xfff with (2 ^ 12 - 1). rewrite land_lnot_pow2 by (unfold W; lia).
  f_equal. replace ((phys / 2 ^ 12 * 2 ^ 10 + flags) * 2 ^ 2)
    with (flags * 4 + phys / 2 ^ 12 * 2 ^ 12) by lia.
  rewrite Z.div_add, Z.div_small by lia. lia.
Qed.

Lemma pte_is_valid_odd pte : pte_is_valid pte = Z.odd pte.
Proof.
  unfold pte_is_valid. replace PAGE_V with (Z.ones 1) by reflexivity.
  rewrite Z.land_ones by lia. change (2 ^ 1) with 2. rewrite Zmod_odd. by destruct (Z.odd pte).
Qed.

Lemma lor_PAGE_V_valid a flags : pte_is_valid (Z.lor a (Z.lor flags PAGE_V)) = true.
Proof.
  rewrite pte_is_valid_odd, <- Z.bit0_odd, !Z.lor_spec.
  replace (Z.testbit PAGE_V 0) with true by reflexivity. by rewrite !orb_true_r.
Qed.

Lemma pte_write_valid phys flags : pte_is_valid (pte_write phys (Z.lor flags PAGE_V)) = true.
Proof. apply lor_PAGE_V_valid. Qed.

Lemma pte_write_valid_table phys : pte_is_valid (pte_write phys PAGE_V) = true.
Proof. change PAGE_V with (Z.lor PAGE_V PAGE_V). apply lor_PAGE_V_valid. Qed.

Lemma lor_flags_bound flags : 0 ≤ flags < 2 ^ 10 → 0 ≤ Z.lor flags PAGE_V < 2 ^ 10.
Proof.
  intros. split; [apply Z.lor_nonneg; split; [lia|done]|].
  destruct (Z.eq_dec (Z.lor flags PAGE_V) 0) as [->|]; [lia|].
  assert (0 ≤ Z.lor flags PAGE_V) by (apply Z.lor_nonneg; split; [lia|done]).
  apply Z.log2_lt_pow2; [lia|]. rewrite Z.log2_lor by (unfold PAGE_V; lia || done).
  apply Z.max_lub_lt; [|by compute].
  destruct (Z.eq_dec flags 0) as [->|]; [by compute|]. apply Z.log2_lt_pow2; lia.
Qed.

(** An entry that maps the page (or table) at kernel address [k]. *)
Lemma pte_as_page_table_write k flags :
  is_kva k → k mod 4096 = 0 → 0 ≤ flags < 2 ^ 10 →
  kva_of_phys (pte_get_address (pte_write (phys_of_kva k) flags)) = k.
Proof.
  intros Hk Ha Hf. destruct (kva_phys_roundtrip k Hk) as [Hr Hp]. unfold is_phys in Hp.
  rewrite pte_get_address_write by lia.
  assert (phys_of_kva k mod 4096 = 0) as Hm.
  { rewrite phys_of_kva_mod by (unfold is_kva, KERNEL_V_ADDR_PFX in Hk; lia).
    change 4096 with (2 ^ 12) in *.
    rewrite <- (Znumtheory.Zmod_div_mod (2 ^ 12) (2 ^ 47)); [done|lia|lia|]. by exists (2 ^ 35). }
  change (2 ^ 12) with 4096. pose proof (Z.div_mod (phys_of_kva k) 4096).
  replace (phys_of_kva k / 4096 * 4096) with (phys_of_kva k) by lia. done.
Qed.

(** ** The walk as a function of memory *)

Definition pte_at (h : gmap Z kobject) (table vpn : Z) : option Z :=
  t ← table_at h table; t !! Z.to_nat vpn.
Definition set_pte (table vpn pte : Z) (h : gmap Z kobject) : gmap Z kobject :=
  match table_at h table with
  | Some t => <[table := OPageTable (<[Z.to_nat vpn := pte]> t)]> h
  | None => h
  end.

Lemma table_at_Some h a t : h !! a = Some (OPageTable t) → table_at h a = Some t.
Proof. unfold table_at. by intros ->. Qed.
Lemma table_at_insert_eq h a t : table_at (<[a := OPageTable t]> h) a = Some t.
Proof. apply table_at_Some, lookup_insert_eq. Qed.
Lemma table_at_insert_ne h a b o : a ≠ b → table_at (<[a := o]> h) b = table_at h b.
Proof. intros. unfold table_at. by rewrite lookup_insert_ne. Qed.
Lemma set_pte_insert h table vpn pte t :
  table_at h table = Some t →
  set_pte table vpn pte h = <[table := OPageTable (<[Z.to_nat vpn := pte]> t)]> h.
Proof. unfold set_pte. by intros ->. Qed.
Lemma table_at_set_pte_eq h table vpn pte t :
  table_at h table = Some t → table_at (set_pte table vpn pte h) table = Some (<[Z.to_nat vpn := pte]> t).
Proof. intros Ht. rewrite (set_pte_insert _ _ _ _ _ Ht). apply table_at_insert_eq. Qed.
Lemma table_at_set_pte_ne h table vpn pte x :
  x ≠ table → table_at (set_pte table vpn pte h) x = table_at h x.
Proof. intros. unfold set_pte. destruct (table_at h table); [|done]. by apply table_at_insert_ne. Qed.

Fixpoint walk_at (h : gmap Z kobject) (levels : list Z) (table vaddr : Z) : option (Z * (Z * Z)) :=
  match levels with
  | [] => _ ← pte_at h table (get_vpn vaddr 0); Some (0, (table, get_vpn vaddr 0))
  | level :: levels' =>
      pte ← pte_at h table (get_vpn vaddr level);
      if pte_is_valid pte then walk_at h levels' (pte_as_page_table pte) vaddr
      else Some (level, (table, get_vpn vaddr level))
  end.

(** What an address is mapped to: the entry of the last level. *)
Definition translate (h : gmap Z kobject) (root vaddr : Z) : option Z :=
  match walk_at h [3; 2; 1] root vaddr with
  | Some (0, (table, vpn)) =>
      pte ← pte_at h table vpn; if pte_is_valid pte then Some pte else None
  | _ => None
  end.

Lemma translate_at h root v t i pte :
  walk_at h [3; 2; 1] root v = Some (0, (t, i)) → pte_at h t i = Some pte →
  pte_is_valid pte = true → translate h root v = Some pte.
Proof. unfold translate. intros -> Hp Hv. rewrite Hp. simpl. by rewrite Hv. Qed.

Lemma read_pte_Ok s table vpn pte :
  pte_at (heap s) table vpn = Some pte → read_pte table vpn s = Ok pte s.
Proof.
  intros (t & Ht & Hp)%bind_Some. unfold read_pte, read_page_table. mred. rewrite Ht. mred. by rewrite Hp.
Qed.

Lemma write_pte_Ok s table vpn old pte :
  pte_at (heap s) table vpn = Some old →
  write_pte table vpn pte s = Ok tt (s <| heap := set_pte table vpn pte (heap s) |>).
Proof.
  intros (t & Ht & Hp)%bind_Some. unfold write_pte, read_page_table, set_pte. mred. rewrite Ht. mred.
  by rewrite Hp.
Qed.

Lemma walk_levels_Ok s levels table vaddr r :
  walk_at (heap s) levels table vaddr = Some r → walk_levels levels table vaddr s = Ok r s.
Proof.
  revert table. induction levels as [|l ls IH]; intros table; simpl.
  - intros (pte & Hp & [= <-])%bind_Some. by rewrite (bind_Ok _ _ _ _ _ (read_pte_Ok _ _ _ _ Hp)).
  - intros (pte & Hp & Hr)%bind_Some. rewrite (bind_Ok _ _ _ _ _ (read_pte_Ok _ _ _ _ Hp)).
    destruct (pte_is_valid pte); simpl; [by apply IH|naive_solver].
Qed.

Lemma walk_at_pte h levels table vaddr l t i :
  walk_at h levels table vaddr = Some (l, (t, i)) → ∃ pte, pte_at h t i = Some pte.
Proof.
  revert table. induction levels as [|l' ls IH]; intros table; simpl;
    intros (pte & Hp & Hr)%bind_Some; [naive_solver|].
  destruct (pte_is_valid pte); [by eapply IH|naive_solver].
Qed.

Lemma walk_at_level_inv h levels table vaddr l t i :
  walk_at h levels table vaddr = Some (l, (t, i)) → i = get_vpn vaddr l.
Proof.
  revert table. induction levels as [|l' ls IH]; intros table; simpl;
    intros (pte & Hp & Hr)%bind_Some; [naive_solver|].
  destruct (pte_is_valid pte); [by eapply IH|naive_solver].
Qed.

Lemma pte_at_set_pte_eq h table vpn pte old :
  pte_at h table vpn = Some old → pte_at (set_pte table vpn pte h) table vpn = Some pte.
Proof.
  intros (t & Ht & Hl)%bind_Some. unfold pte_at. rewrite (table_at_set_pte_eq _ _ _ _ _ Ht). simpl.
  apply list_lookup_insert_eq. by apply lookup_lt_Some in Hl.
Qed.

Lemma pte_at_set_pte_None h table vpn pte :
  pte_at h table vpn = None → pte_at (set_pte table vpn pte h) table vpn = None.
Proof.
  unfold pte_at. destruct (table_at h table) as [t|] eqn:Ht; simpl.
  - intros Hl. rewrite (table_at_set_pte_eq _ _ _ _ _ Ht). simpl.
    apply lookup_ge_None. rewrite length_insert. by apply lookup_ge_None.
  - intros _. unfold set_pte. by rewrite Ht, Ht.
Qed.

Lemma pte_at_set_pte_ne h table vpn pte table' vpn' :
  0 ≤ vpn → 0 ≤ vpn' → (table', vpn') ≠ (table, vpn) →
  pte_at (set_pte table vpn pte h) table' vpn' = pte_at h table' vpn'.
Proof.
  intros H1 H2 Hne. unfold pte_at. destruct (decide (table' = table)) as [->|].
  - destruct (table_at h table) as [t|] eqn:Ht.
    + rewrite (table_at_set_pte_eq _ _ _ _ _ Ht). simpl.
      rewrite list_lookup_insert_ne; [done|]. intros Heq. apply Hne. f_equal. lia.
    + unfold set_pte. by rewrite Ht, Ht.
  - by rewrite table_at_set_pte_ne.
Qed.

(** ** Levels

    A level assignment: the entries of a table of level [l > 0] that are valid
    point to tables of level [l - 1]. The upper half of a root table holds the
    kernel's own mappings, which are leaves; it is left out. *)
Definition levelled (h : gmap Z kobject) (lv : gmap Z Z) : Prop :=
  ∀ table l vpn pte,
    lv !! table = Some l → 1 ≤ l → 0 ≤ vpn → (l = 3 → vpn < 256) →
    pte_at h table vpn = Some pte → pte_is_valid pte = true →
    lv !! pte_as_page_table pte = Some (l - 1).

(** An address of the user half. *)
Definition user_addr (v : Z) : Prop := get_vpn v 3 < 256.

Lemma levels_S n :
  reverse (seqZ 1 (Z.of_nat (S n))) = Z.of_nat (S n) :: reverse (seqZ 1 (Z.of_nat n)).
Proof. rewrite seqZ_S, reverse_app. simpl. f_equal. lia. Qed.

Lemma walk_at_levelled h lv n v table r :
  levelled h lv → user_addr v → (n ≤ 3)%nat →
  lv !! table = Some (Z.of_nat n) →
  walk_at h (reverse (seqZ 1 (Z.of_nat n))) table v = Some r →
  lv !! r.2.1 = Some r.1.
Proof.
  intros Hlv Hu. revert table. induction n as [|n IH]; intros table Hn Ht.
  - simpl. intros (pte & _ & [= <-])%bind_Some. done.
  - rewrite !levels_S. simpl walk_at. intros (pte & Hp & Hr)%bind_Some.
    destruct (pte_is_valid pte) eqn:Hv; [|by simplify_eq].
    apply (IH (pte_as_page_table pte)); [lia| |done].
    replace (Z.of_nat n) with (Z.of_nat (S n) - 1) by lia.
    eapply Hlv; [done|lia|apply get_vpn_bound| |done|done].
    intros H3. replace (Z.of_nat (S n)) with 3 by done. done.
Qed.

Lemma walk_at_set_pte h lv n v table t i w :
  levelled h lv → user_addr v → (n ≤ 3)%nat → 0 ≤ i →
  lv !! table = Some (Z.of_nat n) → lv !! t = Some 0 →
  walk_at (set_pte t i w h) (reverse (seqZ 1 (Z.of_nat n))) table v =
  walk_at h (reverse (seqZ 1 (Z.of_nat n))) table v.
Proof.
  intros Hlv Hu Hn Hi Ht H0. revert table Hn Ht. induction n as [|n IH]; intros table Hn Ht.
  - simpl. destruct (decide ((table, get_vpn v 0) = (t, i))) as [[= -> <-]|Hne].
    + destruct (pte_at h t (get_vpn v 0)) eqn:Hp.
      * by rewrite (pte_at_set_pte_eq _ _ _ _ _ Hp).
      * by rewrite (pte_at_set_pte_None _ _ _ _ Hp).
    + by rewrite pte_at_set_pte_ne by (done || apply get_vpn_bound).
  - rewrite !levels_S. simpl walk_at. assert (table ≠ t) by (intros ->; simplify_eq; lia).
    rewrite pte_at_set_pte_ne; [|done|apply get_vpn_bound|congruence].
    destruct (pte_at h table (get_vpn v (Z.of_nat (S n)))) as [pte|] eqn:Hp; [|done]. simpl.
    destruct (pte_is_valid pte) eqn:Hv; [|done]. apply IH; [lia|].
    replace (Z.of_nat n) with (Z.of_nat (S n) - 1) by lia.
    eapply Hlv; [done|lia|apply get_vpn_bound| |done|done].
    intros H3. replace (Z.of_nat (S n)) with 3 by done. done.
Qed.

Lemma levels_321 : reverse (seqZ 1 3) = [3; 2; 1].
Proof. reflexivity. Qed.

Lemma walk_at_table_level h lv v root l t i :
  levelled h lv → user_addr v → lv !! root = Some 3 →
  walk_at h [3; 2; 1] root v = Some (l, (t, i)) → lv !! t = Some l.
Proof.
  intros Hlv Hu Hr Hw. rewrite <- levels_321 in Hw.
  by apply (walk_at_levelled h lv 3 v root) in Hw.
Qed.

(** Writing an entry of a last-level table changes no walk, and changes the
    translation of no address that uses another entry. *)
Lemma set_pte_leaf_walk h lv v root t i w :
  levelled h lv → user_addr v → lv !! root = Some 3 → lv !! t = Some 0 → 0 ≤ i →
  walk_at (set_pte t i w h) [3; 2; 1] root v = walk_at h [3; 2; 1] root v.
Proof.
  intros. rewrite <- levels_321. by apply (walk_at_set_pte h lv 3).
Qed.

Lemma set_pte_leaf_translate h lv v root t i w :
  levelled h lv → user_addr v → lv !! root = Some 3 → lv !! t = Some 0 → 0 ≤ i →
  walk_at h [3; 2; 1] root v ≠ Some (0, (t, i)) →
  translate (set_pte t i w h) root v = translate h root v.
Proof.
  intros Hlv Hu Hr Ht Hi Hne. unfold translate. rewrite (set_pte_leaf_walk h lv) by done.
  destruct (walk_at h [3; 2; 1] root v) as [[[|?|?] [t' i']]|] eqn:Hw; try done.
  rewrite pte_at_set_pte_ne; [done|done| |congruence].
  rewrite (walk_at_level_inv _ _ _ _ _ _ _ Hw). apply get_vpn_bound.
Qed.

(** ** Mapping and unmapping pages *)

Lemma page_map_Ok s self root v flags t i pte :
  walk_at (heap s) [3; 2; 1] root v = Some (0, (t, i)) →
  pte_at (heap s) t i = Some pte → pte_is_valid pte = false →
  page_map self root v flags s =
    Ok tt (s <| heap := set_pte t i (pte_write (phys_of_kva self) (Z.lor flags PAGE_V)) (heap s) |>).
Proof.
  intros Hw Hp Hv. unfold page_map, walk. rewrite (bind_Ok _ _ _ _ _ (walk_levels_Ok _ _ _ _ _ Hw)).
  simpl. rewrite (bind_Ok _ _ _ _ _ (read_pte_Ok _ _ _ _ Hp)), Hv. by apply (write_pte_Ok _ _ _ pte).
Qed.

Lemma page_unmap_Ok s self root v t i pte :
  walk_at (heap s) [3; 2; 1] root v = Some (0, (t, i)) →
  pte_at (heap s) t i = Some pte → pte_is_valid pte = true → pte_as_page_table pte = self →
  page_unmap self root v s = Ok tt (s <| heap := set_pte t i 0 (heap s) |>).
Proof.
  intros Hw Hp Hv Ha. unfold page_unmap, walk. rewrite (bind_Ok _ _ _ _ _ (walk_levels_Ok _ _ _ _ _ Hw)).
  simpl. rewrite (bind_Ok _ _ _ _ _ (read_pte_Ok _ _ _ _ Hp)), Hv. simpl.
  unfold pte_as_page_table in Ha. rewrite Ha, Z.eqb_refl. by apply (write_pte_Ok _ _ _ pte).
Qed.

(** ** The mapping word of a capability *)

Lemma is_mapped_testbit c : is_mapped c = Z.testbit (cap_dep_val c) 48.
Proof.
  unfold is_mapped. replace 0x1 with (Z.ones 1) by reflexivity. rewrite Z.land_ones by lia.
  change (2 ^ 1) with 2. rewrite Zmod_odd, <- Z.bit0_odd, Z.shiftr_spec by lia. change (0 + 48) with 48.
  by destruct (Z.testbit (cap_dep_val c) 48).
Qed.

Lemma is_mapped_set_mapped c v : is_mapped (set_mapped c v) = true.
Proof.
  rewrite is_mapped_testbit. unfold set_mapped. simpl. rewrite !Z.lor_spec.
  replace (Z.testbit (Z.shiftl 1 48) 48) with true by reflexivity. by rewrite orb_true_r.
Qed.

Lemma get_mapped_address_mod c : 0 ≤ cap_dep_val c → get_mapped_address c = cap_dep_val c mod 2 ^ 48.
Proof.
  intros. unfold get_mapped_address.
  replace (usize_not (shl64 0xffff 48)) with (Z.ones 48) by reflexivity. by apply Z.land_ones.
Qed.

Lemma get_mapped_set_mapped c v :
  cap_dep_val c = 0 → 0 ≤ v → get_mapped_address (set_mapped c v) = v mod 2 ^ 48.
Proof.
  intros Hc Hv. assert (0 ≤ v mod 2 ^ 48 < 2 ^ 48) by (apply Z.mod_pos_bound; lia).
  assert (cap_dep_val (set_mapped c v) = 1 * 2 ^ 48 + v mod 2 ^ 48) as Hd.
  { unfold set_mapped. simpl. rewrite Hc, Z.lor_0_l. change 0xffffffffffff with (Z.ones 48).
    rewrite Z.land_ones by lia. by apply lor_shiftl_add. }
  rewrite get_mapped_address_mod, Hd by lia.
  rewrite Z.add_comm, Z.mod_add by lia. apply Z.mod_small. lia.
Qed.

(** The walk looks at 48 bits of the address only. *)
Lemma get_vpn_mod48 v l : 0 ≤ l ≤ 3 → get_vpn (v mod 2 ^ 48) l = get_vpn v l.
Proof.
  intros Hl. unfold get_vpn. change 0x1ff with (Z.ones 9).
  apply Z.bits_inj'. intros i Hi. rewrite !Z.land_spec, !Z.shiftr_spec by lia.
  rewrite testbit_mod_pow2 by lia.
  destruct (Z.ltb_spec i 9).
  - destruct (Z.ltb_spec (i + (12 + l * 9)) 48); [done|lia].
  - rewrite Z.ones_spec_high by lia. by rewrite !andb_false_r.
Qed.

Lemma walk_at_mod48 h levels table v :
  Forall (λ l, 0 ≤ l ≤ 3) levels →
  walk_at h levels table (v mod 2 ^ 48) = walk_at h levels table v.
Proof.
  intros Hl. revert table. induction Hl as [|l ls Hl1 Hl IH]; intros table; simpl.
  - by rewrite get_vpn_mod48 by lia.
  - rewrite get_vpn_mod48 by lia. destruct (pte_at h table (get_vpn v l)); [|done]. simpl.
    by destruct (pte_is_valid z); [apply IH|].
Qed.

(** ** Properties *)

Lemma page_cap_map_Ok s c root v flags t i pte :
  is_mapped c = false →
  walk_at (heap s) [3; 2; 1] (cap_kva root) v = Some (0, (t, i)) →
  pte_at (heap s) t i = Some pte → pte_is_valid pte = false →
  page_cap_map c root v flags s =
    Ok (set_mapped c v)
       (s <| heap := set_pte t i (pte_write (phys_of_kva (cap_kva c)) (Z.lor flags PAGE_V)) (heap s) |>).
Proof.
  intros Hm Hw Hp Hv. unfold page_cap_map. rewrite Hm. simpl.
  rewrite (bind_Ok _ _ _ tt s) by done.
  by rewrite (bind_Ok _ _ _ _ _ (page_map_Ok _ _ _ _ _ _ _ _ Hw Hp Hv)).
Qed.

Lemma levelled_set_pte_leaf h lv t i w :
  levelled h lv → lv !! t = Some 0 → levelled (set_pte t i w h) lv.
Proof.
  intros Hlv Ht table l vpn pte Hl H1 Hv H3 Hp Hval.
  assert (table ≠ t) by (intros ->; simplify_eq; lia).
  assert (pte_at (set_pte t i w h) table vpn = pte_at h table vpn) as Heq
    by (unfold pte_at; by rewrite table_at_set_pte_ne).
  rewrite Heq in Hp. by eapply Hlv.
Qed.

(** Mapping a page at an address whose last-level entry is free succeeds;
    afterwards the address translates to that page with the requested flags,
    the capability records the mapping, every address that uses another entry
    translates as before, and the tables keep their levels. *)
Lemma page_cap_map_correct s lv c root v flags t i pte :
  levelled (heap s) lv → lv !! cap_kva root = Some 3 → user_addr v →
  is_kva (cap_kva c) → cap_kva c mod 4096 = 0 → 0 ≤ flags < 2 ^ 10 →
  is_mapped c = false →
  walk_at (heap s) [3; 2; 1] (cap_kva root) v = Some (0, (t, i)) →
  pte_at (heap s) t i = Some pte → pte_is_valid pte = false →
  ∃ h', page_cap_map c root v flags s = Ok (set_mapped c v) (s <| heap := h' |>) ∧
    is_mapped (set_mapped c v) = true ∧
    (∃ pte', translate h' (cap_kva root) v = Some pte' ∧
             pte_as_page_table pte' = cap_kva c ∧ pte' mod 2 ^ 10 = Z.lor flags PAGE_V) ∧
    (∀ root' v', lv !! root' = Some 3 → user_addr v' →
       walk_at (heap s) [3; 2; 1] root' v' ≠ Some (0, (t, i)) →
       translate h' root' v' = translate (heap s) root' v') ∧
    levelled h' lv.
Proof.
  intros Hlv Hr Hu Hk Ha Hf Hm Hw Hp Hv.
  assert (lv !! t = Some 0) as Ht by by eapply (walk_at_table_level (heap s)).
  assert (0 ≤ i) by (rewrite (walk_at_level_inv _ _ _ _ _ _ _ Hw); apply get_vpn_bound).
  pose proof (lor_flags_bound _ Hf) as Hf'.
  eexists. split; [by eapply page_cap_map_Ok|]. split; [apply is_mapped_set_mapped|].
  split; [|split].
  - eexists. split; [|split].
    + apply (translate_at _ _ _ t i); [by rewrite (set_pte_leaf_walk _ lv)|..].
      * apply (pte_at_set_pte_eq _ _ _ _ _ Hp).
      * apply pte_write_valid.
    + by apply pte_as_page_table_write.
    + destruct (kva_phys_roundtrip _ Hk) as [_ Hph]. unfold is_phys in Hph.
      rewrite pte_write_arith by lia. rewrite Z.add_comm, Z.mod_add by lia. by apply Z.mod_small.
  - intros root' v' Hr' Hu' Hne. by apply (set_pte_leaf_translate _ lv).
  - by apply levelled_set_pte_leaf.
Qed.

(** Unmapping undoes mapping: for a page capability that maps nothing and
    an address whose entry, in a last-level table [t] that was initialised, is
    zero, [map] followed by [unmap] gives back the same capability and the same
    state. *)
Lemma page_cap_map_unmap s lv c root v flags t i tb :
  levelled (heap s) lv → lv !! cap_kva root = Some 3 → user_addr v → 0 ≤ v →
  is_kva (cap_kva c) → cap_kva c mod 4096 = 0 → 0 ≤ flags < 2 ^ 10 →
  cap_dep_val c = 0 →
  walk_at (heap s) [3; 2; 1] (cap_kva root) v = Some (0, (t, i)) →
  heap s !! t = Some (OPageTable tb) → tb !! Z.to_nat i = Some 0 →
  (let* c' := page_cap_map c root v flags in page_cap_unmap c' root) s = Ok c s.
Proof.
  intros Hlv Hr Hu Hv0 Hk Ha Hf Hd Hw Ht0 Hp0.
  pose proof (table_at_Some _ _ _ Ht0) as Htb.
  assert (pte_at (heap s) t i = Some 0) as Hp by (unfold pte_at; by rewrite Htb).
  assert (lv !! t = Some 0) as Ht by by eapply (walk_at_table_level (heap s)).
  assert (0 ≤ i) by (rewrite (walk_at_level_inv _ _ _ _ _ _ _ Hw); apply get_vpn_bound).
  rewrite (bind_Ok _ _ _ _ _ (page_cap_map_Ok s c root v flags t i 0
             ltac:(rewrite is_mapped_testbit, Hd; apply Z.bits_0) Hw Hp eq_refl)).
  unfold page_cap_unmap. rewrite is_mapped_set_mapped. simpl.
  rewrite (bind_Ok _ _ _ tt _ eq_refl), get_mapped_set_mapped by done.
  pose proof (pte_write_valid (phys_of_kva (cap_kva c)) flags) as Hval.
  pose proof (pte_as_page_table_write _ _ Hk Ha (lor_flags_bound _ Hf)) as Hadr.
  revert Hval Hadr. generalize (pte_write (phys_of_kva (cap_kva c)) (Z.lor flags PAGE_V)).
  intros w Hval Hadr. change (cap_kva (set_mapped c v)) with (cap_kva c).
  erewrite bind_Ok.
  2: { apply (page_unmap_Ok _ _ _ _ t i w); rewrite ?heap_set; [|by eapply pte_at_set_pte_eq|done|done].
       rewrite walk_at_mod48 by (repeat constructor; lia). by rewrite (set_pte_leaf_walk _ lv). }
  autorewrite with kstate.
  unfold ret. f_equal.
  - unfold set_unmapped, set_mapped. simpl. destruct c. simpl in *. by subst.
  - rewrite (set_pte_insert _ _ _ 0 _ (table_at_set_pte_eq _ _ _ w _ Htb)).
    rewrite (set_pte_insert _ _ _ w _ Htb), insert_insert_eq, list_insert_insert_eq, list_insert_id by done.
    rewrite insert_id by done. apply heap_set_id.
Qed.

Lemma page_cap_map_missing s c root v flags l t i :
  is_mapped c = false → walk_at (heap s) [3; 2; 1] (cap_kva root) v = Some (l, (t, i)) → 1 ≤ l ≤ 3 →
  page_cap_map c root v flags s = Err (kerr_val ErrKind.PageTableNotMappedYet l) s.
Proof.
  intros Hm Hw Hl. unfold page_cap_map, page_map, walk. rewrite Hm, (bind_Ok _ _ _ tt s) by done.
  apply bind_Err. rewrite (bind_Ok _ _ _ _ _ (walk_levels_Ok _ _ _ _ _ Hw)).
  rewrite (proj2 (Z.eqb_neq l 0)) by lia. unfold as_u16. by rewrite Z.mod_small by lia.
Qed.

(** What [PageCap::map] does on every branch, errors included: the error
    is decided by the capability's mapped flag, the level the walk stops at and
    the entry there, in this order, and an error leaves the state unchanged. *)
Lemma page_cap_map_branches s c root v flags l t i pte :
  walk_at (heap s) [3; 2; 1] (cap_kva root) v = Some (l, (t, i)) →
  pte_at (heap s) t i = Some pte → 0 ≤ l ≤ 3 →
  page_cap_map c root v flags s =
    if is_mapped c then Err (kerr ErrKind.PageAlreadyMapped) s
    else if negb (l =? 0) then Err (kerr_val ErrKind.PageTableNotMappedYet l) s
    else if pte_is_valid pte then Err (kerr ErrKind.VaddressAlreadyMapped) s
    else Ok (set_mapped c v)
            (s <| heap := set_pte t i (pte_write (phys_of_kva (cap_kva c)) (Z.lor flags PAGE_V))
                                  (heap s) |>).
Proof.
  intros Hw Hp Hl. destruct (is_mapped c) eqn:Hm.
  { unfold page_cap_map. by rewrite Hm. }
  destruct (Z.eqb_spec l 0) as [->|Hl0]; simpl negb; cbv iota.
  2: { apply (page_cap_map_missing _ _ _ _ _ _ t i); [done|done|lia]. }
  destruct (pte_is_valid pte) eqn:Hv; [|by eapply page_cap_map_Ok].
  unfold page_cap_map, page_map, walk. rewrite Hm, (bind_Ok _ _ _ tt s) by done.
  apply bind_Err. rewrite (bind_Ok _ _ _ _ _ (walk_levels_Ok _ _ _ _ _ Hw)). simpl.
  by rewrite (bind_Ok _ _ _ _ _ (read_pte_Ok _ _ _ _ Hp)), Hv.
Qed.

(** ** Mapping page tables *)

(** A table none of whose entries is valid. *)
Definition empty_table (h : gmap Z kobject) (a : Z) : Prop :=
  ∃ t, table_at h a = Some t ∧ length t = 512%nat ∧
       Forall (λ pte, pte_is_valid pte = false) t.

Lemma empty_table_pte h a vpn :
  empty_table h a → 0 ≤ vpn < 512 → ∃ pte, pte_at h a vpn = Some pte ∧ pte_is_valid pte = false.
Proof.
  intros (t & Ht & Hl & Hf) Hv. unfold pte_at. rewrite Ht.
  destruct (lookup_lt_is_Some_2 t (Z.to_nat vpn)) as [pte Hp]; [lia|].
  exists pte. split; [done|]. by apply (Forall_lookup_1 _ _ _ _ Hf Hp).
Qed.

(** Hanging an empty table [self] below the entry where the walk stops makes
    the walk stop one level further down, in that table. *)
Lemma walk_at_extend h lv n v table l t i self w :
  levelled h lv → user_addr v → (n ≤ 3)%nat →
  lv !! table = Some (Z.of_nat n) →
  walk_at h (reverse (seqZ 1 (Z.of_nat n))) table v = Some (l, (t, i)) → 1 ≤ l →
  lv !! self = None → empty_table h self →
  pte_is_valid w = true → pte_as_page_table w = self →
  walk_at (set_pte t i w h) (reverse (seqZ 1 (Z.of_nat n))) table v =
    Some (l - 1, (self, get_vpn v (l - 1))).
Proof.
  intros Hlv Hu. revert table. induction n as [|n IH]; intros table Hn Ht Hw Hl Hs He Hwv Hwa.
  { simpl in Hw. apply bind_Some in Hw as (? & _ & [= <- _ _]). lia. }
  assert (lv !! t = Some l) as Hlt by exact (walk_at_levelled _ _ _ _ _ _ Hlv Hu Hn Ht Hw).
  rewrite levels_S in *. simpl walk_at in *. apply bind_Some in Hw as (pte & Hp & Hw).
  destruct (pte_is_valid pte) eqn:Hv.
  - assert (lv !! pte_as_page_table pte = Some (Z.of_nat n)) as Hn'.
    { replace (Z.of_nat n) with (Z.of_nat (S n) - 1) by lia.
      eapply Hlv; [done|lia|apply get_vpn_bound| |done|done].
      intros H3. by replace (Z.of_nat (S n)) with 3 by done. }
    assert (l ≤ Z.of_nat n) as Hle.
    { clear -Hw. revert Hw. generalize (pte_as_page_table pte).
      induction n as [|n IH]; intros tb.
      - simpl. intros (? & _ & [= <- _ _])%bind_Some. lia.
      - rewrite levels_S. simpl walk_at. intros (p & _ & Hr)%bind_Some.
        destruct (pte_is_valid p); [apply IH in Hr; lia|]. simplify_eq. lia. }
    assert (table ≠ t) by (intros ->; simplify_eq; lia).
    rewrite pte_at_set_pte_ne; [|by rewrite (walk_at_level_inv _ _ _ _ _ _ _ Hw); apply get_vpn_bound
      |apply get_vpn_bound|congruence].
    rewrite Hp. simpl. rewrite Hv. apply IH; try done; lia.
  - simplify_eq. rewrite (pte_at_set_pte_eq _ _ _ _ _ Hp). simpl. rewrite Hwv.
    assert (pte_as_page_table w ≠ t) by (intros Heq; rewrite Heq in Hs; congruence).
    destruct (empty_table_pte h (pte_as_page_table w) (get_vpn v (Z.of_nat n)) He) as (p & Hp' & Hv');
      [apply get_vpn_bound|].
    assert (pte_at (set_pte t (get_vpn v (Z.of_nat (S n))) w h) (pte_as_page_table w)
              (get_vpn v (Z.of_nat n)) = Some p) as Hp''.
    { unfold pte_at in *. by rewrite table_at_set_pte_ne. }
    replace (Z.of_nat (S n) - 1) with (Z.of_nat n) by lia.
    destruct n as [|n].
    { change (reverse (seqZ 1 (Z.of_nat 0))) with (@nil Z). cbn [walk_at].
      change (get_vpn v 0) with (get_vpn v (Z.of_nat 0)). by rewrite Hp''. }
    rewrite levels_S. simpl walk_at. rewrite Hp''. simpl. by rewrite Hv'.
Qed.

Lemma levelled_extend h lv l t i self w :
  levelled h lv → lv !! t = Some l → lv !! self = None → empty_table h self →
  pte_as_page_table w = self → levelled (set_pte t i w h) (<[self := l - 1]> lv).
Proof.
  intros Hlv Ht Hs (tb & Htb & Hlen & Hinv) Hw table l' vpn pte Hl' H1 Hv H3 Hp Hval.
  assert (self ≠ t) by congruence.
  destruct (decide (table = self)) as [->|Hne].
  - exfalso. unfold pte_at in Hp. rewrite table_at_set_pte_ne, Htb in Hp by done.
    rewrite (Forall_lookup_1 _ _ _ _ Hinv Hp) in Hval. done.
  - rewrite lookup_insert_ne in Hl' by done.
    destruct (decide (table = t ∧ Z.to_nat vpn = Z.to_nat i)) as [[-> Hi]|Hne'].
    + assert (pte = w) as ->; [|simplify_eq; apply lookup_insert_eq].
      unfold pte_at in Hp. rewrite Hi in Hp. apply bind_Some in Hp as (t' & Ht' & Hp).
      destruct (table_at h t) as [u|] eqn:Hu.
      * rewrite (table_at_set_pte_eq _ _ _ _ _ Hu) in Ht'. injection Ht' as <-.
        apply list_lookup_insert_Some in Hp as [(_ & <- & _)|[? _]]; done.
      * unfold set_pte in Ht'. rewrite Hu in Ht'. congruence.
    + assert (pte_at h table vpn = Some pte) as Hp'.
      { rewrite <- Hp. symmetry. unfold pte_at. destruct (decide (table = t)) as [->|].
        - destruct (table_at h t) as [u|] eqn:Hu.
          + rewrite (table_at_set_pte_eq _ _ _ _ _ Hu). simpl.
            apply list_lookup_insert_ne. intros ?. apply Hne'. split; [done|lia].
          + unfold set_pte. by rewrite Hu, Hu.
        - by rewrite table_at_set_pte_ne. }
      assert (lv !! pte_as_page_table pte = Some (l' - 1)) by by eapply Hlv.
      rewrite lookup_insert_ne; [done|]. intros Heq. congruence.
Qed.

Lemma pt_map_Ok s self root v l t i :
  walk_at (heap s) [3; 2; 1] root v = Some (l, (t, i)) → 1 ≤ l →
  pt_map self root v s =
    Ok (l - 1) (s <| heap := set_pte t i (pte_write (phys_of_kva self) PAGE_V) (heap s) |>).
Proof.
  intros Hw Hl. destruct (walk_at_pte _ _ _ _ _ _ _ Hw) as (pte & Hp).
  unfold pt_map, walk. rewrite (bind_Ok _ _ _ _ _ (walk_levels_Ok _ _ _ _ _ Hw)).
  rewrite (proj2 (Z.eqb_neq l 0)) by lia. simpl.
  rewrite (bind_Ok _ _ _ _ _ (write_pte_Ok _ _ _ _ _ Hp)). apply usize_sub_Ok. lia.
Qed.

(** Installing a fresh page table makes progress: when the walk for [v]
    stops at level [l > 0], [PageTableCap::map] returns [l - 1], the next walk
    stops exactly one level further down in the new table, and the new table
    joins the level assignment. So three tables always suffice for a page. *)
Lemma pt_cap_map_progress s lv c root v l t i :
  levelled (heap s) lv → lv !! cap_kva root = Some 3 → user_addr v →
  is_kva (cap_kva c) → cap_kva c mod 4096 = 0 → is_mapped c = false →
  lv !! cap_kva c = None → empty_table (heap s) (cap_kva c) →
  walk_at (heap s) [3; 2; 1] (cap_kva root) v = Some (l, (t, i)) → 1 ≤ l →
  ∃ h', pt_cap_map c root v s = Ok (l - 1, set_mapped c v) (s <| heap := h' |>) ∧
        walk_at h' [3; 2; 1] (cap_kva root) v = Some (l - 1, (cap_kva c, get_vpn v (l - 1))) ∧
        levelled h' (<[cap_kva c := l - 1]> lv).
Proof.
  intros Hlv Hr Hu Hk Ha Hm Hs He Hw Hl. eexists. split; [|split].
  - unfold pt_cap_map. rewrite Hm, (bind_Ok _ _ _ tt s) by done.
    by rewrite (bind_Ok _ _ _ _ _ (pt_map_Ok _ _ _ _ _ _ _ Hw Hl)).
  - rewrite <- levels_321 in *. apply (walk_at_extend _ lv 3); try done.
    + apply pte_write_valid_table.
    + by apply pte_as_page_table_write.
  - apply levelled_extend; [done|by eapply walk_at_table_level|done|done|].
    by apply pte_as_page_table_write.
Qed.
