(* ===== verification/CNode.v ===== *)
(** * Capability nodes

    [kernel/src/object/cnode.rs] (entries, the derivation list threaded
    through them, slot insertion) and [kernel/src/capability/cnode.rs] (the
    capability space: slot arrays and the multi-level lookup). *)

From S2P Require Import Prelude Shared Address Objects Riscv Capability.

(** ** The management database *)

Definition ManagementDB_default : ManagementDB := {| mdb_word0 := 0; mdb_word1 := 0 |}.

Definition mdb_word (m : ManagementDB) (is_next : bool) : Z :=
  if is_next then m.(mdb_word1) else m.(mdb_word0).

(** [get_node]: the upper 48 bits as a physical address, seen in the kernel window. *)
Definition mdb_get_node (m : ManagementDB) (is_next : bool) : option Z :=
  let address := Z.shiftr (mdb_word m is_next) 16 in
  if address =? 0 then None else Some (kva_of_phys address).

(** [_set_node] *)
Definition mdb_set_word (m : ManagementDB) (is_next : bool) (node : Z) : ManagementDB :=
  let w := Z.lor (Z.land (mdb_word m is_next) 0xffff) (shl64 node 16) in
  if is_next then m <| mdb_word1 := w |> else m <| mdb_word0 := w |>.

(** [set_node]: link the entry at [self] to the one at [node], and back. *)
Definition mdb_set_node (self node : Z) (is_next : bool) : K unit :=
  modify_entry self (λ e, e <| mdb ::= λ m, mdb_set_word m is_next node |>) ;;;
  modify_entry node (λ e, e <| mdb ::= λ m, mdb_set_word m (negb is_next) self |>).

Definition entry_set_next (self next : Z) : K unit := mdb_set_node self next true.
Definition entry_set_prev (self prev : Z) : K unit := mdb_set_node self prev false.
Definition entry_get_next (self : Z) : K (option Z) :=
  let* e := read_entry self in ret (mdb_get_node e.(mdb) true).
Definition entry_get_prev (self : Z) : K (option Z) :=
  let* e := read_entry self in ret (mdb_get_node e.(mdb) false).

Definition new_with_rawcap (c : CapabilityData) : CNodeEntry :=
  {| cap := c; mdb := ManagementDB_default |}.

(** [CNodeEntry::insert]: the entry at [self] comes right after [parent]. *)
Definition entry_insert (self parent : Z) : K unit :=
  let* prev_next := entry_get_next parent in
  match prev_next with
  | Some prev_next => entry_set_next self prev_next
  | None => ret tt
  end ;;;
  entry_set_next parent self.

(** [CNodeEntry::replace]: the entry at [self] takes the place of [src]. *)
Definition entry_replace (self src : Z) : K unit :=
  let* src_next := entry_get_next src in
  match src_next with
  | Some src_next => entry_set_prev src_next self ;;; entry_set_next self src_next
  | None => ret tt
  end ;;;
  let* src_prev := entry_get_prev src in
  match src_prev with
  | Some src_prev => entry_set_next src_prev self ;;; entry_set_prev self src_prev
  | None => ret tt
  end.

(** The code builds a new entry in a local variable, links the local into the
    list, and then moves the local to its slot. [tmp] is the local's address. *)
Definition with_local_entry (tmp : Z) (c : CapabilityData) (link : K unit) : K CNodeEntry :=
  write_entry tmp (new_with_rawcap c) ;;;
  link ;;;
  read_entry tmp.

(** [CNode::insert_cap] *)
Definition insert_cap (tmp self parent : Z) (c : CapabilityData) (index : Z) : K unit :=
  let* entry := with_local_entry tmp c (entry_insert tmp parent) in
  write_entry (self + index * size_of_CNodeEntry) entry.

(** ** [CNodeCap] *)

Definition radix (c : CapabilityData) : Z := as_u32 c.(cap_dep_val).
Definition capacity (c : CapabilityData) : K Z := usize_pow2 (radix c).

(** The address of a slot of the node a capability names. *)
Definition slot_addr (c : CapabilityData) (index : Z) : Z := cap_kva c + index * size_of_CNodeEntry.

(** [CNodeCap::write_slot] *)
Definition write_slot (self : CapabilityData) (c : CapabilityData) (index : Z) : K unit :=
  let* cap_ := capacity self in
  if cap_ <=? index then throw (kerr ErrKind.OutOfMemory)
  else
    let* slot := read_slot (slot_addr self index) in
    match slot with
    | Some _ => throw (kerr ErrKind.NotEmptySlot)
    | None => write_slot_at (slot_addr self index) (Some (new_with_rawcap c))
    end.

(** [cnode.iter().all(|slot| slot.is_none())] over [num] slots from an address. *)
Fixpoint all_none (num : nat) (addr : Z) : K bool :=
  match num with
  | O => ret true
  | S num' =>
      let* slot := read_slot addr in
      match slot with
      | Some _ => ret false
      | None => all_none num' (addr + size_of_CNodeEntry)
      end
  end.

(** [CNodeCap::get_writable]: the address of the first of [num] free slots. *)
Definition get_writable (self : CapabilityData) (num index : Z) : K Z :=
  let* size := usize_pow2 (radix self) in
  let* last_ := usize_add num index in
  guard (last_ <? size) (kerr ErrKind.InvalidOperation) ;;;
  let* free := all_none (Z.to_nat num) (slot_addr self index) in
  guard free (kerr ErrKind.NotEmptySlot) ;;;
  if num =? 0 then panic PIndex else ret (slot_addr self index).

(** [CNodeCap::_lookup_entry_mut]: the slot of this node and the bits left. *)
Definition lookup_one (self : CapabilityData) (capptr depth_bits : Z) : K (Z * Z) :=
  let r := radix self in
  guard (r <=? depth_bits) (kerr ErrKind.OutOfMemory) ;;;
  let remain_bits := depth_bits - r in
  capacity self ;;;
  let* shifted := usize_shr capptr remain_bits in
  let* one := usize_shl 1 r in
  let* mask := usize_sub one 1 in
  ret (slot_addr self (Z.land shifted mask), remain_bits).

(** [CNodeCap::lookup_entry_mut]: the loop; the result is the slot's address. *)
Fixpoint lookup_entry_mut (fuel : nat) (cnode_cap : CapabilityData) (capptr depth_bits : Z) : K Z :=
  match fuel with
  | O => λ _, OutOfFuel
  | S fuel' =>
      let* '(val, rem) := lookup_one cnode_cap capptr depth_bits in
      let* slot := read_slot val in
      match slot with
      | None => ret val
      | Some entry =>
          if rem =? 0 then ret val
          else
            let* cap_type := get_cap_type entry.(cap) in
            if bool_decide (cap_type ≠ CapabilityType.CNode) then ret val
            else
              let* next_cap := unwrap_res (try_ref_as CapabilityType.CNode entry.(cap)) in
              lookup_entry_mut fuel' next_cap capptr rem
      end
  end.

Definition lookup_entry_mut_one_level (fuel : nat) (self : CapabilityData) (capptr : Z) : K Z :=
  lookup_entry_mut fuel self capptr (radix self).

(** [CNodeCap::lookup_two_entries_mut] *)
Definition lookup_two_entries_mut (fuel : nat) (self : CapabilityData)
    (capptr depth_bits capptr2 depth_bits2 : Z) : K (Z * Z) :=
  let* entry_1 := lookup_entry_mut fuel self capptr depth_bits in
  let* entry_2 := lookup_entry_mut fuel self capptr2 depth_bits2 in
  guard (negb (entry_1 =? entry_2)) (kerr ErrKind.InvalidOperation) ;;;
  ret (entry_1, entry_2).

(** [as_mut().ok_or(SlotIsEmpty)] on a slot found by a lookup. *)
Definition occupied (slot : Z) : K CNodeEntry :=
  let* s := read_slot slot in ok_or s (kerr ErrKind.SlotIsEmpty).

(** [impl Capability for CNodeCap]. [CNode] is a zero-sized type of alignment
    1, and [init_object] clears nothing. *)
Definition cnode_get_object_size (user_size : Z) : K Z :=
  let* n := usize_pow2 (as_u32 user_size) in usize_mul n size_of_CNodeEntry.
Definition cnode_derive (self : CapabilityData) : K CapabilityData := ret self.
Definition CNodeCap : Capability := {|
  CAP_TYPE := CapabilityType.CNode;
  create_cap_dep_val := λ _ user_size, ret user_size;
  get_object_size := cnode_get_object_size;
  align_of_object := 1;
  can_be_retyped_from_device_memory := false;
  derive := cnode_derive;
  init_object := λ _, ret tt;
|}.

(** ** Slots and lookups *)

Lemma read_slot_Ok s a sl : slot_at (heap s) a = Some sl → read_slot a s = Ok sl s.
Proof. intros Ha. unfold read_slot. mred. by rewrite Ha. Qed.

Lemma read_entry_Ok s a e : slot_at (heap s) a = Some (Some e) → read_entry a s = Ok e s.
Proof. intros Ha. unfold read_entry. by rewrite (bind_Ok _ _ _ _ _ (read_slot_Ok _ _ _ Ha)). Qed.

Lemma occupied_Ok s a e : slot_at (heap s) a = Some (Some e) → occupied a s = Ok e s.
Proof. intros Ha. unfold occupied. by rewrite (bind_Ok _ _ _ _ _ (read_slot_Ok _ _ _ Ha)). Qed.

Lemma slot_at_insert_eq h a sl : slot_at (<[a := OSlot sl]> h) a = Some sl.
Proof. unfold slot_at. by rewrite lookup_insert_eq. Qed.

Lemma slot_at_insert_ne h a b o : a ≠ b → slot_at (<[a := o]> h) b = slot_at h b.
Proof. intros. unfold slot_at. by rewrite lookup_insert_ne. Qed.

(** The index a node of radix [r] is looked up at when [rem] bits remain. *)
Definition slot_index (capptr r rem : Z) : Z := (capptr / 2 ^ rem) mod 2 ^ r.

Lemma radix_bound c : 0 ≤ radix c < 2 ^ 32.
Proof. unfold radix, as_u32. apply Z.mod_pos_bound. lia. Qed.

Lemma lookup_one_Ok s c capptr depth :
  radix c < 64 → radix c ≤ depth < radix c + 64 →
  lookup_one c capptr depth s =
    Ok (slot_addr c (slot_index capptr (radix c) (depth - radix c)), depth - radix c) s.
Proof.
  intros Hr Hd. pose proof (radix_bound c). unfold lookup_one.
  rewrite (proj2 (Z.leb_le _ _)), (bind_Ok _ _ _ tt s) by (done || lia).
  unfold capacity. rewrite (bind_Ok _ _ _ (2 ^ radix c) s) by (apply usize_pow2_Ok; lia).
  rewrite (bind_Ok _ _ _ (Z.shiftr capptr (depth - radix c)) s) by (apply usize_shr_Ok; lia).
  assert (2 ^ radix c < W) by (apply Z.pow_lt_mono_r; lia).
  rewrite (bind_Ok _ _ _ (2 ^ radix c) s).
  2: { unfold usize_shl. rewrite (proj2 (Z.ltb_lt _ _)) by lia. unfold ret.
       rewrite Z.shiftl_1_l, Z.mod_small by lia. done. }
  rewrite (bind_Ok _ _ _ (2 ^ radix c - 1) s) by (apply usize_sub_Ok; lia).
  unfold ret, slot_index. rewrite Z.shiftr_div_pow2 by lia.
  replace (2 ^ radix c - 1) with (Z.ones (radix c)) by (rewrite Z.ones_equiv; lia).
  by rewrite Z.land_ones by lia.
Qed.

(** [c] is a capability to a node. *)
Definition is_cnode (c : CapabilityData) : Prop :=
  CapabilityType.cap_type_try_from c.(cap_type) = inr CapabilityType.CNode.

(** [resolves h c p d a]: reading [d] bits of [p] from the node [c], level by
    level and without remainder, leads to the slot at [a]. *)
Inductive resolves (h : gmap Z kobject) : CapabilityData → Z → Z → Z → Prop :=
  | resolves_here c p :
      radix c < 64 →
      resolves h c p (radix c) (slot_addr c (slot_index p (radix c) 0))
  | resolves_below c p d e a :
      radix c < 64 → radix c < d < radix c + 64 →
      slot_at h (slot_addr c (slot_index p (radix c) (d - radix c))) = Some (Some e) →
      is_cnode e.(cap) → resolves h e.(cap) p (d - radix c) a →
      resolves h c p d a.

(** The loop finds the slot a path resolves to, in at most as many rounds as
    the path has levels. *)
Lemma lookup_resolves s c p d a sl :
  resolves (heap s) c p d a → slot_at (heap s) a = Some sl →
  ∃ n, ∀ fuel, (n ≤ fuel)%nat → lookup_entry_mut fuel c p d s = Ok a s.
Proof.
  intros Hr Hsl. induction Hr as [c p Hr|c p d e a Hr Hd He Hc Hrec IH].
  - exists 1%nat. intros [|fuel] Hf; [lia|]. simpl.
    pose proof (radix_bound c).
    rewrite (bind_Ok _ _ _ _ _ (lookup_one_Ok s c p (radix c) Hr ltac:(lia))).
    rewrite Z.sub_diag. rewrite (bind_Ok _ _ _ _ _ (read_slot_Ok _ _ _ Hsl)).
    by destruct sl.
  - destruct (IH Hsl) as (n & Hn). exists (S n). intros [|fuel] Hf; [lia|]. simpl.
    rewrite (bind_Ok _ _ _ _ _ (lookup_one_Ok s c p d Hr ltac:(lia))).
    rewrite (bind_Ok _ _ _ _ _ (read_slot_Ok _ _ _ He)).
    rewrite (proj2 (Z.eqb_neq _ _)) by lia.
    rewrite (bind_Ok _ _ _ CapabilityType.CNode s) by by apply get_cap_type_Ok.
    rewrite bool_decide_eq_false_2 by naive_solver.
    rewrite (bind_Ok _ _ _ e.(cap) s).
    + apply Hn. lia.
    + unfold unwrap_res. by rewrite try_ref_as_Ok.
Qed.

(** The path of slot [i] of the node found at path [p]: [p] followed by [i]. *)
Lemma resolves_extend h c p d a e i :
  resolves h c p d a → slot_at h a = Some (Some e) → is_cnode e.(cap) →
  0 < radix e.(cap) < 64 → d + radix e.(cap) < 64 → 0 ≤ i < 2 ^ radix e.(cap) →
  resolves h c (p * 2 ^ radix e.(cap) + i) (d + radix e.(cap)) (slot_addr e.(cap) i).
Proof.
  intros Hr He Hc He0 Hd Hi. set (r := radix e.(cap)) in *.
  assert (∀ q, 0 ≤ q → (p * 2 ^ r + i) / 2 ^ (q + r) = p / 2 ^ q) as Hdiv.
  { intros q Hq. rewrite Z.add_comm with (n := q), Z.pow_add_r, <- Z.div_div by lia.
    rewrite Z.div_add_l, (Z.div_small i), Z.add_0_r by lia. done. }
  induction Hr as [c p Hr|c p d e' a Hr Hdd He' Hc' Hrec IH].
  - pose proof (radix_bound c). apply resolves_below with e; [done|lia| |done|].
    + replace (radix c + r - radix c) with (0 + r) by lia.
      unfold slot_index in *. rewrite Hdiv by lia. by rewrite Z.pow_0_r, Z.div_1_r in He |- *.
    + replace (radix c + r - radix c) with r by lia. subst r.
      replace i with (slot_index (p * 2 ^ radix (cap e) + i) (radix (cap e)) 0) at 2.
      * apply resolves_here. lia.
      * unfold slot_index. rewrite Z.pow_0_r, Z.div_1_r, Z.add_comm, Z.mod_add by lia.
        by apply Z.mod_small.
  - pose proof (radix_bound c). apply resolves_below with e'; [done|lia| |done|].
    + replace (d + r - radix c) with ((d - radix c) + r) by lia.
      unfold slot_index in *. by rewrite Hdiv by lia.
    + replace (d + r - radix c) with (d - radix c + r) by lia. apply IH; [done|lia|done].
Qed.

(** A slot index is within the node. *)
Lemma slot_index_bound p r rem : 0 ≤ r → 0 ≤ slot_index p r rem < 2 ^ r.
Proof. intros. unfold slot_index. apply Z.mod_pos_bound. lia. Qed.

(** ** Properties of the lookup *)

(** Every stored node capability translates at least one bit. *)
Definition radix_pos (h : gmap Z kobject) : Prop :=
  ∀ a e, slot_at h a = Some (Some e) → is_cnode e.(cap) → 0 < radix e.(cap).

Lemma lookup_one_inv s c p d r :
  lookup_one c p d s = r →
  r = Ok (slot_addr c (slot_index p (radix c) (d - radix c)), d - radix c) s ∧ radix c ≤ d < radix c + 64 ∨
  r = Err (kerr ErrKind.OutOfMemory) s ∨ r = Panic PArith.
Proof.
  intros <-. pose proof (radix_bound c).
  destruct (Z.leb_spec (radix c) d); [|unfold lookup_one; rewrite (proj2 (Z.leb_gt _ _)) by lia; auto].
  destruct (Z.ltb_spec (radix c) 64).
  2: { right; right. unfold lookup_one. rewrite (proj2 (Z.leb_le _ _)) by lia.
       rewrite (bind_Ok _ _ _ tt s) by done. apply bind_Panic.
       unfold capacity, usize_pow2. by rewrite (proj2 (Z.ltb_ge _ _)) by lia. }
  destruct (Z.ltb_spec d (radix c + 64)).
  - left. split; [|lia]. by apply lookup_one_Ok.
  - right; right. unfold lookup_one. rewrite (proj2 (Z.leb_le _ _)) by lia.
    rewrite (bind_Ok _ _ _ tt s) by done.
    rewrite (bind_Ok _ _ _ (2 ^ radix c) s) by (apply usize_pow2_Ok; lia).
    apply bind_Panic. unfold usize_shr. by rewrite (proj2 (Z.ltb_ge _ _)) by lia.
Qed.

(** One round of the loop. *)
Lemma lookup_entry_mut_S fuel c p d s :
  lookup_entry_mut (S fuel) c p d s =
  match lookup_one c p d s with
  | Ok (val, rem) _ =>
      match slot_at (heap s) val with
      | None => Undef
      | Some None => Ok val s
      | Some (Some e) =>
          if rem =? 0 then Ok val s
          else match CapabilityType.cap_type_try_from e.(cap).(cap_type) with
               | inr CapabilityType.CNode => lookup_entry_mut fuel e.(cap) p rem s
               | inr _ => Ok val s
               | inl _ => Err (kerr ErrKind.UnknownCapType) s
               end
      end
  | Err e s' => Err e s'
  | Panic k => Panic k
  | Undef => Undef
  | OutOfFuel => OutOfFuel
  end.
Proof.
  cbn [lookup_entry_mut].
  destruct (lookup_one_inv s c p d _ eq_refl) as [[Heq _]|[Heq|Heq]];
    unfold bind at 1; rewrite Heq; [|done|done].
  unfold read_slot. mred. destruct (slot_at _ _) as [[e|]|]; try done.
  destruct (_ =? 0); [done|]. unfold try_ref_as, get_cap_type, cap_try_from_u8.
  destruct (CapabilityType.cap_type_try_from _) as [|[]] eqn:Ht; try done.
Qed.

(** A round either decides the result, or continues in a node found in a slot
    of this one with fewer bits to go. *)
Lemma lookup_step c p d s :
  (∃ out, out ≠ OutOfFuel ∧ (∀ fuel, lookup_entry_mut (S fuel) c p d s = out) ∧
     ∀ a s', out = Ok a s' →
       s' = s ∧ a = slot_addr c (slot_index p (radix c) (d - radix c))) ∨
  (∃ e, slot_at (heap s) (slot_addr c (slot_index p (radix c) (d - radix c))) = Some (Some e) ∧
     is_cnode e.(cap) ∧ radix c < d < radix c + 64 ∧
     ∀ fuel, lookup_entry_mut (S fuel) c p d s = lookup_entry_mut fuel e.(cap) p (d - radix c) s).
Proof.
  destruct (lookup_one_inv s c p d _ eq_refl) as [[Hok Hle]|[Herr|Hpan]].
  2,3: left; eexists; split; [|split; [intros; rewrite lookup_entry_mut_S, ?Herr, ?Hpan; reflexivity|]];
    done.
  set (a := slot_addr c _) in *.
  destruct (slot_at (heap s) a) as [[e|]|] eqn:He.
  2,3: left; eexists; split; [|split; [intros; rewrite lookup_entry_mut_S, Hok, He; reflexivity|]];
    naive_solver.
  destruct (Z.eqb_spec (d - radix c) 0) as [Hz|Hz].
  { left; exists (Ok a s); split; [done|]. split; [|naive_solver].
    intros; by rewrite lookup_entry_mut_S, Hok, He, Hz. }
  destruct (CapabilityType.cap_type_try_from e.(cap).(cap_type)) as [|t] eqn:Ht.
  { left; eexists; split; [|split; [intros; rewrite lookup_entry_mut_S, Hok, He,
      (proj2 (Z.eqb_neq _ _)), Ht by done; reflexivity|]]; naive_solver. }
  destruct (decide (t = CapabilityType.CNode)) as [->|Hne].
  - right. exists e. split; [done|]. split; [done|]. split; [lia|].
    intros fuel. by rewrite lookup_entry_mut_S, Hok, He, (proj2 (Z.eqb_neq _ _)), Ht by done.
  - left. exists (Ok a s). split; [done|]. split; [|naive_solver]. intros fuel.
    rewrite lookup_entry_mut_S, Hok, He, (proj2 (Z.eqb_neq _ _)), Ht by done. by destruct t.
Qed.

Lemma lookup_terminates_depth s c p d :
  radix_pos (heap s) → 0 < radix c → 0 ≤ d →
  ∃ out, out ≠ OutOfFuel ∧
    ∀ fuel, (Z.to_nat d < fuel)%nat → lookup_entry_mut fuel c p d s = out.
Proof.
  intros Hp. remember (Z.to_nat d) as n eqn:Hn. revert c d Hn.
  induction n as [n IH] using lt_wf_ind. intros c d -> Hc Hd.
  destruct (lookup_step c p d s) as [(out & Ho & Hf & _)|(e & He & Hce & Hlt & Hf)].
  - exists out. split; [done|]. intros [|fuel] Hfu; [lia|]. apply Hf.
  - destruct (IH (Z.to_nat (d - radix c)) ltac:(lia) e.(cap) (d - radix c) eq_refl)
      as (out & Ho & Hf'); [by eapply Hp|lia|].
    exists out. split; [done|]. intros [|fuel] Hfu; [lia|]. rewrite Hf. apply Hf'. lia.
Qed.

(** The rounds the loop may take: after the first one fewer than 64 bits remain. *)
Definition LOOKUP_FUEL : nat := 65.

(** C8: when every node capability translates at least one bit, the lookup
    loop returns for every path and every depth: 65 rounds are enough, and more
    rounds change nothing. *)
Theorem lookup_terminates s c p d :
  radix_pos (heap s) → 0 < radix c → 0 ≤ d →
  ∃ out, out ≠ OutOfFuel ∧
    ∀ fuel, (LOOKUP_FUEL ≤ fuel)%nat → lookup_entry_mut fuel c p d s = out.
Proof.
  intros Hp Hc Hd.
  destruct (lookup_step c p d s) as [(out & Ho & Hf & _)|(e & He & Hce & Hlt & Hf)].
  - exists out. split; [done|]. intros [|fuel] Hfu; [unfold LOOKUP_FUEL in *; lia|]. apply Hf.
  - destruct (lookup_terminates_depth s e.(cap) p (d - radix c)) as (out & Ho & Hf');
      [done|by eapply Hp|lia|].
    exists out. split; [done|]. unfold LOOKUP_FUEL. intros [|fuel] Hfu; [lia|].
    rewrite Hf. apply Hf'. lia.
Qed.

(** C39: a node of radix 0 (a one-slot node, which an untyped capability can be
    retyped to) whose slot holds a capability to itself makes the lookup of any
    path of 1 to 63 bits loop forever: no number of rounds is enough. *)
Theorem lookup_radix0_diverges s c p d e fuel :
  radix c = 0 → 0 < d < 64 →
  slot_at (heap s) (slot_addr c 0) = Some (Some e) → e.(cap) = c → is_cnode c →
  lookup_entry_mut fuel c p d s = OutOfFuel.
Proof.
  intros Hr Hd He Hec Hc. induction fuel as [|fuel IH]; [done|].
  rewrite lookup_entry_mut_S, lookup_one_Ok by lia. rewrite Hr, Z.sub_0_r.
  unfold slot_index. rewrite Z.pow_0_r, Z.mod_1_r, He, (proj2 (Z.eqb_neq d 0)) by lia.
  rewrite Hec. unfold is_cnode in Hc. by rewrite Hc.
Qed.

(** Where a lookup can end up: the start node, or a node some slot holds. *)
Definition node_in (h : gmap Z kobject) (c : CapabilityData) : Prop :=
  ∃ a e, slot_at h a = Some (Some e) ∧ e.(cap) = c ∧ is_cnode c.

(** C27: a lookup that succeeds changes nothing and returns a slot inside the
    slot array of the start node or of a node whose capability is stored in
    some slot: no path leads outside the capability space. *)
Theorem lookup_in_bounds fuel s c p d a s' :
  lookup_entry_mut fuel c p d s = Ok a s' →
  s' = s ∧ ∃ c' i, a = slot_addr c' i ∧ 0 ≤ i < 2 ^ radix c' ∧ (c' = c ∨ node_in (heap s) c').
Proof.
  revert c d. induction fuel as [|fuel IH]; [done|]. intros c d Hl.
  destruct (lookup_step c p d s) as [(out & _ & Hf & Ho)|(e & He & Hce & Hlt & Hf)];
    rewrite Hf in Hl.
  - subst out. destruct (Ho _ _ eq_refl) as [-> ->]. split; [done|].
    eexists c, _. split; [done|]. split; [apply slot_index_bound, radix_bound|by left].
  - destruct (IH _ _ Hl) as [-> (c' & i & -> & Hi & Hc')]. split; [done|].
    exists c', i. split; [done|]. split; [done|]. right.
    destruct Hc' as [->|]; [|done]. by eexists _, e.
Qed.

(** The path of slot [i] of a node found at path [p] of depth [d] is
    [p * 2^radix + i] of depth [d + radix]: the lookup of the longer path ends
    at that slot (it is how user code names the slots of second-level nodes). *)
Lemma lookup_path_extend s c p d a e i sl :
  resolves (heap s) c p d a → slot_at (heap s) a = Some (Some e) → is_cnode e.(cap) →
  0 < radix e.(cap) < 64 → d + radix e.(cap) < 64 → 0 ≤ i < 2 ^ radix e.(cap) →
  slot_at (heap s) (slot_addr e.(cap) i) = Some sl →
  ∃ n, ∀ fuel, (n ≤ fuel)%nat →
    lookup_entry_mut fuel c (p * 2 ^ radix e.(cap) + i) (d + radix e.(cap)) s =
      Ok (slot_addr e.(cap) i) s.
Proof.
  intros Hr He Hc Hrad Hd Hi Hsl. eapply lookup_resolves; [|done]. by eapply resolves_extend.
Qed.

(** A capability written into a free slot of a node is found there by a
    one-level lookup, no other slot changes, and the written entry starts
    outside every derivation list. *)
Lemma write_slot_lookup s self c i s' :
  write_slot self c i s = Ok tt s' → 0 ≤ i →
  (∃ n, ∀ fuel, (n ≤ fuel)%nat →
     lookup_entry_mut_one_level fuel self i s' = Ok (slot_addr self i) s') ∧
  slot_at (heap s') (slot_addr self i) = Some (Some (new_with_rawcap c)) ∧
  slot_at (heap s) (slot_addr self i) = Some None ∧
  ∀ a, a ≠ slot_addr self i → heap s' !! a = heap s !! a.
Proof.
  unfold write_slot. intros Hw Hi. inv_bind Hw. unfold capacity, usize_pow2 in Hm.
  destruct (Z.ltb_spec (radix self) 64) as [Hr|]; [|done]. injection Hm as <- <-.
  destruct (Z.leb_spec (2 ^ radix self) i); [done|]. inv_bind Hw.
  unfold read_slot in Hm. mred_in Hm.
  destruct (slot_at (heap s) (slot_addr self i)) as [sl|] eqn:Hsl; [|done]. injection Hm as <- <-.
  destruct sl; [done|]. unfold write_slot_at, set_heap, modify in Hw. injection Hw as <-.
  rewrite heap_set. pose proof (radix_bound self).
  assert (slot_index i (radix self) 0 = i) as Hidx.
  { unfold slot_index. rewrite Z.pow_0_r, Z.div_1_r. by apply Z.mod_small. }
  split_and!; [|apply slot_at_insert_eq|done|intros a Ha; by rewrite lookup_insert_ne].
  eapply lookup_resolves; [|rewrite heap_set; apply slot_at_insert_eq].
  rewrite <- Hidx at 2. by apply resolves_here.
Qed.

(** ** The derivation list *)

Lemma mdb_get_set_same m b node : is_kva node → mdb_get_node (mdb_set_word m b node) b = Some node.
Proof.
  unfold is_kva, KERNEL_V_ADDR_PFX, W. intros Hn.
  assert (mdb_word (mdb_set_word m b node) b =
          Z.lor (Z.shiftl (node mod 2 ^ 48) 16) (mdb_word m b mod 2 ^ 16)) as Hw.
  { unfold mdb_set_word. replace (mdb_word (if b then _ else _) b) with
      (Z.lor (Z.land (mdb_word m b) 0xffff) (shl64 node 16)) by by destruct b.
    change 0xffff with (Z.ones 16). rewrite Z.land_ones, Z.lor_comm by lia. f_equal.
    unfold shl64, W. rewrite !Z.shiftl_mul_pow2 by lia.
    replace (2 ^ 64) with (2 ^ 48 * 2 ^ 16) by reflexivity. rewrite Z.mul_mod_distr_r by lia. done. }
  unfold mdb_get_node. rewrite Hw, Z.shiftr_lor, Z.shiftr_shiftl_l, Z.sub_diag, Z.shiftl_0_r by lia.
  rewrite (Z.shiftr_div_pow2 (mdb_word m b mod 2 ^ 16)), Z.div_small, Z.lor_0_r
    by (try apply Z.mod_pos_bound; lia).
  assert (node mod 2 ^ 48 = 2 ^ 47 + (node - 0xffff800000000000)) as ->.
  { symmetry. apply Z.mod_unique_pos with 0xffff; lia. }
  rewrite (proj2 (Z.eqb_neq _ _)) by lia. f_equal. unfold kva_of_phys.
  set (y := node - 0xffff800000000000). assert (0 ≤ y < 2 ^ 47) by lia.
  rewrite <- (lor_pow2_add (2 ^ 47) y 47) by (done || lia).
  rewrite (Z.lor_comm (2 ^ 47)), <- Z.lor_assoc.
  replace (Z.lor (2 ^ 47) KERNEL_V_ADDR_PFX) with KERNEL_V_ADDR_PFX by reflexivity.
  fold (kva_of_phys y). rewrite kva_of_phys_add by done. unfold KERNEL_V_ADDR_PFX. lia.
Qed.

Lemma mdb_get_set_other m b node :
  mdb_get_node (mdb_set_word m b node) (negb b) = mdb_get_node m (negb b).
Proof. by destruct b. Qed.

Definition entry_at (h : gmap Z kobject) (a : Z) : option CNodeEntry :=
  match slot_at h a with Some (Some e) => Some e | _ => None end.

Lemma entry_at_slot h a e : entry_at h a = Some e → slot_at h a = Some (Some e).
Proof. unfold entry_at. destruct (slot_at h a) as [[]|]; naive_solver. Qed.

Lemma entry_at_insert_eq h a e : entry_at (<[a := OSlot (Some e)]> h) a = Some e.
Proof. unfold entry_at. by rewrite slot_at_insert_eq. Qed.

Lemma entry_at_insert_ne h a b o : a ≠ b → entry_at (<[a := o]> h) b = entry_at h b.
Proof. intros. unfold entry_at. by rewrite slot_at_insert_ne. Qed.

Lemma modify_entry_Ok s a e f :
  entry_at (heap s) a = Some e →
  modify_entry a f s = Ok tt (s <| heap := <[a := OSlot (Some (f e))]> (heap s) |>).
Proof.
  intros He%entry_at_slot. unfold modify_entry. by rewrite (bind_Ok _ _ _ _ _ (read_entry_Ok _ _ _ He)).
Qed.

Lemma mdb_set_node_Ok s a b ea eb n :
  a ≠ b → entry_at (heap s) a = Some ea → entry_at (heap s) b = Some eb →
  mdb_set_node a b n s = Ok tt (s <| heap :=
    <[b := OSlot (Some (eb <| mdb ::= λ m, mdb_set_word m (negb n) a |>))]>
    (<[a := OSlot (Some (ea <| mdb ::= λ m, mdb_set_word m n b |>))]> (heap s)) |>).
Proof.
  intros Hne Ha Hb. unfold mdb_set_node.
  rewrite (bind_Ok _ _ _ _ _ (modify_entry_Ok _ _ _ _ Ha)).
  rewrite (modify_entry_Ok _ _ eb); rewrite heap_set; [done|by rewrite entry_at_insert_ne].
Qed.

Lemma entry_get_next_Ok s a e :
  entry_at (heap s) a = Some e → entry_get_next a s = Ok (mdb_get_node e.(mdb) true) s.
Proof.
  intros He%entry_at_slot. unfold entry_get_next. by rewrite (bind_Ok _ _ _ _ _ (read_entry_Ok _ _ _ He)).
Qed.

Definition next_of (h : gmap Z kobject) (a : Z) : option Z :=
  e ← entry_at h a; mdb_get_node e.(mdb) true.
Definition prev_of (h : gmap Z kobject) (a : Z) : option Z :=
  e ← entry_at h a; mdb_get_node e.(mdb) false.

(** The memory differs only in the links of entries: capabilities stay. *)
Definition same_caps (h h' : gmap Z kobject) : Prop :=
  ∀ a e, entry_at h a = Some e → ∃ e', entry_at h' a = Some e' ∧ e'.(cap) = e.(cap).

#[export] Instance same_caps_preorder : PreOrder same_caps.
Proof.
  split.
  - intros h a e He. eauto.
  - intros h1 h2 h3 H12 H23 a e He. destruct (H12 a e He) as (e' & He' & Hc).
    destruct (H23 a e' He') as (e'' & He'' & Hc'). exists e''. split; [done|congruence].
Qed.

Lemma same_caps_insert h a e f :
  entry_at h a = Some e → same_caps h (<[a := OSlot (Some (e <| mdb ::= f |>))]> h).
Proof.
  intros He b eb Hb. destruct (decide (a = b)) as [->|].
  - rewrite entry_at_insert_eq. eexists. split; [done|]. simpl. congruence.
  - rewrite entry_at_insert_ne by done. eauto.
Qed.

(** Linking two distinct entries: each now names the other, the rest of both
    and all other memory stay. *)
Lemma mdb_set_node_links s a b ea eb n :
  a ≠ b → is_kva a → is_kva b → entry_at (heap s) a = Some ea → entry_at (heap s) b = Some eb →
  ∃ h', mdb_set_node a b n s = Ok tt (s <| heap := h' |>) ∧
    same_caps (heap s) h' ∧
    (∃ ea', entry_at h' a = Some ea' ∧ mdb_get_node ea'.(mdb) n = Some b ∧
            mdb_get_node ea'.(mdb) (negb n) = mdb_get_node ea.(mdb) (negb n)) ∧
    (∃ eb', entry_at h' b = Some eb' ∧ mdb_get_node eb'.(mdb) (negb n) = Some a ∧
            mdb_get_node eb'.(mdb) n = mdb_get_node eb.(mdb) n) ∧
    (∀ x, x ≠ a → x ≠ b → h' !! x = heap s !! x).
Proof.
  intros Hne Ha Hb Hea Heb. eexists. split; [by apply mdb_set_node_Ok|]. split_and!.
  - trans (<[a := OSlot (Some (ea <| mdb ::= λ m, mdb_set_word m n b |>))]> (heap s)).
    + by apply same_caps_insert.
    + apply same_caps_insert. by rewrite entry_at_insert_ne.
  - rewrite entry_at_insert_ne, entry_at_insert_eq by done. eexists. split; [done|]. simpl.
    split; [by apply mdb_get_set_same|apply mdb_get_set_other].
  - rewrite entry_at_insert_eq. eexists. split; [done|]. simpl.
    split; [by apply mdb_get_set_same|by destruct n].
  - intros x Hx Hx'. by rewrite !lookup_insert_ne.
Qed.

(** What follows [parent] is absent, another live entry, or the place of the new
    entry itself, which an earlier insertion through the same local left there. *)
Definition next_live (h : gmap Z kobject) (parent self : Z) (pe : CNodeEntry) : Prop :=
  ∀ pn, mdb_get_node pe.(mdb) true = Some pn →
        pn ≠ parent ∧ is_kva pn ∧ (pn = self ∨ is_Some (entry_at h pn)).

(** An entry linked to itself. *)
Lemma mdb_set_node_self s a ea n :
  entry_at (heap s) a = Some ea →
  mdb_set_node a a n s = Ok tt (s <| heap :=
    <[a := OSlot (Some (ea <| mdb ::= λ m, mdb_set_word (mdb_set_word m n a) (negb n) a |>))]> (heap s) |>).
Proof.
  intros Ha. unfold mdb_set_node. rewrite (bind_Ok _ _ _ _ _ (modify_entry_Ok _ _ _ _ Ha)).
  erewrite modify_entry_Ok; rewrite heap_set; [|apply entry_at_insert_eq].
  by rewrite heap_set_set, insert_insert_eq.
Qed.

(** The successor [pn] of the new entry at [self]. *)
Lemma entry_set_next_any s self pn se :
  is_kva self → is_kva pn → entry_at (heap s) self = Some se → pn = self ∨ is_Some (entry_at (heap s) pn) →
  ∃ h1 se1, entry_set_next self pn s = Ok tt (s <| heap := h1 |>) ∧ same_caps (heap s) h1 ∧
    entry_at h1 self = Some se1 ∧ (∀ x, x ≠ self → x ≠ pn → h1 !! x = heap s !! x) ∧
    (pn ≠ self → mdb_get_node se1.(mdb) true = Some pn ∧ prev_of h1 pn = Some self ∧
                 next_of h1 pn = next_of (heap s) pn).
Proof.
  intros Hks Hkn Hs [->|[ne Hn]]; [|destruct (decide (pn = self)) as [->|Hne]].
  1-2: eexists _, _; split; [by apply mdb_set_node_self|]; split; [by apply same_caps_insert|];
    split; [apply entry_at_insert_eq|]; split; [|done]; intros x Hx _; by rewrite lookup_insert_ne.
  destruct (mdb_set_node_links s self pn se ne true) as
    (h1 & Hr1 & Hc1 & (se1 & Hs1 & Hs1n & _) & (ne1 & Hn1' & Hn1p & Hn1n) & Hf1); [done..|].
  exists h1, se1. split_and!; try done. intros _. split; [done|]. unfold prev_of, next_of.
  by rewrite Hn1', Hn.
Qed.

Lemma entry_insert_links s parent self pe se :
  parent ≠ self → is_kva parent → is_kva self →
  entry_at (heap s) parent = Some pe → entry_at (heap s) self = Some se →
  next_live (heap s) parent self pe →
  ∃ h', entry_insert self parent s = Ok tt (s <| heap := h' |>) ∧
    same_caps (heap s) h' ∧
    next_of h' parent = Some self ∧ prev_of h' self = Some parent ∧
    (∀ pn, next_of (heap s) parent = Some pn → pn ≠ self → next_of h' self = Some pn ∧ prev_of h' pn = Some self) ∧
    (∀ x, x ≠ parent → x ≠ self → next_of (heap s) parent ≠ Some x → h' !! x = heap s !! x) ∧
    (∀ x, x ≠ parent → x ≠ self → next_of h' x = next_of (heap s) x).
Proof.
  intros Hne Hkp Hks Hp Hs Hlive. unfold entry_insert.
  rewrite (bind_Ok _ _ _ _ _ (entry_get_next_Ok _ _ _ Hp)).
  assert (next_of (heap s) parent = mdb_get_node pe.(mdb) true) as Hno.
  { unfold next_of. by rewrite Hp. }
  rewrite Hno. destruct (mdb_get_node pe.(mdb) true) as [pn|] eqn:Hpn.
  - destruct (Hlive pn Hpn) as (Hn1 & Hkn & Hn).
    destruct (entry_set_next_any s self pn se) as (h1 & se1 & Hr1 & Hc1 & Hs1 & Hf1 & Hpn1); [done..|].
    rewrite (bind_Ok _ _ _ _ _ Hr1).
    assert (entry_at h1 parent = Some pe) as Hp1.
    { unfold entry_at, slot_at in *. by rewrite Hf1. }
    unfold entry_set_next.
    destruct (mdb_set_node_links (s <| heap := h1 |>) parent self pe se1 true) as
      (h2 & Hr2 & Hc2 & (pe2 & Hp2 & Hp2n & _) & (se2 & Hs2 & Hs2p & Hs2n) & Hf2); [done..|].
    rewrite heap_set in *. exists h2. rewrite Hr2. autorewrite with kstate.
    assert (∀ x, x ≠ parent → x ≠ self → entry_at h2 x = entry_at h1 x) as Hat2.
    { intros x Hx1 Hx2. unfold entry_at, slot_at. by rewrite Hf2. }
    split; [done|]. split; [by etrans|]. unfold next_of at 1, prev_of at 1. rewrite Hp2, Hs2. simpl.
    split; [done|]. split; [done|]. split; [|split].
    + intros pn' [= <-] Hps. destruct (Hpn1 Hps) as (Hse1 & Hpv & _).
      split; [unfold next_of; rewrite Hs2; simpl; by rewrite Hs2n|]. unfold prev_of. by rewrite Hat2.
    + intros x Hx1 Hx2 Hx3. rewrite Hf2, Hf1; [done|done|congruence|done|done].
    + intros x Hx1 Hx2. unfold next_of. rewrite Hat2 by done. destruct (decide (x = pn)) as [->|].
      * by apply Hpn1.
      * unfold entry_at, slot_at. by rewrite Hf1.
  - rewrite (bind_Ok _ _ _ tt s) by done.
    destruct (mdb_set_node_links s parent self pe se true) as
      (h1 & Hr1 & Hc1 & (pe1 & Hp1 & Hp1n & _) & (se1 & Hs1 & Hs1p & _) & Hf1); [done..|].
    exists h1. split; [done|]. split; [done|]. unfold next_of, prev_of. rewrite Hp1, Hs1. simpl.
    split; [done|]. split; [done|]. split; [done|]. split; intros x Hx1 Hx2; [intros _; by apply Hf1|].
    unfold entry_at, slot_at. by rewrite Hf1.
Qed.

(** An entry built in the local at [tmp] and linked after [parent]. *)
Lemma with_local_insert s tmp parent c pe :
  parent ≠ tmp → is_kva parent → is_kva tmp →
  entry_at (heap s) parent = Some pe → next_live (heap s) parent tmp pe →
  ∃ h e, with_local_entry tmp c (entry_insert tmp parent) s = Ok e (s <| heap := h |>) ∧
    e.(cap) = c ∧ mdb_get_node e.(mdb) false = Some parent ∧ next_of h parent = Some tmp ∧
    (∀ a ea, a ≠ tmp → entry_at (heap s) a = Some ea →
       ∃ ea', entry_at h a = Some ea' ∧ ea'.(cap) = ea.(cap)) ∧
    (∀ a, a ≠ tmp → entry_at (heap s) a = None → h !! a = heap s !! a) ∧
    (∀ a, a ≠ tmp → a ≠ parent → next_of h a = next_of (heap s) a).
Proof.
  intros Hpt Hkp Hkt Hp Hlive. unfold with_local_entry.
  set (s1 := s <| heap := <[tmp := OSlot (Some (new_with_rawcap c))]> (heap s) |>).
  assert (write_entry tmp (new_with_rawcap c) s = Ok tt s1) as Hw by done.
  assert (entry_at (heap s1) parent = Some pe) as Hp1.
  { unfold s1. rewrite heap_set, entry_at_insert_ne; done. }
  assert (entry_at (heap s1) tmp = Some (new_with_rawcap c)) as Ht1.
  { unfold s1. by rewrite heap_set, entry_at_insert_eq. }
  assert (next_live (heap s1) parent tmp pe) as Hl1.
  { intros pn Hpn. destruct (Hlive pn Hpn) as (? & ? & Hor). split_and!; try done.
    destruct (decide (pn = tmp)) as [|Hpt']; [by left|]. destruct Hor as [|Hor]; [done|right].
    unfold s1. by rewrite heap_set, entry_at_insert_ne by congruence. }
  destruct (entry_insert_links s1 parent tmp pe (new_with_rawcap c)) as
    (h2 & Hr2 & Hc2 & Hn2 & Hp2 & _ & Hf2 & Hnx); [done..|].
  destruct (Hc2 tmp (new_with_rawcap c) Ht1) as (e2 & He2 & Hce2).
  exists h2, e2. split; [|split; [done|split; [|split; [done|split; [|split]]]]].
  - rewrite (bind_Ok _ _ _ _ _ Hw), (bind_Ok _ _ _ _ _ Hr2). by apply read_entry_Ok, entry_at_slot.
  - unfold prev_of in Hp2. by rewrite He2 in Hp2.
  - intros a ea Ha Hea. apply Hc2. unfold s1. by rewrite heap_set, entry_at_insert_ne.
  - intros a Ha Hea. rewrite Hf2.
    + unfold s1. by rewrite heap_set, lookup_insert_ne.
    + congruence.
    + done.
    + intros Hno. unfold next_of in Hno. rewrite Hp1 in Hno. simpl in Hno.
      destruct (Hlive a Hno) as (_ & _ & [?|[x Hx]]); congruence.
  - intros a Ha Hap. rewrite Hnx by done. unfold next_of, s1. by rewrite heap_set, entry_at_insert_ne.
Qed.

(** C33: [insert_cap] stores the capability in the slot it is given and keeps
    the capability of every other entry. The derivation list, however, is
    linked through the address of the function's local variable, from which
    the entry is then moved: the parent's successor is that local, not the slot.
    Before, the parent's successor is none, a live entry, or already that local. *)
Theorem insert_cap_stores s tmp self parent c i pe :
  let slot := self + i * size_of_CNodeEntry in
  parent ≠ tmp → slot ≠ tmp → slot ≠ parent → is_kva parent → is_kva tmp →
  entry_at (heap s) parent = Some pe → next_live (heap s) parent tmp pe →
  ∃ h' e, insert_cap tmp self parent c i s = Ok tt (s <| heap := h' |>) ∧
    entry_at h' slot = Some e ∧ e.(cap) = c ∧
    (∀ a ea, a ≠ tmp → a ≠ slot → entry_at (heap s) a = Some ea →
       ∃ ea', entry_at h' a = Some ea' ∧ ea'.(cap) = ea.(cap)) ∧
    next_of h' parent = Some tmp ∧ prev_of h' slot = Some parent.
Proof.
  intros slot Hpt Hst Hsp Hkp Hkt Hp Hlive. unfold insert_cap.
  destruct (with_local_insert s tmp parent c pe) as (h2 & e2 & Hr & Hce & Hpv & Hn & Hc & _); [done..|].
  rewrite (bind_Ok _ _ _ _ _ Hr).
  eexists _, e2. split; [reflexivity|]. rewrite heap_set. fold slot.
  split; [apply entry_at_insert_eq|]. split; [done|]. split; [|split].
  - intros a ea Ha1 Ha2 Ha. rewrite entry_at_insert_ne by done. by apply Hc.
  - unfold next_of in *. by rewrite entry_at_insert_ne.
  - unfold prev_of. by rewrite entry_at_insert_eq.
Qed.
