(* ===== verification/Thread.v ===== *)
(** * Threads and the scheduler

    [kernel/src/object/tcb.rs] (thread state, IPC buffer, the capabilities a
    thread holds) and [kernel/src/scheduler.rs] (the run queue, the current
    thread, the timer tick). *)

From S2P Require Import Prelude Shared Address Objects Riscv LinkedList Capability PageTable CNode.

Definition TICK_HZ : Z := 1000.
Definition TASK_QUANTUM : Z := 20 * (TICK_HZ / 1000).

(** ** [ThreadInfo] *)

(** [ThreadInfo::new] (debug build: threads are numbered from 1). *)
Definition ThreadInfo_new : K ThreadInfo :=
  let* old := gets tcbidx in
  modify (λ s, s <| tcbidx := (old + 1) mod W |>) ;;;
  let* n := usize_add old 1 in
  ret (ThreadInfo_default <| tid := n |>).

Definition thread_resume (t : ThreadInfo) : ThreadInfo := t <| status := Runnable |>.
Definition thread_suspend (t : ThreadInfo) : ThreadInfo := t <| status := Blocked |>.
Definition is_runnable (t : ThreadInfo) : bool := bool_decide (t.(status) = Runnable).
Definition set_timeout (t : ThreadInfo) (time_out : Z) : ThreadInfo := t <| time_slice := time_out |>.

(** [ipc_buffer_ref]: the address of the buffer, when one is set. *)
Definition ipc_buffer_ref (t : ThreadInfo) : option Z :=
  match t.(ipc_buffer) with
  | Some page_cap_e => Some (cap_kva page_cap_e.(cap))
  | None => None
  end.

(** [set_ipc_msg]: copy the message when both threads have a buffer. *)
Definition set_ipc_msg (self : Z) (sender : option Z) : K unit :=
  let* t := read_tcb self in
  match ipc_buffer_ref t.(value), sender with
  | Some reciever_ref, Some sender_ref =>
      let* m := read_page sender_ref in write_page reciever_ref m
  | _, _ => ret tt
  end.

(** [set_root_cspace], [set_root_vspace] and [set_ipc_buffer]: the new entry is
    linked after its parent while it is a local (at [tmp]), then moved. *)
Definition set_root_cspace (tmp self : Z) (cspace_cap : CapabilityData) (parent : Z) : K unit :=
  let* t := read_tcb self in
  rassert (bool_decide (t.(value).(root_cnode) = None)) ;;;
  let* e := with_local_entry tmp cspace_cap (entry_insert tmp parent) in
  modify_tcb self (λ t, t <| root_cnode := Some e |>).
Definition set_root_vspace (tmp self : Z) (vspace_cap : CapabilityData) (parent : Z) : K unit :=
  let* t := read_tcb self in
  rassert (bool_decide (t.(value).(vspace) = None)) ;;;
  let* e := with_local_entry tmp vspace_cap (entry_insert tmp parent) in
  modify_tcb self (λ t, t <| vspace := Some e |>).
Definition set_ipc_buffer (tmp self : Z) (page_cap : CapabilityData) (parent : Z) : K unit :=
  let* t := read_tcb self in
  rassert (bool_decide (t.(value).(ipc_buffer) = None)) ;;;
  let* e := with_local_entry tmp page_cap (entry_insert tmp parent) in
  modify_tcb self (λ t, t <| ipc_buffer := Some e |>).

(** ** The scheduler *)

(** [Scheduler::push] and the module's [push]. *)
Definition sched_push (tcb : Z) : K unit :=
  let* sc := gets scheduler in
  let* q := ll_push sc.(runqueue) tcb in
  modify (λ s, s <| scheduler := (scheduler s) <| runqueue := q |> |>).

(** [Scheduler::sched] *)
Definition sched : K (option Z) :=
  let* sc := gets scheduler in
  let* '(r, q) := ll_pop sc.(runqueue) in
  modify (λ s, s <| scheduler := (scheduler s) <| runqueue := q |> |>) ;;;
  ret r.

(** [tcb::resume] *)
Definition resume (thread : Z) : K unit :=
  modify_tcb thread thread_resume ;;;
  sched_push thread.

Definition require_schedule : K unit :=
  modify (λ s, s <| scheduler := (scheduler s) <| requested := true |> |>).

Definition get_current_tcb : K Z := gets current_proc.

Section Layout.
Context `{KernelLayout}.

(** [activate_vspace_inner] and [activate_vspace]: without a usable root table
    the kernel's own is activated. *)
Definition activate_vspace_inner (self : Z) : K unit :=
  let* t := read_tcb self in
  let* cap_entry := ok_or t.(value).(vspace) (kerr ErrKind.PageTableNotMappedYet) in
  pt_cap_activate cap_entry.(cap).
Definition activate_vspace (self : Z) : K unit :=
  let* r := try_ (activate_vspace_inner self) in
  match r with inl _ => ret tt | inr _ => activate_kernel_table end.

(** The part of [schedule] that picks the next thread; [None] is the early return. *)
Definition schedule_pick : K (option Z) :=
  let* next := sched in
  match next with
  | Some next =>
      modify_tcb next (λ t, set_timeout t TASK_QUANTUM) ;;;
      let* current := gets current_proc in
      let* cur := read_tcb current in
      (if is_runnable cur.(value) then sched_push current else ret tt) ;;;
      ret (Some next)
  | None =>
      let* current := gets current_proc in
      let* cur := read_tcb current in
      if is_runnable cur.(value) then
        modify_tcb current (λ t, set_timeout t TASK_QUANTUM) ;;;
        ret None
      else ret (Some IDLE_THREAD)
  end.

(** [schedule] *)
Definition schedule : K unit :=
  let* sc := gets scheduler in
  if negb sc.(requested) then ret tt
  else
    let* next := schedule_pick in
    match next with
    | None => ret tt
    | Some next =>
        activate_vspace next ;;;
        modify (λ s, s <| cpu_var := (cpu_var s) <| cur_reg_base := next |> |>) ;;;
        modify (λ s, s <| current_proc := next |>) ;;;
        modify (λ s, s <| scheduler := (scheduler s) <| requested := false |> |>)
    end.

Definition create_idle_thread (stack_top : Z) : K unit :=
  modify_tcb IDLE_THREAD (λ t, t <| registers ::= λ r,
    r <| sepc := idle_entry |> <| sstatus := Z.lor SSTATUS_SPP SSTATUS_SPIE |> <| sp := stack_top |> |>) ;;;
  modify (λ s, s <| current_proc := IDLE_THREAD |>) ;;;
  modify (λ s, s <| cpu_var := (cpu_var s) <| cur_reg_base := IDLE_THREAD |> <| sptop := stack_top |> |>).

(** [timer_tick] *)
Definition timer_tick : K unit :=
  let* current := gets current_proc in
  if current =? IDLE_THREAD then ret tt
  else
    let* t := read_tcb current in
    let* slice := usize_sub t.(value).(time_slice) 1 in
    modify_tcb current (λ t, t <| time_slice := slice |>) ;;;
    if slice =? 0 then require_schedule else ret tt.
End Layout.

(** ** [TCBCap] ([capability/tcb.rs]) *)

Definition tcb_init_object (self : CapabilityData) : K unit :=
  let* info := ThreadInfo_new in
  write_tcb (cap_kva self) (ListItem_new info).
Definition TCBCap `{KernelLayout} : Capability := {|
  CAP_TYPE := CapabilityType.Tcb;
  create_cap_dep_val := default_create_cap_dep_val;
  get_object_size := λ _, ret size_of_tcb;
  align_of_object := align_of_tcb;
  can_be_retyped_from_device_memory := false;
  derive := default_derive;
  init_object := tcb_init_object;
|}.

Definition tcb_set_register (self : CapabilityData) (regs : list (Register * Z)) : K unit :=
  modify_tcb (cap_kva self) (λ t,
    t <| registers ::= λ r, foldl (λ r '(r_id, val), regs_index_mut r r_id val) r regs |>).
Definition tcb_set_registers (self : CapabilityData) (regs : Registers) : K unit :=
  modify_tcb (cap_kva self) (λ t, t <| registers := regs |>).
Definition make_runnable (self : CapabilityData) : K unit := resume (cap_kva self).

(** [set_cspace], [set_vspace], [set_ipc_buffer]: [src] is the address of the
    source entry, whose capability is derived into the thread. *)
Definition tcb_set_cspace (tmp : Z) (self : CapabilityData) (src : Z) : K unit :=
  let* e := read_entry src in
  let* cspace_new := derive CNodeCap e.(cap) in
  set_root_cspace tmp (cap_kva self) cspace_new src.
Definition tcb_set_vspace (tmp : Z) (self : CapabilityData) (src : Z) : K unit :=
  let* e := read_entry src in
  let* vspace_new := derive PageTableCap e.(cap) in
  set_root_vspace tmp (cap_kva self) vspace_new src.
Definition tcb_set_ipc_buffer (tmp : Z) (self : CapabilityData) (src : Z) : K unit :=
  let* e := read_entry src in
  let* page_cap_new := derive PageCap e.(cap) in
  set_ipc_buffer tmp (cap_kva self) page_cap_new src.
