(* ===== verification/RoundRobin.v ===== *)
(** * Scheduling: round robin, quanta and the idle thread

    Properties of [schedule] and [timer_tick] ([kernel/src/scheduler.rs]) over
    the run queue in memory. A thread taken from the queue keeps its old
    [next] pointer, so the queue is described here by a representation that
    says nothing about the [next] of the last thread, except where [pop] would
    follow it; what a stale link does there is shown too. *)

From S2P Require Import Prelude Shared Address Objects Riscv LinkedList Capability PageTable CNode.
From S2P Require Import Thread.

(** ** The run queue *)

(** [xs] are runnable threads, each linked to the one after it. *)
Fixpoint links (h : gmap Z kobject) (xs : list Z) : Prop :=
  match xs with
  | [] => True
  | x :: xs' =>
      (∃ t, h !! x = Some (OTcb t) ∧ status (value t) = Runnable ∧
            match xs' with [] => True | y :: _ => next t = Some y end) ∧
      links h xs'
  end.

(** A runnable thread whose [next] is empty or [y]. *)
Definition points_at_most (h : gmap Z kobject) (x y : Z) : Prop :=
  ∃ t, h !! x = Some (OTcb t) ∧ status (value t) = Runnable ∧ (next t = None ∨ next t = Some y).

(** [c] is running and [xs] is waiting in the run queue, in this order. With a
    single waiting thread, the two threads may only point to each other. *)
Record ring (s : KState) (c : Z) (xs : list Z) : Prop := {
  ring_current : current_proc s = c;
  ring_nodup : NoDup (c :: xs);
  ring_head : ll_head (runqueue (scheduler s)) = head xs;
  ring_last : ll_last (runqueue (scheduler s)) = last xs;
  ring_links : links (heap s) xs;
  ring_run : ∃ t, heap s !! c = Some (OTcb t) ∧ status (value t) = Runnable;
  ring_pair : match xs with
              | [x] => points_at_most (heap s) c x ∧ points_at_most (heap s) x c
              | _ => True
              end;
}.

(** The address space a thread runs in: the one of its root table, or the
    kernel's when it has none. *)
Definition vspace_satp `{KernelLayout} (t : ThreadControlBlock) : Z :=
  match vspace (value t) with
  | Some e =>
      if is_root (cap e) then Z.lor SATP_SV48 (Z.shiftr (phys_of_kva (cap_kva (cap e))) 12)
      else Z.lor SATP_SV48 (Z.shiftr (Z.land KERNEL_VM_ROOT (usize_not KERNEL_CODE_PFX)) 12)
  | None => Z.lor SATP_SV48 (Z.shiftr (Z.land KERNEL_VM_ROOT (usize_not KERNEL_CODE_PFX)) 12)
  end.

(** The state after switching to thread [x]. *)
Definition switch_to (x satp' : Z) (s : KState) : KState :=
  s <| satp := satp' |> <| cpu_var := (cpu_var s) <| cur_reg_base := x |> |>
    <| current_proc := x |> <| scheduler := (scheduler s) <| requested := false |> |>.

Lemma activate_vspace_Ok `{KernelLayout} a t s :
  heap s !! a = Some (OTcb t) → activate_vspace a s = Ok tt (s <| satp := vspace_satp t |>).
Proof.
  intros Ha. unfold activate_vspace, activate_vspace_inner, try_, vspace_satp.
  unfold bind at 1. rewrite (bind_Ok _ _ _ _ _ (read_tcb_Ok _ _ _ Ha)).
  destruct (vspace (value t)) as [e|]; [|reflexivity].
  unfold pt_cap_activate, pt_activate. mred. by destruct (is_root (cap e)).
Qed.

(** [links] depends on the status and the links of the threads only. *)
Lemma links_mono h h' xs :
  (∀ a t, a ∈ xs → h !! a = Some (OTcb t) →
     ∃ t', h' !! a = Some (OTcb t') ∧ status (value t') = status (value t) ∧ next t' = next t) →
  links h xs → links h' xs.
Proof.
  induction xs as [|x xs IH]; [done|]. intros Hh [(t & Ht & Hs & Hn) Hl].
  split; [|apply IH; [set_solver|done]].
  destruct (Hh x t) as (t' & Ht' & Hs' & Hn'); [set_solver|done|].
  exists t'. split; [done|]. split; [congruence|]. destruct xs; congruence.
Qed.

Lemma links_tcb h xs x :
  links h xs → x ∈ xs → ∃ t, h !! x = Some (OTcb t) ∧ status (value t) = Runnable.
Proof.
  induction xs as [|y xs IH]; [set_solver|].
  intros [(t & ? & ? & ?) ?] [->|]%elem_of_cons; eauto.
Qed.

(** Linking a runnable thread behind the last one. *)
Lemma links_snoc h xs c :
  NoDup (xs ++ [c]) → links h xs →
  (∃ t, h !! c = Some (OTcb t) ∧ status (value t) = Runnable) →
  links (link_last xs c h) (xs ++ [c]).
Proof.
  intros Hnd Hl (t & Ht & Hs). induction xs as [|y xs IH]; simpl.
  - split; [|done]. by exists t.
  - apply NoDup_cons in Hnd as [Hy Hnd]. destruct Hl as [(u & Hu & Hus & Hun) Hl].
    destruct xs as [|z xs].
    + unfold link_last. simpl. rewrite lookup_alter_eq, Hu. simpl.
      split; [by eexists|]. split; [|done].
      rewrite lookup_alter_ne by set_solver. by exists t.
    + unfold link_last in *. rewrite last_cons_cons. split; [|by apply IH].
      exists u. split; [|done]. destruct (last (z :: xs)) as [w|] eqn:Hw; [|done].
      rewrite lookup_alter_ne; [done|]. intros ->. apply last_elem_of in Hw. set_solver.
Qed.

(** A weakly represented queue: [push] links the new thread behind the last. *)
Lemma ll_push_weak s q xs c :
  NoDup (xs ++ [c]) → ll_head q = head xs → ll_last q = last xs → links (heap s) xs →
  (∃ t, heap s !! c = Some (OTcb t) ∧ status (value t) = Runnable) →
  ∃ q', ll_push q c s = Ok q' (s <| heap := link_last xs c (heap s) |>) ∧
        ll_head q' = head (xs ++ [c]) ∧ ll_last q' = Some c ∧
        links (link_last xs c (heap s)) (xs ++ [c]).
Proof.
  intros Hnd Hh Hla Hl Hc. unfold ll_push. rewrite Hla.
  assert (links (link_last xs c (heap s)) (xs ++ [c])) as Hl' by by apply links_snoc.
  destruct (last xs) as [y|] eqn:Hy.
  - destruct (links_tcb _ _ _ Hl (last_elem_of _ _ Hy)) as (u & Hu & _).
    exists (q <| ll_last := Some c |>). split; [|split; [|split; [reflexivity|done]]].
    + rewrite (bind_Ok _ _ _ _ _ (read_tcb_Ok _ _ _ Hu)).
      unfold link_last. rewrite Hy, (alter_is_insert _ _ _ _ Hu). reflexivity.
    + simpl. rewrite Hh. by destruct xs.
  - apply last_None in Hy as ->. exists {| ll_head := Some c; ll_last := Some c |}.
    split; [|split; [done|split; done]]. unfold ret, link_last. simpl. by destruct s.
Qed.

(** [push] of the running thread [c] onto what [pop] left of a queue whose only
    thread [x] pointed to [c]. *)
Lemma ll_push_pair s c x t :
  heap s !! x = Some (OTcb t) →
  ll_push {| ll_head := Some c; ll_last := Some x |} c s =
    Ok {| ll_head := Some c; ll_last := Some c |}
       (s <| heap := <[x := OTcb (t <| next := Some c |>)]> (heap s) |>).
Proof.
  intros Hx. unfold ll_push. simpl. by rewrite (bind_Ok _ _ _ _ _ (read_tcb_Ok _ _ _ Hx)).
Qed.

Lemma sched_push_Ok s c q' h' :
  ll_push (runqueue (scheduler s)) c s = Ok q' (s <| heap := h' |>) →
  sched_push c s = Ok tt (s <| heap := h' |> <| scheduler := (scheduler s) <| runqueue := q' |> |>).
Proof.
  intros Hp. unfold sched_push. rewrite (bind_Ok _ _ _ (scheduler s) s) by done.
  by rewrite (bind_Ok _ _ _ _ _ Hp).
Qed.

Lemma sched_Ok s x q' :
  ll_pop (runqueue (scheduler s)) s = Ok (x, q') s →
  sched s = Ok x (s <| scheduler := (scheduler s) <| runqueue := q' |> |>).
Proof.
  intros Hp. unfold sched. rewrite (bind_Ok _ _ _ (scheduler s) s) by done.
  by rewrite (bind_Ok _ _ _ _ _ Hp).
Qed.

Lemma ll_pop_Ok s q x t :
  ll_head q = Some x → heap s !! x = Some (OTcb t) →
  ll_pop q s = Ok (Some x, {| ll_head := next t;
    ll_last := match next t with None => None | Some _ => ll_last q end |}) s.
Proof.
  intros Hh Ht. unfold ll_pop. rewrite Hh.
  rewrite (bind_Ok _ _ _ (next t) s); [done|].
  by rewrite (bind_Ok _ _ _ _ _ (read_tcb_Ok _ _ _ Ht)).
Qed.

(** ** One preemption *)

(** The objects of [h] are still there in [h']; a thread keeps its value
    (registers, status, capabilities), except [x], which has a new time slice. *)
Definition relinked (x : Z) (h h' : gmap Z kobject) : Prop :=
  ∀ a o, h !! a = Some o →
    match o with
    | OTcb t => ∃ t', h' !! a = Some (OTcb t') ∧
        value t' = if decide (a = x) then set_timeout (value t) TASK_QUANTUM else value t
    | _ => h' !! a = Some o
    end.

Definition same_values (h h' : gmap Z kobject) : Prop :=
  ∀ a o, h !! a = Some o →
    match o with
    | OTcb t => ∃ n, h' !! a = Some (OTcb (t <| next := n |>))
    | _ => h' !! a = Some o
    end.

Lemma same_values_refl h : same_values h h.
Proof. intros a o Ho. destruct o as [|[v n]| | | | |]; try done. by exists n. Qed.

Lemma link_last_same xs c h : same_values h (link_last xs c h).
Proof.
  intros a o Ho. destruct (decide (last xs = Some a)) as [Hl|Hl].
  - unfold link_last. rewrite Hl, lookup_alter_eq, Ho. destruct o; simpl; eauto.
  - rewrite link_last_frame by done. by apply same_values_refl.
Qed.

Lemma set_next_same x t n h :
  h !! x = Some (OTcb t) → same_values h (<[x := OTcb (t <| next := n |>)]> h).
Proof.
  intros Hx a o Ho. destruct (decide (x = a)) as [->|].
  - rewrite lookup_insert_eq. simplify_eq. eauto.
  - rewrite lookup_insert_ne by done. by apply same_values_refl.
Qed.

(** What [pop] leaves of the queue [x :: xs]. *)
Definition after_pop (q1 : LinkedList) (c x : Z) (xs : list Z) : Prop :=
  (ll_head q1 = head xs ∧ ll_last q1 = last xs) ∨
  (xs = [] ∧ q1 = {| ll_head := Some c; ll_last := Some x |}).

(** The queue after the running thread [c] was put behind what [pop] left. *)
Lemma requeue s q1 c x xs tx :
  after_pop q1 c x xs → NoDup (c :: x :: xs) → links (heap s) xs →
  (∃ t, heap s !! c = Some (OTcb t) ∧ status (value t) = Runnable) →
  heap s !! x = Some (OTcb tx) → status (value tx) = Runnable →
  (xs = [] → points_at_most (heap s) c x ∧ points_at_most (heap s) x c) →
  ∃ q' h', ll_push q1 c s = Ok q' (s <| heap := h' |>) ∧
    ll_head q' = head (xs ++ [c]) ∧ ll_last q' = Some c ∧ links h' (xs ++ [c]) ∧
    same_values (heap s) h' ∧
    (xs = [] → points_at_most h' x c ∧ points_at_most h' c x) ∧
    (xs ≠ [] → h' !! x = heap s !! x).
Proof.
  intros Hq Hnd Hl Hc Hx Hxs Hpair. apply NoDup_cons in Hnd as [Hcx [Hxx Hnd]%NoDup_cons].
  destruct Hq as [[Hh Hla]|[-> ->]].
  - destruct (ll_push_weak s q1 xs c) as (q' & Hp & Hh' & Hla' & Hl'); [|done..|].
    { apply NoDup_app. split; [done|]. split; [set_solver|apply NoDup_singleton]. }
    exists q', (link_last xs c (heap s)). repeat split; auto using link_last_same.
    + subst xs. by apply Hpair.
    + subst xs. by apply Hpair.
    + intros _. by apply link_last_frame_notin.
  - eexists _, _. split; [by apply ll_push_pair|]. simpl. repeat split; auto using set_next_same.
    + destruct Hc as (t & Ht & Hs). exists t.
      rewrite lookup_insert_ne by set_solver. done.
    + eexists. rewrite lookup_insert_eq. naive_solver.
    + destruct (Hpair eq_refl) as [(t & Ht & Hs & Hn) _]. exists t.
      rewrite lookup_insert_ne by set_solver. done.
    + done.
Qed.

Lemma links_value h x t f xs :
  h !! x = Some (OTcb t) → (∀ v, status (f v) = status v) →
  links h xs → links (<[x := OTcb (t <| value ::= f |>)]> h) xs.
Proof.
  intros Hx Hf. apply links_mono. intros a u _ Ha. destruct (decide (x = a)) as [->|].
  - simplify_eq. rewrite lookup_insert_eq. eexists. split; [done|]. split; [apply Hf|done].
  - rewrite lookup_insert_ne by done. eauto.
Qed.

Lemma points_at_most_value h x t f y z :
  h !! x = Some (OTcb t) → (∀ v, status (f v) = status v) →
  points_at_most h y z → points_at_most (<[x := OTcb (t <| value ::= f |>)]> h) y z.
Proof.
  intros Hx Hf (u & Hu & Hs & Hn). destruct (decide (x = y)) as [->|].
  - simplify_eq. eexists. rewrite lookup_insert_eq. split; [done|]. simpl. by rewrite Hf.
  - exists u. by rewrite lookup_insert_ne.
Qed.

Lemma ring_after_pop s c x xs t :
  ring s c (x :: xs) → heap s !! x = Some (OTcb t) →
  after_pop {| ll_head := next t;
    ll_last := match next t with None => None | Some _ => ll_last (runqueue (scheduler s)) end |}
    c x xs.
Proof.
  intros Hr Ht. destruct (ring_links _ _ _ Hr) as [(t' & Ht' & _ & Hn) _]. simplify_eq.
  pose proof (ring_last _ _ _ Hr) as Hla. destruct xs as [|y xs].
  - destruct (ring_pair _ _ _ Hr) as [_ (t'' & Ht'' & _ & Hn')]. simplify_eq.
    destruct Hn' as [Hn'|Hn']; rewrite Hn'; [by left|right]. by rewrite Hla.
  - left. rewrite Hn. by rewrite Hla.
Qed.

Section Layout.
Context `{KernelLayout}.

Lemma schedule_pick_ring s c x xs :
  ring s c (x :: xs) →
  ∃ s1 q' h', schedule_pick s = Ok (Some x) s1 ∧
    s1 = s <| heap := h' |> <| scheduler := (scheduler s) <| runqueue := q' |> |> ∧
    relinked x (heap s) h' ∧ ring (s1 <| current_proc := x |>) x (xs ++ [c]) ∧
    (xs ≠ [] → ∃ t, heap s !! x = Some (OTcb t) ∧
       h' !! x = Some (OTcb (t <| value ::= λ v, set_timeout v TASK_QUANTUM |>))).
Proof.
  intros Hr. pose proof Hr as [Hcur Hnd Hh Hla Hl (tc & Htc & Hsc) Hpair].
  destruct Hl as [(tx & Htx & Hsx & Hnx) Hl].
  pose proof (ring_after_pop _ _ _ _ _ Hr Htx) as Hq1.
  unfold schedule_pick. rewrite (bind_Ok _ _ _ _ _ (sched_Ok _ _ _ (ll_pop_Ok _ _ _ _ Hh Htx))).
  set (q1 := Build_LinkedList _ _) in *.
  set (f := λ t, set_timeout t TASK_QUANTUM).
  set (s1 := s <| scheduler := _ |>).
  assert (heap s1 !! x = Some (OTcb tx)) as Htx1 by done.
  rewrite (bind_Ok _ _ _ _ _ (modify_tcb_Ok _ _ f _ Htx1)).
  set (s2 := s1 <| heap := _ |>).
  assert (c ≠ x) as Hne by (apply NoDup_cons in Hnd as [? _]; set_solver).
  assert (heap s2 !! c = Some (OTcb tc)) as Htc2.
  { subst s2. rewrite heap_set, lookup_insert_ne by done. done. }
  assert (heap s2 !! x = Some (OTcb (tx <| value ::= f |>))) as Htx2.
  { subst s2. by rewrite heap_set, lookup_insert_eq. }
  rewrite (bind_Ok _ _ _ c s2) by by unfold gets; simpl; rewrite Hcur.
  rewrite (bind_Ok _ _ _ _ _ (read_tcb_Ok _ _ _ Htc2)).
  unfold is_runnable. rewrite bool_decide_eq_true_2 by done.
  destruct (requeue s2 q1 c x xs (tx <| value ::= f |>)) as (q' & h' & Hp & Hh' & Hla' & Hl' & Hsv & Hpair' & Hnx');
    [done|done|by apply links_value|by exists tc|done|done| |].
  { intros ->. destruct Hpair. split; by apply points_at_most_value. }
  assert (relinked x (heap s) h') as Hrel.
  { intros a o Ho. destruct (decide (a = x)) as [->|Hax].
    - simplify_eq. specialize (Hsv x _ Htx2) as (n & Hn). eexists. done.
    - assert (heap s2 !! a = Some o) as Ho2 by (subst s2; rewrite heap_set, lookup_insert_ne; done).
      specialize (Hsv a o Ho2). destruct o; [done| |done..].
      destruct Hsv as (n & Hn). eexists. split; [done|]. done. }
  rewrite (bind_Ok _ _ _ _ _ (sched_push_Ok _ _ _ _ Hp)).
  eexists _, q', h'. split; [reflexivity|]. split; [reflexivity|]. split; [done|].
  destruct (Hrel x _ Htx) as (tx' & Htx' & Hvx').
  split; [|intros Hxs; exists tx; split; [done|by rewrite Hnx']]. split; simpl.
  - done.
  - apply NoDup_cons in Hnd as [Hcx [Hxx Hnd]%NoDup_cons]. apply NoDup_cons. split; [set_solver|].
    apply NoDup_app. split; [done|]. split; [set_solver|apply NoDup_singleton].
  - done.
  - by rewrite last_snoc.
  - done.
  - exists tx'. rewrite Hvx'. rewrite decide_True by done. done.
  - destruct xs as [|y [|]]; [|done..]. simpl. destruct (Hpair' eq_refl). done.
Qed.

(** The second half of [schedule]. *)
Lemma schedule_switch s x s1 t :
  requested (scheduler s) = true → schedule_pick s = Ok (Some x) s1 →
  heap s1 !! x = Some (OTcb t) →
  schedule s = Ok tt (switch_to x (vspace_satp t) s1).
Proof.
  intros Hq Hp Ht. unfold schedule. rewrite (bind_Ok _ _ _ (scheduler s) s) by done.
  rewrite Hq. simpl. rewrite (bind_Ok _ _ _ _ _ Hp).
  by rewrite (bind_Ok _ _ _ _ _ (activate_vspace_Ok _ _ _ Ht)).
Qed.

Lemma ring_switch s x xs t s1 :
  ring (s1 <| current_proc := x |>) x xs → s = switch_to x (vspace_satp t) s1 → ring s x xs.
Proof. intros [] ->. split; done. Qed.

(** [switched s s' x]: [x] was switched to, and nothing but the links of the
    queue and [x]'s time slice changed in memory. *)
Record switched (s s' : KState) (x : Z) : Prop := {
  sw_reg_base : cur_reg_base (cpu_var s') = x;
  sw_satp : ∃ t, heap s' !! x = Some (OTcb t) ∧ satp s' = vspace_satp t ∧
                 time_slice (value t) = TASK_QUANTUM;
  sw_requested : requested (scheduler s') = false;
  sw_memory : relinked x (heap s) (heap s');
}.

Lemma schedule_ring s c x xs :
  ring s c (x :: xs) → requested (scheduler s) = true →
  ∃ s', schedule s = Ok tt s' ∧ ring s' x (xs ++ [c]) ∧ switched s s' x ∧
    (xs ≠ [] → ∃ t, heap s !! x = Some (OTcb t) ∧
       heap s' !! x = Some (OTcb (t <| value ::= λ v, set_timeout v TASK_QUANTUM |>))).
Proof.
  intros Hr Hq. destruct (schedule_pick_ring _ _ _ _ Hr) as (s1 & q' & h' & Hp & Hs1 & Hrel & Hr' & Hnx).
  destruct (ring_links _ _ _ Hr) as [(tx & Htx & _) _].
  destruct (Hrel _ _ Htx) as (t & Ht & Hv). rewrite decide_True in Hv by done.
  assert (heap s1 !! x = Some (OTcb t)) as Ht1 by by subst s1.
  eexists. split; [by apply (schedule_switch _ _ _ _ Hq Hp Ht1)|].
  split; [by eapply ring_switch|]. split; [|by subst s1]. split; simpl.
  - done.
  - exists t. by rewrite Hv.
  - done.
  - by subst s1.
Qed.

(** With nothing in the queue and a runnable current thread, [schedule] only
    renews its time slice; the request stays pending. *)
Lemma schedule_alone s c t :
  requested (scheduler s) = true → current_proc s = c → ll_head (runqueue (scheduler s)) = None →
  ll_last (runqueue (scheduler s)) = None →
  heap s !! c = Some (OTcb t) → status (value t) = Runnable →
  schedule s = Ok tt (s <| heap := <[c := OTcb (t <| value ::= λ v, set_timeout v TASK_QUANTUM |>)]> (heap s) |>).
Proof.
  intros Hq Hc Hh Hla Ht Hs. unfold schedule. rewrite (bind_Ok _ _ _ (scheduler s) s) by done.
  rewrite Hq. simpl. unfold schedule_pick.
  assert (ll_pop (runqueue (scheduler s)) s = Ok (None, runqueue (scheduler s)) s) as Hp.
  { unfold ll_pop. rewrite Hh. destruct (runqueue (scheduler s)) as [hd la]. simpl in *. by subst. }
  assert (sched s = Ok None s) as Hsched.
  { rewrite (sched_Ok _ _ _ Hp). f_equal. by destruct s as [? [] ?]. }
  rewrite !bind_assoc. rewrite (bind_Ok _ _ _ _ _ Hsched).
  rewrite !bind_assoc. rewrite (bind_Ok _ _ _ c s) by by unfold gets; rewrite Hc.
  rewrite !bind_assoc. rewrite (bind_Ok _ _ _ _ _ (read_tcb_Ok _ _ _ Ht)).
  unfold is_runnable. rewrite bool_decide_eq_true_2 by done.
  rewrite !bind_assoc. by rewrite (bind_Ok _ _ _ _ _ (modify_tcb_Ok _ _ _ _ Ht)).
Qed.

Lemma rotate_S_cons {A} n (c : A) l : rotate (S n) (c :: l) = rotate n (l ++ [c]).
Proof.
  unfold rotate. rewrite length_app. cbn [length]. rewrite Nat.add_1_r.
  set (m := length l). pose proof (Nat.mod_upper_bound n (S m) ltac:(lia)) as Hr.
  assert ((S n) `mod` S m = if decide (n `mod` S m = m) then 0%nat else S (n `mod` S m))%nat as ->.
  { rewrite <- Nat.add_1_l, <- Nat.Div0.add_mod_idemp_r, Nat.add_1_l. case_decide as Hd.
    - rewrite Hd. apply Nat.Div0.mod_same.
    - apply Nat.mod_small. lia. }
  rewrite drop_app_le, take_app_le by lia. rewrite <- app_assoc. case_decide as Hd.
  - rewrite Hd. subst m. rewrite drop_all, firstn_all. simpl. by rewrite app_nil_r.
  - done.
Qed.

(** A preemption: the timer (or a call that requests it) and then [schedule]. *)
Definition preempt : K unit := require_schedule ;;; schedule.
Fixpoint preemptions (n : nat) : K unit :=
  match n with O => ret tt | S n => preempt ;;; preemptions n end.

Lemma preempt_ring s c xs :
  ring s c xs →
  ∃ s' , preempt s = Ok tt s' ∧
    match xs with [] => ring s' c [] | x :: xs => ring s' x (xs ++ [c]) end.
Proof.
  intros Hr. unfold preempt. rewrite (bind_Ok _ _ _ tt _) by reflexivity.
  set (s1 := s <| scheduler := _ |>).
  assert (ring s1 c xs) as Hr1 by (by destruct Hr; split).
  destruct xs as [|x xs].
  - destruct Hr1 as [Hcur Hnd Hh Hla Hl (t & Ht & Hs) _].
    rewrite (schedule_alone s1 c t) by done. eexists. split; [reflexivity|].
    split; simpl; try done. eexists. rewrite lookup_insert_eq. done.
  - destruct (schedule_ring s1 c x xs Hr1) as (s' & ? & ? & _); [done|]. eauto.
Qed.

(** C2: preemptive scheduling is round robin. From a state where [c] runs and
    [xs] wait in the run queue ([ring]), after [n] preemptions the ring of
    threads is rotated [n] times: every one of the [k] runnable threads runs in
    turn, once in [k] preemptions, and none is lost. [pop] leaves the link of
    the thread it takes, so stale links are part of the condition: with no
    waiting thread, or with two or more, the links of the running and of the
    last waiting thread may be anything; with exactly one waiting thread, each
    of the two must be linked to the other or to nothing. With one waiting
    thread whose link goes to a third thread the rotation fails, as the third
    thread is brought into the queue ([stale_link_scheduled]). *)
Theorem round_robin n s c xs :
  ring s c xs →
  ∃ s' c' xs', preemptions n s = Ok tt s' ∧ ring s' c' xs' ∧ c' :: xs' = rotate n (c :: xs).
Proof.
  revert s c xs. induction n as [|n IH]; intros s c xs Hr.
  - exists s, c, xs. split; [done|]. split; [done|]. unfold rotate. rewrite Nat.mod_0_l by done. by rewrite drop_0, take_0, app_nil_r.
  - destruct (preempt_ring _ _ _ Hr) as (s1 & Hp & Hr1). simpl.
    rewrite (bind_Ok _ _ _ _ _ Hp). destruct xs as [|x xs].
    + destruct (IH _ _ _ Hr1) as (s' & c' & xs' & Hps & Hr' & Hrot).
      exists s', c', xs'. split; [done|]. split; [done|]. rewrite Hrot.
      unfold rotate. cbn [length]. by rewrite !Nat.mod_1_r.
    + destruct (IH _ _ _ Hr1) as (s' & c' & xs' & Hps & Hr' & Hrot).
      exists s', c', xs'. split; [done|]. split; [done|]. rewrite Hrot.
      by rewrite rotate_S_cons.
Qed.

(** ** Stale links *)

(** A thread is in memory at [a]. *)
Definition is_tcb (h : gmap Z kobject) (a : Z) : Prop := ∃ t, h !! a = Some (OTcb t).

Lemma relinked_compose x t h h' :
  h !! x = Some (OTcb t) →
  same_values (<[x := OTcb (t <| value ::= λ v, set_timeout v TASK_QUANTUM |>)]> h) h' → relinked x h h'.
Proof.
  intros Hx Hsv a o Ho. destruct (decide (a = x)) as [->|Hax].
  - simplify_eq. destruct (Hsv x _ (lookup_insert_eq _ _ _)) as (n & Hn). eexists. done.
  - assert (<[x := OTcb (t <| value ::= λ v, set_timeout v TASK_QUANTUM |>)]> h !! a = Some o) as Ho2
      by by rewrite lookup_insert_ne.
    specialize (Hsv a o Ho2). destruct o; [done| |done..].
    destruct Hsv as (n & Hn). by eexists.
Qed.

Lemma relinked_tcb x h h' a : relinked x h h' → is_tcb h a → is_tcb h' a.
Proof. intros Hr (t & Ht). destruct (Hr _ _ Ht) as (t' & Ht' & _). by exists t'. Qed.

(** What [pop] leaves of a queue with head [x] and last thread [y]. *)
Definition popped (tx : ThreadControlBlock) (y : Z) : LinkedList :=
  {| ll_head := next tx; ll_last := match next tx with None => None | Some _ => Some y end |}.

(** When the popped thread is linked to [z], [z] heads the queue [q]. *)
Definition linked_head (tx : ThreadControlBlock) (h : gmap Z kobject) (q : LinkedList) : Prop :=
  ∀ z, next tx = Some z → ll_head q = Some z ∧ ∃ w, ll_last q = Some w ∧ is_tcb h w.

Lemma push_popped s tx y c :
  is_tcb (heap s) y → is_tcb (heap s) c →
  ∃ q' h', ll_push (popped tx y) c s = Ok q' (s <| heap := h' |>) ∧
    same_values (heap s) h' ∧ linked_head tx h' q'.
Proof.
  intros (ty & Hty) (tc & Htc). unfold ll_push, popped, linked_head. simpl. destruct (next tx) as [z|].
  - rewrite (bind_Ok _ _ _ _ _ (read_tcb_Ok _ _ _ Hty)).
    eexists _, _. split; [reflexivity|]. split; [by apply set_next_same|].
    intros z' [= ->]. split; [done|]. exists c. split; [done|].
    unfold is_tcb. destruct (decide (y = c)) as [->|].
    + rewrite lookup_insert_eq. by eexists.
    + rewrite lookup_insert_ne by done. by exists tc.
  - exists {| ll_head := Some c; ll_last := Some c |}, (heap s). split; [by rewrite heap_set_id|].
    split; [apply same_values_refl|done].
Qed.

(** [schedule_pick] takes the head [x] of any queue, whatever its status. *)
Lemma schedule_pick_takes s c x y tx :
  current_proc s = c → is_tcb (heap s) c → c ≠ x → heap s !! x = Some (OTcb tx) →
  runqueue (scheduler s) = {| ll_head := Some x; ll_last := Some y |} → is_tcb (heap s) y →
  ∃ q' h', schedule_pick s = Ok (Some x) (s <| heap := h' |> <| scheduler := (scheduler s) <| runqueue := q' |> |>) ∧
    relinked x (heap s) h' ∧ linked_head tx h' q'.
Proof.
  intros Hcur (tc & Htc) Hne Htx Hq (ty & Hty). unfold schedule_pick.
  set (h1 := <[x := OTcb (tx <| value ::= λ v, set_timeout v TASK_QUANTUM |>)]> (heap s)).
  assert (ll_pop (runqueue (scheduler s)) s = Ok (Some x, popped tx y) s) as Hpop.
  { rewrite Hq. exact (ll_pop_Ok s {| ll_head := Some x; ll_last := Some y |} x tx eq_refl Htx). }
  rewrite (bind_Ok _ _ _ _ _ (sched_Ok _ _ _ Hpop)). set (s1 := s <| scheduler := _ |>).
  rewrite (bind_Ok _ _ _ _ _ (modify_tcb_Ok x tx (λ t, set_timeout t TASK_QUANTUM) s1 Htx)).
  change (heap s1) with (heap s). fold h1. set (s2 := s1 <| heap := h1 |>).
  rewrite (bind_Ok _ _ _ c s2) by by unfold gets; simpl; rewrite Hcur.
  assert (h1 !! c = Some (OTcb tc)) as Htc2 by by unfold h1; rewrite lookup_insert_ne.
  rewrite (bind_Ok _ _ _ _ _ (read_tcb_Ok c tc s2 Htc2)).
  assert (is_tcb h1 y) as Hy1.
  { unfold h1, is_tcb. destruct (decide (x = y)) as [->|]; [rewrite lookup_insert_eq; by eexists|].
    rewrite lookup_insert_ne by done. by exists ty. }
  destruct (is_runnable (value tc)).
  - destruct (push_popped s2 tx y c) as (q' & h' & Hp & Hsv & Hz); [done|by exists tc|].
    rewrite (bind_Ok _ _ _ _ _ (sched_push_Ok _ _ _ _ Hp)).
    exists q', h'. split; [reflexivity|]. split; [by eapply relinked_compose|done].
  - exists (popped tx y), h1. split; [reflexivity|].
    split; [eapply relinked_compose; [done|apply same_values_refl]|].
    intros z Hz. unfold popped. simpl. rewrite Hz. eauto.
Qed.

(** What a preemption does with any queue: the head [x] runs, whatever its
    status, and the thread that [x]'s link names is the next head, whether or
    not it is waiting. *)
Lemma preempt_takes s c x y tx :
  current_proc s = c → is_tcb (heap s) c → c ≠ x → heap s !! x = Some (OTcb tx) →
  runqueue (scheduler s) = {| ll_head := Some x; ll_last := Some y |} → is_tcb (heap s) y →
  ∃ s', preempt s = Ok tt s' ∧ current_proc s' = x ∧ switched s s' x ∧
    linked_head tx (heap s') (runqueue (scheduler s')).
Proof.
  intros Hcur Hc Hne Htx Hq Hy. unfold preempt. rewrite (bind_Ok _ _ _ tt _) by reflexivity.
  set (s0 := s <| scheduler := _ |>).
  destruct (schedule_pick_takes s0 c x y tx) as (q' & h' & Hpick & Hrel & Hz); [done..|].
  destruct (Hrel _ _ Htx) as (t & Ht & Hv). rewrite decide_True in Hv by done.
  eexists. split; [by apply (schedule_switch s0 _ _ t eq_refl Hpick)|].
  split; [done|]. split; [|exact Hz]. split; simpl; try done. exists t. by rewrite Hv.
Qed.

(** A thread of the queue brings the thread it is linked to into the processor:
    when [x] is the last waiting thread and its link names [z], the second
    preemption runs [z], with the status it has, waiting or not. *)
Lemma stale_link_scheduled s c x z tx tz :
  current_proc s = c → is_tcb (heap s) c → c ≠ x → z ≠ x →
  runqueue (scheduler s) = {| ll_head := Some x; ll_last := Some x |} →
  heap s !! x = Some (OTcb tx) → next tx = Some z → heap s !! z = Some (OTcb tz) →
  ∃ s1 s2, preempt s = Ok tt s1 ∧ current_proc s1 = x ∧
    preempt s1 = Ok tt s2 ∧ current_proc s2 = z ∧ cur_reg_base (cpu_var s2) = z ∧
    ∃ t, heap s2 !! z = Some (OTcb t) ∧ satp s2 = vspace_satp t ∧
         value t = set_timeout (value tz) TASK_QUANTUM.
Proof.
  intros Hcur Hc Hcx Hzx Hq Htx Hn Htz.
  destruct (preempt_takes s c x x tx) as (s1 & Hp1 & Hcur1 & Hsw1 & Hz1); try done; [by exists tx|].
  destruct (Hz1 z Hn) as [Hh1 (w & Hla1 & Hw1)].
  destruct (sw_memory _ _ _ Hsw1 _ _ Htz) as (tz1 & Htz1 & Hv1). rewrite decide_False in Hv1 by done.
  destruct (preempt_takes s1 x z w tz1) as (s2 & Hp2 & Hcur2 & Hsw2 & _); try done.
  { eapply relinked_tcb; [apply Hsw1|by exists tx]. }
  { destruct (runqueue (scheduler s1)). by simplify_eq/=. }
  exists s1, s2. split_and!; try done; [apply Hsw2|].
  destruct (sw_memory _ _ _ Hsw2 _ _ Htz1) as (t & Ht & Hv). rewrite decide_True in Hv by done.
  destruct (sw_satp _ _ _ Hsw2) as (t' & Ht' & Hsat & _). simplify_eq.
  exists t. split_and!; [done|done|congruence].
Qed.

(** ** Time slices *)

(** What [timer_tick] does to the running thread. *)
Definition dec_slice (v : ThreadInfo) : ThreadInfo := v <| time_slice := time_slice v - 1 |>.

Lemma timer_tick_Ok s c t :
  current_proc s = c → c ≠ IDLE_THREAD → heap s !! c = Some (OTcb t) → 0 < time_slice (value t) →
  let s1 := s <| heap := <[c := OTcb (t <| value ::= dec_slice |>)]> (heap s) |> in
  timer_tick s =
    Ok tt (if time_slice (value t) =? 1
           then s1 <| scheduler := (scheduler s) <| requested := true |> |> else s1).
Proof.
  intros Hc Hid Ht Hts s1. unfold timer_tick.
  rewrite (bind_Ok _ _ _ c s) by by unfold gets; rewrite Hc.
  rewrite (proj2 (Z.eqb_neq _ _)) by done.
  rewrite (bind_Ok _ _ _ _ _ (read_tcb_Ok _ _ _ Ht)).
  rewrite (bind_Ok _ _ _ _ _ (usize_sub_Ok (time_slice (value t)) 1 s ltac:(lia))).
  rewrite (bind_Ok _ _ _ _ _ (modify_tcb_Ok _ _ _ _ Ht)).
  destruct (Z.eqb_spec (time_slice (value t)) 1) as [E|E].
  - rewrite (proj2 (Z.eqb_eq _ _)) by lia. done.
  - rewrite (proj2 (Z.eqb_neq _ _)) by lia. done.
Qed.

Lemma ring_value s c xs t f :
  ring s c xs → heap s !! c = Some (OTcb t) → (∀ v, status (f v) = status v) →
  ring (s <| heap := <[c := OTcb (t <| value ::= f |>)]> (heap s) |>) c xs.
Proof.
  intros [Hcur Hnd Hh Hla Hl (t' & Ht' & Hs) Hpair] Ht Hf. simplify_eq. split; try done.
  - by apply links_value.
  - eexists. rewrite heap_set, lookup_insert_eq. split; [done|]. simpl. by rewrite Hf.
  - destruct xs as [|x [|]]; [done| |done]. destruct Hpair.
    split; by apply points_at_most_value.
Qed.

(** The running thread is an ordinary one, with [k] ticks left. *)
Record running (s : KState) (c : Z) (xs : list Z) (k : Z) : Prop := {
  rn_ring : ring s c xs;
  rn_slice : ∃ t, heap s !! c = Some (OTcb t) ∧ time_slice (value t) = k;
  rn_user : c ≠ IDLE_THREAD;
}.

Definition tick : K unit := timer_tick ;;; schedule.

(** A tick that is not the last of the quantum does not switch, when no switch
    was requested before it. *)
Lemma tick_within s c xs k :
  running s c xs k → requested (scheduler s) = false → 1 < k →
  ∃ s', tick s = Ok tt s' ∧ running s' c xs (k - 1) ∧ requested (scheduler s') = false.
Proof.
  intros [Hr (t & Ht & Hk) Hid] Hq Hk1. unfold tick.
  rewrite (bind_Ok _ _ _ _ _ (timer_tick_Ok s c t (ring_current _ _ _ Hr) Hid Ht ltac:(lia))).
  rewrite (proj2 (Z.eqb_neq _ _)) by lia. set (s1 := s <| heap := _ |>).
  exists s1. split; [|split; [|done]].
  - unfold schedule. rewrite (bind_Ok _ _ _ (scheduler s) s1) by done. by rewrite Hq.
  - split; [by apply ring_value| |done].
    eexists. subst s1. rewrite heap_set, lookup_insert_eq. split; [done|]. simpl. lia.
Qed.

(** The last tick of the quantum, and any tick after a request, switches to the
    next thread of the ring and leaves no request. *)
Lemma tick_switches s c x xs k :
  running s c (x :: xs) k → 0 < k → requested (scheduler s) = true ∨ k = 1 → x ≠ IDLE_THREAD →
  ∃ s', tick s = Ok tt s' ∧ running s' x (xs ++ [c]) TASK_QUANTUM ∧ requested (scheduler s') = false.
Proof.
  intros [Hr (t & Ht & Hk) Hid] Hk0 Hq Hx. unfold tick.
  rewrite (bind_Ok _ _ _ _ _ (timer_tick_Ok s c t (ring_current _ _ _ Hr) Hid Ht ltac:(lia))).
  pose proof (ring_value s c (x :: xs) t dec_slice Hr Ht (λ _, eq_refl)) as Hr1.
  match goal with |- context [schedule ?st] => set (s1 := st) end.
  assert (ring s1 c (x :: xs) ∧ requested (scheduler s1) = true) as [Hr1' Hq1].
  { subst s1. destruct (Z.eqb_spec (time_slice (value t)) 1) as [E|E].
    - split; [|done]. by destruct Hr1; split.
    - split; [done|]. destruct Hq as [Hq|Hq]; [done|congruence]. }
  destruct (schedule_ring s1 c x xs Hr1' Hq1) as (s' & Hs' & Hr' & [Hb (t' & Ht' & Hsat & Hts) Hreq Hm] & _).
  exists s'. split; [done|]. split; [|done]. split; try done. by exists t'.
Qed.

Fixpoint ticks (n : nat) : K unit :=
  match n with O => ret tt | S n => tick ;;; ticks n end.

Lemma ticks_within n s c xs k :
  running s c xs k → requested (scheduler s) = false → Z.of_nat n < k →
  ∃ s', ticks n s = Ok tt s' ∧ running s' c xs (k - Z.of_nat n) ∧ requested (scheduler s') = false.
Proof.
  revert s k. induction n as [|n IH]; intros s k Hr Hq Hn.
  - exists s. split; [done|]. by replace (k - Z.of_nat 0) with k by lia.
  - destruct (tick_within _ _ _ _ Hr Hq) as (s1 & H1 & Hr1 & Hq1); [lia|]. simpl.
    rewrite (bind_Ok _ _ _ _ _ H1). destruct (IH s1 (k - 1) Hr1 Hq1) as (s' & Hs' & Hr' & Hq'); [lia|].
    exists s'. split; [done|]. by replace (k - Z.of_nat (S n)) with (k - 1 - Z.of_nat n) by lia.
Qed.

Lemma ticks_S n : ∀ s, ticks (S n) s = (ticks n ;;; tick) s.
Proof.
  induction n as [|n IH]; intros s.
  - simpl. unfold bind, ret. destruct (tick s) as [[] ?| | | |]; done.
  - change (ticks (S (S n))) with (tick ;;; ticks (S n)).
    change (ticks (S n) ;;; tick) with ((tick ;;; ticks n) ;;; tick). rewrite bind_assoc.
    apply bind_proper; [done|]. intros _ s1. apply IH.
Qed.

(** The ticks until the running thread of slice [k] is preempted: [schedule]
    leaves a request pending when it finds the queue empty, and a thread queued
    after that is switched to at the next tick. *)
Definition ticks_left (s : KState) (k : Z) : Z := if requested (scheduler s) then 1 else k.

(** C26: a time slice lasts exactly as long as it says, unless a request is
    pending. Let [c] run with [k > 0] ticks left, [x :: xs] wait (with [xs]
    empty, [c] and [x] are linked to each other or to nothing, as in [ring]),
    and neither [c] nor [x] be the idle thread. With no request pending, while
    [j < k] ticks have passed the same thread runs, with [k - j] left, and the
    [k]-th tick hands the processor to [x]. With a request pending the first
    tick does so, whatever is left of the slice. Either way [x] starts a full
    quantum of [TASK_QUANTUM] ticks with no request pending, and [c] queues up
    last. *)
Theorem quantum_round s c x xs k :
  running s c (x :: xs) k → 0 < k → x ≠ IDLE_THREAD →
  (∀ j, Z.of_nat j < ticks_left s k →
     ∃ s', ticks j s = Ok tt s' ∧ running s' c (x :: xs) (k - Z.of_nat j) ∧
           requested (scheduler s') = requested (scheduler s)) ∧
  ∃ s', ticks (Z.to_nat (ticks_left s k)) s = Ok tt s' ∧
        running s' x (xs ++ [c]) TASK_QUANTUM ∧ requested (scheduler s') = false.
Proof.
  intros Hr Hk Hx. unfold ticks_left. destruct (requested (scheduler s)) eqn:Hq.
  - split.
    + intros j Hj. exists s. assert (j = 0)%nat as -> by lia. by rewrite Z.sub_0_r.
    + destruct (tick_switches _ _ _ _ _ Hr Hk (or_introl Hq) Hx) as (s' & Hs' & Hr').
      exists s'. split; [|done]. change (Z.to_nat 1) with 1%nat. cbn [ticks].
      by rewrite (bind_Ok _ _ _ _ _ Hs').
  - split; [intros j Hj; by apply ticks_within|].
    destruct (ticks_within (Z.to_nat (k - 1)) _ _ _ _ Hr Hq) as (s1 & Hs1 & Hr1 & Hq1); [lia|].
    replace (k - Z.of_nat (Z.to_nat (k - 1))) with 1 in Hr1 by lia.
    destruct (tick_switches _ _ _ _ _ Hr1 ltac:(lia) (or_intror eq_refl) Hx) as (s' & Hs' & Hr').
    exists s'. split; [|done].
    replace (Z.to_nat k) with (S (Z.to_nat (k - 1))) by lia.
    rewrite ticks_S. by rewrite (bind_Ok _ _ _ _ _ Hs1).
Qed.

(** The other branches of [schedule]. Without a request nothing
    changes; with an empty queue a runnable thread keeps running with a new
    quantum, and otherwise the idle thread is switched to. *)
Lemma schedule_no_switch s c t ti :
  current_proc s = c → heap s !! c = Some (OTcb t) → heap s !! IDLE_THREAD = Some (OTcb ti) →
  runqueue (scheduler s) = LinkedList_new →
  schedule s =
    if negb (requested (scheduler s)) then Ok tt s
    else if is_runnable (value t) then
      Ok tt (s <| heap := <[c := OTcb (t <| value ::= λ v, set_timeout v TASK_QUANTUM |>)]> (heap s) |>)
    else Ok tt (switch_to IDLE_THREAD (vspace_satp ti) s).
Proof.
  intros Hc Ht Hti Hq. destruct (requested (scheduler s)) eqn:Hreq; simpl.
  2: { unfold schedule. rewrite (bind_Ok _ _ _ (scheduler s) s) by done. by rewrite Hreq. }
  destruct (is_runnable (value t)) eqn:Hrun.
  - apply bool_decide_eq_true_1 in Hrun. apply schedule_alone; try done; by rewrite Hq.
  - apply schedule_switch; [done| |done]. unfold schedule_pick.
    assert (sched s = Ok None s) as Hsched.
    { rewrite (sched_Ok s None LinkedList_new) by by rewrite Hq.
      destruct s as [? [q r] ?]. simpl in *. by subst. }
    rewrite (bind_Ok _ _ _ _ _ Hsched).
    rewrite (bind_Ok _ _ _ c s) by by unfold gets; rewrite Hc.
    rewrite (bind_Ok _ _ _ _ _ (read_tcb_Ok _ _ _ Ht)). by rewrite Hrun.
Qed.
End Layout.
