(* ===== verification/Ipc.v ===== *)
(** * Inter-process communication

    Endpoints ([kernel/src/object/endpoint.rs],
    [kernel/src/capability/endpoint.rs]) and notifications
    ([kernel/src/object/notification.rs],
    [kernel/src/capability/notification.rs]): rendezvous of senders and
    receivers, and asynchronous signals. *)

From S2P Require Import Prelude Shared Address Objects Riscv LinkedList Capability PageTable CNode.
From S2P Require Import Thread RoundRobin.

(** ** Endpoints *)

(** [wake_up_thread] and [block_thread] (the same in both files). *)
Definition wake_up_thread (tcb : Z) : K unit :=
  let* t := read_tcb tcb in
  rassert (next_is_none t) ;;;
  resume tcb.
Definition block_thread (tcb : Z) : K unit :=
  let* t := read_tcb tcb in
  rassert (next_is_none t) ;;;
  modify_tcb tcb thread_suspend.

Definition is_idle (e : Endpoint) : bool := bool_decide (e.(ep_state) = EpStIdel).

(** [Endpoint::pop_from_queue] *)
Definition pop_from_queue (self : Z) (state : EndpointState) : K (option Z) :=
  let* e := read_endpoint self in
  let e := if is_idle e then e <| ep_state := state |> else e in
  write_endpoint self e ;;;
  if bool_decide (e.(ep_state) = state) then ret None
  else
    let* '(r, q) := ll_pop e.(queue) in
    let e := e <| queue := q |> in
    write_endpoint self (if ll_is_empty q then e <| ep_state := EpStIdel |> else e) ;;;
    ret r.

Definition push_to_queue (self thread : Z) : K unit :=
  let* e := read_endpoint self in
  let* q := ll_push e.(queue) thread in
  write_endpoint self (e <| queue := q |>).

(** [Endpoint::send] and [Endpoint::recv]: whether [thread] has to wait. *)
Definition ep_send (self thread : Z) : K bool :=
  let* reciever := pop_from_queue self EpStSend in
  match reciever with
  | Some reciever_thread =>
      let* t := read_tcb thread in
      set_ipc_msg reciever_thread (ipc_buffer_ref t.(value)) ;;;
      modify_tcb reciever_thread (λ v, v <| registers ::= λ r, r <| a1 := badge t.(value) |> |>) ;;;
      wake_up_thread reciever_thread ;;;
      ret false
  | None =>
      block_thread thread ;;;
      push_to_queue self thread ;;;
      ret true
  end.
Definition ep_recv (self thread : Z) : K bool :=
  let* sender := pop_from_queue self EpStRecv in
  match sender with
  | Some send_thread =>
      let* t := read_tcb send_thread in
      set_ipc_msg thread (ipc_buffer_ref t.(value)) ;;;
      modify_tcb thread (λ v, v <| registers ::= λ r, r <| a1 := badge t.(value) |> |>) ;;;
      wake_up_thread send_thread ;;;
      ret false
  | None =>
      block_thread thread ;;;
      push_to_queue self thread ;;;
      ret true
  end.

(** [EndPointCap] *)
Definition ep_cap_send (self : CapabilityData) (tcb : Z) : K bool :=
  modify_tcb tcb (λ v, v <| badge := self.(cap_dep_val) |>) ;;;
  ep_send (cap_kva self) tcb.
Definition ep_cap_recv (self : CapabilityData) (tcb : Z) : K bool := ep_recv (cap_kva self) tcb.
Definition ep_derive (self : CapabilityData) : K CapabilityData :=
  ret ((cap_replicate self) <| cap_dep_val := 0 |>).
Definition EndPointCap `{KernelLayout} : Capability := {|
  CAP_TYPE := CapabilityType.EndPoint;
  create_cap_dep_val := default_create_cap_dep_val;
  get_object_size := λ _, ret size_of_endpoint;
  align_of_object := align_of_endpoint;
  can_be_retyped_from_device_memory := false;
  derive := ep_derive;
  init_object := λ self, write_endpoint (cap_kva self) Endpoint_new;
|}.

(** ** Notifications *)

(** [Notification::send_signal] *)
Definition send_signal (self val : Z) : K unit :=
  let* n := read_notification self in
  let* '(r, q) := ll_pop n.(wait_queue) in
  write_notification self (n <| wait_queue := q |>) ;;;
  match r with
  | Some wait_thread =>
      modify_tcb wait_thread (λ v, v <| registers ::= λ r, r <| a1 := val |> |>) ;;;
      wake_up_thread wait_thread
  | None =>
      let* n := read_notification self in
      write_notification self
        (n <| bit_is_set := true |> <| notify_bit := Z.lor n.(notify_bit) val |>)
  end.

(** [Notification::wait_signal] *)
Definition wait_signal (self thread : Z) : K bool :=
  let* n := read_notification self in
  if n.(bit_is_set) then
    modify_tcb thread (λ v, v <| registers ::= λ r, r <| a1 := n.(notify_bit) |> |>) ;;;
    write_notification self (n <| notify_bit := 0 |> <| bit_is_set := false |>) ;;;
    ret false
  else
    block_thread thread ;;;
    let* n := read_notification self in
    let* q := ll_push n.(wait_queue) thread in
    write_notification self (n <| wait_queue := q |>) ;;;
    ret true.

(** [NotificationCap] *)
Definition notify_cap_send (self : CapabilityData) : K unit :=
  send_signal (cap_kva self) self.(cap_dep_val).
Definition notify_cap_wait (self : CapabilityData) (tcb : Z) : K bool :=
  wait_signal (cap_kva self) tcb.
Definition notification_derive (self : CapabilityData) : K CapabilityData :=
  ret ((cap_replicate self) <| cap_dep_val := 0 |>).
Definition NotificationCap `{KernelLayout} : Capability := {|
  CAP_TYPE := CapabilityType.Notification;
  create_cap_dep_val := λ _ _, ret 0;
  get_object_size := λ _, ret size_of_notification;
  align_of_object := align_of_notification;
  can_be_retyped_from_device_memory := false;
  derive := notification_derive;
  init_object := λ self, write_notification (cap_kva self) Notification_new;
|}.

(** ** What an endpoint promises *)

(** The abstract endpoint: nobody waits, or senders do, or receivers do. *)
Inductive ep_abs := AIdle | AWait (st : EndpointState) (q : list Z).

Definition blocked_at (h : gmap Z kobject) (x : Z) : Prop :=
  ∃ t, h !! x = Some (OTcb t) ∧ status (value t) = Blocked.

Definition ep_rep (h : gmap Z kobject) (ep : Z) (a : ep_abs) : Prop :=
  ∃ e, h !! ep = Some (OEndpoint e) ∧
    match a with
    | AIdle => ep_state e = EpStIdel ∧ list_rep h (queue e) []
    | AWait st q => ep_state e = st ∧ st ≠ EpStIdel ∧ q ≠ [] ∧
                    list_rep h (queue e) q ∧ Forall (blocked_at h) q
    end.

(** The threads of the run queue, in order. *)
Record rq_rep (s : KState) (xs : list Z) : Prop := {
  rq_nodup : NoDup xs;
  rq_head : ll_head (runqueue (scheduler s)) = head xs;
  rq_last : ll_last (runqueue (scheduler s)) = last xs;
  rq_links : links (heap s) xs;
}.

(** A page-sized buffer in memory (zero when never written). *)
Definition page_at (h : gmap Z kobject) (a : Z) : option IPCBuffer :=
  match h !! a with Some (OPage b) => Some b | None => Some IPCBuffer_zero | _ => None end.

(** The memory after a message was copied between two optional buffers. *)
Definition copy_msg (h : gmap Z kobject) (dst src : option Z) : gmap Z kobject :=
  match dst, src with
  | Some d, Some a => match page_at h a with Some b => <[d := OPage b]> h | None => h end
  | _, _ => h
  end.
Definition is_buffer (h : gmap Z kobject) (b : option Z) : Prop :=
  match b with Some a => is_Some (page_at h a) | None => True end.

(** ** Lemmas *)

Lemma rq_rep_value s xs x t f :
  rq_rep s xs → heap s !! x = Some (OTcb t) → (∀ v, status (f v) = status v) →
  rq_rep (s <| heap := <[x := OTcb (t <| value ::= f |>)]> (heap s) |>) xs.
Proof. intros [Hnd Hh Hla Hl] Ht Hf. split; [done..|]. by apply links_value. Qed.
Lemma page_at_insert_tcb h x t t' a :
  h !! x = Some (OTcb t) → a ≠ x → page_at (<[x := OTcb t']> h) a = page_at h a.
Proof. intros Ht Ha. unfold page_at. by rewrite lookup_insert_ne by congruence. Qed.
Lemma page_at_tcb h a t b : h !! a = Some (OTcb t) → page_at h a = Some b → False.
Proof. unfold page_at. intros ->. done. Qed.
Lemma buffer_ne h x t a b : h !! x = Some (OTcb t) → page_at h a = Some b → a ≠ x.
Proof. intros Ht Ha ->. by eapply page_at_tcb. Qed.

Lemma read_endpoint_Ok s a e : heap s !! a = Some (OEndpoint e) → read_endpoint a s = Ok e s.
Proof. intros Ha. unfold read_endpoint. mred. by rewrite Ha. Qed.

Lemma read_notification_Ok s a n :
  heap s !! a = Some (ONotification n) → read_notification a s = Ok n s.
Proof. intros Ha. unfold read_notification. mred. by rewrite Ha. Qed.

Lemma read_page_Ok s a b : page_at (heap s) a = Some b → read_page a s = Ok b s.
Proof. unfold page_at, read_page. mred. destruct (heap s !! a) as [[]|]; naive_solver. Qed.

Lemma set_ipc_msg_Ok s r t src :
  heap s !! r = Some (OTcb t) → is_buffer (heap s) src →
  set_ipc_msg r src s = Ok tt (s <| heap := copy_msg (heap s) (ipc_buffer_ref (value t)) src |>).
Proof.
  intros Ht Hsrc. unfold set_ipc_msg, copy_msg. rewrite (bind_Ok _ _ _ _ _ (read_tcb_Ok _ _ _ Ht)).
  destruct (ipc_buffer_ref (value t)) as [d|]; [|by destruct s].
  destruct src as [a|]; [|by destruct s]. destruct Hsrc as [b Hb].
  rewrite (bind_Ok _ _ _ _ _ (read_page_Ok _ _ _ Hb)). by rewrite Hb.
Qed.

Lemma block_thread_Ok s x t :
  heap s !! x = Some (OTcb t) → next t = None →
  block_thread x s = Ok tt (s <| heap := <[x := OTcb (t <| value ::= thread_suspend |>)]> (heap s) |>).
Proof.
  intros Ht Hn. unfold block_thread. rewrite (bind_Ok _ _ _ _ _ (read_tcb_Ok _ _ _ Ht)).
  unfold next_is_none. rewrite Hn. simpl. rewrite (bind_Ok _ _ _ tt s) by done.
  by apply modify_tcb_Ok.
Qed.

(** The assertion of [wake_up_thread] and [block_thread]. *)
Lemma wake_up_thread_linked s x t n :
  heap s !! x = Some (OTcb t) → next t = Some n → wake_up_thread x s = Panic PAssert.
Proof.
  intros Ht Hn. unfold wake_up_thread. rewrite (bind_Ok _ _ _ _ _ (read_tcb_Ok _ _ _ Ht)).
  unfold next_is_none. rewrite Hn. reflexivity.
Qed.
Lemma block_thread_linked s x t n :
  heap s !! x = Some (OTcb t) → next t = Some n → block_thread x s = Panic PAssert.
Proof.
  intros Ht Hn. unfold block_thread. rewrite (bind_Ok _ _ _ _ _ (read_tcb_Ok _ _ _ Ht)).
  unfold next_is_none. rewrite Hn. reflexivity.
Qed.

(** A resumed thread is runnable and last in the run queue. *)
Lemma resume_Ok s xs r t :
  rq_rep s xs → r ∉ xs → heap s !! r = Some (OTcb t) →
  ∃ s' q', resume r s = Ok tt s' ∧
    s' = s <| heap := link_last xs r (<[r := OTcb (t <| value ::= thread_resume |>)]> (heap s)) |>
           <| scheduler := (scheduler s) <| runqueue := q' |> |> ∧
    rq_rep s' (xs ++ [r]).
Proof.
  intros [Hnd Hh Hla Hl] Hr Ht. unfold resume.
  rewrite (bind_Ok _ _ _ _ _ (modify_tcb_Ok _ _ _ _ Ht)).
  set (s1 := s <| heap := _ |>).
  assert (NoDup (xs ++ [r])) as Hnd'.
  { apply NoDup_app. split; [done|]. split; [set_solver|apply NoDup_singleton]. }
  destruct (ll_push_weak s1 (runqueue (scheduler s)) xs r) as (q' & Hp & Hh' & Hla' & Hl'); try done.
  - revert Hl. apply links_mono. intros a u Ha Hu. exists u.
    subst s1. rewrite heap_set, lookup_insert_ne by set_solver. done.
  - eexists. subst s1. rewrite heap_set, lookup_insert_eq. done.
  - eexists _, q'. split; [by apply (sched_push_Ok s1)|]. split; [reflexivity|].
    split; simpl; [done|done|by rewrite last_snoc|done].
Qed.
Lemma wake_up_thread_Ok s xs r t :
  rq_rep s xs → r ∉ xs → heap s !! r = Some (OTcb t) → next t = None →
  ∃ s' q', wake_up_thread r s = Ok tt s' ∧
    s' = s <| heap := link_last xs r (<[r := OTcb (t <| value ::= thread_resume |>)]> (heap s)) |>
           <| scheduler := (scheduler s) <| runqueue := q' |> |> ∧
    rq_rep s' (xs ++ [r]).
Proof.
  intros Hrq Hr Ht Hn. destruct (resume_Ok s xs r t Hrq Hr Ht) as (s' & q' & Hk & Hs & Hrq'). exists s', q'. split; [|done].
  unfold wake_up_thread. rewrite (bind_Ok _ _ _ _ _ (read_tcb_Ok _ _ _ Ht)). unfold next_is_none. rewrite Hn.
  by rewrite (bind_Ok _ _ _ tt s).
Qed.

Lemma blocked_frame h h' q :
  (∀ a t, a ∈ q → h !! a = Some (OTcb t) → ∃ t', h' !! a = Some (OTcb t') ∧ value t' = value t) →
  Forall (blocked_at h) q → Forall (blocked_at h') q.
Proof.
  intros Hf Hb. rewrite Forall_forall in Hb |- *. intros a Ha.
  destruct (Hb a Ha) as (t & Ht & Hs). destruct (Hf a t Ha Ht) as (t' & Ht' & Hv).
  exists t'. by rewrite Hv.
Qed.

Lemma blocked_tcb h q x : Forall (blocked_at h) q → x ∈ q → ∃ t, h !! x = Some (OTcb t).
Proof. rewrite Forall_forall. intros Hb Hx. destruct (Hb x Hx) as (t & ? & _). eauto. Qed.

(** [thread] starts to wait behind [q]. *)
Lemma ep_enqueue s ep e q thread t :
  heap s !! ep = Some (OEndpoint e) → ep_state e ≠ EpStIdel →
  list_rep (heap s) (queue e) q → Forall (blocked_at (heap s)) q →
  thread ∉ q → heap s !! thread = Some (OTcb t) → next t = None →
  ∃ h', (block_thread thread ;;; push_to_queue ep thread ;;; ret true) s = Ok true (s <| heap := h' |>) ∧
    ep_rep h' ep (AWait (ep_state e) (q ++ [thread])) ∧
    h' !! thread = Some (OTcb (t <| value ::= thread_suspend |>)) ∧
    (∀ a, a ≠ ep → a ≠ thread → a ∉ q → h' !! a = heap s !! a).
Proof.
  intros He Hst Hq Hb Hnin Ht Hn.
  rewrite (bind_Ok _ _ _ _ _ (block_thread_Ok _ _ _ Ht Hn)).
  set (t1 := t <| value ::= thread_suspend |>).
  set (s1 := s <| heap := _ |>).
  assert (ep ≠ thread) as Hne by (intros ->; simplify_eq).
  assert (heap s1 !! ep = Some (OEndpoint e)) as He1.
  { subst s1. by rewrite heap_set, lookup_insert_ne. }
  assert (heap s1 !! thread = Some (OTcb t1)) as Ht1 by (subst s1; by rewrite heap_set, lookup_insert_eq).
  assert (list_rep (heap s1) (queue e) q) as Hq1 by by apply list_rep_value.
  destruct (ll_push_rep s1 (queue e) q thread t1 Hq1 Hnin Ht1 Hn) as (q' & Hp & Hq').
  unfold push_to_queue.
  rewrite !bind_assoc. rewrite (bind_Ok _ _ _ _ _ (read_endpoint_Ok _ _ _ He1)).
  rewrite !bind_assoc. rewrite (bind_Ok _ _ _ _ _ Hp).
  set (h2 := link_last q thread (heap s1)) in *.
  assert (∀ a o, a ∈ q ++ [thread] → <[ep := OEndpoint o]> h2 !! a = h2 !! a) as Hep.
  { intros a o Ha. apply lookup_insert_ne. intros <-. apply elem_of_app in Ha as [Ha|Ha]; [|set_solver].
    destruct (blocked_tcb _ _ _ Hb Ha) as (? & ?). simplify_eq. }
  assert (h2 !! thread = Some (OTcb t1)) as Ht2 by (subst h2; by rewrite link_last_frame_notin).
  eexists. split; [reflexivity|]. split; [|split].
  - eexists. rewrite lookup_insert_eq. split; [reflexivity|]. simpl.
    split; [done|]. split; [done|]. split; [by destruct q|]. split.
    + apply (list_rep_frame h2); [|done]. intros a Ha. by apply Hep.
    + apply Forall_app. split.
      * eapply blocked_frame; [|exact Hb]. intros a u Ha Hu. rewrite Hep by set_solver.
        assert (heap s1 !! a = Some (OTcb u)) as Hu1.
        { subst s1. rewrite heap_set, lookup_insert_ne by set_solver. done. }
        destruct (link_last_tcb q thread _ _ _ Hu1) as (u' & Hu' & Hv & _). eauto.
      * apply Forall_singleton. exists t1. by rewrite Hep by set_solver.
  - rewrite Hep by set_solver. done.
  - intros a Ha Hat Haq. rewrite lookup_insert_ne by done.
    change (h2 !! a = heap s !! a). subst h2. rewrite link_last_frame_notin by done. subst s1. by rewrite heap_set, lookup_insert_ne.
Qed.

(** [pop_from_queue] when the endpoint is idle or threads of the same kind wait. *)
Definition waiters (st : EndpointState) (a : ep_abs) : option (list Z) :=
  match a with
  | AIdle => Some []
  | AWait st' q => if decide (st' = st) then Some q else None
  end.

Lemma pop_none s ep a st q :
  ep_rep (heap s) ep a → waiters st a = Some q → st ≠ EpStIdel →
  ∃ e, pop_from_queue ep st s = Ok None (s <| heap := <[ep := OEndpoint e]> (heap s) |>) ∧
    ep_state e = st ∧ list_rep (heap s) (queue e) q ∧ Forall (blocked_at (heap s)) q.
Proof.
  intros (e & He & Ha) Hw Hst. unfold pop_from_queue.
  rewrite (bind_Ok _ _ _ _ _ (read_endpoint_Ok _ _ _ He)).
  destruct a as [|st' q']; simpl in Hw.
  - destruct Ha as [Hs Hq]. simplify_eq. exists (e <| ep_state := st |>).
    unfold is_idle. rewrite Hs. simpl. rewrite bool_decide_eq_true_2 by done. done.
  - case_decide; [|done]. simplify_eq. destruct Ha as (Hs & _ & _ & Hq & Hb). exists e.
    unfold is_idle. rewrite bool_decide_eq_false_2 by congruence.
    rewrite (bind_Ok _ _ _ tt (s <| heap := <[ep:=OEndpoint e]> (heap s) |>)) by done.
    rewrite bool_decide_eq_true_2 by done. done.
Qed.

Lemma list_rep_insert_ne h q xs a o :
  h !! a = Some o → (∀ t, o ≠ OTcb t) → list_rep h q xs →
  ∀ o', list_rep (<[a := o']> h) q xs.
Proof.
  intros Ha Ho Hq o'. apply (list_rep_frame h); [|done]. intros x Hx. apply lookup_insert_ne.
  intros ->. destruct (chain_tcb _ _ _ (lr_chain _ _ _ Hq) Hx) as (t & ?). simplify_eq.
  by eapply Ho.
Qed.

Lemma blocked_insert_ne h q a o :
  h !! a = Some o → (∀ t, o ≠ OTcb t) → Forall (blocked_at h) q →
  ∀ o', Forall (blocked_at (<[a := o']> h)) q.
Proof.
  intros Ha Ho Hb o'. eapply blocked_frame; [|exact Hb]. intros x t _ Ht. exists t.
  rewrite lookup_insert_ne; [done|]. intros ->. simplify_eq. by eapply Ho.
Qed.

(** [pop_from_queue] when threads of the other kind wait. *)
Lemma pop_some s ep st st' x q :
  ep_rep (heap s) ep (AWait st' (x :: q)) → st' ≠ st →
  ∃ e t, pop_from_queue ep st s = Ok (Some x) (s <| heap := <[ep := OEndpoint e]> (heap s) |>) ∧
    ep_rep (<[ep := OEndpoint e]> (heap s)) ep (match q with [] => AIdle | _ => AWait st' q end) ∧
    heap s !! x = Some (OTcb t) ∧ next t = head q ∧ status (value t) = Blocked.
Proof.
  intros (e & He & Hs & Hst & _ & Hq & Hb) Hne. unfold pop_from_queue.
  rewrite (bind_Ok _ _ _ _ _ (read_endpoint_Ok _ _ _ He)).
  unfold is_idle. rewrite (bool_decide_eq_false_2 (ep_state e = EpStIdel)) by congruence.
  set (s1 := s <| heap := <[ep:=OEndpoint e]> (heap s) |>).
  rewrite (bind_Ok _ _ _ tt s1) by done.
  rewrite bool_decide_eq_false_2 by congruence.
  assert (list_rep (heap s1) (queue e) (x :: q)) as Hq1.
  { subst s1. rewrite heap_set. eapply list_rep_insert_ne; done. }
  destruct (ll_pop_rep _ _ _ _ Hq1) as (q' & t & Hp & Hq' & Ht & Hn).
  rewrite (bind_Ok _ _ _ _ _ Hp).
  assert (heap s !! x = Some (OTcb t)) as Ht0.
  { subst s1. rewrite heap_set in Ht. rewrite lookup_insert_ne in Ht; [done|].
    intros ->. rewrite lookup_insert_eq in Ht. done. }
  apply Forall_cons in Hb as [(t' & Ht' & Hbt) Hb].
  assert (t' = t) as -> by congruence.
  eexists _, t. split; [|split; [|split; [done|split; [done|done]]]].
  - unfold write_endpoint, set_heap. mred. subst s1. autorewrite with kstate.
    rewrite insert_insert_eq. reflexivity.
  - eexists. rewrite lookup_insert_eq. split; [reflexivity|].
    rewrite (list_rep_is_empty _ _ _ Hq').
    assert (list_rep (<[ep:=OEndpoint e]> (heap s)) q' q) as Hq2 by done.
    destruct q as [|y q]; simpl.
    + split; [done|]. apply list_rep_nil_inv in Hq' as ->. apply list_rep_new.
    + split; [done|]. split; [done|]. split; [done|]. split.
      * eapply (list_rep_insert_ne _ _ _ ep (OEndpoint e)) in Hq2; [| |done].
        -- rewrite insert_insert_eq in Hq2. exact Hq2.
        -- by rewrite lookup_insert_eq.
      * eapply blocked_insert_ne; done.
Qed.

(** ** Delivery of a message *)

Lemma copy_msg_frame h dst src a o :
  is_buffer h dst → h !! a = Some o → (∀ b, o ≠ OPage b) → copy_msg h dst src !! a = Some o.
Proof.
  intros Hd Ha Ho. unfold copy_msg. destruct dst as [d|]; [|done]. destruct src as [p|]; [|done].
  destruct (page_at h p) as [b|]; [|done]. rewrite lookup_insert_ne; [done|]. intros ->.
  destruct Hd as [b' Hb']. unfold page_at in Hb'. rewrite Ha in Hb'.
  destruct o; try done. by eapply Ho.
Qed.


Lemma copy_msg_page h d p b : page_at h p = Some b → page_at (copy_msg h (Some d) (Some p)) d = Some b.
Proof. intros Hb. unfold copy_msg. rewrite Hb. unfold page_at. by rewrite lookup_insert_eq. Qed.


(** What [value]s change when a message for [dst] arrives and [w] is woken. *)
Definition delivered_value (dst w : Z) (f : ThreadInfo → ThreadInfo) (a : Z) (v : ThreadInfo) : ThreadInfo :=
  (if decide (a = w) then thread_resume else id) ((if decide (a = dst) then f else id) v).

(** The common part of the two deliveries: copy the message, store the badge,
    wake the waiting thread. *)
Lemma deliver s xs dst src td w tw f :
  rq_rep s xs → heap s !! dst = Some (OTcb td) → heap s !! w = Some (OTcb tw) →
  next tw = None → w ∉ xs → (∀ v, status (f v) = status v) →
  is_buffer (heap s) (ipc_buffer_ref (value td)) → is_buffer (heap s) src →
  ∃ s', (set_ipc_msg dst src ;;; modify_tcb dst f ;;; wake_up_thread w ;;; ret false) s = Ok false s' ∧
    rq_rep s' (xs ++ [w]) ∧ requested (scheduler s') = requested (scheduler s) ∧
    (∀ a t, heap s !! a = Some (OTcb t) →
       ∃ t', heap s' !! a = Some (OTcb t') ∧ value t' = delivered_value dst w f a (value t) ∧
             (last xs ≠ Some a → next t' = next t)) ∧
    (∀ a, (∀ t, heap s !! a ≠ Some (OTcb t)) →
       heap s' !! a = copy_msg (heap s) (ipc_buffer_ref (value td)) src !! a).
Proof.
  intros Hrq Hd Hw Hn Hwx Hf Hbd Hbs.
  rewrite (bind_Ok _ _ _ _ _ (set_ipc_msg_Ok _ _ _ _ Hd Hbs)).
  set (h1 := copy_msg _ _ _). set (s1 := s <| heap := h1 |>).
  assert (∀ a t, heap s !! a = Some (OTcb t) → heap s1 !! a = Some (OTcb t)) as Hs1.
  { intros a t Ha. subst s1 h1. rewrite heap_set. by apply copy_msg_frame. }
  rewrite (bind_Ok _ _ _ _ _ (modify_tcb_Ok _ _ f _ (Hs1 _ _ Hd))).
  set (s2 := s1 <| heap := _ |>).
  set (g := λ a v, (if decide (a = dst) then f else id) v : ThreadInfo).
  assert (∀ a t, heap s !! a = Some (OTcb t) →
    heap s2 !! a = Some (OTcb (t <| value ::= g a |>))) as Hs2.
  { intros a t Ha. subst s2 g. rewrite heap_set. simpl. case_decide as Had; [subst a|].
    - rewrite lookup_insert_eq. simplify_eq. done.
    - rewrite lookup_insert_ne by done. etransitivity; [exact (Hs1 _ _ Ha)|]. by destruct t. }
  assert (rq_rep s2 xs) as Hrq2.
  { destruct Hrq as [Hnd Hh Hla Hl]. split; [done..|]. revert Hl. apply links_mono.
    intros a t _ Ha. eexists. split; [by apply Hs2|]. subst g. simpl. split; [|done].
    case_decide; [apply Hf|done]. }
  destruct (wake_up_thread_Ok s2 xs w _ Hrq2 Hwx (Hs2 _ _ Hw)) as (s3 & q' & Hk & Hs3 & Hrq3); [done|].
  rewrite (bind_Ok _ _ _ _ _ Hk). exists s3. split; [done|]. split; [done|]. split; [by subst s3|].
  set (tw3 := ((tw <| value ::= g w |>) <| value ::= thread_resume |>)) in *.
  assert (heap s3 = link_last xs w (<[w := OTcb tw3]> (heap s2))) as Hh3 by by subst s3. split.
  - intros a t Ha.
    assert (∃ t', <[w := OTcb tw3]> (heap s2) !! a = Some (OTcb t') ∧
                  value t' = delivered_value dst w f a (value t) ∧ next t' = next t) as (t' & Ht' & Hv & Hnx).
    { unfold delivered_value. case_decide as Haw; [subst a|].
      - rewrite lookup_insert_eq. simplify_eq. eexists. done.
      - rewrite lookup_insert_ne by done. eexists. split; [by apply Hs2|]. done. }
    rewrite Hh3. destruct (link_last_tcb xs w _ _ _ Ht') as (t'' & Ht'' & Hv'' & Hsame).
    exists t''. split; [done|]. split; [by rewrite Hv''|]. intros Hla. by rewrite (Hsame Hla).
  - intros a Ha. rewrite Hh3.
    assert (a ≠ w ∧ a ≠ dst) as [] by (split; intros ->; naive_solver).
    assert (a ∉ xs) as Hax.
    { intros Hax. destruct (links_tcb _ _ _ (rq_links _ _ Hrq) Hax) as (t & Ht & _). naive_solver. }
    rewrite link_last_frame_notin, lookup_insert_ne by done.
    subst s2. rewrite heap_set, lookup_insert_ne by done. done.
Qed.

Lemma blocked_notin s xs x t :
  rq_rep s xs → heap s !! x = Some (OTcb t) → status (value t) = Blocked → x ∉ xs.
Proof.
  intros Hrq Ht Hb Hx. destruct (links_tcb _ _ _ (rq_links _ _ Hrq) Hx) as (u & Hu & Hs).
  simplify_eq. congruence.
Qed.

Lemma rq_rep_insert_ne s xs a o o' :
  rq_rep s xs → heap s !! a = Some o → (∀ t, o ≠ OTcb t) → rq_rep (s <| heap := <[a := o']> (heap s) |>) xs.
Proof.
  intros [Hnd Hh Hla Hl] Ha Ho. split; [done..|]. revert Hl. apply links_mono. intros x t _ Ht.
  exists t. rewrite heap_set, lookup_insert_ne; [done|]. intros ->. simplify_eq. by eapply Ho.
Qed.

Lemma is_buffer_insert_ne h a o o' b :
  h !! a = Some o → (∀ p, o ≠ OPage p) → is_buffer h b → is_buffer (<[a := o']> h) b.
Proof.
  intros Ha Ho. destruct b as [p|]; [|done]. unfold is_buffer, page_at.
  destruct (decide (a = p)) as [->|]; [|by rewrite lookup_insert_ne].
  rewrite Ha. intros [x Hx]. destruct o; naive_solver.
Qed.

Lemma ep_rep_idle h h' ep e :
  h !! ep = Some (OEndpoint e) → h' !! ep = h !! ep → ep_rep h ep AIdle → ep_rep h' ep AIdle.
Proof.
  intros He Heq (e' & He' & Hs & Hq). exists e'. rewrite Heq. split; [done|]. split; [done|].
  apply list_rep_nil_inv in Hq as ->. apply list_rep_new.
Qed.

(** The whole delivery at an endpoint where one thread waits: [w] is popped and
    woken, the message and the badge of [from] go to [dst]. *)
Lemma ep_deliver s ep st st' w xs dst td tw src f :
  ep_rep (heap s) ep (AWait st' [w]) → st' ≠ st → rq_rep s xs →
  heap s !! dst = Some (OTcb td) → heap s !! w = Some (OTcb tw) →
  (∀ v, status (f v) = status v) →
  is_buffer (heap s) (ipc_buffer_ref (value td)) → is_buffer (heap s) src →
  ∃ s1 s', pop_from_queue ep st s = Ok (Some w) s1 ∧
    (∀ a t, heap s !! a = Some (OTcb t) → heap s1 !! a = Some (OTcb t)) ∧
    (set_ipc_msg dst src ;;; modify_tcb dst f ;;; wake_up_thread w ;;; ret false) s1 = Ok false s' ∧
    ep_rep (heap s') ep AIdle ∧ rq_rep s' (xs ++ [w]) ∧ requested (scheduler s') = requested (scheduler s) ∧
    (∀ a t, heap s !! a = Some (OTcb t) →
       ∃ t', heap s' !! a = Some (OTcb t') ∧ value t' = delivered_value dst w f a (value t) ∧
             (last xs ≠ Some a → next t' = next t)) ∧
    (∀ d p, ipc_buffer_ref (value td) = Some d → src = Some p →
       page_at (heap s') d = page_at (heap s) p).
Proof.
  intros Hep Hst Hrq Hd Hw Hf Hbd Hbs.
  destruct (pop_some _ _ _ _ _ _ Hep Hst) as (e & t & Hp & Hidle & Ht & Hn & Hb).
  assert (t = tw) as -> by congruence. destruct Hep as (e0 & He0 & _).
  set (s1 := s <| heap := <[ep := OEndpoint e]> (heap s) |>) in *.
  assert (∀ a t, heap s !! a = Some (OTcb t) → heap s1 !! a = Some (OTcb t)) as Hs1.
  { intros a u Ha. subst s1. rewrite heap_set, lookup_insert_ne; [done|congruence]. }
  assert (heap s1 !! ep = Some (OEndpoint e)) as He1 by (subst s1; by rewrite heap_set, lookup_insert_eq).
  destruct (deliver s1 xs dst src td w tw f) as (s' & Hrun & Hrq' & Hreq & Htcb & Hoth); auto.
  { by eapply rq_rep_insert_ne. }
  { by eapply blocked_notin. }
  { by eapply is_buffer_insert_ne. }
  { by eapply is_buffer_insert_ne. }
  assert (is_buffer (heap s1) (ipc_buffer_ref (value td))) as Hbd1 by by eapply is_buffer_insert_ne.
  assert (is_buffer (heap s1) src) as Hbs1 by by eapply is_buffer_insert_ne.
  exists s1, s'. split; [done|]. split; [done|]. split; [done|]. split; [|split; [done|split; [done|split]]].
  - apply (ep_rep_idle (heap s1) _ _ e); [done| |done].
    rewrite Hoth by naive_solver. rewrite He1. by apply copy_msg_frame.
  - intros a u Ha. apply Htcb, Hs1, Ha.
  - intros d p Hdd ->. rewrite Hdd in *.
    destruct Hbs1 as [b Hb1]. assert (page_at (heap s) p = Some b) as ->.
    { destruct Hbs as [b' Hb']. destruct (decide (ep = p)) as [->|Hne].
      - unfold page_at in Hb'. by rewrite He0 in Hb'.
      - unfold page_at in *. subst s1. by rewrite heap_set, lookup_insert_ne in Hb1. }
    unfold page_at at 1. rewrite Hoth.
    + apply copy_msg_page. done.
    + intros u Hu. destruct Hbd1 as [b1 Hb1']. by eapply page_at_tcb.
Qed.

(** The operation of the threads that wait as [st]. *)
Definition ep_op (st : EndpointState) : Z → Z → K bool :=
  match st with EpStRecv => ep_recv | _ => ep_send end.

Definition set_a1 (x : Z) (v : ThreadInfo) : ThreadInfo := v <| registers ::= λ r, r <| a1 := x |> |>.

(** At an endpoint where nobody of the other kind waits, a sender (or
    receiver) blocks: it becomes the last of the threads that wait there, in
    arrival order, its status is [Blocked], and no other memory changes. *)
Lemma ep_waits st s ep a q thread t :
  st ≠ EpStIdel → ep_rep (heap s) ep a → waiters st a = Some q →
  thread ∉ q → heap s !! thread = Some (OTcb t) → next t = None →
  ∃ h', ep_op st ep thread s = Ok true (s <| heap := h' |>) ∧
    ep_rep h' ep (AWait st (q ++ [thread])) ∧
    h' !! thread = Some (OTcb (t <| value ::= thread_suspend |>)) ∧
    (∀ a, a ≠ ep → a ≠ thread → a ∉ q → h' !! a = heap s !! a).
Proof.
  intros Hst Hep Hw Hnin Ht Hn. pose proof Hep as (e0 & He0 & _).
  destruct (pop_none _ _ _ _ _ Hep Hw Hst) as (e & Hp & Hes & Hq & Hb).
  set (s1 := s <| heap := <[ep := OEndpoint e]> (heap s) |>) in *.
  assert (ep ≠ thread) as Hne by congruence.
  destruct (ep_enqueue s1 ep e q thread t) as (h' & Hrun & Hrep & Ht' & Hfr); subst s1;
    rewrite ?heap_set; try done.
  - by rewrite lookup_insert_eq.
  - by rewrite Hes.
  - by eapply list_rep_insert_ne.
  - by eapply blocked_insert_ne.
  - by rewrite lookup_insert_ne.
  - exists h'. split; [|split; [by rewrite <- Hes|split; [done|]]].
    + destruct st; [| |done]; unfold ep_op, ep_send, ep_recv;
        rewrite (bind_Ok _ _ _ _ _ Hp); exact Hrun.
    + intros b Hb1 Hb2 Hb3. rewrite Hfr by done. by rewrite heap_set, lookup_insert_ne.
Qed.

(** Who receives, and from whom, when [thread] finds [w] waiting. *)
Definition receiver (st : EndpointState) (thread w : Z) : Z := match st with EpStRecv => thread | _ => w end.
Definition sender (st : EndpointState) (thread w : Z) : Z := match st with EpStRecv => w | _ => thread end.

(** An operation on an endpoint where one thread of the other kind waits. *)
Lemma ep_op_delivers st st' s ep w xs thread tr ts :
  st ≠ EpStIdel → st' ≠ st → ep_rep (heap s) ep (AWait st' [w]) → rq_rep s xs →
  heap s !! receiver st thread w = Some (OTcb tr) → heap s !! sender st thread w = Some (OTcb ts) →
  is_buffer (heap s) (ipc_buffer_ref (value tr)) → is_buffer (heap s) (ipc_buffer_ref (value ts)) →
  ∃ s', ep_op st ep thread s = Ok false s' ∧ ep_rep (heap s') ep AIdle ∧ rq_rep s' (xs ++ [w]) ∧
    requested (scheduler s') = requested (scheduler s) ∧
    (∀ a u, heap s !! a = Some (OTcb u) → ∃ u', heap s' !! a = Some (OTcb u') ∧
       value u' = delivered_value (receiver st thread w) w (set_a1 (badge (value ts))) a (value u) ∧
       (last xs ≠ Some a → next u' = next u)) ∧
    (∀ d p, ipc_buffer_ref (value tr) = Some d → ipc_buffer_ref (value ts) = Some p →
       page_at (heap s') d = page_at (heap s) p).
Proof.
  intros Hst Hst' Hep Hrq Hr Hs Hbr Hbs.
  assert (∃ tw, heap s !! w = Some (OTcb tw)) as [tw Hw] by (destruct st; [..|done]; eauto).
  destruct (ep_deliver s ep st st' w xs (receiver st thread w) tr tw (ipc_buffer_ref (value ts))
              (set_a1 (badge (value ts)))) as (s1 & s' & Hp & Hs1 & Hrun & Hidle & Hrq' & Hreq & Htcb & Hmsg);
    [done..|].
  exists s'. split_and!; try done. apply Hs1 in Hs.
  destruct st; [| |done]; unfold ep_op, ep_send, ep_recv; rewrite (bind_Ok _ _ _ _ _ Hp);
    rewrite (bind_Ok _ _ _ _ _ (read_tcb_Ok _ _ _ Hs)); exact Hrun.
Qed.

(** A send to an endpoint where one receiver waits completes at once: the
    receiver gets the sender's message and badge (in [a1]), becomes runnable at
    the end of the run queue, the endpoint is idle again, and no other thread's
    state changes. *)
Lemma ep_send_delivers s ep r xs thread t tr :
  ep_rep (heap s) ep (AWait EpStRecv [r]) → rq_rep s xs →
  heap s !! thread = Some (OTcb t) → heap s !! r = Some (OTcb tr) →
  is_buffer (heap s) (ipc_buffer_ref (value tr)) → is_buffer (heap s) (ipc_buffer_ref (value t)) →
  ∃ s', ep_send ep thread s = Ok false s' ∧ ep_rep (heap s') ep AIdle ∧ rq_rep s' (xs ++ [r]) ∧
    (∀ a u, heap s !! a = Some (OTcb u) → ∃ u', heap s' !! a = Some (OTcb u') ∧
       value u' = if decide (a = r) then thread_resume (set_a1 (badge (value t)) (value u)) else value u) ∧
    (∀ d p, ipc_buffer_ref (value tr) = Some d → ipc_buffer_ref (value t) = Some p →
       page_at (heap s') d = page_at (heap s) p).
Proof.
  intros Hep Hrq Ht Htr Hbr Hbt.
  destruct (ep_op_delivers EpStSend EpStRecv s ep r xs thread tr t) as (s' & Hrun & Hidle & Hrq' & _ & Htcb & Hmsg);
    [done..|].
  exists s'. split_and!; try done. intros a u Hu. destruct (Htcb a u Hu) as (u' & Hu' & Hv & _). exists u'.
  split; [done|]. rewrite Hv. unfold delivered_value, receiver. by case_decide.
Qed.

(** A receive at an endpoint where one sender waits completes at once: the
    receiver gets the sender's message and badge, and the sender becomes
    runnable at the end of the run queue. *)
Lemma ep_recv_delivers s ep w xs thread t tw :
  ep_rep (heap s) ep (AWait EpStSend [w]) → rq_rep s xs → thread ≠ w →
  heap s !! thread = Some (OTcb t) → heap s !! w = Some (OTcb tw) →
  is_buffer (heap s) (ipc_buffer_ref (value tw)) → is_buffer (heap s) (ipc_buffer_ref (value t)) →
  ∃ s', ep_recv ep thread s = Ok false s' ∧ ep_rep (heap s') ep AIdle ∧ rq_rep s' (xs ++ [w]) ∧
    (∀ a u, heap s !! a = Some (OTcb u) → ∃ u', heap s' !! a = Some (OTcb u') ∧
       value u' = if decide (a = w) then thread_resume (value u)
                  else if decide (a = thread) then set_a1 (badge (value tw)) (value u) else value u) ∧
    (∀ d p, ipc_buffer_ref (value t) = Some d → ipc_buffer_ref (value tw) = Some p →
       page_at (heap s') d = page_at (heap s) p).
Proof.
  intros Hep Hrq Hne Ht Htw Hbw Hbt.
  destruct (ep_op_delivers EpStRecv EpStSend s ep w xs thread t tw) as (s' & Hrun & Hidle & Hrq' & _ & Htcb & Hmsg);
    [done..|].
  exists s'. split_and!; try done. intros a u Hu. destruct (Htcb a u Hu) as (u' & Hu' & Hv & _). exists u'.
  split; [done|]. rewrite Hv. unfold delivered_value, receiver. repeat case_decide; try done. congruence.
Qed.

(** ** Where the list discipline breaks *)

(** C35: with two or more threads waiting, the operation that would serve the
    first of them panics: [pop] leaves the popped thread linked to the next
    one, and [wake_up_thread] asserts that it is not. *)
Theorem ep_two_waiters_panic st st' s ep w w2 q thread t tw :
  st ≠ EpStIdel → st' ≠ st → ep_rep (heap s) ep (AWait st' (w :: w2 :: q)) →
  heap s !! thread = Some (OTcb t) → heap s !! w = Some (OTcb tw) →
  is_buffer (heap s) (ipc_buffer_ref (value tw)) → is_buffer (heap s) (ipc_buffer_ref (value t)) →
  ep_op st ep thread s = Panic PAssert.
Proof.
  intros Hst Hne Hep Ht Htw Hbw Hbt. pose proof Hep as (e0 & He0 & _).
  destruct (pop_some _ _ _ _ _ _ Hep Hne) as (e & u & Hp & _ & Hu & Hn & _).
  assert (u = tw) as -> by congruence. simpl in Hn.
  set (s1 := s <| heap := <[ep := OEndpoint e]> (heap s) |>) in *.
  assert (∀ a t, heap s !! a = Some (OTcb t) → heap s1 !! a = Some (OTcb t)) as Hs1.
  { intros a v Ha. subst s1. rewrite heap_set, lookup_insert_ne; [done|congruence]. }
  assert (∀ b, is_buffer (heap s) b → is_buffer (heap s1) b) as Hbuf.
  { intros b Hb. by eapply is_buffer_insert_ne. }
  assert (∀ dst td src f, heap s !! dst = Some (OTcb td) → is_buffer (heap s) (ipc_buffer_ref (value td)) →
    is_buffer (heap s) src →
    (set_ipc_msg dst src ;;; modify_tcb dst f ;;; wake_up_thread w ;;; ret false) s1 = Panic PAssert) as Hgo.
  { intros dst td src f Hd Hbd Hbs.
    rewrite (bind_Ok _ _ _ _ _ (set_ipc_msg_Ok _ _ _ _ (Hs1 _ _ Hd) (Hbuf _ Hbs))).
    set (s2 := s1 <| heap := _ |>).
    assert (∀ a t, heap s !! a = Some (OTcb t) → heap s2 !! a = Some (OTcb t)) as Hs2.
    { intros a v Ha. subst s2. rewrite heap_set. apply copy_msg_frame; auto. }
    rewrite (bind_Ok _ _ _ _ _ (modify_tcb_Ok _ _ f _ (Hs2 _ _ Hd))). apply bind_Panic.
    destruct (decide (dst = w)) as [->|Hdw].
    - eapply wake_up_thread_linked; [rewrite heap_set, lookup_insert_eq; reflexivity|].
      simpl. assert (td = tw) as -> by congruence. exact Hn.
    - eapply wake_up_thread_linked; [rewrite heap_set, lookup_insert_ne by done; by apply Hs2|].
      exact Hn. }
  destruct st; [| |done]; unfold ep_op, ep_send, ep_recv; rewrite (bind_Ok _ _ _ _ _ Hp).
  - rewrite (bind_Ok _ _ _ _ _ (read_tcb_Ok _ _ _ (Hs1 _ _ Ht))). by apply (Hgo w tw).
  - rewrite (bind_Ok _ _ _ _ _ (read_tcb_Ok _ _ _ (Hs1 _ _ Htw))). by apply (Hgo thread t).
Qed.

(** A thread that is linked to another one cannot block. *)
Lemma ep_op_linked st s ep a q thread t n :
  st ≠ EpStIdel → ep_rep (heap s) ep a → waiters st a = Some q →
  heap s !! thread = Some (OTcb t) → next t = Some n → ep_op st ep thread s = Panic PAssert.
Proof.
  intros Hst Hep Hw Ht Hn. pose proof Hep as (e0 & He0 & _).
  destruct (pop_none _ _ _ _ _ Hep Hw Hst) as (e & Hp & _).
  assert (∀ k, (block_thread thread ;;; k) (s <| heap := <[ep := OEndpoint e]> (heap s) |>)
               = Panic PAssert (A := bool)) as Hb.
  { intros k. apply bind_Panic. eapply block_thread_linked; [|exact Hn].
    rewrite heap_set, lookup_insert_ne; [exact Ht|congruence]. }
  destruct st; [| |done]; unfold ep_op, ep_send, ep_recv; rewrite (bind_Ok _ _ _ _ _ Hp); apply Hb.
Qed.

(** C36: a thread that was scheduled while at least one more thread was queued
    behind it cannot block: its control block still points to that thread, and
    the assertion of [block_thread] panics the kernel on its next blocking
    send or receive. *)
Theorem scheduled_thread_cannot_block `{KernelLayout} st s c x y ys s' ep a q :
  ring s c (x :: y :: ys) → requested (scheduler s) = true → schedule s = Ok tt s' →
  st ≠ EpStIdel → ep_rep (heap s') ep a → waiters st a = Some q →
  ep_op st ep (current_proc s') s' = Panic PAssert.
Proof.
  intros Hr Hq Hsch Hst Hep Hw.
  destruct (schedule_ring _ _ _ _ Hr Hq) as (s1 & Hs1 & Hr1 & _ & Hx).
  assert (s1 = s') as -> by congruence. destruct (Hx ltac:(done)) as (t & Ht & Ht').
  rewrite (ring_current _ _ _ Hr1).
  destruct (ring_links _ _ _ Hr) as [(t0 & Ht0 & _ & Hn) _]. assert (t0 = t) as -> by congruence.
  by eapply ep_op_linked.
Qed.

Lemma ep_rep_blocked h ep a st q x :
  ep_rep h ep a → waiters st a = Some q → x ∈ q → blocked_at h x.
Proof.
  intros (e & _ & Ha) Hw Hx. destruct a as [|st' q']; simpl in Hw; [simplify_eq; set_solver|].
  case_decide; [|done]. simplify_eq. destruct Ha as (_ & _ & _ & _ & Hb).
  rewrite Forall_forall in Hb. by apply Hb.
Qed.

(** C40: the scheduler can run a blocked thread. Let [b] run and [x] be the
    only waiting thread, still linked to [b], as it is when the two were queued
    in this order and [x] ran first ([b] itself has no link, else C36 applies).
    When [b] blocks in a send or a receive at an endpoint where nobody of the
    other kind waits and the kernel schedules, [x] runs; the next preemption of
    [x] runs [b] again, from its own save area, although its status is
    [Blocked] and nobody woke it up. *)
Theorem blocked_thread_scheduled `{KernelLayout} st s b x tb tx ep a q :
  ring s b [x] → heap s !! b = Some (OTcb tb) → next tb = None →
  heap s !! x = Some (OTcb tx) → next tx = Some b →
  st ≠ EpStIdel → ep_rep (heap s) ep a → waiters st a = Some q →
  ∃ s1 s2 s3 t, ep_op st ep b s = Ok true s1 ∧ ep_rep (heap s1) ep (AWait st (q ++ [b])) ∧
    preempt s1 = Ok tt s2 ∧ current_proc s2 = x ∧
    preempt s2 = Ok tt s3 ∧ current_proc s3 = b ∧ cur_reg_base (cpu_var s3) = b ∧
    heap s3 !! b = Some (OTcb t) ∧ status (value t) = Blocked.
Proof.
  intros Hr Hb Hbn Hx Hxn Hst Hep Hw. pose proof Hr as [Hcur Hnd Hh Hla [(tx' & Hx' & Hxs & _) _] (tb' & Hb' & Hbs) _].
  simplify_eq. assert (x ≠ current_proc s) as Hne by (apply NoDup_cons in Hnd as [? _]; set_solver).
  assert (∀ y t, heap s !! y = Some (OTcb t) → status (value t) = Runnable → y ∉ q) as Hnin.
  { intros y t Hy Hys Hyq. destruct (ep_rep_blocked _ _ _ _ _ _ Hep Hw Hyq) as (? & ? & ?). congruence. }
  destruct (ep_waits st s ep a q _ tb Hst Hep Hw (Hnin _ _ Hb Hbs) Hb Hbn) as (h' & Hop & Hep' & Hb1 & Hfr).
  pose proof Hep as (e0 & He0 & _).
  assert (h' !! x = Some (OTcb tx)) as Hx1 by (rewrite Hfr; [done|congruence|done|by eapply Hnin]).
  destruct (stale_link_scheduled (s <| heap := h' |>) (current_proc s) x (current_proc s) tx (tb <| value ::= thread_suspend |>))
    as (s2 & s3 & Hp2 & Hc2 & Hp3 & Hc3 & Hrb & t & Ht & _ & Hv); try done.
  - by eexists.
  - simpl in *. destruct (runqueue (scheduler s)) as [hd la]. simpl in *. by subst.
  - eexists _, s2, s3, t. split_and!; try done. by rewrite Hv.
Qed.

(** ** What a notification promises *)

(** The abstract notification: pending signals ([None]: no signal since the
    last wait), or threads waiting for one. *)
Inductive nt_abs := NBits (v : option Z) | NWait (q : list Z).

Definition nt_rep (h : gmap Z kobject) (n : Z) (a : nt_abs) : Prop :=
  ∃ o, h !! n = Some (ONotification o) ∧
    match a with
    | NBits v => bit_is_set o = bool_decide (is_Some v) ∧ notify_bit o = default 0 v ∧
                 wait_queue o = LinkedList_new
    | NWait q => bit_is_set o = false ∧ notify_bit o = 0 ∧ q ≠ [] ∧
                 list_rep h (wait_queue o) q ∧ Forall (blocked_at h) q
    end.

Lemma send_signal_bits s n v val :
  nt_rep (heap s) n (NBits v) →
  ∃ o, send_signal n val s = Ok tt (s <| heap := <[n := ONotification o]> (heap s) |>) ∧
       nt_rep (<[n := ONotification o]> (heap s)) n (NBits (Some (Z.lor (default 0 v) val))).
Proof.
  intros (o & Ho & Hb & Hv & Hq).
  exists {| notify_bit := Z.lor (default 0 v) val; wait_queue := LinkedList_new; bit_is_set := true |}.
  split.
  - unfold send_signal. rewrite (bind_Ok _ _ _ _ _ (read_notification_Ok _ _ _ Ho)).
    rewrite (bind_Ok _ _ _ (None, LinkedList_new) s) by by rewrite Hq.
    set (s1 := s <| heap := <[n := ONotification (o <| wait_queue := LinkedList_new |>)]> (heap s) |>).
    rewrite (bind_Ok _ _ _ tt s1) by done.
    assert (heap s1 !! n = Some (ONotification (o <| wait_queue := LinkedList_new |>))) as H1.
    { subst s1. by rewrite heap_set, lookup_insert_eq. }
    rewrite (bind_Ok _ _ _ _ _ (read_notification_Ok _ _ _ H1)).
    unfold write_notification, set_heap, modify. subst s1. rewrite heap_set, insert_insert_eq. simpl.
    by rewrite Hv.
  - eexists. by rewrite lookup_insert_eq.
Qed.

Lemma wait_signal_bits s n v thread t :
  nt_rep (heap s) n (NBits (Some v)) → heap s !! thread = Some (OTcb t) →
  ∃ o, wait_signal n thread s =
         Ok false (s <| heap := <[n := ONotification o]> (<[thread := OTcb (t <| value ::= set_a1 v |>)]> (heap s)) |>) ∧
       nt_rep (<[n := ONotification o]> (<[thread := OTcb (t <| value ::= set_a1 v |>)]> (heap s))) n (NBits None).
Proof.
  intros (o & Ho & Hb & Hv & Hq) Ht. rewrite bool_decide_eq_true_2 in Hb by eauto.
  exists (o <| notify_bit := 0 |> <| bit_is_set := false |>). split.
  - unfold wait_signal. rewrite (bind_Ok _ _ _ _ _ (read_notification_Ok _ _ _ Ho)).
    rewrite Hb. rewrite (bind_Ok _ _ _ _ _ (modify_tcb_Ok _ _ _ _ Ht)).
    rewrite Hv. reflexivity.
  - eexists. by rewrite lookup_insert_eq.
Qed.

(** A series of signals. *)
Fixpoint send_signals (n : Z) (vals : list Z) : K unit :=
  match vals with [] => ret tt | v :: vals => send_signal n v ;;; send_signals n vals end.
Definition or_all (v : Z) (vals : list Z) : Z := foldl Z.lor v vals.

Lemma send_signals_bits n vals v s :
  nt_rep (heap s) n (NBits (Some v)) →
  ∃ o, send_signals n vals s = Ok tt (s <| heap := <[n := ONotification o]> (heap s) |>) ∧
       nt_rep (<[n := ONotification o]> (heap s)) n (NBits (Some (or_all v vals))).
Proof.
  revert v s. induction vals as [|x vals IH]; intros v s Hrep.
  - pose proof Hrep as (o & Ho & _). exists o. rewrite insert_id by done. by destruct s.
  - destruct (send_signal_bits _ _ _ x Hrep) as (o & Hs & Hrep'). simpl in *.
    rewrite (bind_Ok _ _ _ _ _ Hs).
    destruct (IH (Z.lor v x) (s <| heap := <[n:=ONotification o]> (heap s) |>)) as (o' & Hs' & Hr');
      [done|].
    exists o'. rewrite Hs'. rewrite heap_set, heap_set_set, insert_insert_eq in *. done.
Qed.

(** Signals are never lost while nobody waits. After any non-empty series
    of signals, the next wait does not block: it stores the bitwise or of all of
    them in the waiting thread's [a1] and leaves no signal pending. *)
Lemma signals_accumulate s n val vals thread t :
  nt_rep (heap s) n (NBits None) → heap s !! thread = Some (OTcb t) →
  ∃ s', (send_signals n (val :: vals) ;;; wait_signal n thread) s = Ok false s' ∧
    nt_rep (heap s') n (NBits None) ∧
    heap s' !! thread = Some (OTcb (t <| value ::= set_a1 (or_all val vals) |>)) ∧
    (∀ a, a ≠ n → a ≠ thread → heap s' !! a = heap s !! a).
Proof.
  intros Hrep Ht. pose proof Hrep as (o0 & Ho0 & _). assert (n ≠ thread) as Hne by congruence.
  destruct (send_signal_bits _ _ _ val Hrep) as (o1 & H1 & Hr1). simpl in Hr1. rewrite Z.lor_0_l in Hr1.
  destruct (send_signals_bits n vals val (s <| heap := <[n:=ONotification o1]> (heap s) |>))
    as (o2 & H2 & Hr2); [done|].
  rewrite heap_set, heap_set_set, insert_insert_eq in H2. rewrite heap_set, insert_insert_eq in Hr2.
  simpl. rewrite !bind_assoc, (bind_Ok _ _ _ _ _ H1), (bind_Ok _ _ _ _ _ H2).
  set (s2 := s <| heap := <[n:=ONotification o2]> (heap s) |>).
  assert (heap s2 !! thread = Some (OTcb t)) as Ht2.
  { subst s2. by rewrite heap_set, lookup_insert_ne. }
  destruct (wait_signal_bits s2 n _ thread t Hr2 Ht2) as (o3 & H3 & Hr3).
  eexists. split; [exact H3|]. split; [exact Hr3|]. split.
  - rewrite heap_set, lookup_insert_ne by done. by rewrite lookup_insert_eq.
  - intros a Ha Hat. rewrite heap_set, !lookup_insert_ne by done.
    subst s2. by rewrite heap_set, lookup_insert_ne.
Qed.

(** A thread that waits for a notification without pending signals. *)
Lemma wait_signal_blocks s n thread t :
  nt_rep (heap s) n (NBits None) → heap s !! thread = Some (OTcb t) → next t = None →
  ∃ o, let h' := <[n := ONotification o]> (<[thread := OTcb (t <| value ::= thread_suspend |>)]> (heap s)) in
    wait_signal n thread s = Ok true (s <| heap := h' |>) ∧ nt_rep h' n (NWait [thread]) ∧
    wait_queue o = {| ll_head := Some thread; ll_last := Some thread |} ∧
    bit_is_set o = false ∧ notify_bit o = 0.
Proof.
  intros (o & Ho & Hb & Hv & Hq) Ht Hn. simpl in Hb, Hv. assert (n ≠ thread) as Hne by congruence.
  exists (o <| wait_queue := {| ll_head := Some thread; ll_last := Some thread |} |>). split; [|split].
  - unfold wait_signal. rewrite (bind_Ok _ _ _ _ _ (read_notification_Ok _ _ _ Ho)).
    rewrite Hb. simpl. rewrite (bind_Ok _ _ _ _ _ (block_thread_Ok _ _ _ Ht Hn)).
    set (s1 := s <| heap := _ |>).
    assert (heap s1 !! n = Some (ONotification o)) as H1.
    { subst s1. by rewrite heap_set, lookup_insert_ne. }
    rewrite (bind_Ok _ _ _ _ _ (read_notification_Ok _ _ _ H1)). by rewrite Hq.
  - eexists. rewrite lookup_insert_eq. split; [reflexivity|]. simpl.
    split; [done|]. split; [done|]. split; [done|]. split.
    + split; simpl; [apply NoDup_singleton|done|done|]. split; [|done].
      eexists. rewrite lookup_insert_ne, lookup_insert_eq by done. done.
    + apply Forall_singleton. eexists. rewrite lookup_insert_ne, lookup_insert_eq by done. done.
  - done.
Qed.

(** A thread that is linked to another one cannot wait for a signal. *)
Lemma wait_signal_linked s n thread t y :
  nt_rep (heap s) n (NBits None) → heap s !! thread = Some (OTcb t) → next t = Some y →
  wait_signal n thread s = Panic PAssert.
Proof.
  intros (o & Ho & Hb & _) Ht Hn. unfold wait_signal.
  rewrite (bind_Ok _ _ _ _ _ (read_notification_Ok _ _ _ Ho)). rewrite Hb. simpl.
  apply bind_Panic. by eapply block_thread_linked.
Qed.

(** A signal wakes the thread that waits: it is runnable at the end of the run
    queue with the signal in [a1], and the signal is consumed. *)
Lemma send_signal_wakes s n x t val xs :
  nt_rep (heap s) n (NWait [x]) → rq_rep s xs → x ∉ xs → heap s !! x = Some (OTcb t) →
  ∃ s', send_signal n val s = Ok tt s' ∧ nt_rep (heap s') n (NBits None) ∧ rq_rep s' (xs ++ [x]) ∧
    requested (scheduler s') = requested (scheduler s) ∧
    heap s' !! x = Some (OTcb (t <| value ::= λ v, thread_resume (set_a1 val v) |>)) ∧
    (∀ a, a ≠ n → a ≠ x → a ∉ xs → heap s' !! a = heap s !! a).
Proof.
  intros (o & Ho & Hb & Hv & _ & [_ Hh _ Hc] & _) Hrq Hx Ht. simpl in Hh. destruct Hc as [(u & Hu & Hn) _].
  simpl in Hn. assert (u = t) as -> by congruence. assert (n ≠ x) as Hne by congruence.
  set (o2 := o <| wait_queue := LinkedList_new |>).
  set (s2 := s <| heap := <[n := ONotification o2]> (heap s) |>).
  assert (heap s2 !! x = Some (OTcb t)) as Ht2 by (subst s2; by rewrite heap_set, lookup_insert_ne).
  set (t3 := t <| value ::= set_a1 val |>).
  set (s3 := s2 <| heap := <[x := OTcb t3]> (heap s2) |>).
  assert (heap s3 !! x = Some (OTcb t3)) as Ht3 by (subst s3; by rewrite heap_set, lookup_insert_eq).
  assert (rq_rep s3 xs) as Hrq3 by (apply rq_rep_value; [by eapply rq_rep_insert_ne|done|done]).
  destruct (wake_up_thread_Ok s3 xs x t3 Hrq3 Hx Ht3 Hn) as (s4 & q' & Hk & Hs4 & Hrq4).
  assert (heap s4 = link_last xs x (<[x := OTcb (t3 <| value ::= thread_resume |>)]> (heap s3)))
    as Hh4 by by rewrite Hs4.
  assert (∀ a, a ≠ x → a ∉ xs → heap s4 !! a = heap s2 !! a) as Hfr.
  { intros a Ha Hxs. rewrite Hh4, link_last_frame_notin, lookup_insert_ne by done.
    subst s3. by rewrite heap_set, lookup_insert_ne. }
  exists s4. split_and!; [| |done|by rewrite Hs4|..].
  - unfold send_signal. rewrite (bind_Ok _ _ _ _ _ (read_notification_Ok _ _ _ Ho)).
    rewrite (bind_Ok _ _ _ (Some x, LinkedList_new) s) by (rewrite (ll_pop_Ok s _ x t) by done; by rewrite Hn).
    rewrite (bind_Ok _ _ _ tt s2) by done.
    rewrite (bind_Ok _ _ _ _ _ (modify_tcb_Ok _ _ (set_a1 val) _ Ht2)). exact Hk.
  - exists o2. split; [|by subst o2]. rewrite Hfr; [subst s2; by rewrite heap_set, lookup_insert_eq|done|].
    intros Ha. destruct (links_tcb _ _ _ (rq_links _ _ Hrq) Ha) as (v & Hv' & _). congruence.
  - rewrite Hh4, link_last_frame_notin by done. rewrite lookup_insert_eq. by destruct t.
  - intros a Han Hax Hxs. rewrite Hfr by done. subst s2. by rewrite heap_set, lookup_insert_ne.
Qed.

(** Without a pending signal a wait blocks the thread, and the next signal
    wakes it. *)
Lemma wait_then_signal s n thread t val xs :
  nt_rep (heap s) n (NBits None) → rq_rep s xs → thread ∉ xs →
  heap s !! thread = Some (OTcb t) → next t = None →
  ∃ s1 s2, wait_signal n thread s = Ok true s1 ∧
    nt_rep (heap s1) n (NWait [thread]) ∧ blocked_at (heap s1) thread ∧
    send_signal n val s1 = Ok tt s2 ∧
    nt_rep (heap s2) n (NBits None) ∧ rq_rep s2 (xs ++ [thread]) ∧
    heap s2 !! thread = Some (OTcb (t <| value ::= λ v, thread_resume (set_a1 val v) |>)).
Proof.
  intros Hrep Hrq Hx Ht Hn. pose proof Hrep as (o0 & Ho0 & _). assert (n ≠ thread) as Hne by congruence.
  destruct (wait_signal_blocks _ _ _ _ Hrep Ht Hn) as (o & Hw & Hr1 & _).
  set (t1 := t <| value ::= thread_suspend |>) in *. set (s1 := s <| heap := _ |>) in *.
  assert (heap s1 !! thread = Some (OTcb t1)) as Ht1.
  { subst s1. by rewrite heap_set, lookup_insert_ne, lookup_insert_eq. }
  destruct (send_signal_wakes s1 n thread t1 val xs) as (s2 & H2 & Hr2 & Hrq2 & _ & Ht2 & _); try done.
  { destruct Hrq as [Hnd Hh Hla Hl]. split; [done..|]. revert Hl. apply links_mono.
    intros a u Ha Hu. exists u. assert (a ≠ thread) by congruence. assert (a ≠ n) by congruence.
    subst s1. by rewrite heap_set, !lookup_insert_ne. }
  exists s1, s2. split_and!; try done. by exists t1.
Qed.
