(* ===== verification/Untyped.v ===== *)
(** * Untyped memory ([kernel/src/capability/untyped.rs])

    An untyped capability is a block of memory of a power-of-two size with a
    free index; [retype] carves kernel objects from the free part, and
    [invoke_retype] stores the capabilities to them in a node. *)

From S2P Require Import Prelude Shared Address Objects Riscv LinkedList Capability PageTable CNode.
From S2P Require Import Thread RoundRobin Ipc.

(** [usize::ilog2] *)
Definition ilog2 {S E} (n : Z) : M S E Z := if n <=? 0 then panic PArith else ret (Z.log2 n).

(** ** [UntypedCap] *)

(** [| 48 bit free_idx | 9 bit padd | 1 bit is_device | 6 bit block_size |] *)
Definition untyped_create_cap_dep_val (addr user_size : Z) : K Z :=
  let is_device := 0x00 in
  let* size := ilog2 user_size in
  ret (Z.lor (Z.lor (shl64 (phys_of_kva addr) 16) (shl64 is_device 6)) size).

Definition UntypedCap : Capability := {|
  CAP_TYPE := CapabilityType.Untyped;
  create_cap_dep_val := untyped_create_cap_dep_val;
  get_object_size := λ user_size, ret user_size;
  align_of_object := 1;
  can_be_retyped_from_device_memory := true;
  derive := default_derive;
  init_object := λ _, ret tt;
|}.

Definition get_free_index (c : CapabilityData) : Z := kva_of_phys (Z.shiftr c.(cap_dep_val) 16).
Definition is_device (c : CapabilityData) : bool := Z.land (Z.shiftr c.(cap_dep_val) 6) 0x1 =? 1.
Definition block_size (c : CapabilityData) : K Z := usize_pow2 (Z.land c.(cap_dep_val) 0x3f).
Definition mark_is_device (c : CapabilityData) : CapabilityData :=
  c <| cap_dep_val ::= λ v, Z.land v 0x3f |>.
Definition get_free_bytes (c : CapabilityData) : K Z :=
  let start_address := cap_kva c in
  let* size := block_size c in
  let* end_address := addr_add start_address size in
  addr_sub end_address (get_free_index c).

(** ** [CapGenerator] *)

Record CapGenerator := {
  cg_num : Z;
  cg_address : Z;
  cg_user_size : Z;
  cg_obj_size : Z;
  cg_end_address : Z;
}.
#[export] Instance CapGenerator_eta : Eta CapGenerator := λ g,
  {| cg_num := cg_num g; cg_address := cg_address g; cg_user_size := cg_user_size g;
     cg_obj_size := cg_obj_size g; cg_end_address := cg_end_address g |}.

Definition CapGenerator_new (num start_address user_size obj_size : Z) : K CapGenerator :=
  let* len := usize_mul obj_size num in
  let* end_address := usize_add start_address len in
  ret {| cg_num := num; cg_address := start_address; cg_user_size := user_size;
         cg_obj_size := obj_size; cg_end_address := end_address |}.

(** [Iterator::next] *)
Definition cap_generator_next (C : Capability) (self : CapGenerator)
    : K (option (CapabilityData * CapGenerator)) :=
  if self.(cg_num) =? 0 then ret None
  else
    let* dep_val := create_cap_dep_val C self.(cg_address) self.(cg_user_size) in
    let c := cap_new (CAP_TYPE C) (phys_of_kva self.(cg_address)) dep_val in
    let* address := addr_add self.(cg_address) self.(cg_obj_size) in
    let* num := usize_sub self.(cg_num) 1 in
    ret (Some (c, self <| cg_address := address |> <| cg_num := num |>)).

(** [UntypedCap::retype]: the generator and the updated capability. *)
Definition retype (C : Capability) (self : CapabilityData) (user_size num : Z)
    : K (CapGenerator * CapabilityData) :=
  let device := is_device self in
  (if device
   then guard (can_be_retyped_from_device_memory C) (kerr ErrKind.CanNotNewFromDeviceMemory)
   else ret tt) ;;;
  let* bsize := block_size self in
  let* osize := get_object_size C user_size in
  let* object_size := usize_mul num osize in
  let align := align_of_object C in
  let* free_bytes := get_free_bytes self in
  guard (object_size <=? free_bytes) (kerr ErrKind.NoMemory) ;;;
  let* free_idx_aligned := align_up (get_free_index self) align in
  let* cap_generator := CapGenerator_new num free_idx_aligned user_size object_size in
  let* v := untyped_create_cap_dep_val cap_generator.(cg_end_address) bsize in
  let self := self <| cap_dep_val := v |> in
  ret (cap_generator, if device then mark_is_device self else self).

(** The loop of [retype_and_insert]: initialise each object and store its
    capability in the next slot of the destination. *)
Fixpoint insert_caps (n : nat) (tmp src dest_cnode : Z) (C : Capability) (g : CapGenerator) (i : Z)
    : K unit :=
  match n with
  | O => ret tt
  | S n' =>
      let* r := cap_generator_next C g in
      match r with
      | None => ret tt
      | Some (c, g') =>
          init_object C c ;;;
          insert_cap tmp dest_cnode src c i ;;;
          insert_caps n' tmp src dest_cnode C g' (i + 1)
      end
  end.

(** [UntypedCap::retype_and_insert]: [src] is the slot of the untyped
    capability, which [retype] updates in place and whose list the new entries
    join; the generator yields at most [num] capabilities. *)
Definition retype_and_insert (tmp src dest_cnode : Z) (C : Capability) (user_size num : Z) : K unit :=
  let* e := read_entry src in
  let* '(cap_gen, self') := retype C e.(cap) user_size num in
  modify_entry src (λ e, e <| cap := self' |>) ;;;
  insert_caps (Z.to_nat num) tmp src dest_cnode C cap_gen 0.

(** [UntypedCap::invoke_retype] *)
Definition invoke_retype `{KernelLayout} (tmp src dest_cnode user_size num : Z)
    (new_type : CapabilityType) : K unit :=
  match new_type with
  | CapabilityType.Tcb => retype_and_insert tmp src dest_cnode TCBCap user_size num
  | CapabilityType.CNode => retype_and_insert tmp src dest_cnode CNodeCap user_size num
  | CapabilityType.EndPoint => retype_and_insert tmp src dest_cnode EndPointCap user_size num
  | CapabilityType.Notification => retype_and_insert tmp src dest_cnode NotificationCap user_size num
  | CapabilityType.PageTable => retype_and_insert tmp src dest_cnode PageTableCap user_size num
  | CapabilityType.Page => retype_and_insert tmp src dest_cnode PageCap user_size num
  | _ => throw (kerr ErrKind.UnknownCapType)
  end.

(** ** The packed word *)

(** [c] is the (ordinary memory) block of [2^b] bytes at the page-aligned
    physical address [base], of which everything below [f] is used. *)
Record untyped_at (c : CapabilityData) (base f b : Z) : Prop := {
  ua_address : get_address c = base;
  ua_word : cap_dep_val c = f * 2 ^ 16 + b;
  ua_bits : 0 ≤ b < 64;
  ua_base : 0 ≤ base ∧ base + 2 ^ b ≤ 2 ^ 46;
  ua_page : base mod 4096 = 0 ∧ 12 ≤ b;
  ua_free : base ≤ f ≤ base + 2 ^ b;
}.

Lemma untyped_free_index c base f b : untyped_at c base f b → get_free_index c = KERNEL_V_ADDR_PFX + f.
Proof.
  intros [_ Hw Hb Hba _ Hf]. unfold get_free_index. rewrite Hw, Z.shiftr_div_pow2 by lia.
  rewrite Z.div_add_l, (Z.div_small b), Z.add_0_r by lia.
  apply kva_of_phys_add. unfold is_phys. lia.
Qed.

Lemma untyped_not_device c base f b : untyped_at c base f b → is_device c = false.
Proof.
  intros [_ Hw Hb _ _ _]. unfold is_device. rewrite Hw. change 0x1 with (Z.ones 1).
  rewrite Z.land_ones, Z.shiftr_div_pow2 by lia. apply Z.eqb_neq.
  replace (f * 2 ^ 16 + b) with (f * 2 ^ 10 * 2 ^ 6 + b) by lia.
  rewrite Z.div_add_l, (Z.div_small b), Z.add_0_r by lia.
  replace (f * 2 ^ 10) with (f * 2 ^ 9 * 2 ^ 1) by lia. rewrite Z.mod_mul by lia. done.
Qed.

Lemma untyped_block_size c base f b s : untyped_at c base f b → block_size c s = Ok (2 ^ b) s.
Proof.
  intros [_ Hw Hb _ _ _]. unfold block_size. rewrite Hw. change 0x3f with (Z.ones 6).
  rewrite Z.land_ones by lia.
  replace ((f * 2 ^ 16 + b) mod 2 ^ 6) with b; [apply usize_pow2_Ok; lia|].
  replace (f * 2 ^ 16 + b) with (b + f * 2 ^ 10 * 2 ^ 6) by lia.
  rewrite Z.mod_add by lia. rewrite Z.mod_small; lia.
Qed.

Lemma untyped_kva c base f b : untyped_at c base f b → cap_kva c = KERNEL_V_ADDR_PFX + base.
Proof.
  intros [Ha _ Hb Hba _ _]. unfold cap_kva. rewrite Ha. apply kva_of_phys_add. unfold is_phys.
  assert (0 < 2 ^ b) by lia. lia.
Qed.

Lemma untyped_free_bytes c base f b s :
  untyped_at c base f b → get_free_bytes c s = Ok (base + 2 ^ b - f) s.
Proof.
  intros Hu. unfold get_free_bytes. rewrite (bind_Ok _ _ _ _ _ (untyped_block_size _ _ _ _ s Hu)).
  rewrite (untyped_kva _ _ _ _ Hu), (untyped_free_index _ _ _ _ Hu). destruct Hu as [_ _ _ Hba _ Hf].
  unfold addr_add, addr_sub.
  rewrite (bind_Ok _ _ _ (KERNEL_V_ADDR_PFX + base + 2 ^ b) s)
    by (apply usize_add_Ok; unfold KERNEL_V_ADDR_PFX, W; lia).
  rewrite usize_sub_Ok by lia. f_equal. lia.
Qed.

(** Writing the word: the free index and the size are read back. *)
Lemma untyped_dep_val_size f n s :
  0 ≤ f < 2 ^ 47 → 0 < n < 2 ^ 64 →
  untyped_create_cap_dep_val (KERNEL_V_ADDR_PFX + f) n s = Ok (f * 2 ^ 16 + Z.log2 n) s.
Proof.
  intros Hf Hn. unfold untyped_create_cap_dep_val, ilog2.
  rewrite (proj2 (Z.leb_gt _ _)) by lia.
  rewrite (bind_Ok _ _ _ (Z.log2 n) s) by done.
  unfold ret, shl64. rewrite Z.shiftl_0_l, Z.mod_0_l, Z.lor_0_r by (unfold W; lia).
  rewrite phys_of_kva_mod by (unfold KERNEL_V_ADDR_PFX; lia).
  rewrite <- Zplus_mod_idemp_l. replace (KERNEL_V_ADDR_PFX mod 2 ^ 47) with 0 by reflexivity.
  rewrite Z.add_0_l, (Z.mod_small f) by lia.
  rewrite (Z.mod_small (Z.shiftl f 16)) by (rewrite Z.shiftl_mul_pow2 by lia; unfold W; lia).
  pose proof (Z.log2_nonneg n). assert (Z.log2 n < 64) by (apply Z.log2_lt_pow2; lia).
  rewrite lor_shiftl_add; [done|lia|]. split; [lia|]. transitivity 64; [lia|]. by compute.
Qed.

Lemma untyped_dep_val_Ok f b s :
  0 ≤ f < 2 ^ 47 → 0 ≤ b < 64 →
  untyped_create_cap_dep_val (KERNEL_V_ADDR_PFX + f) (2 ^ b) s = Ok (f * 2 ^ 16 + b) s.
Proof.
  intros Hf Hb. assert (2 ^ b < 2 ^ 64) by (apply Z.pow_lt_mono_r; lia).
  rewrite untyped_dep_val_size by lia. by rewrite Z.log2_pow2 by lia.
Qed.

(** ** [retype] *)

(** The capability type [C], asked for [user_size], makes objects of [size]
    bytes at multiples of [align]. *)
Record object_layout (C : Capability) (user_size size align : Z) : Prop := {
  ol_size : ∀ s, get_object_size C user_size s = Ok size s;
  ol_pos : 0 < size < 2 ^ 46;
  ol_align : align_of_object C = align;
  ol_pow2 : is_pow2 align;
  ol_small : align ≤ 4096;
  ol_mult : size mod align = 0;
}.

(** The first multiple of [align] that is not below [f]. *)
Definition round_up (f align : Z) : Z := (f + align - 1) / align * align.

Lemma round_up_bounds f align : 0 < align → f ≤ round_up f align < f + align.
Proof.
  intros. unfold round_up. pose proof (Z.div_mod (f + align - 1) align).
  pose proof (Z.mod_pos_bound (f + align - 1) align). lia.
Qed.

Lemma round_up_mod f align : 0 < align → round_up f align mod align = 0.
Proof. intros. unfold round_up. apply Z.mod_mul. lia. Qed.

Lemma round_up_id f align : 0 < align → f mod align = 0 → round_up f align = f.
Proof.
  intros. pose proof (round_up_bounds f align). pose proof (round_up_mod f align).
  assert (round_up f align / align = f / align) as Hq.
  { pose proof (Z.div_mod (round_up f align) align). pose proof (Z.div_mod f align). nia. }
  pose proof (Z.div_mod (round_up f align) align). pose proof (Z.div_mod f align). lia.
Qed.

Lemma round_up_least f align m : 0 < align → f ≤ m → m mod align = 0 → round_up f align ≤ m.
Proof.
  intros Ha Hf Hm. rewrite <- (round_up_id m align) by done. unfold round_up.
  apply Z.mul_le_mono_nonneg_r; [lia|]. apply Z.div_le_mono; lia.
Qed.

Lemma pow2_small_exp align : is_pow2 align → align ≤ 4096 → ∃ k, 0 ≤ k ≤ 12 ∧ align = 2 ^ k.
Proof.
  intros (k & Hk & ->) Hle. exists k. split; [|done]. split; [done|].
  destruct (Z.le_gt_cases k 12); [done|]. assert (2 ^ 12 < 2 ^ k) by (apply Z.pow_lt_mono_r; lia). lia.
Qed.

Lemma align_up_kva f align (s : KState) :
  is_pow2 align → align ≤ 4096 → 0 ≤ f < 2 ^ 46 + 4096 →
  align_up (E := KernelError) (KERNEL_V_ADDR_PFX + f) align s =
    Ok (KERNEL_V_ADDR_PFX + round_up f align) s.
Proof.
  intros Hp Hle Hf. destruct (pow2_small_exp _ Hp Hle) as (k & Hk & ->).
  assert (0 < 2 ^ k) by lia.
  assert (KERNEL_V_ADDR_PFX = 2 ^ (47 - k) * 0x1ffff * 2 ^ k) as Hpfx.
  { replace (2 ^ (47 - k) * 0x1ffff * 2 ^ k) with (0x1ffff * (2 ^ (47 - k) * 2 ^ k)) by lia.
    rewrite <- Z.pow_add_r by lia. replace (47 - k + k) with 47 by lia. reflexivity. }
  unfold align_up.
  rewrite (bind_Ok _ _ _ (KERNEL_V_ADDR_PFX + f + 2 ^ k) s)
    by (apply usize_add_Ok; unfold KERNEL_V_ADDR_PFX, W; lia).
  rewrite (bind_Ok _ _ _ (KERNEL_V_ADDR_PFX + f + 2 ^ k - 1) s)
    by (apply usize_sub_Ok; unfold KERNEL_V_ADDR_PFX; lia).
  rewrite (bind_Ok _ _ _ (2 ^ k - 1) s) by (apply usize_sub_Ok; lia).
  unfold ret. rewrite land_lnot_pow2 by (unfold KERNEL_V_ADDR_PFX, W; lia).
  f_equal. unfold round_up. rewrite Hpfx at 1.
  replace (2 ^ (47 - k) * 0x1ffff * 2 ^ k + f + 2 ^ k - 1)
    with (2 ^ (47 - k) * 0x1ffff * 2 ^ k + (f + 2 ^ k - 1)) by lia.
  rewrite Z.div_add_l, Z.mul_add_distr_r by lia. by rewrite <- Hpfx.
Qed.

(** What [retype] answers for [num] objects of [size] bytes. The generator is
    given the size of all [num] objects together as the size of one, and
    multiplies by [num] again. *)
Definition retype_generator (num user_size start total : Z) : CapGenerator :=
  {| cg_num := num; cg_address := KERNEL_V_ADDR_PFX + start; cg_user_size := user_size;
     cg_obj_size := total; cg_end_address := KERNEL_V_ADDR_PFX + start + total * num |}.

Lemma retype_eq C c us num size align base f b s :
  untyped_at c base f b → object_layout C us size align → 0 ≤ num →
  num * size < W →
  (num * size ≤ base + 2 ^ b - f → round_up f align + num * size * num < 2 ^ 47) →
  retype C c us num s =
    if base + 2 ^ b - f <? num * size then Err (kerr ErrKind.NoMemory) s
    else Ok (retype_generator num us (round_up f align) (num * size),
             c <| cap_dep_val := (round_up f align + num * size * num) * 2 ^ 16 + b |>) s.
Proof.
  intros Hu Ho Hnum Hmul Hend. pose proof Ho as [Hsz Hpos Hal Hpow Hsm _].
  pose proof Hu as [_ _ Hb Hba _ Hf]. unfold retype.
  rewrite (untyped_not_device _ _ _ _ Hu), (bind_Ok _ _ _ tt s) by done.
  rewrite (bind_Ok _ _ _ _ _ (untyped_block_size _ _ _ _ s Hu)).
  rewrite (bind_Ok _ _ _ _ _ (Hsz s)), (bind_Ok _ _ _ _ _ (usize_mul_Ok _ _ s Hmul)), Hal.
  rewrite (bind_Ok _ _ _ _ _ (untyped_free_bytes _ _ _ _ s Hu)).
  destruct (Z.ltb_spec (base + 2 ^ b - f) (num * size)) as [Hlt|Hge].
  { by rewrite (proj2 (Z.leb_gt _ _)). }
  specialize (Hend Hge). rewrite (proj2 (Z.leb_le _ _)), (bind_Ok _ _ _ tt s) by done.
  rewrite (untyped_free_index _ _ _ _ Hu).
  rewrite (bind_Ok _ _ _ _ _ (align_up_kva f align s Hpow Hsm ltac:(lia))).
  assert (0 < align) by (destruct Hpow as (k & ? & ->); lia).
  pose proof (round_up_bounds f align ltac:(lia)).
  assert (0 ≤ num * size * num) by nia.
  unfold CapGenerator_new. rewrite !bind_assoc.
  rewrite (bind_Ok _ _ _ _ _ (usize_mul_Ok (num * size) num s ltac:(unfold W in *; lia))).
  rewrite !bind_assoc.
  rewrite (bind_Ok _ _ _ (KERNEL_V_ADDR_PFX + round_up f align + num * size * num) s)
    by (apply usize_add_Ok; unfold KERNEL_V_ADDR_PFX, W; lia).
  rewrite (bind_Ok _ _ _ (retype_generator num us (round_up f align) (num * size)) s) by done.
  simpl. replace (KERNEL_V_ADDR_PFX + round_up f align + num * size * num)
    with (KERNEL_V_ADDR_PFX + (round_up f align + num * size * num)) by lia.
  by rewrite (bind_Ok _ _ _ _ _ (untyped_dep_val_Ok (round_up f align + num * size * num) b s ltac:(lia) ltac:(lia))).
Qed.

(** An object that fits into the free bytes still fits after the free index is
    aligned, since the end of the block is aligned as well. *)
Lemma object_fits C c us size align base f b :
  untyped_at c base f b → object_layout C us size align → size ≤ base + 2 ^ b - f →
  f ≤ round_up f align ∧ round_up f align + size ≤ base + 2 ^ b ∧ round_up f align mod align = 0.
Proof.
  intros [_ _ Hb _ [Hpg Hb12] Hf] [_ Hpos _ Hpow Hsm Hmul] Hle.
  destruct (pow2_small_exp _ Hpow Hsm) as (k & Hk & ->). assert (0 < 2 ^ k) as Hk0 by lia.
  pose proof (round_up_bounds f (2 ^ k) Hk0). split; [lia|]. split; [|by apply round_up_mod].
  assert (round_up f (2 ^ k) ≤ base + 2 ^ b - size); [|lia]. apply round_up_least; [done|lia|].
  apply Z.mod_divide in Hpg as [u Hu]; [|lia]. apply Z.mod_divide in Hmul as [w Hw]; [|lia].
  assert (∀ n, k ≤ n → 2 ^ n = 2 ^ (n - k) * 2 ^ k) as Hsplit.
  { intros n Hn. rewrite <- Z.pow_add_r by lia. f_equal. lia. }
  change 4096 with (2 ^ 12) in Hu. rewrite (Hsplit 12) in Hu by lia. rewrite (Hsplit b) by lia.
  rewrite Hu, Hw. replace (u * (2 ^ (12 - k) * 2 ^ k) + 2 ^ (b - k) * 2 ^ k - w * 2 ^ k)
    with ((u * 2 ^ (12 - k) + 2 ^ (b - k) - w) * 2 ^ k) by lia. by apply Z.mod_mul; lia.
Qed.

(** [retype] of one object, as one equation. *)
Lemma retype_one C c us size align base f b s :
  untyped_at c base f b → object_layout C us size align →
  let start := round_up f align in
  retype C c us 1 s =
    if base + 2 ^ b - f <? size then Err (kerr ErrKind.NoMemory) s
    else Ok (retype_generator 1 us start size,
             c <| cap_dep_val := (start + size) * 2 ^ 16 + b |>) s.
Proof.
  intros Hu Ho start. pose proof Ho as [_ Hpos _ _ _ _]. pose proof Hu as [_ _ _ Hba _ _].
  rewrite (retype_eq C c us 1 size align base f b s Hu Ho).
  - by rewrite !Z.mul_1_l, Z.mul_1_r.
  - lia.
  - unfold W. lia.
  - intros Hle. destruct (object_fits C c us size align base f b Hu Ho); lia.
Qed.

Lemma untyped_at_advance C c us size align base f b :
  untyped_at c base f b → object_layout C us size align → size ≤ base + 2 ^ b - f →
  untyped_at (c <| cap_dep_val := (round_up f align + size) * 2 ^ 16 + b |>) base
             (round_up f align + size) b.
Proof.
  intros Hu Ho Hle. destruct (object_fits C c us size align base f b Hu Ho Hle) as (? & ? & _).
  pose proof Ho as [_ Hpos _ _ _ _]. destruct Hu as [Ha _ Hb Hba Hpg Hf]. split; try done. lia.
Qed.

(** [retype] of one object, on every branch. When the block has too few
    free bytes the answer is [NoMemory] and nothing changes. Otherwise the
    object is placed at the first aligned address that is not below the free
    index, entirely inside the block; the free index moves to the object's end,
    and the block's address and size stay the same. *)
Lemma retype_single C c us size align base f b s :
  untyped_at c base f b → object_layout C us size align →
  let start := round_up f align in
  (base + 2 ^ b - f < size → retype C c us 1 s = Err (kerr ErrKind.NoMemory) s) ∧
  (size ≤ base + 2 ^ b - f →
   ∃ g c', retype C c us 1 s = Ok (g, c') s ∧
     untyped_at c' base (start + size) b ∧ cap_type c' = cap_type c ∧
     cg_num g = 1 ∧ cg_address g = KERNEL_V_ADDR_PFX + start ∧ cg_user_size g = us ∧
     cg_obj_size g = size ∧
     f ≤ start ∧ start mod align = 0 ∧ start + size ≤ base + 2 ^ b).
Proof.
  intros Hu Ho start. rewrite (retype_one _ _ _ _ _ _ _ _ s Hu Ho). split; intros Hle.
  - by rewrite (proj2 (Z.ltb_lt _ _)).
  - eexists _, _. rewrite (proj2 (Z.ltb_ge _ _)) by lia. split; [reflexivity|].
    destruct (object_fits C c us size align base f b Hu Ho Hle) as (? & ? & ?).
    split; [by eapply untyped_at_advance|]. done.
Qed.

(** ** A sequence of retypes *)

(** One object at a time, from the same capability: the addresses and sizes of
    the objects. *)
Fixpoint retypes (reqs : list (Capability * Z)) (c : CapabilityData)
    : K (list (Z * Z) * CapabilityData) :=
  match reqs with
  | [] => ret ([], c)
  | (C, us) :: reqs =>
      let* '(g, c') := retype C c us 1 in
      let* '(rs, c'') := retypes reqs c' in
      ret ((g.(cg_address), g.(cg_obj_size)) :: rs, c'')
  end.

(** Address ranges [(start, length)] in ascending order, none before [lo]: each
    begins where the one before it ends, or later. *)
Fixpoint ascending (lo : Z) (rs : list (Z * Z)) : Prop :=
  match rs with
  | [] => True
  | (a, n) :: rs => lo ≤ a ∧ 0 < n ∧ ascending (a + n) rs
  end.

Lemma retypes_ascending reqs c base f b s rs c' s' :
  untyped_at c base f b →
  Forall (λ '(C, us), ∃ size align, object_layout C us size align) reqs →
  retypes reqs c s = Ok (rs, c') s' →
  ascending (KERNEL_V_ADDR_PFX + f) rs ∧ (∃ f', untyped_at c' base f' b) ∧
  Forall (λ '(a, n), a + n ≤ KERNEL_V_ADDR_PFX + base + 2 ^ b) rs.
Proof.
  revert c f s rs s'. induction reqs as [|[C us] reqs IH]; intros c f s rs s' Hu Hol; simpl.
  - intros [= <- <- <-]. split; [done|]. split; [by exists f|done].
  - apply Forall_cons in Hol as [(size & align & Ho) Hol]. intros Hr. inv_bind Hr.
    rewrite (retype_one _ _ _ _ _ _ _ _ s Hu Ho) in Hm. pose proof Ho as [_ Hpos _ _ _ _].
    destruct (Z.ltb_spec (base + 2 ^ b - f) size); [done|]. injection Hm as <- <-.
    destruct (object_fits C c us size align base f b Hu Ho) as (Hge & Hin & _); [done|].
    pose proof (untyped_at_advance _ _ _ _ _ _ _ _ Hu Ho ltac:(done)) as Hu1.
    inv_bind Hr. destruct a as [rs' c2]. injection Hr as <- <- <-.
    destruct (IH _ _ _ _ _ Hu1 Hol Hm) as (Hasc & Hu' & Hall).
    simpl. split_and!; try lia; try done.
    + by replace (KERNEL_V_ADDR_PFX + round_up f align + size)
        with (KERNEL_V_ADDR_PFX + (round_up f align + size)) by lia.
    + apply Forall_cons. split; [lia|done].
Qed.

Lemma ascending_lookup lo rs i a n :
  ascending lo rs → rs !! i = Some (a, n) → lo ≤ a ∧ 0 < n.
Proof.
  revert lo i. induction rs as [|[a0 n0] rs IH]; intros lo i; simpl; [done|].
  intros (? & ? & Hasc). destruct i as [|i]; simpl; intros Hi; [by simplify_eq|].
  destruct (IH _ _ Hasc Hi). lia.
Qed.

Lemma ascending_disjoint lo rs i j a n a' n' :
  ascending lo rs → (i < j)%nat → rs !! i = Some (a, n) → rs !! j = Some (a', n') → a + n ≤ a'.
Proof.
  revert lo i j. induction rs as [|[a0 n0] rs IH]; intros lo i j; simpl; [done|].
  intros (? & ? & Hasc) Hij Hi Hj. destruct j as [|j]; [lia|]. destruct i as [|i]; simpl in *.
  - simplify_eq. destruct (ascending_lookup _ _ _ _ _ Hasc Hj). lia.
  - eapply IH; [done| |done|done]. lia.
Qed.

(** C4: objects never overlap and never leave the block. In any sequence of
    successful single-object retypes from one capability, whatever the types,
    an object ends before the next one begins, so no byte belongs to two
    objects; every object lies in the part of the block that was free; and the
    capability still describes the same block. *)
Theorem retypes_disjoint reqs c base f b s rs c' s' :
  untyped_at c base f b →
  Forall (λ '(C, us), ∃ size align, object_layout C us size align) reqs →
  retypes reqs c s = Ok (rs, c') s' →
  (∀ i j a n a' n', rs !! i = Some (a, n) → rs !! j = Some (a', n') → i ≠ j →
     a + n ≤ a' ∨ a' + n' ≤ a) ∧
  (∀ i a n, rs !! i = Some (a, n) →
     KERNEL_V_ADDR_PFX + f ≤ a ∧ a + n ≤ KERNEL_V_ADDR_PFX + base + 2 ^ b) ∧
  (∃ f', untyped_at c' base f' b).
Proof.
  intros Hu Hol Hr. destruct (retypes_ascending _ _ _ _ _ _ _ _ _ Hu Hol Hr) as (Hasc & Hu' & Hall).
  split; [|split; [|done]].
  - intros i j a n a' n' Hi Hj Hne. destruct (Nat.lt_total i j) as [Hlt|[?|Hlt]]; [|done|].
    + left. by eapply ascending_disjoint.
    + right. by eapply ascending_disjoint.
  - intros i a n Hi. split; [by eapply ascending_lookup|].
    exact (Forall_lookup_1 _ _ _ _ Hall Hi).
Qed.

(** ** Where [retype] leaves the block *)

(** All capabilities a generator yields. *)
Fixpoint cap_generator_caps (n : nat) (C : Capability) (g : CapGenerator) : K (list CapabilityData) :=
  match n with
  | O => ret []
  | S n' =>
      let* r := cap_generator_next C g in
      match r with
      | None => ret []
      | Some (c, g') => let* cs := cap_generator_caps n' C g' in ret (c :: cs)
      end
  end.

Lemma cap_generator_next_Ok C g dep s :
  create_cap_dep_val C (cg_address g) (cg_user_size g) s = Ok dep s → 0 < cg_num g →
  cg_address g + cg_obj_size g < W →
  cap_generator_next C g s =
    Ok (Some (cap_new (CAP_TYPE C) (phys_of_kva (cg_address g)) dep,
              g <| cg_address := cg_address g + cg_obj_size g |> <| cg_num := cg_num g - 1 |>)) s.
Proof.
  intros Hd Hn Ha. unfold cap_generator_next. rewrite (proj2 (Z.eqb_neq _ _)) by lia.
  rewrite (bind_Ok _ _ _ _ _ Hd). unfold addr_add.
  rewrite (bind_Ok _ _ _ _ _ (usize_add_Ok _ _ s Ha)).
  by rewrite (bind_Ok _ _ _ _ _ (usize_sub_Ok (cg_num g) 1 s ltac:(lia))).
Qed.

(** The [i]-th capability names the object [i] object sizes after the first. *)
Lemma cap_generator_caps_Ok C g s :
  (∀ a s, ∃ dep, create_cap_dep_val C a (cg_user_size g) s = Ok dep s) →
  0 ≤ cg_num g → 0 ≤ cg_obj_size g → KERNEL_V_ADDR_PFX ≤ cg_address g →
  cg_address g + cg_obj_size g * cg_num g < W →
  ∃ cs, cap_generator_caps (Z.to_nat (cg_num g)) C g s = Ok cs s ∧
    length cs = Z.to_nat (cg_num g) ∧
    ∀ i c, cs !! i = Some c →
      cap_kva c = cg_address g + Z.of_nat i * cg_obj_size g ∧
      cap_type c = CapabilityType.cap_type_as_u8 (CAP_TYPE C).
Proof.
  intros Hdep. remember (Z.to_nat (cg_num g)) as n eqn:Hn. revert g Hdep Hn.
  induction n as [|n IH]; intros g Hdep Hn Hnum Hsz Hk Hend.
  - exists []. split; [done|]. split; [done|]. intros i c. by rewrite lookup_nil.
  - destruct (Hdep (cg_address g) s) as (dep & Hd). simpl.
    assert (cg_obj_size g ≤ cg_obj_size g * cg_num g) by nia.
    rewrite (bind_Ok _ _ _ _ _ (cap_generator_next_Ok C g dep s Hd ltac:(lia) ltac:(lia))).
    set (g' := g <| cg_address := _ |> <| cg_num := _ |>).
    destruct (IH g') as (cs & Hcs & Hlen & Hall); subst g'; simpl; try done; try lia.
    rewrite (bind_Ok _ _ _ _ _ Hcs). eexists. split; [reflexivity|]. split; [simpl; lia|].
    intros [|i] c Hi; simpl in Hi.
    + simplify_eq. split; [|done]. rewrite cap_kva_new; [lia|]. unfold is_kva. lia.
    + destruct (Hall i c Hi) as [-> ->]. split; [|done]. simpl. lia.
Qed.

(** C37: [retype] of several objects does not stay in the block. The generator
    steps by the size of all [num] objects: for [num] objects of a type with an
    aligned free index that together take every free byte, the capabilities,
    all of the type asked for, name addresses [num * size] apart. The first one
    begins at the free index and every other one lies completely outside the
    block, over whatever memory follows it. *)
Theorem retype_many_overruns C c us num size align base f b s :
  untyped_at c base f b → object_layout C us size align → f mod align = 0 →
  2 ≤ num → num * size = base + 2 ^ b - f → f + num * size * num < 2 ^ 47 →
  (∀ a s, ∃ dep, create_cap_dep_val C a us s = Ok dep s) →
  ∃ g c' cs, retype C c us num s = Ok (g, c') s ∧
    cap_generator_caps (Z.to_nat num) C g s = Ok cs s ∧ length cs = Z.to_nat num ∧
    (∀ i o, cs !! i = Some o →
       cap_kva o = get_free_index c + Z.of_nat i * (num * size) ∧
       cap_type o = CapabilityType.cap_type_as_u8 (CAP_TYPE C) ∧
       ((0 < i)%nat → cap_kva c + 2 ^ b ≤ cap_kva o)).
Proof.
  intros Hu Ho Hm Hnum Hfill Hend Hdep. pose proof Ho as [_ Hpos _ Hpow Hsm _].
  pose proof Hu as [Hadr Hw Hb Hba _ Hf].
  assert (0 < align) as Hal by (destruct Hpow as (k & ? & ->); lia).
  pose proof (round_up_id f align Hal Hm) as Hid.
  set (g := retype_generator num us f (num * size)).
  destruct (cap_generator_caps_Ok C g s) as (cs & Hcs & Hlen & Hall);
    [exact Hdep|simpl; lia|simpl; lia|simpl; lia|simpl; unfold KERNEL_V_ADDR_PFX, W; lia|].
  simpl in Hcs, Hlen.
  eexists g, _, cs. split; [|split; [done|split; [done|]]].
  - rewrite (retype_eq C c us num size align base f b s Hu Ho) by (unfold W; lia).
    rewrite (proj2 (Z.ltb_ge _ _)) by lia. rewrite Hid. reflexivity.
  - intros i o Hi. destruct (Hall i o Hi) as [-> ->]. simpl.
    rewrite (untyped_kva _ _ _ _ Hu), (untyped_free_index _ _ _ _ Hu). split_and!; [done|done|nia].
Qed.

(** [retype] of device memory loses the block. [mark_is_device] keeps the
    six size bits of the word and clears everything else: afterwards the
    capability no longer counts as device memory, and its free index is
    physical address 0. *)
Lemma device_retype_forgets C c us num s g c' s' :
  is_device c = true → retype C c us num s = Ok (g, c') s' →
  is_device c' = false ∧ get_free_index c' = KERNEL_V_ADDR_PFX ∧ get_address c' = get_address c.
Proof.
  intros Hd Hr. unfold retype in Hr. rewrite Hd in Hr.
  do 9 inv_bind Hr. injection Hr as <- <- <-.
  match goal with |- context [mark_is_device ?x] => set (c1 := x) end.
  assert (cap_dep_val (mark_is_device c1) = cap_dep_val c1 mod 2 ^ 6) as Hv.
  { unfold mark_is_device. simpl. change 0x3f with (Z.ones 6). by apply Z.land_ones. }
  pose proof (Z.mod_pos_bound (cap_dep_val c1) (2 ^ 6) ltac:(lia)).
  unfold is_device, get_free_index. rewrite Hv, !Z.shiftr_div_pow2, !Z.div_small by lia.
  done.
Qed.
