(* ===== verification/Syscall.v ===== *)
(** * System calls ([kernel/src/syscall.rs])

    [handle_syscall] decodes the registers of the calling thread, runs the
    invocation of the capability the thread names, and stores the result. The
    handler of each capability type is a definition of its own here, in the
    order of the source's [match]. Text the kernel prints for diagnosis is not
    modelled; characters a thread prints with [PutChar] are. *)

From S2P Require Import Prelude Shared Address Objects Riscv LinkedList Capability PageTable CNode.
From S2P Require Import Thread RoundRobin Ipc Untyped.

(** ** [CNodeEntry::derive] ([object/cnode.rs]) *)

Section Layout.
Context `{KernelLayout}.

Definition entry_derive (self : CNodeEntry) : K CapabilityData :=
  let* cap_type := get_cap_type self.(cap) in
  match cap_type with
  | CapabilityType.Tcb => derive TCBCap self.(cap)
  | CapabilityType.Untyped => derive UntypedCap self.(cap)
  | CapabilityType.CNode => derive CNodeCap self.(cap)
  | CapabilityType.Notification => derive NotificationCap self.(cap)
  | CapabilityType.EndPoint => derive EndPointCap self.(cap)
  | CapabilityType.Page => derive PageCap self.(cap)
  | CapabilityType.PageTable => derive PageTableCap self.(cap)
  end.

(** ** [print_traverse] ([capability/cnode.rs]): the reads, without the text *)

Fixpoint print_level (fuel : nat) (self : CapabilityData) : K unit :=
  match fuel with
  | O => λ _, OutOfFuel
  | S fuel' =>
      let* n := capacity self in
      (fix slots (k : nat) (addr : Z) : K unit :=
         match k with
         | O => ret tt
         | S k' =>
             let* slot := read_slot addr in
             match slot with
             | Some entry =>
                 let* r := try_ (try_ref_as CapabilityType.CNode entry.(cap)) in
                 match r with
                 | inl c => if get_address c =? get_address self then ret tt else print_level fuel' c
                 | inr _ => ret tt : K unit
                 end
             | None => ret tt
             end ;;;
             slots k' (addr + size_of_CNodeEntry)
         end) (Z.to_nat n) (cap_kva self)
  end.
Definition PRINT_FUEL : nat := 64.

(** ** [handle_invocation] *)

(** [root_cnode.lookup_entry_mut(ptr, depth as u32)?] *)
Definition lookup (root : CapabilityData) (ptr depth : Z) : K Z :=
  lookup_entry_mut LOOKUP_FUEL root ptr (as_u32 depth).

(** ... followed by [.as_mut().ok_or(SlotIsEmpty)?] and the checked cast: the
    address of the entry and its capability. *)
Definition lookup_as (root : CapabilityData) (want : CapabilityType) (ptr depth : Z)
    : K (Z * CapabilityData) :=
  let* a := lookup root ptr depth in
  let* e := occupied a in
  let* c := try_ref_as want e.(cap) in
  ret (a, c).

(** The capability of the slot the invocation names, as the type it must have. *)
Definition slot_cap (want : CapabilityType) (slot : Z) : K CapabilityData :=
  let* e := read_entry slot in try_ref_as want e.(cap).
Definition update_cap (slot : Z) (c : CapabilityData) : K unit :=
  modify_entry slot (λ e, e <| cap := c |>).

Definition invoke_untyped (tmp : Z) (root : CapabilityData) (slot : Z) (reg : Registers)
    : K (option Z) :=
  let dest_cnode_ptr := a3 reg in
  let index_and_depth := a4 reg in
  let user_size_and_num := a5 reg in
  let dest_depth := as_u32 index_and_depth in
  let index := Z.shiftr index_and_depth 32 in
  let user_size := Z.shiftr user_size_and_num 32 in
  let num := as_u32 user_size_and_num in
  let* new_type := cap_try_from_u8 (as_u8 (a6 reg)) in
  let* '(_, dest_cnode_cap) := lookup_as root CapabilityType.CNode dest_cnode_ptr dest_depth in
  let* dest_cnode := get_writable dest_cnode_cap num (as_u32 index) in
  slot_cap CapabilityType.Untyped slot ;;;
  invoke_retype tmp slot dest_cnode user_size num new_type ;;;
  ret None.

Definition invoke_cnode (tmp : Z) (root : CapabilityData) (slot : Z) (inv_label : InvLabel)
    (reg : Registers) : K (option Z) :=
  let src_index := a3 reg in
  let src_depth := as_u32 (Z.shiftr (a4 reg) 32) in
  let dest_depth := as_u32 (a4 reg) in
  let dest_index := a5 reg in
  let* dest_root := slot_cap CapabilityType.CNode slot in
  let* src_slot := lookup root src_index src_depth in
  let* src_entry := occupied src_slot in
  let* dest_slot := lookup dest_root dest_index dest_depth in
  let* dest := read_slot dest_slot in
  match dest with
  | Some _ => throw (kerr ErrKind.NotEmptySlot)
  | None =>
      let* raw_cap := entry_derive src_entry in
      let c := if bool_decide (inv_label = InvLabel.CNodeMint)
               then set_cap_dep_val raw_cap (a6 reg) else raw_cap in
      let* new_slot :=
        if bool_decide (inv_label = InvLabel.CNodeMove) then
          let* e := with_local_entry tmp c (entry_replace tmp src_slot) in
          write_slot_at src_slot None ;;;
          ret e
        else with_local_entry tmp c (entry_insert tmp src_slot) in
      write_entry dest_slot new_slot ;;;
      ret None
  end.

Definition invoke_tcb (tmp : Z) (root : CapabilityData) (slot : Z) (inv_label : InvLabel)
    (ipc_buffer : option Z) (reg : Registers) : K (option Z) :=
  let* tcb_cap := slot_cap CapabilityType.Tcb slot in
  match inv_label with
  | InvLabel.TcbConfigure =>
      let* '(cnode_slot, vspace_slot) :=
        lookup_two_entries_mut LOOKUP_FUEL root (a3 reg) (as_u32 (a4 reg))
          (a5 reg) (as_u32 (a6 reg)) in
      let* cspace_e := occupied cnode_slot in
      try_ref_as CapabilityType.CNode cspace_e.(cap) ;;;
      let* vspace_e := occupied vspace_slot in
      try_ref_as CapabilityType.PageTable vspace_e.(cap) ;;;
      tcb_set_cspace tmp tcb_cap cnode_slot ;;;
      tcb_set_vspace tmp tcb_cap vspace_slot ;;;
      ret None
  | InvLabel.TcbWriteReg =>
      let* ipc_buffer := ok_or ipc_buffer (kerr ErrKind.InvalidOperation) in
      let* page := read_page ipc_buffer in
      match read_as Registers page with
      | inr registers => tcb_set_registers tcb_cap registers ;;; ret None
      | inl _ => throw (kerr ErrKind.InvalidOperation)
      end
  | InvLabel.TcbSetIpcBuffer =>
      let* '(page_slot, _) := lookup_as root CapabilityType.Page (a3 reg) (a4 reg) in
      tcb_set_ipc_buffer tmp tcb_cap page_slot ;;;
      ret None
  | InvLabel.TcbResume =>
      make_runnable tcb_cap ;;;
      ret None
  | _ => throw (kerr ErrKind.UnknownInvocation)
  end.

Definition invoke_notification (slot current : Z) (inv_label : InvLabel) : K (option Z) :=
  let* c := slot_cap CapabilityType.Notification slot in
  let notify_cap := cap_replicate c in
  match inv_label with
  | InvLabel.NotifySend => notify_cap_send notify_cap ;;; ret None
  | InvLabel.NotifyWait =>
      let* wait := notify_cap_wait notify_cap current in
      (if wait then require_schedule else ret tt) ;;;
      ret None
  | _ => throw (kerr ErrKind.UnknownInvocation)
  end.

Definition invoke_endpoint (slot current : Z) (inv_label : InvLabel) : K (option Z) :=
  let* c := slot_cap CapabilityType.EndPoint slot in
  let ep_cap := cap_replicate c in
  match inv_label with
  | InvLabel.EpSend =>
      let* wait := ep_cap_send ep_cap current in
      (if wait then require_schedule else ret tt) ;;;
      ret None
  | InvLabel.EpRecv =>
      let* wait := ep_cap_recv ep_cap current in
      (if wait then require_schedule else ret tt) ;;;
      ret None
  | _ => throw (kerr ErrKind.UnknownInvocation)
  end.

Definition invoke_page (root : CapabilityData) (slot : Z) (inv_label : InvLabel) (reg : Registers)
    : K (option Z) :=
  let* page_cap := slot_cap CapabilityType.Page slot in
  match inv_label with
  | InvLabel.PageMap =>
      let vaddr := a5 reg in
      guard (is_aligned vaddr PAGE_SIZE) (kerr_val ErrKind.NotAligned (as_u16 PAGE_SIZE)) ;;;
      let* '(_, root_page_table) := lookup_as root CapabilityType.PageTable (a3 reg) (a4 reg) in
      let flags := Z.lor PAGE_U (get_user_flags (a6 reg)) in
      let* c := page_cap_map page_cap root_page_table vaddr flags in
      update_cap slot c ;;;
      ret None
  | InvLabel.PageUnMap =>
      let* '(_, root_page_table) := lookup_as root CapabilityType.PageTable (a3 reg) (a4 reg) in
      let* c := page_cap_unmap page_cap root_page_table in
      update_cap slot c ;;;
      ret None
  | _ => throw (kerr ErrKind.UnknownInvocation)
  end.

Definition invoke_page_table (root : CapabilityData) (slot : Z) (inv_label : InvLabel)
    (reg : Registers) : K (option Z) :=
  let* page_table_cap := slot_cap CapabilityType.PageTable slot in
  match inv_label with
  | InvLabel.PageTableMap =>
      let vaddr := a5 reg in
      guard (is_aligned vaddr PAGE_SIZE) (kerr_val ErrKind.NotAligned (as_u16 PAGE_SIZE)) ;;;
      let* '(_, root_page_table) := lookup_as root CapabilityType.PageTable (a3 reg) (a4 reg) in
      let* '(v, c) := pt_cap_map page_table_cap root_page_table vaddr in
      update_cap slot c ;;;
      ret (Some v)
  | InvLabel.PageTableUnMap => panic PTodo
  | InvLabel.PageTableMakeRoot =>
      let* c := make_as_root page_table_cap in
      update_cap slot c ;;;
      ret None
  | _ => throw (kerr ErrKind.UnknownInvocation)
  end.

(** [tmp] is where the call's local entries live on the kernel stack. *)
Definition handle_invocation (tmp cap_ptr depth : Z) (inv_label : InvLabel) (reg : Registers)
    : K (option Z) :=
  let* current_tcb := get_current_tcb in
  let* t := read_tcb current_tcb in
  let ipc_buffer := ipc_buffer_ref t.(value) in
  let* root_entry := ok_or t.(value).(root_cnode) (kerr ErrKind.CapNotFound) in
  let root_cnode := cap_replicate root_entry.(cap) in
  let* slot := lookup root_cnode cap_ptr depth in
  let* entry := occupied slot in
  let* cap_type := get_cap_type entry.(cap) in
  match cap_type with
  | CapabilityType.Untyped => invoke_untyped tmp root_cnode slot reg
  | CapabilityType.CNode => invoke_cnode tmp root_cnode slot inv_label reg
  | CapabilityType.Tcb => invoke_tcb tmp root_cnode slot inv_label ipc_buffer reg
  | CapabilityType.Notification => invoke_notification slot current_tcb inv_label
  | CapabilityType.EndPoint => invoke_endpoint slot current_tcb inv_label
  | CapabilityType.Page => invoke_page root_cnode slot inv_label reg
  | CapabilityType.PageTable => invoke_page_table root_cnode slot inv_label reg
  end.

(** ** [handle_syscall] *)

Definition syscall_body (tmp syscall_n : Z) (reg : Registers) : K (option Z) :=
  let cap_ptr := a0 reg in
  let depth := a1 reg in
  match InvLabel.label_try_from (a2 reg) with
  | inl _ => throw (kerr ErrKind.UnknownInvocation)
  | inr inv_label =>
      if syscall_n =? SysCallNo.syscall_no_as_usize SysCallNo.Print then
        match inv_label with
        | InvLabel.PutChar => putchar (as_u8 (a0 reg)) ;;; ret None
        | InvLabel.CNodeTraverse =>
            let* current := get_current_tcb in
            let* t := read_tcb current in
            match t.(value).(root_cnode) with
            | Some e => print_level PRINT_FUEL e.(cap) ;;; ret None
            | None => throw (kerr ErrKind.CapNotFound)
            end
        | _ => throw (kerr ErrKind.UnknownSysCall)
        end
      else handle_invocation tmp cap_ptr depth inv_label reg
  end.

(** The result registers. *)
Definition set_result (r : option Z + KernelError) (reg : Registers) : Registers :=
  match r with
  | inr e => reg <| a0 := ErrKind.errkind_as_usize e.(e_kind) |> <| a1 := e.(e_val) |>
  | inl (Some val) => reg <| a0 := 0 |> <| a1 := val |>
  | inl None => reg <| a0 := 0 |>
  end.

(** [regs] is the control block whose registers [reg] points to. *)
Definition handle_syscall (tmp syscall_n regs : Z) : K unit :=
  let* t := read_tcb regs in
  let* syscall_ret := try_ (syscall_body tmp syscall_n t.(value).(registers)) in
  modify_tcb regs (λ v, v <| registers ::= set_result syscall_ret |>) ;;;
  let* t := read_tcb regs in
  let* pc := usize_add (sepc t.(value).(registers)) 4 in
  modify_tcb regs (λ v, v <| registers ::= λ r, r <| sepc := pc |> |>).
End Layout.
