(* ===== verification/SyscallAtomic.v ===== *)
(** * Failed system calls change nothing

    Every operation an invocation is made of is read-only until its last
    fallible step: this file shows it along the call graph, down to the
    accessors, and concludes that an error return of a system call leaves the
    kernel state as it was. *)

From S2P Require Import Prelude Shared Address Objects Riscv LinkedList Capability PageTable CNode.
From S2P Require Import Thread RoundRobin Ipc Untyped Syscall.

(** ** Accessors *)

Ltac by_unfold d := unfold d; atomic.

Lemma ro_read_tcb a : ReadOnly (read_tcb a).
Proof. by_unfold read_tcb. Qed.
Lemma ne_read_tcb a : NoError (read_tcb a).
Proof. by_unfold read_tcb. Qed.
Lemma ro_read_endpoint a : ReadOnly (read_endpoint a).
Proof. by_unfold read_endpoint. Qed.
Lemma ne_read_endpoint a : NoError (read_endpoint a).
Proof. by_unfold read_endpoint. Qed.
Lemma ro_read_notification a : ReadOnly (read_notification a).
Proof. by_unfold read_notification. Qed.
Lemma ne_read_notification a : NoError (read_notification a).
Proof. by_unfold read_notification. Qed.
Lemma ro_read_page_table a : ReadOnly (read_page_table a).
Proof. by_unfold read_page_table. Qed.
Lemma ne_read_page_table a : NoError (read_page_table a).
Proof. by_unfold read_page_table. Qed.
Lemma ro_read_slot a : ReadOnly (read_slot a).
Proof. by_unfold read_slot. Qed.
Lemma ne_read_slot a : NoError (read_slot a).
Proof. by_unfold read_slot. Qed.
Lemma ro_read_page a : ReadOnly (read_page a).
Proof. by_unfold read_page. Qed.
Lemma ne_read_page a : NoError (read_page a).
Proof. by_unfold read_page. Qed.
#[export] Hint Resolve ro_read_tcb ne_read_tcb ro_read_endpoint ne_read_endpoint
  ro_read_notification ne_read_notification ro_read_page_table ne_read_page_table
  ro_read_slot ne_read_slot ro_read_page ne_read_page : atomic.
Lemma ro_read_entry a : ReadOnly (read_entry a).
Proof. by_unfold read_entry. Qed.
Lemma ne_read_entry a : NoError (read_entry a).
Proof. by_unfold read_entry. Qed.
Lemma ne_set_heap a o : NoError (set_heap a o).
Proof. by_unfold set_heap. Qed.
#[export] Hint Resolve ro_read_entry ne_read_entry ne_set_heap : atomic.
(** Every [write_] accessor is [set_heap]. *)
#[export] Hint Extern 1 (NoError _) => exact (ne_set_heap _ _) : atomic.
Lemma ne_modify_tcb a f : NoError (modify_tcb a f).
Proof. by_unfold modify_tcb. Qed.
Lemma ne_modify_entry a f : NoError (modify_entry a f).
Proof. by_unfold modify_entry. Qed.
#[export] Hint Resolve ne_modify_tcb ne_modify_entry : atomic.

(** ** Lists, scheduler, IPC *)

Lemma ne_ll_push q x : NoError (ll_push q x).
Proof. by_unfold ll_push. Qed.
Lemma ne_ll_pop q : NoError (ll_pop q).
Proof. by_unfold ll_pop. Qed.
#[export] Hint Resolve ne_ll_push ne_ll_pop : atomic.
Lemma ne_sched_push x : NoError (sched_push x).
Proof. by_unfold sched_push. Qed.
#[export] Hint Resolve ne_sched_push : atomic.
Lemma ne_resume x : NoError (resume x).
Proof. by_unfold resume. Qed.
Lemma ne_require_schedule : NoError require_schedule.
Proof. by_unfold require_schedule. Qed.
Lemma ne_block_thread x : NoError (block_thread x).
Proof. by_unfold block_thread. Qed.
Lemma ne_set_ipc_msg x b : NoError (set_ipc_msg x b).
Proof. by_unfold set_ipc_msg. Qed.
#[export] Hint Resolve ne_resume ne_require_schedule ne_block_thread ne_set_ipc_msg : atomic.
Lemma ne_wake_up_thread x : NoError (wake_up_thread x).
Proof. by_unfold wake_up_thread. Qed.
Lemma ne_pop_from_queue a st : NoError (pop_from_queue a st).
Proof. by_unfold pop_from_queue. Qed.
Lemma ne_push_to_queue a x : NoError (push_to_queue a x).
Proof. by_unfold push_to_queue. Qed.
#[export] Hint Resolve ne_wake_up_thread ne_pop_from_queue ne_push_to_queue : atomic.
Lemma ne_ep_send a x : NoError (ep_send a x).
Proof. by_unfold ep_send. Qed.
Lemma ne_ep_recv a x : NoError (ep_recv a x).
Proof. by_unfold ep_recv. Qed.
Lemma ne_send_signal a v : NoError (send_signal a v).
Proof. by_unfold send_signal. Qed.
Lemma ne_wait_signal a x : NoError (wait_signal a x).
Proof. by_unfold wait_signal. Qed.
#[export] Hint Resolve ne_ep_send ne_ep_recv ne_send_signal ne_wait_signal : atomic.

(** ** Capabilities and lookups *)

Lemma ro_get_cap_type c : ReadOnly (get_cap_type c).
Proof. unfold get_cap_type, cap_try_from_u8. atomic. Qed.
Lemma ea_get_cap_type c : ErrAtomic (get_cap_type c).
Proof. unfold get_cap_type, cap_try_from_u8. atomic. Qed.
#[export] Hint Resolve ro_get_cap_type ea_get_cap_type : atomic.
Lemma ro_try_ref_as t c : ReadOnly (try_ref_as t c).
Proof. by_unfold try_ref_as. Qed.
Lemma ea_try_ref_as t c : ErrAtomic (try_ref_as t c).
Proof. by_unfold try_ref_as. Qed.
Lemma ro_occupied a : ReadOnly (occupied a).
Proof. by_unfold occupied. Qed.
Lemma ea_occupied a : ErrAtomic (occupied a).
Proof. by_unfold occupied. Qed.
Lemma ro_lookup_one c p d : ReadOnly (lookup_one c p d).
Proof. unfold lookup_one, capacity. atomic. Qed.
Lemma ea_lookup_one c p d : ErrAtomic (lookup_one c p d).
Proof. unfold lookup_one, capacity. atomic. Qed.
#[export] Hint Resolve ro_try_ref_as ea_try_ref_as ro_occupied ea_occupied ro_lookup_one
  ea_lookup_one : atomic.
Lemma ro_out_of_fuel {S E A} : ReadOnly (λ _ : S, @OutOfFuel S E A).
Proof. done. Qed.
Lemma ne_out_of_fuel {S E A} : NoError (λ _ : S, @OutOfFuel S E A).
Proof. done. Qed.
#[export] Hint Resolve ro_out_of_fuel ne_out_of_fuel : atomic.
Lemma ro_lookup_entry_mut n c p d : ReadOnly (lookup_entry_mut n c p d).
Proof. revert c d. induction n as [|n IH]; intros; cbn [lookup_entry_mut]; atomic. Qed.
Lemma ea_lookup_entry_mut n c p d : ErrAtomic (lookup_entry_mut n c p d).
Proof. revert c d. induction n as [|n IH]; intros; cbn [lookup_entry_mut]; atomic. Qed.
#[export] Hint Resolve ro_lookup_entry_mut ea_lookup_entry_mut : atomic.
Lemma ro_lookup_two n c p d p' d' : ReadOnly (lookup_two_entries_mut n c p d p' d').
Proof. by_unfold lookup_two_entries_mut. Qed.
Lemma ea_lookup_two n c p d p' d' : ErrAtomic (lookup_two_entries_mut n c p d p' d').
Proof. by_unfold lookup_two_entries_mut. Qed.
Lemma ro_all_none n a : ReadOnly (all_none n a).
Proof. revert a. induction n as [|n IH]; intros; cbn [all_none]; atomic. Qed.
Lemma ne_all_none n a : NoError (all_none n a).
Proof. revert a. induction n as [|n IH]; intros; cbn [all_none]; atomic. Qed.
#[export] Hint Resolve ro_lookup_two ea_lookup_two ro_all_none ne_all_none : atomic.
Lemma ro_get_writable c n i : ReadOnly (get_writable c n i).
Proof. by_unfold get_writable. Qed.
Lemma ea_get_writable c n i : ErrAtomic (get_writable c n i).
Proof. by_unfold get_writable. Qed.
Lemma ro_lookup_as r t p d : ReadOnly (lookup_as r t p d).
Proof. unfold lookup_as, lookup. atomic. Qed.
Lemma ea_lookup_as r t p d : ErrAtomic (lookup_as r t p d).
Proof. unfold lookup_as, lookup. atomic. Qed.
Lemma ro_slot_cap t a : ReadOnly (slot_cap t a).
Proof. by_unfold slot_cap. Qed.
Lemma ea_slot_cap t a : ErrAtomic (slot_cap t a).
Proof. by_unfold slot_cap. Qed.
#[export] Hint Resolve ro_get_writable ea_get_writable ro_lookup_as ea_lookup_as ro_slot_cap
  ea_slot_cap : atomic.

(** ** The derivation list *)

Lemma ne_entry_set_next a b : NoError (entry_set_next a b).
Proof. unfold entry_set_next, mdb_set_node. atomic. Qed.
Lemma ne_entry_set_prev a b : NoError (entry_set_prev a b).
Proof. unfold entry_set_prev, mdb_set_node. atomic. Qed.
Lemma ne_entry_get_next a : NoError (entry_get_next a).
Proof. by_unfold entry_get_next. Qed.
Lemma ne_entry_get_prev a : NoError (entry_get_prev a).
Proof. by_unfold entry_get_prev. Qed.
#[export] Hint Resolve ne_entry_set_next ne_entry_set_prev ne_entry_get_next ne_entry_get_prev : atomic.
Lemma ne_entry_insert a b : NoError (entry_insert a b).
Proof. by_unfold entry_insert. Qed.
Lemma ne_entry_replace a b : NoError (entry_replace a b).
Proof. by_unfold entry_replace. Qed.
#[export] Hint Resolve ne_entry_insert ne_entry_replace : atomic.
Lemma ne_with_local_insert tmp c b : NoError (with_local_entry tmp c (entry_insert tmp b)).
Proof. by_unfold with_local_entry. Qed.
Lemma ne_with_local_replace tmp c b : NoError (with_local_entry tmp c (entry_replace tmp b)).
Proof. by_unfold with_local_entry. Qed.
#[export] Hint Resolve ne_with_local_insert ne_with_local_replace : atomic.
Lemma ne_insert_cap tmp self parent c i : NoError (insert_cap tmp self parent c i).
Proof. by_unfold insert_cap. Qed.
#[export] Hint Resolve ne_insert_cap : atomic.

(** ** Page tables *)

Lemma ro_read_pte t i : ReadOnly (read_pte t i).
Proof. by_unfold read_pte. Qed.
Lemma ne_read_pte t i : NoError (read_pte t i).
Proof. by_unfold read_pte. Qed.
Lemma ne_write_pte t i p : NoError (write_pte t i p).
Proof. by_unfold write_pte. Qed.
#[export] Hint Resolve ro_read_pte ne_read_pte ne_write_pte : atomic.
Lemma ro_walk_levels ls t v : ReadOnly (walk_levels ls t v).
Proof. revert t. induction ls as [|l ls IH]; intros; cbn [walk_levels]; atomic. Qed.
Lemma ne_walk_levels ls t v : NoError (walk_levels ls t v).
Proof. revert t. induction ls as [|l ls IH]; intros; cbn [walk_levels]; atomic. Qed.
Lemma ro_walk t v : ReadOnly (walk t v).
Proof. apply ro_walk_levels. Qed.
Lemma ea_walk t v : ErrAtomic (walk t v).
Proof. apply ne_ea, ne_walk_levels. Qed.
#[export] Hint Resolve ro_walk ea_walk : atomic.
Lemma ea_page_cap_map c r v f : ErrAtomic (page_cap_map c r v f).
Proof. unfold page_cap_map, page_map. atomic. Qed.
Lemma ea_page_cap_unmap c r : ErrAtomic (page_cap_unmap c r).
Proof. unfold page_cap_unmap, page_unmap. atomic. Qed.
Lemma ea_pt_cap_map c r v : ErrAtomic (pt_cap_map c r v).
Proof. unfold pt_cap_map, pt_map. atomic. Qed.
Lemma ea_make_as_root `{KernelLayout} c : ErrAtomic (make_as_root c).
Proof. unfold make_as_root, copy_global_mapping. atomic. Qed.
#[export] Hint Resolve ea_page_cap_map ea_page_cap_unmap ea_pt_cap_map ea_make_as_root : atomic.

(** ** Retype *)

(** The operations of a capability type that [retype] calls cannot fail. *)
Record retypable (C : Capability) : Prop := {
  rt_size_ro : ∀ n, ReadOnly (get_object_size C n);
  rt_size_ne : ∀ n, NoError (get_object_size C n);
  rt_dep_ne : ∀ a n, NoError (create_cap_dep_val C a n);
  rt_init_ne : ∀ c, NoError (init_object C c);
}.
#[local] Hint Resolve rt_size_ro rt_size_ne rt_dep_ne rt_init_ne : atomic.

Lemma ea_retype C c us n : retypable C → ErrAtomic (retype C c us n).
Proof.
  intros HC. unfold retype, get_free_bytes, block_size, addr_add, addr_sub, align_up,
    CapGenerator_new, untyped_create_cap_dep_val, ilog2. atomic.
Qed.
Lemma ne_insert_caps k tmp src dest C g i : retypable C → NoError (insert_caps k tmp src dest C g i).
Proof.
  intros HC. revert g i. induction k as [|k IH]; intros; cbn [insert_caps].
  - atomic.
  - unfold cap_generator_next, addr_add. atomic.
Qed.
#[local] Hint Resolve ea_retype ne_insert_caps : atomic.
Lemma ea_retype_and_insert tmp src dest C us n :
  retypable C → ErrAtomic (retype_and_insert tmp src dest C us n).
Proof. intros HC. unfold retype_and_insert. atomic. Qed.

Section Layout.
Context `{KernelLayout}.

Lemma ne_default_dep a n : NoError (default_create_cap_dep_val a n).
Proof. by_unfold default_create_cap_dep_val. Qed.
#[local] Hint Resolve ne_default_dep : atomic.
Lemma retypable_tcb : retypable TCBCap.
Proof. split; simpl; unfold tcb_init_object, ThreadInfo_new; atomic. Qed.
Lemma retypable_cnode : retypable CNodeCap.
Proof. split; simpl; unfold cnode_get_object_size; atomic. Qed.
Lemma retypable_endpoint : retypable EndPointCap.
Proof. split; simpl; atomic. Qed.
Lemma retypable_notification : retypable NotificationCap.
Proof. split; simpl; atomic. Qed.
Lemma retypable_page_table : retypable PageTableCap.
Proof. split; simpl; unfold page_table_init_object; atomic. Qed.
Lemma retypable_page : retypable PageCap.
Proof. split; simpl; atomic. Qed.
#[local] Hint Resolve retypable_tcb retypable_cnode retypable_endpoint retypable_notification
  retypable_page_table retypable_page ea_retype_and_insert : atomic.

Lemma ea_invoke_retype tmp src dest us n t : ErrAtomic (invoke_retype tmp src dest us n t).
Proof. unfold invoke_retype. atomic. Qed.
#[local] Hint Resolve ea_invoke_retype : atomic.

(** ** Invocations *)

Lemma ro_entry_derive e : ReadOnly (entry_derive e).
Proof.
  unfold entry_derive. simpl. unfold default_derive, cnode_derive, notification_derive, ep_derive,
    page_derive, page_table_derive. atomic.
Qed.
Lemma ea_entry_derive e : ErrAtomic (entry_derive e).
Proof.
  unfold entry_derive. simpl. unfold default_derive, cnode_derive, notification_derive, ep_derive,
    page_derive, page_table_derive. atomic.
Qed.
#[local] Hint Resolve ro_entry_derive ea_entry_derive : atomic.

Lemma ne_tcb_set_cspace tmp c src : NoError (tcb_set_cspace tmp c src).
Proof. unfold tcb_set_cspace, set_root_cspace. simpl. unfold cnode_derive. atomic. Qed.
Lemma ne_tcb_set_vspace tmp c src : NoError (tcb_set_vspace tmp c src).
Proof. unfold tcb_set_vspace, set_root_vspace. simpl. unfold page_table_derive. atomic. Qed.
Lemma ea_tcb_set_ipc_buffer tmp c src : ErrAtomic (tcb_set_ipc_buffer tmp c src).
Proof. unfold tcb_set_ipc_buffer, set_ipc_buffer. simpl. unfold page_derive. atomic. Qed.
#[local] Hint Resolve ne_tcb_set_cspace ne_tcb_set_vspace ea_tcb_set_ipc_buffer : atomic.

Lemma ea_invoke_untyped tmp r a g : ErrAtomic (invoke_untyped tmp r a g).
Proof. unfold invoke_untyped, cap_try_from_u8. atomic. Qed.
Lemma ea_invoke_cnode tmp r a l g : ErrAtomic (invoke_cnode tmp r a l g).
Proof. unfold invoke_cnode, lookup. atomic. Qed.
Lemma ea_invoke_tcb tmp r a l b g : ErrAtomic (invoke_tcb tmp r a l b g).
Proof. unfold invoke_tcb, tcb_set_registers, make_runnable. atomic. Qed.
Lemma ea_invoke_notification a x l : ErrAtomic (invoke_notification a x l).
Proof. unfold invoke_notification, notify_cap_send, notify_cap_wait. atomic. Qed.
Lemma ea_invoke_endpoint a x l : ErrAtomic (invoke_endpoint a x l).
Proof. unfold invoke_endpoint, ep_cap_send, ep_cap_recv. atomic. Qed.
Lemma ea_invoke_page r a l g : ErrAtomic (invoke_page r a l g).
Proof. unfold invoke_page, update_cap. atomic. Qed.
Lemma ea_invoke_page_table r a l g : ErrAtomic (invoke_page_table r a l g).
Proof. unfold invoke_page_table, update_cap. atomic. Qed.
#[local] Hint Resolve ea_invoke_untyped ea_invoke_cnode ea_invoke_tcb ea_invoke_notification
  ea_invoke_endpoint ea_invoke_page ea_invoke_page_table : atomic.

Lemma ea_handle_invocation tmp p d l g : ErrAtomic (handle_invocation tmp p d l g).
Proof. unfold handle_invocation, get_current_tcb, lookup. atomic. Qed.
#[local] Hint Resolve ea_handle_invocation : atomic.

Lemma ne_print_level n c : NoError (print_level n c).
Proof.
  revert c. induction n as [|n IH]; intros c; cbn [print_level]; [atomic|].
  apply ne_bind; [unfold capacity; atomic|]. intros k. generalize (cap_kva c) as addr.
  induction (Z.to_nat k) as [|m IHm]; intros addr; [atomic|].
  apply ne_bind; [atomic|]. intros sl. apply ne_bind; [|intros _; apply IHm]. atomic.
Qed.
#[local] Hint Resolve ne_print_level : atomic.

Lemma ne_putchar ch : NoError (putchar ch).
Proof. unfold putchar, sbi_call. atomic. Qed.
Lemma ea_syscall_body tmp n g : ErrAtomic (syscall_body tmp n g).
Proof. pose proof ne_putchar. unfold syscall_body, get_current_tcb. atomic. Qed.

(** The registers of a thread after a system call with result [r]. *)
Definition return_regs (r : option Z + KernelError) (v : ThreadInfo) : ThreadInfo :=
  v <| registers ::= λ g, (set_result r g) <| sepc := sepc g + 4 |> |>.

Lemma handle_syscall_returns tmp n regs s t r s1 t1 :
  heap s !! regs = Some (OTcb t) →
  try_ (E' := KernelError) (syscall_body tmp n (registers (value t))) s = Ok r s1 →
  heap s1 !! regs = Some (OTcb t1) → sepc (registers (value t1)) + 4 < W →
  handle_syscall tmp n regs s =
    Ok tt (s1 <| heap := <[regs := OTcb (t1 <| value ::= return_regs r |>)]> (heap s1) |>).
Proof.
  intros Ht Hb Ht1 Hpc. unfold handle_syscall.
  rewrite (bind_Ok _ _ _ _ _ (read_tcb_Ok _ _ _ Ht)), (bind_Ok _ _ _ _ _ Hb).
  rewrite (bind_Ok _ _ _ _ _ (modify_tcb_Ok _ _ _ _ Ht1)).
  set (t2 := t1 <| value ::= _ |>). set (s2 := s1 <| heap := _ |>).
  assert (heap s2 !! regs = Some (OTcb t2)) as Ht2 by (subst s2; by rewrite heap_set, lookup_insert_eq).
  rewrite (bind_Ok _ _ _ _ _ (read_tcb_Ok _ _ _ Ht2)).
  assert (sepc (registers (value t2)) = sepc (registers (value t1))) as Hsp.
  { subst t2. destruct r as [[]|]; reflexivity. }
  rewrite Hsp, (bind_Ok _ _ _ _ _ (usize_add_Ok _ _ _ Hpc)).
  rewrite (modify_tcb_Ok _ _ _ _ Ht2). subst s2.
  rewrite heap_set, heap_set_set, insert_insert_eq. subst t2. by destruct r as [[]|].
Qed.

(** C1: a system call that fails changes nothing but the caller's result
    registers. For every capability type, label and argument: when the call
    ends in an error, the kernel state after it is the state before it, except
    that the caller finds the error's code in [a0] and its value in [a1], and
    continues after the [ecall] instruction. *)
Theorem failed_syscall_atomic tmp n regs s t e s1 :
  heap s !! regs = Some (OTcb t) → sepc (registers (value t)) + 4 < W →
  syscall_body tmp n (registers (value t)) s = Err e s1 →
  handle_syscall tmp n regs s =
    Ok tt (s <| heap := <[regs := OTcb (t <| value ::= return_regs (inr e) |>)]> (heap s) |>).
Proof.
  intros Ht Hpc Hb. pose proof (ea_syscall_body _ _ _ _ _ _ Hb) as ->.
  apply handle_syscall_returns with t; [done| |done|done]. unfold try_. by rewrite Hb.
Qed.

(** A system call that succeeds returns 0 in [a0], and in [a1] the value
    of the call if it has one, in the registers its own effects left behind
    (a message's badge stays in [a1]). *)
Lemma successful_syscall tmp n regs s t v s1 t1 :
  heap s !! regs = Some (OTcb t) →
  syscall_body tmp n (registers (value t)) s = Ok v s1 →
  heap s1 !! regs = Some (OTcb t1) → sepc (registers (value t1)) + 4 < W →
  ∃ s', handle_syscall tmp n regs s = Ok tt s' ∧
    (∀ a, a ≠ regs → heap s' !! a = heap s1 !! a) ∧
    ∃ t', heap s' !! regs = Some (OTcb t') ∧ next t' = next t1 ∧ status (value t') = status (value t1) ∧
      a0 (registers (value t')) = 0 ∧
      a1 (registers (value t')) = default (a1 (registers (value t1))) v ∧
      sepc (registers (value t')) = sepc (registers (value t1)) + 4.
Proof.
  intros Ht Hb Ht1 Hpc.
  rewrite (handle_syscall_returns _ _ _ _ _ (inl v) s1 t1 Ht) by (done || unfold try_; by rewrite Hb).
  eexists. split; [reflexivity|]. rewrite heap_set. split.
  - intros a Ha. by rewrite lookup_insert_ne.
  - eexists. rewrite lookup_insert_eq. split; [reflexivity|]. by destruct v.
Qed.
End Layout.
