(* ===== verification/SyscallProps.v ===== *)
(** * What system calls do

    Functional properties of the invocations of [kernel/src/syscall.rs]:
    deriving, copying and minting capabilities, and the way of a badge from the
    capability it was minted into to the receiver of a message. *)

From S2P Require Import Prelude Shared Address Objects Riscv LinkedList Capability PageTable CNode.
From S2P Require Import Thread RoundRobin Ipc Untyped Syscall.

Section Layout.
Context `{KernelLayout}.

(** ** Derivation *)

(** What may be derived, and how. Threads and untyped memory are never
    duplicated and a page only while it is mapped; the copy of a page,
    endpoint or notification starts without mapping or badge, the copy of a
    node or a page table is the capability itself. *)
Definition derivation (ct : CapabilityType) (c : CapabilityData) : CapabilityData + ErrKind :=
  match ct with
  | CapabilityType.Tcb | CapabilityType.Untyped => inr ErrKind.CanNotDerivable
  | CapabilityType.Page =>
      if is_mapped c then inl (c <| cap_dep_val := 0 |>) else inr ErrKind.PageTableNotMappedYet
  | CapabilityType.EndPoint | CapabilityType.Notification => inl (c <| cap_dep_val := 0 |>)
  | CapabilityType.CNode | CapabilityType.PageTable => inl c
  end.

Lemma entry_derive_spec e ct s :
  CapabilityType.cap_type_try_from (cap_type e.(cap)) = inr ct →
  entry_derive e s =
    match derivation ct e.(cap) with inl c => Ok c s | inr k => Err (kerr k) s end.
Proof.
  intros Ht. unfold entry_derive.
  rewrite (bind_Ok _ _ _ ct s) by by apply get_cap_type_Ok. clear Ht. destruct e as [c m].
  destruct c; destruct ct; try reflexivity.
  unfold derive, PageCap, page_derive, derivation. cbn [cap]. generalize (is_mapped). intros f.
  unfold guard. by destruct (f _).
Qed.
Lemma derivation_names ct c c0 :
  derivation ct c = inl c0 → cap_kva c0 = cap_kva c ∧ cap_type c0 = cap_type c.
Proof. unfold derivation. destruct ct; try destruct (is_mapped c); intros; by simplify_eq. Qed.

(** ** Copy and mint *)

(** The arguments of a node invocation, looked up: the capability of the
    destination node, the source slot with its entry, the free destination. *)
Record cnode_args (s : KState) (root : CapabilityData) (slot : Z) (reg : Registers)
    (src : Z) (e : CNodeEntry) (dest : Z) : Prop := {
  ca_dest_root : ∃ c, slot_cap CapabilityType.CNode slot s = Ok c s ∧
                      lookup c (a5 reg) (as_u32 (a4 reg)) s = Ok dest s;
  ca_src : lookup root (a3 reg) (as_u32 (Z.shiftr (a4 reg) 32)) s = Ok src s;
  ca_entry : slot_at (heap s) src = Some (Some e);
  ca_free : slot_at (heap s) dest = Some None;
}.

(** Stack space for the local entry, away from the slots involved, and an
    intact derivation list at the source. *)
Record local_ok (s : KState) (tmp src dest : Z) (e : CNodeEntry) : Prop := {
  lo_tmp : is_kva tmp ∧ tmp ≠ src ∧ tmp ≠ dest;
  lo_src : is_kva src;
  lo_next : next_live (heap s) src tmp e;
}.

Lemma invoke_cnode_insert tmp root slot label reg s src e dest c0 :
  cnode_args s root slot reg src e dest → local_ok s tmp src dest e →
  label ≠ InvLabel.CNodeMove → entry_derive e s = Ok c0 s →
  let c := if bool_decide (label = InvLabel.CNodeMint) then set_cap_dep_val c0 (a6 reg) else c0 in
  ∃ h' e', invoke_cnode tmp root slot label reg s = Ok None (s <| heap := h' |>) ∧
    entry_at h' dest = Some e' ∧ e'.(cap) = c ∧ mdb_get_node e'.(mdb) false = Some src ∧
    (∀ a ea, a ≠ tmp → entry_at (heap s) a = Some ea →
       ∃ ea', entry_at h' a = Some ea' ∧ ea'.(cap) = ea.(cap)) ∧
    (∀ a, a ≠ tmp → a ≠ dest → entry_at (heap s) a = None → h' !! a = heap s !! a).
Proof.
  intros [(cd & Hcd & Hld) Hls He Hfree] [(Hkt & Hts & Htd) Hks Hnl] Hmove Hder c.
  assert (entry_at (heap s) src = Some e) as Hea by (unfold entry_at; by rewrite He).
  destruct (with_local_insert s tmp src c e) as (h1 & e1 & Hrun & Hc1 & Hp1 & _ & Hcaps & Hfr & _); [done..|].
  unfold invoke_cnode. rewrite (bind_Ok _ _ _ _ _ Hcd), (bind_Ok _ _ _ _ _ Hls).
  rewrite (bind_Ok _ _ _ _ _ (occupied_Ok _ _ _ He)), (bind_Ok _ _ _ _ _ Hld).
  rewrite (bind_Ok _ _ _ _ _ (read_slot_Ok _ _ _ Hfree)), (bind_Ok _ _ _ _ _ Hder).
  fold c. rewrite (bool_decide_eq_false_2 (label = InvLabel.CNodeMove)) by done.
  rewrite (bind_Ok _ _ _ _ _ Hrun).
  eexists _, e1. split; [reflexivity|]. rewrite heap_set.
  split; [apply entry_at_insert_eq|]. split; [done|]. split; [done|]. split.
  - intros a ea Ha Hea'. assert (a ≠ dest) by (intros ->; unfold entry_at in Hea'; by rewrite Hfree in Hea').
    rewrite entry_at_insert_ne by done. by apply Hcaps.
  - intros a Ha Had Hno. rewrite lookup_insert_ne by done. by apply Hfr.
Qed.

(** A capability that can not be derived is neither copied nor minted, and
    nothing changes. *)
Lemma invoke_cnode_refused tmp root slot label reg s src e dest k :
  cnode_args s root slot reg src e dest → entry_derive e s = Err k s →
  invoke_cnode tmp root slot label reg s = Err k s.
Proof.
  intros [(cd & Hcd & Hld) Hls He Hfree] Hder.
  unfold invoke_cnode. rewrite (bind_Ok _ _ _ _ _ Hcd), (bind_Ok _ _ _ _ _ Hls).
  rewrite (bind_Ok _ _ _ _ _ (occupied_Ok _ _ _ He)), (bind_Ok _ _ _ _ _ Hld).
  rewrite (bind_Ok _ _ _ _ _ (read_slot_Ok _ _ _ Hfree)). by apply bind_Err.
Qed.

(** [CNodeCopy] puts the derived capability into the free destination
    slot, records the source as its parent, and leaves every stored capability,
    the source's included, and all other memory as they were. *)
Lemma cnode_copy_derives tmp root slot reg s src e dest c0 :
  cnode_args s root slot reg src e dest → local_ok s tmp src dest e →
  entry_derive e s = Ok c0 s →
  ∃ h' e', invoke_cnode tmp root slot InvLabel.CNodeCopy reg s = Ok None (s <| heap := h' |>) ∧
    entry_at h' dest = Some e' ∧ e'.(cap) = c0 ∧ mdb_get_node e'.(mdb) false = Some src ∧
    (∀ a ea, a ≠ tmp → entry_at (heap s) a = Some ea →
       ∃ ea', entry_at h' a = Some ea' ∧ ea'.(cap) = ea.(cap)) ∧
    (∀ a, a ≠ tmp → a ≠ dest → entry_at (heap s) a = None → h' !! a = heap s !! a).
Proof.
  intros Ha Hl Hd. by apply (invoke_cnode_insert tmp root slot InvLabel.CNodeCopy reg s src e dest c0).
Qed.

(** C38: [CNodeMint] stores the derived capability with any type-dependent word
    the caller chooses, for every type that can be derived: an endpoint's or a
    notification's badge, but also the radix of a node, which then spans as
    many slots as the caller wants, and the mapping word of a page table or a
    mapped page. For the types that can not be derived (threads, untyped memory,
    pages that are not mapped) it fails with the error of the derivation and
    nothing changes. The source slot is occupied and the destination free; the
    source's successor in the derivation list is none, a live entry or the
    kernel's local entry. *)
Theorem cnode_mint_sets_word tmp root slot reg s src e dest ct :
  cnode_args s root slot reg src e dest → local_ok s tmp src dest e →
  CapabilityType.cap_type_try_from (cap_type e.(cap)) = inr ct →
  match derivation ct e.(cap) with
  | inl _ =>
      ∃ h' e', invoke_cnode tmp root slot InvLabel.CNodeMint reg s = Ok None (s <| heap := h' |>) ∧
        entry_at h' dest = Some e' ∧
        cap_kva e'.(cap) = cap_kva e.(cap) ∧ cap_type e'.(cap) = cap_type e.(cap) ∧
        cap_dep_val e'.(cap) = a6 reg ∧ radix e'.(cap) = as_u32 (a6 reg)
  | inr k => invoke_cnode tmp root slot InvLabel.CNodeMint reg s = Err (kerr k) s
  end.
Proof.
  intros Ha Hl Ht. pose proof (entry_derive_spec e ct s Ht) as Hd.
  destruct (derivation ct (cap e)) as [c0|k] eqn:Hc0; [|by eapply invoke_cnode_refused].
  destruct (derivation_names _ _ _ Hc0) as [Hk Hty].
  destruct (invoke_cnode_insert tmp root slot InvLabel.CNodeMint reg s src e dest c0)
    as (h' & e' & Hrun & He' & Hc & _); [done..|].
  exists h', e'. rewrite Hc, <- Hk, <- Hty. done.
Qed.

(** ** Badges *)

(** The badge a receiver sees is the one of the capability the message was
    sent through: sending with a capability of badge [b] to an endpoint where
    [r] waits leaves [b] in [r]'s [a1], whatever badge the sending thread used
    before. *)
Lemma badge_reaches_receiver s c r xs thread t tr :
  ep_rep (heap s) (cap_kva c) (AWait EpStRecv [r]) → rq_rep s xs → thread ≠ r → thread ∉ xs →
  heap s !! thread = Some (OTcb t) → heap s !! r = Some (OTcb tr) →
  is_buffer (heap s) (ipc_buffer_ref (value tr)) → is_buffer (heap s) (ipc_buffer_ref (value t)) →
  ∃ s' tr', ep_cap_send c thread s = Ok false s' ∧ heap s' !! r = Some (OTcb tr') ∧
    a1 (registers (value tr')) = cap_dep_val c ∧ status (value tr') = Runnable ∧
    rq_rep s' (xs ++ [r]).
Proof.
  intros Hep Hrq Hne Hx Ht Htr Hbr Hbt. unfold ep_cap_send.
  set (f := λ v : ThreadInfo, v <| badge := cap_dep_val c |>).
  rewrite (bind_Ok _ _ _ _ _ (modify_tcb_Ok _ _ f _ Ht)).
  set (t1 := t <| value ::= f |>). set (s1 := s <| heap := _ |>).
  pose proof Hep as (e0 & He0 & _).
  assert (heap s1 !! thread = Some (OTcb t1)) as Ht1 by (subst s1; by rewrite heap_set, lookup_insert_eq).
  assert (heap s1 !! r = Some (OTcb tr)) as Htr1 by (subst s1; by rewrite heap_set, lookup_insert_ne).
  assert (∀ b, is_buffer (heap s) b → is_buffer (heap s1) b) as Hbuf.
  { intros b Hb. by eapply is_buffer_insert_ne. }
  destruct (ep_deliver s1 (cap_kva c) EpStSend EpStRecv r xs r tr tr (ipc_buffer_ref (value t))
              (set_a1 (badge (value t1)))) as (s2 & s' & Hp & Hs2 & Hrun & _ & Hrq' & _ & Htcb & _); auto.
  - destruct Hep as (e & He & Hs & Hst & Hq & Hrep & Hb). exists e.
    subst s1. rewrite heap_set, lookup_insert_ne by congruence. split_and!; try done.
    + by apply list_rep_value.
    + eapply blocked_frame; [|exact Hb]. intros a u Ha Hu. exists u.
      rewrite lookup_insert_ne by set_solver. done.
  - destruct Hrq as [Hnd Hh Hla Hl]. split; [done..|]. by apply links_value.
  - destruct (Htcb r tr Htr1) as (tr' & Htr' & Hv & _). exists s', tr'. split; [|split; [done|]].
    + unfold ep_send. rewrite (bind_Ok _ _ _ _ _ Hp).
      rewrite (bind_Ok _ _ _ _ _ (read_tcb_Ok _ _ _ (Hs2 _ _ Ht1))). exact Hrun.
    + rewrite Hv. unfold delivered_value. rewrite !decide_True by done. done.
Qed.

(** ** Creating an object *)

(** The implementation of [Capability] a type byte selects ([invoke_retype]). *)
Definition retype_class (ct : CapabilityType) : option Capability :=
  match ct with
  | CapabilityType.Tcb => Some TCBCap
  | CapabilityType.CNode => Some CNodeCap
  | CapabilityType.EndPoint => Some EndPointCap
  | CapabilityType.Notification => Some NotificationCap
  | CapabilityType.PageTable => Some PageTableCap
  | CapabilityType.Page => Some PageCap
  | CapabilityType.Untyped => None
  end.
Lemma retype_class_type ct C : retype_class ct = Some C → CAP_TYPE C = ct.
Proof. destruct ct; intros; by simplify_eq/=. Qed.

(** What the type's [init_object] writes, when [idx] threads were made before:
    the memory of a page or a node is left as it is. *)
Definition new_object (ct : CapabilityType) (idx : Z) : option kobject :=
  match ct with
  | CapabilityType.Tcb => Some (OTcb (ListItem_new (ThreadInfo_default <| tid := idx + 1 |>)))
  | CapabilityType.EndPoint => Some (OEndpoint Endpoint_new)
  | CapabilityType.Notification => Some (ONotification Notification_new)
  | CapabilityType.PageTable => Some (OPageTable PageTable_new)
  | CapabilityType.Page | CapabilityType.CNode | CapabilityType.Untyped => None
  end.
(** Threads are numbered. *)
Definition next_idx (ct : CapabilityType) (idx : Z) : Z :=
  match ct with CapabilityType.Tcb => idx + 1 | _ => idx end.
(** The type-dependent word of a new capability: a node's radix. *)
Definition object_word (ct : CapabilityType) (us : Z) : Z :=
  match ct with CapabilityType.CNode => us | _ => 0 end.
Definition with_object (ct : CapabilityType) (obj idx : Z) (h : gmap Z kobject) : gmap Z kobject :=
  match new_object ct idx with Some o => <[obj := o]> h | None => h end.
Definition initialised (ct : CapabilityType) (obj : Z) (s : KState) : KState :=
  s <| tcbidx := next_idx ct (tcbidx s) |> <| heap := with_object ct obj (tcbidx s) (heap s) |>.

Lemma init_object_Ok ct C c s :
  retype_class ct = Some C → (ct = CapabilityType.Tcb → 0 ≤ tcbidx s < W - 1) →
  init_object C c s = Ok tt (initialised ct (cap_kva c) s).
Proof.
  intros HC Hidx. unfold initialised, with_object, next_idx. destruct ct; simplify_eq/=; try by destruct s.
  specialize (Hidx eq_refl). cbn [new_object init_object TCBCap]. unfold tcb_init_object, ThreadInfo_new.
  rewrite !bind_assoc. rewrite (bind_Ok _ _ _ (tcbidx s) s) by done.
  rewrite !bind_assoc. rewrite (bind_Ok _ _ _ tt (s <| tcbidx := (tcbidx s + 1) mod W |>)) by done.
  rewrite Z.mod_small by lia.
  rewrite !bind_assoc. rewrite (bind_Ok _ _ _ _ _ (usize_add_Ok (tcbidx s) 1 _ ltac:(lia))). reflexivity.
Qed.
Lemma create_word_Ok ct C a us s :
  retype_class ct = Some C → create_cap_dep_val C a us s = Ok (object_word ct us) s.
Proof. destruct ct; intros; by simplify_eq/=. Qed.

Lemma with_object_frame ct obj idx h a : a ≠ obj → with_object ct obj idx h !! a = h !! a.
Proof. intros Ha. unfold with_object. destruct (new_object ct idx); [by rewrite lookup_insert_ne|done]. Qed.
Lemma with_object_at ct obj idx h :
  with_object ct obj idx h !! obj = match new_object ct idx with Some o => Some o | None => h !! obj end.
Proof. unfold with_object. destruct (new_object ct idx); [by rewrite lookup_insert_eq|done]. Qed.
Lemma with_object_entry ct obj idx h : entry_at h obj = None → entry_at (with_object ct obj idx h) obj = None.
Proof.
  intros He. unfold entry_at, slot_at in *. rewrite with_object_at. by destruct ct.
Qed.

(** The places involved in creating an object at [obj] are distinct, and the
    derivation list at the untyped entry is intact. *)
Record create_places (s : KState) (tmp src dest obj : Z) (e : CNodeEntry) : Prop := {
  cp_kva : is_kva tmp ∧ is_kva src;
  cp_distinct : NoDup [tmp; src; dest; obj];
  cp_next : next_live (heap s) src tmp e;
  cp_fresh : entry_at (heap s) obj = None;
}.

(** The capability to the new object, and the state in which it is linked: the
    untyped entry [e] covers less, and the object is initialised. *)
Definition object_cap (C : Capability) (obj dep : Z) : CapabilityData :=
  cap_new (CAP_TYPE C) (phys_of_kva obj) dep.
Definition shrunk (e : CNodeEntry) (f b : Z) : CNodeEntry :=
  e <| cap := e.(cap) <| cap_dep_val := f * 2 ^ 16 + b |> |>.
Definition carved (s : KState) (src obj : Z) (e : CNodeEntry) (f b : Z) (ct : CapabilityType) : KState :=
  initialised ct obj (s <| heap := <[src := OSlot (Some (shrunk e f b))]> (heap s) |>).

(** How [retype_and_insert] for one object runs. *)
Lemma retype_one_run tmp src dest ct C us size align base f b s e ed h :
  retype_class ct = Some C → (ct = CapabilityType.Tcb → 0 ≤ tcbidx s < W - 1) →
  entry_at (heap s) src = Some e → untyped_at e.(cap) base f b →
  object_layout C us size align → size ≤ base + 2 ^ b - f →
  let obj := KERNEL_V_ADDR_PFX + round_up f align in
  let s1 := carved s src obj e (round_up f align + size) b ct in
  cap_kva (object_cap C obj (object_word ct us)) = obj →
  with_local_entry tmp (object_cap C obj (object_word ct us)) (entry_insert tmp src) s1 = Ok ed (s1 <| heap := h |>) →
  retype_and_insert tmp src dest C us 1 s =
    Ok tt (s <| tcbidx := next_idx ct (tcbidx s) |> <| heap := <[dest := OSlot (Some ed)]> h |>).
Proof.
  intros HC Hidx He Hu Ho Hle obj s1 Hoc Hrun.
  destruct (object_fits C _ us size align base f b Hu Ho Hle) as (Hge & Hin & _).
  pose proof Ho as [_ Hpos _ _ _ _]. pose proof Hu as [_ _ Hb Hba _ Hf].
  set (g := retype_generator 1 us (round_up f align) size).
  set (c' := e.(cap) <| cap_dep_val := (round_up f align + size) * 2 ^ 16 + b |>).
  unfold retype_and_insert.
  rewrite (bind_Ok _ _ _ _ _ (read_entry_Ok _ _ _ (entry_at_slot _ _ _ He))).
  rewrite (bind_Ok _ _ _ (g, c') s).
  2: { rewrite (retype_one _ _ _ _ _ _ _ _ s Hu Ho). by rewrite (proj2 (Z.ltb_ge _ _)) by lia. }
  rewrite (bind_Ok _ _ _ _ _ (modify_entry_Ok _ _ _ _ He)).
  change (Z.to_nat 1) with 1%nat. cbn [insert_caps].
  rewrite (bind_Ok _ _ _ _ _ (cap_generator_next_Ok C g _ _ (create_word_Ok _ _ _ _ _ HC) ltac:(done)
    ltac:(simpl; unfold KERNEL_V_ADDR_PFX, W; lia))).
  change (cap_new _ _ (object_word ct _)) with (object_cap C obj (object_word ct us)).
  rewrite (bind_Ok _ _ _ tt s1) by (rewrite (init_object_Ok ct C); [by rewrite Hoc|exact HC|exact Hidx]).
  unfold insert_cap. rewrite !bind_assoc. rewrite (bind_Ok _ _ _ _ _ Hrun).
  rewrite Z.mul_0_l, Z.add_0_r. reflexivity.
Qed.

(** Retyping creates one new object of the requested kind. The object is
    initialised at the block's free index, the destination slot holds a
    capability to exactly that object and of its type, the untyped capability
    no longer covers it, and no other slot's capability changes. *)
Lemma retype_creates_object tmp src dest ct C us size align base f b s e :
  retype_class ct = Some C → (ct = CapabilityType.Tcb → 0 ≤ tcbidx s < W - 1) →
  entry_at (heap s) src = Some e → untyped_at e.(cap) base f b →
  object_layout C us size align → size ≤ base + 2 ^ b - f →
  let obj := KERNEL_V_ADDR_PFX + round_up f align in
  create_places s tmp src dest obj e →
  ∃ h' ed es, retype_and_insert tmp src dest C us 1 s =
      Ok tt (s <| tcbidx := next_idx ct (tcbidx s) |> <| heap := h' |>) ∧
    h' !! obj = with_object ct obj (tcbidx s) (heap s) !! obj ∧
    entry_at h' dest = Some ed ∧ cap_kva ed.(cap) = obj ∧ cap_dep_val ed.(cap) = object_word ct us ∧
    cap_type ed.(cap) = CapabilityType.cap_type_as_u8 ct ∧
    entry_at h' src = Some es ∧ untyped_at es.(cap) base (round_up f align + size) b ∧
    (∀ a ea, a ≠ tmp → a ≠ src → a ≠ dest → entry_at (heap s) a = Some ea →
       ∃ ea', entry_at h' a = Some ea' ∧ ea'.(cap) = ea.(cap)) ∧
    (∀ a, a ≠ tmp → a ≠ dest → a ≠ obj → entry_at (heap s) a = None → h' !! a = heap s !! a).
Proof.
  intros HC Hidx He Hu Ho Hle obj [[Hkt Hks] Hnd Hnl Hfresh].
  rewrite !NoDup_cons in Hnd. destruct Hnd as (Hd1 & Hd2 & Hd3 & _).
  assert (tmp ≠ src ∧ tmp ≠ dest ∧ tmp ≠ obj ∧ src ≠ dest ∧ src ≠ obj ∧ dest ≠ obj)
    as (N1 & N2 & N3 & N4 & N5 & N6) by (split_and!; intros ->; set_solver).
  destruct (object_fits C _ us size align base f b Hu Ho Hle) as (Hge & Hin & _).
  pose proof Ho as [_ Hpos _ _ _ _]. pose proof Hu as [_ _ Hb Hba _ Hf].
  assert (cap_kva (object_cap C obj (object_word ct us)) = obj) as Hoc.
  { apply cap_kva_new. unfold is_kva, obj, KERNEL_V_ADDR_PFX, W. lia. }
  set (e' := shrunk e (round_up f align + size) b).
  set (s2 := carved s src obj e (round_up f align + size) b ct).
  assert (∀ a, a ≠ src → a ≠ obj → heap s2 !! a = heap s !! a) as Hheap.
  { intros a A1 A2. change (heap s2) with (with_object ct obj (tcbidx s) (<[src := OSlot (Some e')]> (heap s))).
    by rewrite with_object_frame, lookup_insert_ne. }
  assert (∀ a, a ≠ src → entry_at (heap s2) a = entry_at (heap s) a) as Hother.
  { intros a A1. destruct (decide (a = obj)) as [->|A2]; [|unfold entry_at, slot_at; by rewrite Hheap].
    rewrite Hfresh. apply with_object_entry. cbn [heap]. by rewrite heap_set, entry_at_insert_ne. }
  assert (entry_at (heap s2) src = Some e') as Hsrc2.
  { change (heap s2) with (with_object ct obj (tcbidx s) (<[src := OSlot (Some e')]> (heap s))).
    unfold entry_at, slot_at. by rewrite with_object_frame, lookup_insert_eq. }
  assert (next_live (heap s2) src tmp e') as Hnl2.
  { intros pn Hpn. destruct (Hnl pn Hpn) as (P1 & P2 & P3). split_and!; try done. by rewrite Hother. }
  destruct (with_local_insert s2 tmp src (object_cap C obj (object_word ct us)) e')
    as (h3 & ed & Hrun3 & Hced & _ & _ & Hcaps & Hfr & _); [done..|].
  destruct (Hcaps src _ ltac:(done) Hsrc2) as (es & Hes & Hces).
  exists (<[dest := OSlot (Some ed)]> h3), ed, es. rewrite Hced. split_and!; try done.
  - by apply (retype_one_run tmp src dest ct C us size align base f b s e).
  - rewrite lookup_insert_ne, Hfr by (done || by rewrite Hother).
    change (heap s2) with (with_object ct obj (tcbidx s) (<[src := OSlot (Some e')]> (heap s))).
    rewrite !with_object_at. by rewrite lookup_insert_ne.
  - apply entry_at_insert_eq.
  - by rewrite <- (retype_class_type _ _ HC).
  - by rewrite entry_at_insert_ne.
  - rewrite Hces. by apply (untyped_at_advance C _ us size align base f b).
  - intros a ea A1 A2 A3 Ha. rewrite entry_at_insert_ne by done. apply Hcaps; [done|]. by rewrite Hother.
  - intros a A1 A2 A3 Ha. assert (a ≠ src) by congruence. rewrite lookup_insert_ne by done.
    rewrite Hfr; [|done|by rewrite Hother]. by apply Hheap.
Qed.
End Layout.
