(* ===== verification/Trap.v ===== *)
(** * Traps ([kernel/src/handler.rs], [kernel/src/timer.rs])

    The assembly that saves and restores a thread's registers, as lists of
    instructions with an interpreter, and the trap dispatcher. *)

From S2P Require Import Prelude Shared Address Objects Riscv LinkedList Capability PageTable CNode.
From S2P Require Import Thread RoundRobin Ipc Untyped Syscall SyscallAtomic.

(** ** A machine for the trap code *)

(** The registers a thread can see (the general-purpose ones and the trap
    control registers [sepc], [sstatus] and [scause], all fields of
    [Registers]), the control register [sscratch], and 64-bit words of memory. *)
Record machine := { file : Registers; m_sscratch : Z; mem : Z → Z }.
#[export] Instance machine_eta : Eta machine := λ m,
  {| file := file m; m_sscratch := m_sscratch m; mem := mem m |}.

Inductive instr :=
  | Csrrw (rd rs : Register)              (* csrrw rd, sscratch, rs *)
  | Csrr (rd csr : Register)              (* csrr rd, csr *)
  | Csrw (csr rs : Register)              (* csrw csr, rs *)
  | Sd (rs2 : Register) (offset : Z) (rs1 : Register)   (* sd rs2, offset(rs1) *)
  | Ld (rd : Register) (offset : Z) (rs1 : Register).   (* ld rd, offset(rs1) *)

Definition reg_of (m : machine) (r : Register) : Z := regs_index (file m) r.
Definition set_reg (r : Register) (v : Z) (m : machine) : machine :=
  m <| file ::= λ f, regs_index_mut f r v |>.
Definition store (a v : Z) (m : machine) : machine :=
  m <| mem ::= λ f x, if x =? a then v else f x |>.
Definition ea (m : machine) (rs1 : Register) (offset : Z) : Z := (reg_of m rs1 + offset) mod W.

Definition step (m : machine) (i : instr) : machine :=
  match i with
  | Csrrw rd rs =>
      let old := m_sscratch m in
      set_reg rd old (m <| m_sscratch := reg_of m rs |>)
  | Csrr rd csr => set_reg rd (reg_of m csr) m
  | Csrw csr rs => set_reg csr (reg_of m rs) m
  | Sd rs2 offset rs1 => store (ea m rs1 offset) (reg_of m rs2) m
  | Ld rd offset rs1 => set_reg rd (mem m (ea m rs1 offset)) m
  end.
Definition run (code : list instr) (m : machine) : machine := foldl step m code.

(** ** Offsets: [offset_of!] of the fields of [Registers] and [CpuVar] *)

Definition field_offsets : Registers := registers_of_words ((λ i, 8 * i) <$> seqZ 0 34).
Definition offset_of (r : Register) : Z := regs_index field_offsets r.
Definition sptop_offset : Z := 0.
Definition sscratch_offset : Z := 8.
Definition cur_reg_base_offset : Z := 16.

Definition sd (r : Register) : instr := Sd r (offset_of r) Register.T0.
Definition ld (r : Register) : instr := Ld r (offset_of r) Register.T0.

(** ** [trap_entry] *)

Definition saved : list Register :=
  [Register.Ra; Register.Sp; Register.Gp; Register.T1; Register.T2; Register.S0; Register.S1;
   Register.A0; Register.A1; Register.A2; Register.A3; Register.A4; Register.A5; Register.A6;
   Register.A7; Register.S2; Register.S3; Register.S4; Register.S5; Register.S6; Register.S7;
   Register.S8; Register.S9; Register.S10; Register.S11; Register.T3; Register.T4; Register.T5;
   Register.T6].
Definition prologue : list instr :=
  [Csrrw Register.Tp Register.Tp;
   Sd Register.T0 sscratch_offset Register.Tp;
   Ld Register.T0 cur_reg_base_offset Register.Tp].
Definition epilogue : list instr :=
  [Csrr Register.A1 Register.SEpc;
   Sd Register.A1 (offset_of Register.SEpc) Register.T0;
   Csrr Register.A1 Register.SStatus;
   Sd Register.A1 (offset_of Register.SStatus) Register.T0;
   Csrrw Register.A1 Register.Tp;
   Sd Register.A1 (offset_of Register.Tp) Register.T0;
   Ld Register.A1 sscratch_offset Register.Tp;
   Sd Register.A1 (offset_of Register.T0) Register.T0;
   Ld Register.Sp sptop_offset Register.Tp;
   Csrr Register.A1 Register.SCause;
   Sd Register.A1 (offset_of Register.SCause) Register.T0].
Definition trap_entry : list instr := prologue ++ (sd <$> saved) ++ epilogue.

(** ** [return_to_user]: [t0] holds the address of the thread's registers.

    The list ends before [sret], which the machine model does not have: it jumps
    to the [sepc] and into the mode of the [sstatus] that the list has set. *)

Definition restored : list Register :=
  [Register.Ra; Register.Sp; Register.Gp; Register.Tp; Register.T2; Register.S0; Register.S1;
   Register.A0; Register.A1; Register.A2; Register.A3; Register.A4; Register.A5; Register.A6;
   Register.A7; Register.S2; Register.S3; Register.S4; Register.S5; Register.S6; Register.S7;
   Register.S8; Register.S9; Register.S10; Register.S11; Register.T3; Register.T4; Register.T5;
   Register.T6].
Definition return_to_user : list instr :=
  (ld <$> restored) ++
  [Ld Register.T1 (offset_of Register.SEpc) Register.T0;
   Csrw Register.SEpc Register.T1;
   Ld Register.T1 (offset_of Register.SStatus) Register.T0;
   Csrw Register.SStatus Register.T1;
   ld Register.T1;
   ld Register.T0].

(** ** [handle_trap] *)

Definition SUPREVISORTIMER : Z := 5.
Definition ECALLUSER : Z := 8.

Section Layout.
Context `{KernelLayout}.

(** The dispatcher up to [return_to_user]; every other cause is a [panic!]. *)
Definition handle_trap (tmp scause : Z) : K unit :=
  let code := Z.land scause (usize_not (Z.shiftl 1 63)) in
  (if Z.shiftr scause 63 =? 1 then
     if code =? SUPREVISORTIMER then timer_tick ;;; set_timer 10000
     else panic PExplicit
   else
     if code =? ECALLUSER then
       let* cpu := gets cpu_var in
       let regs := cur_reg_base cpu in
       let* t := read_tcb regs in
       handle_syscall tmp (a7 (registers (value t))) regs
     else panic PExplicit) ;;;
  schedule.
End Layout.

(** ** Saving and restoring *)

#[export] Instance Register_eq_dec : EqDecision Register.
Proof. solve_decision. Defined.

Lemma regs_index_same f r v : regs_index (regs_index_mut f r v) r = v.
Proof. by destruct r. Qed.
Lemma regs_index_other f r r' v : r ≠ r' → regs_index (regs_index_mut f r v) r' = regs_index f r'.
Proof. destruct r, r'; done. Qed.
Lemma registers_ext f g : (∀ r, regs_index f r = regs_index g r) → f = g.
Proof.
  intros Hr. destruct f, g. f_equal;
    [apply (Hr Register.Ra)|apply (Hr Register.Sp)|apply (Hr Register.Gp)|apply (Hr Register.Tp)|
     apply (Hr Register.T0)|apply (Hr Register.T1)|apply (Hr Register.T2)|apply (Hr Register.T3)|
     apply (Hr Register.T4)|apply (Hr Register.T5)|apply (Hr Register.T6)|apply (Hr Register.A0)|
     apply (Hr Register.A1)|apply (Hr Register.A2)|apply (Hr Register.A3)|apply (Hr Register.A4)|
     apply (Hr Register.A5)|apply (Hr Register.A6)|apply (Hr Register.A7)|apply (Hr Register.S0)|
     apply (Hr Register.S1)|apply (Hr Register.S2)|apply (Hr Register.S3)|apply (Hr Register.S4)|
     apply (Hr Register.S5)|apply (Hr Register.S6)|apply (Hr Register.S7)|apply (Hr Register.S8)|
     apply (Hr Register.S9)|apply (Hr Register.S10)|apply (Hr Register.S11)|
     apply (Hr Register.SCause)|apply (Hr Register.SStatus)|apply (Hr Register.SEpc)].
Qed.

Lemma offset_inj r r' : offset_of r = offset_of r' → r = r'.
Proof. by destruct r, r'. Qed.
Lemma offset_bound r : 0 ≤ offset_of r ≤ 264 ∧ offset_of r mod 8 = 0.
Proof. by destruct r. Qed.

(** The words of a save area, as registers. *)
Definition save_area (f : Z → Z) (base : Z) : Registers :=
  registers_of_words ((λ i, f (base + 8 * i)) <$> seqZ 0 34).

Lemma save_area_index f base r : regs_index (save_area f base) r = f (base + offset_of r).
Proof. by destruct r. Qed.

(** How the machine's operations act on its parts. *)
Lemma reg_of_set_same r v m : reg_of (set_reg r v m) r = v.
Proof. apply regs_index_same. Qed.
Lemma reg_of_set_other r r' v m : r ≠ r' → reg_of (set_reg r v m) r' = reg_of m r'.
Proof. apply regs_index_other. Qed.
Lemma reg_of_store a v m r : reg_of (store a v m) r = reg_of m r.
Proof. done. Qed.
Lemma reg_of_sscratch v m r : reg_of (m <| m_sscratch := v |>) r = reg_of m r.
Proof. done. Qed.
Lemma mem_set_reg r v m : mem (set_reg r v m) = mem m.
Proof. done. Qed.
Lemma mem_sscratch v m : mem (m <| m_sscratch := v |>) = mem m.
Proof. done. Qed.
Lemma sscratch_set_reg r v m : m_sscratch (set_reg r v m) = m_sscratch m.
Proof. done. Qed.
Lemma sscratch_store a v m : m_sscratch (store a v m) = m_sscratch m.
Proof. done. Qed.
Lemma sscratch_set v m : m_sscratch (m <| m_sscratch := v |>) = v.
Proof. done. Qed.
Lemma mem_store_same a v m : mem (store a v m) a = v.
Proof. simpl. by rewrite Z.eqb_refl. Qed.
Lemma mem_store_other a v m x : x ≠ a → mem (store a v m) x = mem m x.
Proof. intros. simpl. by rewrite (proj2 (Z.eqb_neq _ _)). Qed.
Hint Rewrite reg_of_set_same reg_of_store reg_of_sscratch mem_set_reg mem_sscratch sscratch_set_reg
  sscratch_store sscratch_set : machine.
Hint Rewrite reg_of_set_other using done : machine.

(** Room for [n] bytes at [a]. *)
Definition room (a n : Z) : Prop := 0 ≤ a ∧ a + n ≤ W.

Lemma ea_room m r a n o : reg_of m r = a → room a n → 0 ≤ o < n → ea m r o = a + o.
Proof. intros <- [] ?. unfold ea. apply Z.mod_small. lia. Qed.

Lemma save_area_room m base r : reg_of m Register.T0 = base → room base 272 →
  ea m Register.T0 (offset_of r) = base + offset_of r.
Proof. intros H0 Hr. apply (ea_room _ _ _ 272); [done..|]. pose proof (offset_bound r). lia. Qed.

(** A run of stores into the save area. *)
Lemma run_sd rs m base :
  reg_of m Register.T0 = base → room base 272 →
  let m' := run (sd <$> rs) m in
  file m' = file m ∧ m_sscratch m' = m_sscratch m ∧
  (∀ r, r ∈ rs → mem m' (base + offset_of r) = reg_of m r) ∧
  (∀ x, (∀ r, r ∈ rs → x ≠ base + offset_of r) → mem m' x = mem m x).
Proof.
  intros H0 Hroom. revert m H0. induction rs as [|r rs IH]; intros m H0; simpl.
  - split; [done|]. split; [done|]. split; [intros; set_solver|done].
  - rewrite (save_area_room _ _ _ H0 Hroom).
    set (m1 := store (base + offset_of r) (reg_of m r) m).
    destruct (IH m1 H0) as (Hf & Hs & Hin & Hout). split; [done|]. split; [done|]. split.
    + intros r' Hr'. destruct (decide (r' ∈ rs)) as [Hin'|Hni]; [by apply Hin|].
      assert (r' = r) as -> by set_solver.
      fold (run (sd <$> rs) m1). rewrite Hout; [apply mem_store_same|].
      intros r2 Hr2 Heq. assert (r = r2) as -> by (apply offset_inj; lia). done.
    + intros x Hx. fold (run (sd <$> rs) m1). rewrite Hout by set_solver.
      apply mem_store_other. apply Hx. set_solver.
Qed.

(** A run of loads from the save area. *)
Lemma run_ld rs m base :
  reg_of m Register.T0 = base → room base 272 → Register.T0 ∉ rs →
  let m' := run (ld <$> rs) m in
  mem m' = mem m ∧ m_sscratch m' = m_sscratch m ∧
  (∀ r, r ∈ rs → reg_of m' r = mem m (base + offset_of r)) ∧
  (∀ r, r ∉ rs → reg_of m' r = reg_of m r).
Proof.
  intros H0 Hroom. revert m H0. induction rs as [|r rs IH]; intros m H0 Hni; simpl.
  - split; [done|]. split; [done|]. split; [intros; set_solver|done].
  - rewrite (save_area_room _ _ _ H0 Hroom).
    set (m1 := set_reg r (mem m (base + offset_of r)) m).
    assert (reg_of m1 Register.T0 = base) as H1.
    { subst m1. rewrite reg_of_set_other; [done|set_solver]. }
    destruct (IH m1 H1 ltac:(set_solver)) as (Hm & Hs & Hin & Hout).
    split; [done|]. split; [done|]. split.
    + intros r' Hr'. destruct (decide (r' ∈ rs)) as [Hin'|Hni']; [by apply Hin|].
      assert (r' = r) as -> by set_solver. fold (run (ld <$> rs) m1).
      rewrite Hout by done. subst m1. apply reg_of_set_same.
    + intros r' Hr'. fold (run (ld <$> rs) m1). rewrite Hout by set_solver.
      subst m1. apply reg_of_set_other. set_solver.
Qed.

(** What [trap_entry] finds: [sscratch] points to [CPU_VAR], whose
    [cur_reg_base] points to the save area; the two do not overlap. *)
Record trap_ready (m : machine) (cpu base : Z) : Prop := {
  tr_scratch : m_sscratch m = cpu;
  tr_base : mem m (cpu + cur_reg_base_offset) = base;
  tr_cpu_room : room cpu 24;
  tr_room : room base 272;
  tr_disjoint : cpu + 24 ≤ base ∨ base + 272 ≤ cpu;
}.

(** After the prologue: [tp] and [t0] are swapped out. *)
Lemma run_prologue m cpu base :
  trap_ready m cpu base →
  let m1 := run prologue m in
  reg_of m1 Register.T0 = base ∧ reg_of m1 Register.Tp = cpu ∧
  m_sscratch m1 = reg_of m Register.Tp ∧
  mem m1 (cpu + sscratch_offset) = reg_of m Register.T0 ∧
  (∀ x, x ≠ cpu + sscratch_offset → mem m1 x = mem m x) ∧
  (∀ r, r ≠ Register.T0 → r ≠ Register.Tp → reg_of m1 r = reg_of m r).
Proof.
  intros [Hs Hb Hcr Hr Hd]. unfold prologue, run, step. cbn [foldl].
  rewrite Hs. set (m0 := set_reg Register.Tp cpu _).
  assert (reg_of m0 Register.Tp = cpu) as H0 by (subst m0; by autorewrite with machine).
  rewrite (ea_room m0 _ _ 24 sscratch_offset H0 Hcr) by (unfold sscratch_offset; lia).
  replace (ea (store _ _ _) Register.Tp cur_reg_base_offset) with (cpu + cur_reg_base_offset).
  2: { symmetry. apply (ea_room _ _ _ 24); [by autorewrite with machine|done|unfold cur_reg_base_offset; lia]. }
  rewrite mem_store_other by (unfold cur_reg_base_offset, sscratch_offset; lia).
  split_and!.
  - autorewrite with machine. subst m0. autorewrite with machine. done.
  - autorewrite with machine. done.
  - autorewrite with machine. subst m0. by autorewrite with machine.
  - rewrite mem_set_reg, mem_store_same. subst m0. by autorewrite with machine.
  - intros x Hx. rewrite mem_set_reg, mem_store_other by done. by subst m0.
  - intros r H1 H2. rewrite reg_of_set_other by done. autorewrite with machine. subst m0.
    rewrite reg_of_set_other by done. done.
Qed.

(** The epilogue saves what the prologue displaced and the control registers. *)
Lemma run_epilogue m cpu base :
  reg_of m Register.T0 = base → reg_of m Register.Tp = cpu → room cpu 24 → room base 272 →
  cpu + 24 ≤ base ∨ base + 272 ≤ cpu →
  let m' := run epilogue m in
  let w r := mem m' (base + offset_of r) in
  w Register.SEpc = reg_of m Register.SEpc ∧ w Register.SStatus = reg_of m Register.SStatus ∧
  w Register.SCause = reg_of m Register.SCause ∧ w Register.Tp = m_sscratch m ∧
  w Register.T0 = mem m (cpu + sscratch_offset) ∧
  (∀ r, r ∈ saved → w r = mem m (base + offset_of r)) ∧
  m_sscratch m' = cpu ∧ reg_of m' Register.Sp = mem m (cpu + sptop_offset) ∧
  reg_of m' Register.Tp = cpu.
Proof.
  intros H0 Htp Hcr Hr Hd.
  assert (∀ m1 r, reg_of m1 Register.T0 = base →
    step m1 (Sd Register.A1 (offset_of r) Register.T0) =
    store (base + offset_of r) (reg_of m1 Register.A1) m1) as Hsd.
  { intros m1 r H1. simpl. by rewrite (save_area_room _ _ _ H1 Hr). }
  assert (∀ m1 rd o, reg_of m1 Register.Tp = cpu → 0 ≤ o < 24 →
    step m1 (Ld rd o Register.Tp) = set_reg rd (mem m1 (cpu + o)) m1) as Hld.
  { intros m1 rd o H1 Ho. simpl. by rewrite (ea_room _ _ _ 24 o H1 Hcr Ho). }
  assert (∀ r o, 0 ≤ o < 24 → cpu + o ≠ base + offset_of r) as Hne.
  { intros r o Ho. pose proof (offset_bound r). lia. }
  unfold epilogue, run. cbn [foldl].
  repeat (first [rewrite Hsd by (cbn [step]; autorewrite with machine; done)
                |rewrite Hld by (first [cbn [step]; autorewrite with machine; done|
                                        unfold sscratch_offset, sptop_offset; lia])]).
  cbn [step]. autorewrite with machine. rewrite Htp.
  assert (∀ r r', r ≠ r' → base + offset_of r ≠ base + offset_of r') as Hrr.
  { intros r r' Hn Heq. apply Hn, offset_inj. lia. }
  split_and!; intros;
    repeat (first [rewrite mem_store_same | rewrite mem_store_other by
      (first [apply Hrr; done | apply Hne; done |
              apply Hrr; intros ->; by apply (bool_decide_eq_true_2 _) in H])
      | progress autorewrite with machine]); done.
Qed.

Lemma run_app c1 c2 m : run (c1 ++ c2) m = run c2 (run c1 m).
Proof. apply foldl_app. Qed.

Lemma saved_or_special r :
  r ∈ saved ∨ r = Register.SEpc ∨ r = Register.SStatus ∨ r = Register.SCause ∨
  r = Register.Tp ∨ r = Register.T0.
Proof. destruct r; (left; apply (bool_decide_eq_true_1 _); reflexivity) || tauto. Qed.

Lemma saved_displaced r : r ∈ saved → r ≠ Register.T0 ∧ r ≠ Register.Tp.
Proof. intros Hr. split; intros ->; by apply (bool_decide_eq_true_2 _) in Hr. Qed.

(** What [trap_entry] leaves behind: all 31 general-purpose registers, [sepc],
    [sstatus] and [scause] of the trapped thread, each in its own field of the
    save area, although it needs [tp], [t0], [a1] and [sp] itself; [sscratch]
    points to [CPU_VAR] again, and the stack is the kernel's. *)
Lemma trap_entry_run m cpu base :
  trap_ready m cpu base →
  let m' := run trap_entry m in
  save_area (mem m') base = file m ∧ m_sscratch m' = cpu ∧
  reg_of m' Register.Sp = mem m (cpu + sptop_offset).
Proof.
  intros Hready. pose proof Hready as [Hs Hb Hcr Hr Hd]. unfold trap_entry. rewrite !run_app.
  destruct (run_prologue _ _ _ Hready) as (P0 & Ptp & Pss & Pt0 & Pmem & Preg).
  set (m1 := run prologue m) in *.
  destruct (run_sd saved m1 base P0 Hr) as (Sf & Ss & Sin & Sout).
  set (m2 := run (sd <$> saved) m1) in *.
  assert (∀ r, reg_of m2 r = reg_of m1 r) as Hreg by (intros; unfold reg_of; by rewrite Sf).
  assert (∀ o r, 0 ≤ o < 24 → r ∈ saved → cpu + o ≠ base + offset_of r) as Hne.
  { intros o r Ho _. pose proof (offset_bound r). lia. }
  destruct (run_epilogue m2 cpu base) as (E1 & E2 & E3 & E4 & E5 & E6 & E7 & E8 & _);
    [by rewrite Hreg|by rewrite Hreg|done..|].
  set (m3 := run epilogue m2) in *. split; [|split; [done|]].
  - apply registers_ext. intros r. rewrite save_area_index. change (regs_index (file m) r) with (reg_of m r).
    destruct (saved_or_special r) as [Hsv|[->|[->|[->|[->| ->]]]]].
    + destruct (saved_displaced r Hsv). rewrite E6, Sin by done. by apply Preg.
    + rewrite E1, Hreg. by apply Preg.
    + rewrite E2, Hreg. by apply Preg.
    + rewrite E3, Hreg. by apply Preg.
    + by rewrite E4, Ss.
    + rewrite E5, Sout; [done|]. intros r Hrs. apply Hne; [unfold sscratch_offset; lia|done].
  - rewrite E8, Sout.
    + apply Pmem. unfold sptop_offset, sscratch_offset. lia.
    + intros r Hrs. apply Hne; [unfold sptop_offset; lia|done].
Qed.

Lemma restored_or_special r :
  r ∈ restored ∨ r = Register.SEpc ∨ r = Register.SStatus ∨ r = Register.SCause ∨
  r = Register.T1 ∨ r = Register.T0.
Proof. destruct r; (left; apply (bool_decide_eq_true_1 _); reflexivity) || tauto. Qed.

Lemma restored_not r :
  r ∈ restored →
  r ≠ Register.SEpc ∧ r ≠ Register.SStatus ∧ r ≠ Register.T1 ∧ r ≠ Register.T0.
Proof.
  intros Hr. split_and!; intros ->; by apply (bool_decide_eq_true_2 _) in Hr.
Qed.

Lemma not_restored r :
  r = Register.SEpc ∨ r = Register.SStatus ∨ r = Register.SCause ∨ r = Register.T1 ∨ r = Register.T0 →
  r ∉ restored.
Proof.
  intros Hr Hin. destruct Hr as [->|[->|[->|[->| ->]]]]; by apply (bool_decide_eq_true_2 _) in Hin.
Qed.

(** What [return_to_user] leaves behind: every register of the save area
    except [scause], which is only written by the hardware. *)
Lemma return_to_user_run m base :
  reg_of m Register.T0 = base → room base 272 →
  let m' := run return_to_user m in
  mem m' = mem m ∧ m_sscratch m' = m_sscratch m ∧
  (∀ r, r ≠ Register.SCause → reg_of m' r = mem m (base + offset_of r)).
Proof.
  intros H0 Hr. unfold return_to_user. rewrite run_app.
  destruct (run_ld restored m base H0 Hr) as (Lm & Ls & Lin & Lout).
  { apply not_restored. auto 10. }
  set (m1 := run (ld <$> restored) m) in *.
  assert (reg_of m1 Register.T0 = base) as H1.
  { rewrite Lout; [done|]. apply not_restored. auto 10. }
  assert (∀ m2 rd r, reg_of m2 Register.T0 = base →
    step m2 (Ld rd (offset_of r) Register.T0) = set_reg rd (mem m2 (base + offset_of r)) m2) as Hld.
  { intros m2 rd r H2. cbn [step]. by rewrite (save_area_room _ _ _ H2 Hr). }
  unfold run, ld. cbn [foldl].
  repeat (rewrite Hld by (cbn [step]; autorewrite with machine; done)).
  cbn [step]. autorewrite with machine. split; [done|]. split; [done|].
  intros r Hsc. destruct (restored_or_special r) as [Hin|[->|[->|[->|[->| ->]]]]]; [| | |done| |].
  - destruct (restored_not r Hin) as (? & ? & ? & ?).
    rewrite !reg_of_set_other by done. by apply Lin.
  - autorewrite with machine. by rewrite Lm.
  - autorewrite with machine. by rewrite Lm.
  - autorewrite with machine. by rewrite Lm.
  - autorewrite with machine. by rewrite Lm.
Qed.

(** C6: a trap followed by the return to the same thread is invisible to it:
    whatever the kernel did with the registers in between ([m1] is any machine
    with the memory [trap_entry] left in the save area), every
    general-purpose register, the program counter and the status register have
    the values they had at the trap. *)
Theorem trap_return_roundtrip m cpu base m1 :
  trap_ready m cpu base →
  save_area (mem m1) base = save_area (mem (run trap_entry m)) base →
  reg_of m1 Register.T0 = base →
  ∀ r, r ≠ Register.SCause → reg_of (run return_to_user m1) r = reg_of m r.
Proof.
  intros Hready Hmem H0 r Hr. destruct (trap_entry_run _ _ _ Hready) as (Hsave & _).
  destruct (return_to_user_run m1 base H0 (tr_room _ _ _ Hready)) as (_ & _ & Hreg).
  rewrite Hreg by done. rewrite <- save_area_index, Hmem, Hsave. done.
Qed.
