(* ===== verification/TrapProps.v ===== *)
(** * The trap dispatcher

    The register save area always belongs to the current thread: [schedule]
    moves [cur_reg_base] and [CURRENT_PROC] together, and nothing else moves
    either of them. Shown along the call graph of [handle_trap]. *)

From S2P Require Import Prelude Shared Address Objects Riscv LinkedList Capability PageTable CNode.
From S2P Require Import Thread RoundRobin Ipc Untyped Syscall SyscallAtomic Trap.

(** ** Relations every step of a computation respects *)

(** From [s], [m] ends (with a result or an error) in a state related to [s]. *)
Definition Keeps {S E A} (R : S → S → Prop) (m : M S E A) : Prop :=
  ∀ s, match m s with Ok _ s' | Err _ s' => R s s' | _ => True end.

Section keeps.
Context {S E : Type} (R : S → S → Prop) `{!PreOrder R}.

Lemma keeps_bind {A B} (m : M S E A) (f : A → M S E B) :
  Keeps R m → (∀ a, Keeps R (f a)) → Keeps R (bind m f).
Proof.
  intros Hm Hf s. specialize (Hm s). unfold bind. destruct (m s) as [a s1| | | |]; try done.
  specialize (Hf a s1). destruct (f a s1); try done; by etrans.
Qed.
Lemma keeps_ret {A} (a : A) : Keeps (E := E) R (ret a).
Proof. intros s. simpl. reflexivity. Qed.
Lemma keeps_throw {A} (e : E) : Keeps (A := A) R (throw e).
Proof. intros s. simpl. reflexivity. Qed.
Lemma keeps_gets {A} (f : S → A) : Keeps (E := E) R (gets f).
Proof. intros s. simpl. reflexivity. Qed.
Lemma keeps_modify f : (∀ s, R s (f s)) → Keeps (E := E) R (modify f).
Proof. intros Hf s. apply Hf. Qed.
Lemma keeps_try {E' A} (m : M S E A) : Keeps R m → Keeps (E := E') R (try_ m).
Proof. intros Hm s. specialize (Hm s). unfold try_. by destruct (m s). Qed.
Lemma keeps_unwrap_res {E' A} (m : M S E A) : Keeps R m → Keeps (E := E') R (unwrap_res m).
Proof. intros Hm s. specialize (Hm s). unfold unwrap_res. by destruct (m s). Qed.
End keeps.

(** Prove [Keeps] along the structure of a computation, unfolding its calls;
    recursive functions have lemmas in the hint database. *)
Create HintDb keeps.
Ltac head_of t := lazymatch t with ?f _ => head_of f | _ => t end.
Ltac keeps :=
  intros; cbv beta zeta;
  first
    [ solve [auto with keeps nocore]
    | lazymatch goal with
      | |- Keeps _ (bind _ _) => apply keeps_bind; [typeclasses eauto|keeps|intros; keeps]
      | |- Keeps _ (ret _) => apply keeps_ret, _
      | |- Keeps _ (throw _) => apply keeps_throw, _
      | |- Keeps _ (gets _) => apply keeps_gets, _
      | |- Keeps _ (panic _) => done
      | |- Keeps _ undef => done
      | |- Keeps _ (modify _) => apply keeps_modify; done
      | |- Keeps _ (try_ _) => apply keeps_try; keeps
      | |- Keeps _ (unwrap_res _) => apply keeps_unwrap_res; keeps
      | |- Keeps _ (match ?x with _ => _ end) => destruct x; keeps
      | |- Keeps _ ?m => let h := head_of m in unfold h; keeps
      end ].

(** ** Nothing but [schedule] moves the save area or the current thread *)

(** Nor is a request to schedule taken back by anything else. *)
Definition same_cpu (s s' : KState) : Prop :=
  cpu_var s' = cpu_var s ∧ current_proc s' = current_proc s ∧
  (requested (scheduler s) = true → requested (scheduler s') = true).
#[export] Instance same_cpu_preorder : PreOrder same_cpu.
Proof. split; [by intros|]. intros s1 s2 s3 (? & ? & ?) (? & ? & ?). split_and!; [congruence..|auto]. Qed.

Lemma keeps_lookup n c p d : Keeps same_cpu (lookup_entry_mut n c p d).
Proof. revert c d. induction n as [|n IH]; intros; cbn [lookup_entry_mut]; [done|keeps]. Qed.
Lemma keeps_all_none n a : Keeps same_cpu (all_none n a).
Proof. revert a. induction n as [|n IH]; intros; cbn [all_none]; keeps. Qed.
Lemma keeps_walk_levels ls t v : Keeps same_cpu (walk_levels ls t v).
Proof. revert t. induction ls as [|l ls IH]; intros; cbn [walk_levels]; keeps. Qed.
#[export] Hint Resolve keeps_lookup keeps_all_none keeps_walk_levels : keeps.

Lemma keeps_print_level n c : Keeps same_cpu (print_level n c).
Proof.
  revert c. induction n as [|n IH]; intros c; cbn [print_level]; [done|].
  apply keeps_bind; [apply _|keeps|]. intros k. generalize (cap_kva c) as addr.
  induction (Z.to_nat k) as [|m IHm]; intros addr; [keeps|].
  apply keeps_bind; [apply _|keeps|]. intros sl.
  apply keeps_bind; [apply _| |intros _; apply IHm]. keeps.
Qed.
#[export] Hint Resolve keeps_print_level : keeps.

Record keeps_cap (C : Capability) : Prop := {
  kc_size : ∀ n, Keeps same_cpu (get_object_size C n);
  kc_dep : ∀ a n, Keeps same_cpu (create_cap_dep_val C a n);
  kc_init : ∀ c, Keeps same_cpu (init_object C c);
}.
#[local] Hint Resolve kc_size kc_dep kc_init : keeps.

Lemma keeps_retype C c us n : keeps_cap C → Keeps same_cpu (retype C c us n).
Proof. intros HC. keeps. Qed.
Lemma keeps_insert_caps k tmp src dest C g i :
  keeps_cap C → Keeps same_cpu (insert_caps k tmp src dest C g i).
Proof. intros HC. revert g i. induction k as [|k IH]; intros; cbn [insert_caps]; keeps. Qed.
#[local] Hint Resolve keeps_retype keeps_insert_caps : keeps.
Lemma keeps_retype_and_insert tmp src dest C us n :
  keeps_cap C → Keeps same_cpu (retype_and_insert tmp src dest C us n).
Proof. intros HC. keeps. Qed.

Section Layout.
Context `{KernelLayout}.

Lemma keeps_invoke_retype tmp src dest us n t : Keeps same_cpu (invoke_retype tmp src dest us n t).
Proof. unfold invoke_retype. destruct t; try apply keeps_retype_and_insert; try keeps; split; simpl; keeps. Qed.
#[local] Hint Resolve keeps_invoke_retype : keeps.

Lemma keeps_entry_derive e : Keeps same_cpu (entry_derive e).
Proof. unfold entry_derive. apply keeps_bind; [apply _|keeps|]. intros []; cbn [derive TCBCap UntypedCap CNodeCap NotificationCap EndPointCap PageCap PageTableCap]; keeps. Qed.
#[local] Hint Resolve keeps_entry_derive : keeps.
Lemma keeps_tcb_set_cspace tmp c src : Keeps same_cpu (tcb_set_cspace tmp c src).
Proof. unfold tcb_set_cspace. cbn [derive CNodeCap]. keeps. Qed.
Lemma keeps_tcb_set_vspace tmp c src : Keeps same_cpu (tcb_set_vspace tmp c src).
Proof. unfold tcb_set_vspace. cbn [derive PageTableCap]. keeps. Qed.
Lemma keeps_tcb_set_ipc_buffer tmp c src : Keeps same_cpu (tcb_set_ipc_buffer tmp c src).
Proof. unfold tcb_set_ipc_buffer. cbn [derive PageCap]. keeps. Qed.
#[local] Hint Resolve keeps_tcb_set_cspace keeps_tcb_set_vspace keeps_tcb_set_ipc_buffer : keeps.

Lemma keeps_handle_syscall tmp n regs : Keeps same_cpu (handle_syscall tmp n regs).
Proof. keeps. Qed.

Lemma keeps_schedule_pick : Keeps same_cpu schedule_pick.
Proof. keeps. Qed.

Definition reg_base_ok (s : KState) : Prop := cur_reg_base (cpu_var s) = current_proc s.

Lemma same_cpu_ok s s' : same_cpu s s' → reg_base_ok s → reg_base_ok s'.
Proof. unfold reg_base_ok. by intros (-> & -> & _). Qed.

Lemma keeps_Ok {A} (m : K A) s a s' : Keeps same_cpu m → m s = Ok a s' → same_cpu s s'.
Proof. intros Hm Hr. specialize (Hm s). by rewrite Hr in Hm. Qed.

Lemma schedule_reg_base s s' : schedule s = Ok tt s' → reg_base_ok s → reg_base_ok s'.
Proof.
  unfold schedule. rewrite (bind_Ok _ _ _ (scheduler s) s) by done.
  destruct (requested (scheduler s)); simpl; [|by intros [= <-]].
  intros Hr Hok. inv_bind Hr. apply keeps_Ok in Hm; [|apply keeps_schedule_pick].
  destruct a as [next|]; [|injection Hr as <-; by eapply same_cpu_ok].
  inv_bind Hr. injection Hr as <-. reflexivity.
Qed.

(** The save area the next trap will use is that of the thread that runs
    next. [handle_trap], for every cause and whatever the trapped thread asked
    for, keeps [cur_reg_base] pointing to the registers of [CURRENT_PROC]. *)
Lemma trap_reg_base tmp sc s s' :
  reg_base_ok s → handle_trap tmp sc s = Ok tt s' → reg_base_ok s'.
Proof.
  intros Hok Hr. unfold handle_trap in Hr. inv_bind Hr.
  eapply schedule_reg_base; [exact Hr|]. eapply same_cpu_ok; [|exact Hok].
  eapply keeps_Ok; [|exact Hm].
  pose proof keeps_handle_syscall as Hsys. destruct (_ =? 1); [keeps|].
  destruct (_ =? ECALLUSER); [|done].
  apply keeps_bind; [apply _|keeps|]. intros cpu. apply keeps_bind; [apply _|keeps|]. intros t. apply Hsys.
Qed.

(** Only timer interrupts and user calls are handled: for every other
    cause the dispatcher panics (the kernel has no fault handling for
    threads: an illegal instruction or a page fault in a thread stops the
    machine). *)
Lemma other_traps_panic tmp sc s :
  0 ≤ sc < W → sc ≠ ECALLUSER → sc ≠ 2 ^ 63 + SUPREVISORTIMER →
  handle_trap tmp sc s = Panic PExplicit.
Proof.
  intros Hsc He Ht. unfold handle_trap. apply bind_Panic.
  assert (Z.land sc (usize_not (Z.shiftl 1 63)) = sc mod 2 ^ 63) as ->.
  { replace (usize_not (Z.shiftl 1 63)) with (Z.ones 63) by reflexivity. by apply Z.land_ones. }
  rewrite Z.shiftr_div_pow2 by lia. unfold W, ECALLUSER, SUPREVISORTIMER in *.
  destruct (Z.eqb_spec (sc / 2 ^ 63) 1) as [Hi|Hi].
  - rewrite (proj2 (Z.eqb_neq _ _)); [done|]. pose proof (Z.div_mod sc (2 ^ 63)). lia.
  - rewrite (proj2 (Z.eqb_neq _ _)); [done|].
    assert (sc / 2 ^ 63 = 0). { pose proof (Z.div_mod sc (2 ^ 63)).
      pose proof (Z.mod_pos_bound sc (2 ^ 63)). lia. }
    pose proof (Z.div_mod sc (2 ^ 63)). lia.
Qed.
End Layout.
