(* ===== verification/WellTyped.v ===== *)
(** * Well-typed states

    The model keeps machine integers in [Z]. A state is well typed when every
    value in it is one of the type the source gives it: words of 64 bits,
    capabilities whose fields have their widths and whose type byte is that of
    a capability type, page tables of 512 entries, message buffers of their
    fixed length. Every trap keeps the state well typed. Addresses of objects
    (list links, slot references) are not numbers of the source, and are left
    out. *)

From S2P Require Import Prelude Shared Address Objects Riscv LinkedList Capability PageTable CNode.
From S2P Require Import Thread RoundRobin Ipc Untyped Syscall Trap TrapProps.

(** ** Values *)

Definition is_u8 (a : Z) : Prop := 0 ≤ a < 2 ^ 8.
Definition is_u16 (a : Z) : Prop := 0 ≤ a < 2 ^ 16.

Record cap_ok (c : CapabilityData) : Prop := {
  ck_type : ∃ t, cap_type c = CapabilityType.cap_type_as_u8 t;
  ck_right : is_u8 (cap_right c);
  ck_top : is_u16 (address_top c);
  ck_bottom : is_u32 (address_bottom c);
  ck_word : is_usize (cap_dep_val c);
}.
Record mdb_ok (m : ManagementDB) : Prop := {
  mk_prev : is_usize (mdb_word0 m);
  mk_next : is_usize (mdb_word1 m);
}.
Record entry_ok (e : CNodeEntry) : Prop := { ek_cap : cap_ok (cap e); ek_mdb : mdb_ok (mdb e) }.
Definition slot_ok (s : CSlot) : Prop := ∀ e, s = Some e → entry_ok e.
Definition regs_ok (r : Registers) : Prop := ∀ i, is_usize (regs_index r i).
Record thread_ok (t : ThreadInfo) : Prop := {
  tk_slice : is_usize (time_slice t);
  tk_cspace : slot_ok (root_cnode t);
  tk_vspace : slot_ok (vspace t);
  tk_buffer : slot_ok (ipc_buffer t);
  tk_regs : regs_ok (registers t);
  tk_badge : is_usize (badge t);
  tk_tid : is_usize (tid t);
}.
Record table_ok (t : PageTable) : Prop := { bk_len : length t = 512%nat; bk_words : Forall is_usize t }.
Record buffer_ok (b : IPCBuffer) : Prop := {
  uk_tag : is_usize (tag b);
  uk_len : length (message b) = Z.to_nat MESSAGE_LEN;
  uk_words : Forall is_usize (message b);
  uk_data : is_usize (user_data b);
}.
Record info_ok (i : UntypedInfo) : Prop := { ik_bits : is_usize (bits i); ik_idx : is_usize (idx i) }.
Record boot_ok (b : BootInfo) : Prop := {
  ok_buffer : is_usize (ipc_buffer_addr b);
  ok_cnode : is_usize (root_cnode_idx b);
  ok_vspace : is_usize (root_vspace_idx b);
  ok_num : is_usize (untyped_num b);
  ok_empty : is_usize (firtst_empty_idx b);
  ok_msg : Forall is_u8 (msg b);
  ok_infos : Forall info_ok (untyped_infos b);
}.
Definition object_ok (o : kobject) : Prop :=
  match o with
  | OSlot s => slot_ok s
  | OTcb t => thread_ok (value t)
  | OEndpoint _ => True
  | ONotification n => is_usize (notify_bit n)
  | OPageTable t => table_ok t
  | OPage b => buffer_ok b
  | OBootInfo b => boot_ok b
  end.
Record well_typed (s : KState) : Prop := {
  wt_heap : map_Forall (λ _, object_ok) (heap s);
  wt_tid : is_usize (tcbidx s);
  wt_satp : is_usize (satp s);
  wt_time : is_usize (time s);
  wt_timer : is_usize (timer s);
  wt_console : Forall is_u8 (console s);
}.
Definition err_ok (e : KernelError) : Prop := is_u16 (e_val e).

(** ** Arithmetic *)

Lemma usize_lor a b : is_usize a → is_usize b → is_usize (Z.lor a b).
Proof.
  unfold is_usize, W. intros Ha Hb. split; [rewrite Z.lor_nonneg; lia|].
  destruct (Z.eq_dec a 0) as [->|]; [rewrite Z.lor_0_l; lia|].
  destruct (Z.eq_dec b 0) as [->|]; [rewrite Z.lor_0_r; lia|].
  assert (0 ≤ Z.lor a b) by (rewrite Z.lor_nonneg; lia).
  destruct (Z.eq_dec (Z.lor a b) 0) as [->|]; [lia|].
  apply Z.log2_lt_pow2; [lia|]. rewrite Z.log2_lor by lia.
  apply Z.max_lub_lt; apply Z.log2_lt_pow2; lia.
Qed.
Lemma usize_mod a n : 0 < n ≤ 64 → is_usize (a mod 2 ^ n).
Proof.
  intros Hn. assert (2 ^ n ≤ 2 ^ 64) by (apply Z.pow_le_mono_r; lia).
  pose proof (Z.mod_pos_bound a (2 ^ n)). unfold is_usize, W. lia.
Qed.
Lemma usize_ones a n : 0 < n ≤ 64 → is_usize (Z.land a (Z.ones n)).
Proof. intros. rewrite Z.land_ones by lia. by apply usize_mod. Qed.
Lemma usize_shl64 a n : is_usize (shl64 a n).
Proof. apply (usize_mod _ 64). lia. Qed.
Lemma usize_shiftr a n : 0 ≤ n → is_usize a → is_usize (Z.shiftr a n).
Proof.
  unfold is_usize. intros Hn [Ha Hw]. rewrite Z.shiftr_div_pow2 by done.
  split; [apply Z.div_pos; lia|]. apply Z.div_lt_upper_bound; [lia|]. nia.
Qed.
Lemma usize_0 : is_usize 0.
Proof. done. Qed.
Create HintDb typed.
#[export] Hint Resolve usize_lor usize_shl64 usize_0 : typed.

(** ** Computations *)

(** From a well-typed state, [m] ends in one, with a result that satisfies [P]. *)
Definition typed {A} (P : A → Prop) (m : K A) : Prop :=
  ∀ s, well_typed s →
  match m s with
  | Ok a s' => P a ∧ well_typed s'
  | Err e s' => err_ok e ∧ well_typed s'
  | _ => True
  end.
#[local] Notation "'safe' m" := (typed (λ _, True) m) (at level 10).

Lemma typed_bind {A B} (P : A → Prop) (Q : B → Prop) (m : K A) (f : A → K B) :
  typed P m → (∀ a, P a → typed Q (f a)) → typed Q (bind m f).
Proof.
  intros Hm Hf s Hs. specialize (Hm s Hs). unfold bind. destruct (m s) as [a s1| | | |]; try done.
  destruct Hm as [Ha Hs1]. by apply Hf.
Qed.
Lemma typed_ret {A} (P : A → Prop) a : P a → typed P (ret a).
Proof. by intros Ha s Hs. Qed.
Lemma typed_throw {A} (P : A → Prop) e : err_ok e → typed P (throw e).
Proof. by intros He s Hs. Qed.
Lemma typed_weaken {A} (P Q : A → Prop) m : typed P m → (∀ a, P a → Q a) → typed Q m.
Proof. intros Hm HPQ s Hs. specialize (Hm s Hs). destruct (m s); naive_solver. Qed.
Lemma typed_gets {A} (f : KState → A) : safe (gets f).
Proof. by intros s Hs. Qed.
Lemma typed_modify f : (∀ s, well_typed s → well_typed (f s)) → safe (modify f).
Proof. intros Hf s Hs. split; [done|by apply Hf]. Qed.
Lemma typed_try {A} (P : A → Prop) (m : K A) :
  typed P m → typed (λ r, match r with inl a => P a | inr e => err_ok e end) (try_ m).
Proof. intros Hm s Hs. specialize (Hm s Hs). unfold try_. by destruct (m s). Qed.
Lemma typed_unwrap_res {A} (P : A → Prop) (m : K A) : typed P m → typed P (unwrap_res m).
Proof. intros Hm s Hs. specialize (Hm s Hs). unfold unwrap_res. by destruct (m s). Qed.
Lemma typed_ok_or {A} (P : A → Prop) (o : option A) e :
  (∀ a, o = Some a → P a) → err_ok e → typed P (ok_or o e).
Proof. intros Ho He. destruct o; [apply typed_ret; by apply Ho|by apply typed_throw]. Qed.
Lemma kerr_ok k : err_ok (kerr k).
Proof. done. Qed.
Lemma kerr_val_ok k v : err_ok (kerr_val k (as_u16 v)).
Proof. unfold err_ok, is_u16, as_u16. simpl. apply Z.mod_pos_bound. lia. Qed.
#[export] Hint Resolve kerr_ok kerr_val_ok : typed.

(** Prove [typed] along the structure of a computation. What a step returns is
    taken from the hint database; without a hint nothing is known of it. *)
Ltac typed :=
  intros; cbv beta zeta;
  repeat match goal with
    | H : match ?r with inl _ => _ | inr _ => _ end |- _ => is_var r; destruct r
    | H : match ?r with Some _ => _ | None => _ end |- _ => is_var r; destruct r
    | H : context [fst (_, _)] |- _ => cbn [fst snd] in H
    | H : context [snd (_, _)] |- _ => cbn [fst snd] in H
    | H : _ ∧ _ |- _ => destruct H
    end;
  first
    [ solve [eauto 6 with typed nocore]
    | lazymatch goal with
      | |- typed _ (bind _ _) =>
          eapply typed_bind; [first [solve [eauto 6 with typed nocore]|typed_mid]|intros; typed]
      | |- typed _ (ret _) => apply typed_ret; typed_done
      | |- typed _ (throw _) => apply typed_throw; eauto with typed
      | |- typed _ (gets _) => apply typed_gets
      | |- typed _ (modify _) => apply typed_modify; by intros ? []
      | |- typed _ (panic _) => done
      | |- typed _ undef => done
      | |- typed _ (match ?x with _ => _ end) => destruct x eqn:?; typed
      | |- typed _ ?m => let h := head_of m in unfold h; typed
      end ]
with typed_mid :=
  lazymatch goal with
  | |- typed _ (try_ _) => eapply typed_try; first [solve [eauto 6 with typed nocore]|typed_mid]
  | |- typed _ (unwrap_res _) => eapply typed_unwrap_res; first [solve [eauto 6 with typed nocore]|typed_mid]
  | |- typed _ (gets _) => apply typed_gets
  | |- typed _ ?m => apply (typed_weaken (λ _, True)); [typed|exact (λ _ _, I)]
  end
with typed_done := first [exact I|by eauto with typed|idtac].

(** ** Memory *)

Lemma well_typed_set s a o : well_typed s → object_ok o → well_typed (s <| heap := <[a := o]> (heap s) |>).
Proof. intros [Hh ?????] Ho. split; try done. by apply map_Forall_insert_2. Qed.
Lemma typed_set_heap a o : object_ok o → safe (set_heap a o).
Proof. intros Ho. apply typed_modify. intros. by apply well_typed_set. Qed.
Lemma table_new_ok : table_ok PageTable_new.
Proof. split; [done|]. by apply Forall_replicate. Qed.
Lemma buffer_zero_ok : buffer_ok IPCBuffer_zero.
Proof. split; [done|done| |done]. by apply Forall_replicate. Qed.
Lemma slot_none_ok : slot_ok None.
Proof. by intros e. Qed.
Lemma slot_some_ok e : entry_ok e → slot_ok (Some e).
Proof. by intros He ? [= <-]. Qed.
#[export] Hint Resolve table_new_ok buffer_zero_ok slot_none_ok slot_some_ok : typed.

(** Reading an object: memory holds a well-typed one, or the zero of its type. *)
Ltac typed_read a :=
  let s := fresh "s" in let Hs := fresh "Hs" in let Ho := fresh "Ho" in
  intros s Hs; unfold bind, gets;
  destruct (heap s !! a) as [[]|] eqn:Ho; try done;
  (split; [first [exact (wt_heap s Hs a _ Ho)|auto with typed]|exact Hs]).
Lemma typed_read_tcb a : typed (λ t, thread_ok (value t)) (read_tcb a).
Proof. unfold read_tcb. typed_read a. Qed.
Lemma typed_read_notification a : typed (λ n, is_usize (notify_bit n)) (read_notification a).
Proof. unfold read_notification. typed_read a. Qed.
Lemma typed_read_page_table a : typed table_ok (read_page_table a).
Proof. unfold read_page_table, table_at. typed_read a. Qed.
Lemma typed_read_slot a : typed slot_ok (read_slot a).
Proof. unfold read_slot, slot_at. typed_read a. Qed.
Lemma typed_read_page a : typed buffer_ok (read_page a).
Proof. unfold read_page. typed_read a. Qed.
Lemma typed_write_tcb a t : thread_ok (value t) → safe (write_tcb a t).
Proof. exact (typed_set_heap a (OTcb t)). Qed.
Lemma typed_write_endpoint a e : safe (write_endpoint a e).
Proof. exact (typed_set_heap a (OEndpoint e) I). Qed.
Lemma typed_write_notification a n : is_usize (notify_bit n) → safe (write_notification a n).
Proof. exact (typed_set_heap a (ONotification n)). Qed.
Lemma typed_write_page_table a t : table_ok t → safe (write_page_table a t).
Proof. exact (typed_set_heap a (OPageTable t)). Qed.
Lemma typed_write_slot_at a sl : slot_ok sl → safe (write_slot_at a sl).
Proof. exact (typed_set_heap a (OSlot sl)). Qed.
Lemma typed_write_page a b : buffer_ok b → safe (write_page a b).
Proof. exact (typed_set_heap a (OPage b)). Qed.
#[export] Hint Resolve typed_read_tcb typed_read_notification typed_read_page_table typed_read_slot
  typed_read_page typed_write_tcb typed_write_endpoint typed_write_notification
  typed_write_page_table typed_write_slot_at typed_write_page : typed.

Lemma typed_modify_tcb a f : (∀ v, thread_ok v → thread_ok (f v)) → safe (modify_tcb a f).
Proof. intros Hf. eapply typed_bind; [apply typed_read_tcb|]. intros t Ht. apply typed_write_tcb. by apply Hf. Qed.
Lemma typed_read_entry a : typed entry_ok (read_entry a).
Proof. unfold read_entry. eapply typed_bind; [apply typed_read_slot|]. intros [e|] He; [|done]. apply typed_ret. by apply He. Qed.
Lemma typed_occupied a : typed entry_ok (occupied a).
Proof. unfold occupied. eapply typed_bind; [apply typed_read_slot|]. intros sl Hsl. apply typed_ok_or; [exact Hsl|done]. Qed.
Lemma typed_write_entry a e : entry_ok e → safe (write_entry a e).
Proof. intros. apply typed_write_slot_at. by apply slot_some_ok. Qed.
Lemma typed_modify_entry a f : (∀ e, entry_ok e → entry_ok (f e)) → safe (modify_entry a f).
Proof. intros Hf. eapply typed_bind; [apply typed_read_entry|]. intros e He. by apply typed_write_entry, Hf. Qed.
#[export] Hint Resolve typed_modify_tcb typed_read_entry typed_occupied typed_write_entry typed_modify_entry : typed.

(** ** Capabilities *)

Lemma typed_get_cap_type c : safe (get_cap_type c).
Proof. typed. Qed.
Lemma typed_try_ref_as want c : cap_ok c → typed cap_ok (try_ref_as want c).
Proof. typed. Qed.
#[export] Hint Resolve typed_get_cap_type typed_try_ref_as ek_cap ek_mdb : typed.
Lemma typed_slot_cap want a : typed cap_ok (slot_cap want a).
Proof. unfold slot_cap. typed. Qed.
#[export] Hint Resolve typed_slot_cap : typed.

Lemma cap_new_ok t a v : is_usize v → cap_ok (cap_new t a v).
Proof.
  intros Hv. split; [by exists t|done| | |done].
  - simpl. unfold is_u16, as_u16. apply Z.mod_pos_bound. lia.
  - simpl. unfold is_u32, as_u32. apply Z.mod_pos_bound. lia.
Qed.
Lemma cap_word_ok c v : cap_ok c → is_usize v → cap_ok (c <| cap_dep_val := v |>).
Proof. intros [] Hv. by split. Qed.
Lemma cap_upd_word_ok c f : cap_ok c → is_usize (f (cap_dep_val c)) → cap_ok (c <| cap_dep_val ::= f |>).
Proof. intros [] Hv. by split. Qed.
Lemma cap_replicate_ok c : cap_ok c → cap_ok (cap_replicate c).
Proof. by intros []. Qed.
Lemma set_mapped_ok c v : cap_ok c → cap_ok (set_mapped c v).
Proof.
  intros Hc. apply cap_upd_word_ok; [done|]. apply usize_lor; [apply Hc|]. apply usize_lor; [done|].
  apply (usize_ones v 48). lia.
Qed.
Lemma set_root_ok c : cap_ok c → cap_ok (set_root c).
Proof. intros Hc. apply cap_upd_word_ok; [done|]. by apply usize_lor; [apply Hc|]. Qed.
Lemma new_entry_ok c : cap_ok c → entry_ok (new_with_rawcap c).
Proof. intros Hc. split; [done|]. by split. Qed.
#[export] Hint Resolve cap_new_ok cap_word_ok cap_replicate_ok set_mapped_ok set_root_ok new_entry_ok : typed.

Section Layout.
Context `{KernelLayout}.
Lemma typed_entry_derive e : entry_ok e → typed cap_ok (entry_derive e).
Proof. intros He. unfold entry_derive. eapply typed_bind; [apply typed_get_cap_type|]. intros [] _;
  cbn [derive TCBCap UntypedCap CNodeCap NotificationCap EndPointCap PageCap PageTableCap]; typed. Qed.
End Layout.
#[export] Hint Resolve typed_entry_derive : typed.

(** ** The derivation list *)

Lemma mdb_set_word_ok m b n : mdb_ok m → mdb_ok (mdb_set_word m b n).
Proof.
  intros Hm. assert (is_usize (Z.lor (Z.land (mdb_word m b) 0xffff) (shl64 n 16))).
  { apply usize_lor; [apply (usize_ones _ 16); lia|apply usize_shl64]. }
  destruct Hm. by destruct b.
Qed.
Lemma typed_mdb_set_node a n b : safe (mdb_set_node a n b).
Proof.
  unfold mdb_set_node. eapply typed_bind; [|intros _ _]; apply typed_modify_entry;
    intros e [Hc Hm]; (split; [done|by apply mdb_set_word_ok]).
Qed.
#[export] Hint Resolve typed_mdb_set_node : typed.
Lemma typed_with_local_entry tmp c link :
  cap_ok c → safe link → typed entry_ok (with_local_entry tmp c link).
Proof. intros Hc Hl. unfold with_local_entry. typed. Qed.
Lemma typed_entry_insert a p : safe (entry_insert a p).
Proof. typed. Qed.
Lemma typed_entry_replace a p : safe (entry_replace a p).
Proof. typed. Qed.
#[export] Hint Resolve typed_with_local_entry typed_entry_insert typed_entry_replace : typed.
Lemma typed_insert_cap tmp self parent c i : cap_ok c → safe (insert_cap tmp self parent c i).
Proof. intros Hc. unfold insert_cap. typed. Qed.
#[export] Hint Resolve typed_insert_cap : typed.

(** ** Lookups *)

Lemma typed_lookup_entry_mut n c p d : safe (lookup_entry_mut n c p d).
Proof. revert c d. induction n as [|n IH]; intros; cbn [lookup_entry_mut]; [done|]. typed. Qed.
Lemma typed_all_none n a : safe (all_none n a).
Proof. revert a. induction n as [|n IH]; intros; cbn [all_none]; typed. Qed.
#[export] Hint Resolve typed_lookup_entry_mut typed_all_none : typed.
Lemma typed_lookup_as root want p d : typed (λ r, cap_ok (snd r)) (lookup_as root want p d).
Proof. unfold lookup_as. typed. Qed.
#[export] Hint Resolve typed_lookup_as : typed.

(** ** Page tables *)

Lemma typed_read_pte t i : typed is_usize (read_pte t i).
Proof.
  unfold read_pte. eapply typed_bind; [apply typed_read_page_table|]. intros tb [_ Hw].
  destruct (tb !! Z.to_nat i) as [pte|] eqn:Hp; [|done]. apply typed_ret. by eapply Forall_lookup_1.
Qed.
Lemma typed_write_pte t i pte : is_usize pte → safe (write_pte t i pte).
Proof.
  intros Hpte. unfold write_pte. eapply typed_bind; [apply typed_read_page_table|]. intros tb [Hl Hw].
  destruct (tb !! Z.to_nat i); [|done]. apply typed_write_page_table. split; [by rewrite length_insert|].
  by apply Forall_insert.
Qed.
#[export] Hint Resolve typed_read_pte typed_write_pte : typed.
Lemma typed_walk_levels ls t v :
  Forall is_usize ls → typed (λ r, is_usize (fst r)) (walk_levels ls t v).
Proof.
  revert t. induction ls as [|l ls IH]; intros t Hls; cbn [walk_levels]; [typed|].
  inversion_clear Hls. typed.
Qed.
Lemma typed_walk t v : typed (λ r, is_usize (fst r)) (walk t v).
Proof. apply typed_walk_levels. by repeat (apply Forall_cons_2; [done|]). Qed.
Lemma pte_write_ok p flags : is_usize flags → is_usize (pte_write p flags).
Proof. intros. unfold pte_write. auto with typed. Qed.
#[export] Hint Resolve typed_walk pte_write_ok : typed.

Lemma user_flags_ok v : is_usize (get_user_flags v).
Proof. unfold get_user_flags. by repeat case_match. Qed.
Lemma flags_v_ok flags : is_usize flags → is_usize (Z.lor flags PAGE_V).
Proof. intros. by apply usize_lor. Qed.
Lemma flags_u_ok flags : is_usize flags → is_usize (Z.lor PAGE_U flags).
Proof. intros. by apply usize_lor. Qed.
#[export] Hint Resolve user_flags_ok flags_v_ok flags_u_ok : typed.
Lemma typed_usize_add (a b : Z) : is_usize a → is_usize b → typed is_usize (usize_add a b).
Proof.
  intros Ha Hb. unfold usize_add. destruct (Z.ltb_spec (a + b) W); [|done]. apply typed_ret.
  unfold is_usize in *. lia.
Qed.
Lemma typed_usize_sub (a b : Z) : is_usize a → is_usize b → typed is_usize (usize_sub a b).
Proof.
  intros Ha Hb. unfold usize_sub. destruct (Z.leb_spec b a); [|done]. apply typed_ret.
  unfold is_usize in *. lia.
Qed.
Lemma usize_1 : is_usize 1.
Proof. done. Qed.
Lemma page_v_ok : is_usize PAGE_V.
Proof. done. Qed.
#[export] Hint Resolve typed_usize_add typed_usize_sub usize_1 page_v_ok : typed.

Lemma typed_pt_map self parent v : typed is_usize (pt_map self parent v).
Proof. unfold pt_map. eapply typed_bind; [apply typed_walk|]. intros [l e] Hl. simpl in Hl. typed. Qed.
Lemma typed_page_map self parent v flags : is_usize flags → safe (page_map self parent v flags).
Proof. intros. typed. Qed.
Lemma typed_page_unmap self parent v : safe (page_unmap self parent v).
Proof. typed. Qed.
#[export] Hint Resolve typed_pt_map typed_page_map typed_page_unmap : typed.
Lemma typed_pt_cap_map c root v : cap_ok c → typed (λ r, is_usize (fst r) ∧ cap_ok (snd r)) (pt_cap_map c root v).
Proof. intros Hc. unfold pt_cap_map. typed. Qed.
Lemma typed_page_cap_map c root v flags : cap_ok c → is_usize flags → typed cap_ok (page_cap_map c root v flags).
Proof. intros Hc Hf. unfold page_cap_map. typed. Qed.
Lemma typed_page_cap_unmap c root : cap_ok c → typed cap_ok (page_cap_unmap c root).
Proof. intros Hc. unfold page_cap_unmap, set_unmapped. typed. Qed.
Lemma typed_make_as_root `{KernelLayout} c : cap_ok c → typed cap_ok (make_as_root c).
Proof. intros Hc. unfold make_as_root. typed. Qed.
#[export] Hint Resolve typed_pt_cap_map typed_page_cap_map typed_page_cap_unmap typed_make_as_root : typed.

(** Changes to the processor's and the scheduler's state. *)
Lemma usize_satp p : is_usize p → is_usize (Z.lor SATP_SV48 (Z.shiftr p 12)).
Proof. intros. apply usize_lor; [done|]. by apply usize_shiftr. Qed.
Lemma usize_phys k : is_usize (phys_of_kva k).
Proof. unfold phys_of_kva. change (usize_not KERNEL_V_ADDR_PFX) with (Z.ones 47). by apply usize_ones. Qed.
Lemma typed_pt_activate a : safe (pt_activate a).
Proof. apply typed_modify. intros s []. split; try done. apply usize_satp, usize_phys. Qed.
Lemma typed_activate_kernel_table `{KernelLayout} : safe activate_kernel_table.
Proof.
  apply typed_modify. intros s []. split; try done. apply usize_satp.
  change (usize_not KERNEL_CODE_PFX) with (Z.ones 32). by apply usize_ones.
Qed.
Lemma typed_putchar c : safe (putchar (as_u8 c)).
Proof.
  apply typed_modify. intros s []. split; try done. apply Forall_app_2; [done|].
  apply Forall_singleton. apply Z.mod_pos_bound. lia.
Qed.
#[export] Hint Resolve typed_pt_activate typed_activate_kernel_table typed_putchar : typed.

(** ** Threads *)

Lemma regs_mut_ok r i v : regs_ok r → is_usize v → regs_ok (regs_index_mut r i v).
Proof.
  intros Hr Hv j. destruct (decide (i = j)) as [<-|]; [by rewrite regs_index_same|].
  by rewrite regs_index_other.
Qed.
Lemma regs_a0_ok r v : regs_ok r → is_usize v → regs_ok (r <| a0 := v |>).
Proof. apply (regs_mut_ok r Register.A0 v). Qed.
Lemma regs_a1_ok r v : regs_ok r → is_usize v → regs_ok (r <| a1 := v |>).
Proof. apply (regs_mut_ok r Register.A1 v). Qed.
Lemma regs_sepc_ok r v : regs_ok r → is_usize v → regs_ok (r <| sepc := v |>).
Proof. apply (regs_mut_ok r Register.SEpc v). Qed.
Lemma regs_null_ok : regs_ok Registers_null.
Proof. intros i. by destruct i. Qed.
Lemma regs_of_words_ok ws : Forall is_usize ws → regs_ok (registers_of_words ws).
Proof.
  intros Hw. assert (∀ n, is_usize (nth n ws 0)) as Hn.
  { intros n. destruct (nth_in_or_default n ws 0) as [Hin|He]; [|by rewrite He].
    rewrite Forall_forall in Hw. by apply Hw, list_elem_of_In. }
  intros i. destruct i; apply Hn.
Qed.
#[export] Hint Resolve regs_a0_ok regs_a1_ok regs_sepc_ok regs_null_ok : typed.

(** A thread with one field changed. *)
Lemma thread_regs_ok t f : thread_ok t → regs_ok (f (registers t)) → thread_ok (t <| registers ::= f |>).
Proof. intros [] Hf. by split. Qed.
Lemma thread_slice_ok t v : thread_ok t → is_usize v → thread_ok (t <| time_slice := v |>).
Proof. intros [] Hf. by split. Qed.
Lemma thread_badge_ok t v : thread_ok t → is_usize v → thread_ok (t <| badge := v |>).
Proof. intros [] Hf. by split. Qed.
Lemma thread_status_ok t v : thread_ok t → thread_ok (t <| status := v |>).
Proof. intros []. by split. Qed.
Lemma thread_cspace_ok t e : thread_ok t → entry_ok e → thread_ok (t <| root_cnode := Some e |>).
Proof. intros [] He. split; try done. by apply slot_some_ok. Qed.
Lemma thread_vspace_ok t e : thread_ok t → entry_ok e → thread_ok (t <| vspace := Some e |>).
Proof. intros [] He. split; try done. by apply slot_some_ok. Qed.
Lemma thread_buffer_ok t e : thread_ok t → entry_ok e → thread_ok (t <| ipc_buffer := Some e |>).
Proof. intros [] He. split; try done. by apply slot_some_ok. Qed.
#[export] Hint Resolve thread_slice_ok thread_badge_ok thread_status_ok thread_cspace_ok thread_vspace_ok
  thread_buffer_ok tk_slice tk_badge tk_regs tk_cspace : typed.

Lemma typed_set_a1 a v : is_usize v → safe (modify_tcb a (λ t, t <| registers ::= λ r, r <| a1 := v |> |>)).
Proof. intros. apply typed_modify_tcb. intros t Ht. apply thread_regs_ok; [done|]. apply regs_a1_ok; [apply Ht|done]. Qed.
Lemma typed_set_slice a v : is_usize v → safe (modify_tcb a (λ t, t <| time_slice := v |>)).
Proof. intros. apply typed_modify_tcb. auto with typed. Qed.
Lemma typed_set_badge a v : is_usize v → safe (modify_tcb a (λ t, t <| badge := v |>)).
Proof. intros. apply typed_modify_tcb. auto with typed. Qed.
#[export] Hint Resolve typed_set_a1 typed_set_slice typed_set_badge ck_word : typed.

Lemma typed_ll_push q x : safe (ll_push q x).
Proof. typed. Qed.
Lemma typed_ll_pop q : safe (ll_pop q).
Proof. typed. Qed.
#[export] Hint Resolve typed_ll_push typed_ll_pop : typed.
Lemma typed_sched_push x : safe (sched_push x).
Proof. typed. Qed.
Lemma typed_resume x : safe (resume x).
Proof.
  unfold resume. eapply typed_bind; [|intros _ _; apply typed_sched_push].
  apply typed_modify_tcb. intros. by apply thread_status_ok.
Qed.
Lemma typed_block_thread x : safe (block_thread x).
Proof.
  unfold block_thread. eapply typed_bind; [apply typed_read_tcb|]. intros t _.
  eapply typed_bind; [typed_mid|]. intros _ _. apply typed_modify_tcb. intros. by apply thread_status_ok.
Qed.
#[export] Hint Resolve typed_sched_push typed_resume typed_block_thread : typed.
Lemma typed_set_ipc_msg x b : safe (set_ipc_msg x b).
Proof. typed. Qed.
#[export] Hint Resolve typed_set_ipc_msg : typed.

(** ** Endpoints and notifications *)

Lemma typed_ep_send e x : safe (ep_send e x).
Proof. typed. Qed.
Lemma typed_ep_recv e x : safe (ep_recv e x).
Proof. typed. Qed.
#[export] Hint Extern 4 (is_usize (notify_bit _)) => progress simpl : typed.
Lemma typed_send_signal n v : is_usize v → safe (send_signal n v).
Proof. intros. unfold send_signal. typed. Qed.
Lemma typed_wait_signal n x : safe (wait_signal n x).
Proof. unfold wait_signal. typed. Qed.
#[export] Hint Resolve typed_ep_send typed_ep_recv typed_send_signal typed_wait_signal : typed.

(** ** Untyped memory *)

(** What [retype] needs of a capability type. *)
Record typed_cap (C : Capability) : Prop := {
  tc_size : ∀ n, safe (get_object_size C n);
  tc_word : ∀ a n, is_usize n → typed is_usize (create_cap_dep_val C a n);
  tc_init : ∀ c, safe (init_object C c);
}.
#[local] Hint Resolve tc_size tc_word tc_init : typed.

Lemma typed_usize_pow2 n : 0 ≤ n → typed is_usize (usize_pow2 n).
Proof.
  intros Hn. unfold usize_pow2. destruct (Z.ltb_spec n 64); [|done]. apply typed_ret. unfold is_usize, W.
  split; [lia|]. apply Z.pow_lt_mono_r; lia.
Qed.
Lemma typed_block_size c : typed is_usize (block_size c).
Proof.
  apply typed_usize_pow2. change 0x3f with (Z.ones 6). rewrite Z.land_ones by lia.
  apply Z.mod_pos_bound. lia.
Qed.
Lemma typed_untyped_word a n : is_usize n → typed is_usize (untyped_create_cap_dep_val a n).
Proof.
  intros [H0 Hn]. unfold untyped_create_cap_dep_val. apply (typed_bind is_usize).
  - unfold ilog2. destruct (Z.leb_spec n 0); [done|]. apply typed_ret. pose proof (Z.log2_nonneg n).
    assert (Z.log2 n < 64) by (apply Z.log2_lt_pow2; [lia|exact Hn]). unfold is_usize, W. lia.
  - intros k Hk. apply typed_ret. auto with typed.
Qed.
#[export] Hint Resolve typed_block_size typed_untyped_word : typed.
Lemma mark_is_device_ok c : cap_ok c → cap_ok (mark_is_device c).
Proof. intros Hc. apply cap_upd_word_ok; [done|]. apply (usize_ones _ 6). lia. Qed.
#[export] Hint Resolve mark_is_device_ok : typed.

Lemma typed_CapGenerator_new n a us sz :
  is_usize us → typed (λ g, is_usize (cg_user_size g)) (CapGenerator_new n a us sz).
Proof. intros Hus. unfold CapGenerator_new. typed. Qed.
#[export] Hint Resolve typed_CapGenerator_new : typed.
Lemma typed_retype C c us n :
  typed_cap C → cap_ok c → is_usize us →
  typed (λ r, is_usize (cg_user_size (fst r)) ∧ cap_ok (snd r)) (retype C c us n).
Proof.
  intros HC Hc Hus. unfold retype. typed; (split; [done|]; cbn [snd]; repeat case_match; auto with typed).
Qed.
Lemma typed_generator_next C g :
  typed_cap C → is_usize (cg_user_size g) →
  typed (λ r, match r with Some (c, g') => cap_ok c ∧ is_usize (cg_user_size g') | None => True end)
    (cap_generator_next C g).
Proof.
  intros HC Hg. unfold cap_generator_next. typed.
Qed.
Lemma typed_insert_caps n tmp src dest C g i :
  typed_cap C → is_usize (cg_user_size g) → safe (insert_caps n tmp src dest C g i).
Proof.
  intros HC. revert g i. induction n as [|n IH]; intros g i Hg; cbn [insert_caps]; [typed|].
  eapply typed_bind; [by apply typed_generator_next|]. intros [[c g']|]; [|typed]. intros [Hc Hg']. typed.
Qed.
Lemma typed_retype_and_insert tmp src dest C us n :
  typed_cap C → is_usize us → safe (retype_and_insert tmp src dest C us n).
Proof.
  intros HC Hus. unfold retype_and_insert. eapply typed_bind; [apply typed_read_entry|]. intros e [Hc _].
  eapply typed_bind; [by apply typed_retype|]. intros [g c] [Hg Hc']. simpl in *.
  eapply typed_bind; [|intros _ _; by apply typed_insert_caps].
  apply typed_modify_entry. intros e' []. by split.
Qed.

Section Layout.
Context `{KernelLayout}.

Lemma typed_ThreadInfo_new : typed thread_ok ThreadInfo_new.
Proof.
  intros s Hs. unfold ThreadInfo_new, bind, gets, modify, usize_add.
  destruct (Z.ltb_spec (tcbidx s + 1) W) as [Hlt|]; [|done]. pose proof (wt_tid _ Hs) as [].
  split; [|destruct Hs; split; try done; apply (usize_mod _ 64); lia].
  split; try done; [apply regs_null_ok|]. unfold is_usize. simpl. lia.
Qed.
#[local] Hint Resolve typed_ThreadInfo_new : typed.
Lemma tcb_typed : typed_cap TCBCap.
Proof. split; cbn [get_object_size create_cap_dep_val init_object TCBCap]; typed. Qed.
Lemma cnode_typed : typed_cap CNodeCap.
Proof. split; cbn [get_object_size create_cap_dep_val init_object CNodeCap]; typed. Qed.
Lemma endpoint_typed : typed_cap EndPointCap.
Proof. split; cbn [get_object_size create_cap_dep_val init_object EndPointCap]; typed. Qed.
Lemma notification_typed : typed_cap NotificationCap.
Proof. split; cbn [get_object_size create_cap_dep_val init_object NotificationCap]; typed. Qed.
Lemma page_typed : typed_cap PageCap.
Proof. split; cbn [get_object_size create_cap_dep_val init_object PageCap]; typed. Qed.
Lemma page_table_typed : typed_cap PageTableCap.
Proof. split; cbn [get_object_size create_cap_dep_val init_object PageTableCap]; typed. Qed.
Lemma typed_invoke_retype tmp src dest us n t : is_usize us → safe (invoke_retype tmp src dest us n t).
Proof.
  intros Hus. destruct t; cbn [invoke_retype]; try (by apply typed_throw); apply typed_retype_and_insert;
    auto using tcb_typed, cnode_typed, endpoint_typed, notification_typed, page_typed, page_table_typed.
Qed.
#[local] Hint Resolve typed_invoke_retype : typed.

(** ** System calls *)

Lemma typed_update_cap a c : cap_ok c → safe (update_cap a c).
Proof. intros Hc. apply typed_modify_entry. intros e []. by split. Qed.
Lemma typed_print_level n c : safe (print_level n c).
Proof.
  revert c. induction n as [|n IH]; intros c; cbn [print_level]; [done|].
  eapply typed_bind; [typed_mid|]. intros k _. generalize (cap_kva c) as addr.
  induction (Z.to_nat k) as [|m IHm]; intros addr; [typed|].
  eapply typed_bind; [apply typed_read_slot|]. intros sl Hsl.
  eapply (typed_bind (λ _, True)); [|intros _ _; apply IHm]. destruct sl as [e|]; [|typed].
  eapply typed_bind; [eapply typed_try, typed_try_ref_as, (Hsl e eq_refl)|]. intros [c'|] _; [|typed].
  destruct (_ =? _); [typed|apply IH].
Qed.
#[local] Hint Resolve typed_update_cap typed_print_level : typed.

(** What an invocation returns to the caller. *)
Definition result_ok (r : option Z) : Prop := ∀ v, r = Some v → is_usize v.
Lemma result_none_ok : result_ok None.
Proof. by intros v. Qed.
Lemma result_some_ok v : is_usize v → result_ok (Some v).
Proof. by intros Hv ? [= <-]. Qed.
#[local] Hint Resolve result_none_ok result_some_ok : typed.

Lemma typed_invoke_untyped tmp root slot r : regs_ok r → typed result_ok (invoke_untyped tmp root slot r).
Proof.
  intros Hr. assert (is_usize (Z.shiftr (a5 r) 32)) by (apply usize_shiftr; [done|apply (Hr Register.A5)]).
  unfold invoke_untyped. typed.
Qed.
Lemma typed_invoke_cnode tmp root slot label r :
  regs_ok r → typed result_ok (invoke_cnode tmp root slot label r).
Proof.
  intros Hr. pose proof (Hr Register.A6) as H6. simpl in H6. unfold invoke_cnode, set_cap_dep_val. cbv zeta.
  do 2 (eapply typed_bind; [typed_mid|]; intros ? _). eapply typed_bind; [apply typed_occupied|]. intros e He.
  do 2 (eapply typed_bind; [typed_mid|]; intros ? _). case_match; [by apply typed_throw|].
  eapply typed_bind; [by apply typed_entry_derive|]. intros c Hc.
  eapply (typed_bind entry_ok); [|typed]. destruct (bool_decide _), (bool_decide _); typed.
Qed.

Lemma typed_set_root_cspace tmp x c p : cap_ok c → safe (set_root_cspace tmp x c p).
Proof. intros Hc. unfold set_root_cspace. typed. Qed.
Lemma typed_set_root_vspace tmp x c p : cap_ok c → safe (set_root_vspace tmp x c p).
Proof. intros Hc. unfold set_root_vspace. typed. Qed.
Lemma typed_set_ipc_buffer tmp x c p : cap_ok c → safe (set_ipc_buffer tmp x c p).
Proof. intros Hc. unfold set_ipc_buffer. typed. Qed.
Lemma typed_cnode_derive c : cap_ok c → typed cap_ok (cnode_derive c).
Proof. apply typed_ret. Qed.
Lemma typed_page_table_derive c : cap_ok c → typed cap_ok (page_table_derive c).
Proof. intros. apply typed_ret. auto with typed. Qed.
Lemma typed_page_derive c : cap_ok c → typed cap_ok (page_derive c).
Proof. intros Hc. unfold page_derive. typed. Qed.
#[local] Hint Resolve typed_set_root_cspace typed_set_root_vspace typed_set_ipc_buffer typed_cnode_derive
  typed_page_table_derive typed_page_derive : typed.
Lemma typed_tcb_set_cspace tmp c src : safe (tcb_set_cspace tmp c src).
Proof. unfold tcb_set_cspace. cbn [derive CNodeCap]. typed. Qed.
Lemma typed_tcb_set_vspace tmp c src : safe (tcb_set_vspace tmp c src).
Proof. unfold tcb_set_vspace. cbn [derive PageTableCap]. typed. Qed.
Lemma typed_tcb_set_ipc_buffer tmp c src : safe (tcb_set_ipc_buffer tmp c src).
Proof. unfold tcb_set_ipc_buffer. cbn [derive PageCap]. typed. Qed.
Lemma typed_tcb_set_registers c b r :
  buffer_ok b → read_as Registers b = inr r → safe (tcb_set_registers c r).
Proof.
  intros [_ _ Hw _] Hr. apply typed_modify_tcb. intros t [].
  split; try done. injection Hr as <-. by apply regs_of_words_ok.
Qed.
#[local] Hint Resolve typed_tcb_set_cspace typed_tcb_set_vspace typed_tcb_set_ipc_buffer
  typed_tcb_set_registers : typed.
Lemma typed_invoke_tcb tmp root slot label b r : typed result_ok (invoke_tcb tmp root slot label b r).
Proof. unfold invoke_tcb. typed. Qed.
Lemma typed_invoke_notification slot x label : typed result_ok (invoke_notification slot x label).
Proof. unfold invoke_notification. typed. Qed.
Lemma typed_invoke_endpoint slot x label : typed result_ok (invoke_endpoint slot x label).
Proof. unfold invoke_endpoint. typed. Qed.
Lemma typed_invoke_page root slot label r : typed result_ok (invoke_page root slot label r).
Proof. unfold invoke_page. typed. Qed.
Lemma typed_invoke_page_table root slot label r : typed result_ok (invoke_page_table root slot label r).
Proof. unfold invoke_page_table. typed. Qed.
#[local] Hint Resolve typed_invoke_untyped typed_invoke_cnode typed_invoke_tcb typed_invoke_notification
  typed_invoke_endpoint typed_invoke_page typed_invoke_page_table : typed.

Lemma typed_syscall_body tmp n r : regs_ok r → typed result_ok (syscall_body tmp n r).
Proof. intros Hr. unfold syscall_body, handle_invocation. typed. Qed.
Lemma set_result_ok x r :
  regs_ok r → match x with inl v => result_ok v | inr e => err_ok e end → regs_ok (set_result x r).
Proof.
  intros Hr. destruct x as [[v|]|e]; intros Hx; simpl.
  - auto with typed.
  - auto with typed.
  - apply regs_a1_ok; [apply regs_a0_ok; [done|by destruct (e_kind e)]|].
    unfold err_ok, is_u16, is_usize, W in *. lia.
Qed.
Lemma typed_handle_syscall tmp n x : safe (handle_syscall tmp n x).
Proof.
  unfold handle_syscall. eapply typed_bind; [apply typed_read_tcb|]. intros t [].
  eapply typed_bind; [by eapply typed_try, typed_syscall_body|]. intros y Hy.
  eapply typed_bind; [|intros _ _].
  { apply typed_modify_tcb. intros v Hv. apply thread_regs_ok; [done|]. apply set_result_ok; [apply Hv|done]. }
  eapply typed_bind; [apply typed_read_tcb|]. intros t' Ht'.
  eapply typed_bind; [apply typed_usize_add; [apply (tk_regs _ Ht' Register.SEpc)|done]|]. intros pc Hpc.
  apply typed_modify_tcb. intros v Hv. apply thread_regs_ok; [done|]. apply regs_sepc_ok; [apply Hv|done].
Qed.

(** ** Traps *)

Lemma typed_timer_tick : safe timer_tick.
Proof. unfold timer_tick. typed. Qed.
Lemma typed_set_timer v : is_usize v → safe (set_timer v).
Proof.
  intros Hv. unfold set_timer. apply (typed_bind is_usize); [intros s Hs; split; [apply Hs|done]|].
  intros t Ht. eapply typed_bind; [by apply typed_usize_add|]. intros d Hd. apply typed_modify.
  by intros s [].
Qed.
Lemma typed_activate_vspace x : safe (activate_vspace x).
Proof. typed. Qed.
Lemma quantum_ok : is_usize TASK_QUANTUM.
Proof. done. Qed.
#[local] Hint Resolve typed_activate_vspace quantum_ok : typed.
Lemma typed_schedule_pick : safe schedule_pick.
Proof. unfold schedule_pick, set_timeout. typed. Qed.
Lemma typed_schedule : safe schedule.
Proof. pose proof typed_schedule_pick. unfold schedule. typed. Qed.

(** Whatever traps and whatever the trapped thread asks for, the kernel
    only stores values of the types the source declares: from a well-typed
    state, every trap that returns ends in a well-typed state. In particular
    no capability with an unknown type byte, no page table with a number of
    entries other than 512 and no word outside 64 bits ever comes to be. *)
Lemma trap_well_typed tmp sc s s' :
  well_typed s → handle_trap tmp sc s = Ok tt s' → well_typed s'.
Proof.
  intros Hs Hr. assert (safe (handle_trap tmp sc)) as Ht.
  { pose proof typed_timer_tick. pose proof (typed_set_timer 10000). pose proof typed_schedule.
    pose proof (typed_handle_syscall tmp). unfold handle_trap. cbv zeta.
    eapply (typed_bind (λ _, True)); [|done]. typed. }
  specialize (Ht s Hs). rewrite Hr in Ht. apply Ht.
Qed.
End Layout.
