(* ===== verification/Boot.v ===== *)
(** * Boot-time memory: allocators and the kernel address space

    [kernel/src/init/pm.rs] (the page allocator), [kernel/src/init/vm.rs] (the
    kernel's page tables) and the resource manager of
    [kernel/src/init/root_server.rs] (page and slot allocation, and the
    division of the remaining memory into untyped blocks). *)

From S2P Require Import Prelude Shared Address Objects Riscv LinkedList Capability PageTable CNode.
From S2P Require Import Thread RoundRobin Ipc Untyped.

(** ** [BumpAllocator] *)

Record BumpAllocator := { start_addr : Z; end_addr : Z }.
#[export] Instance BumpAllocator_eta : Eta BumpAllocator := λ b,
  {| start_addr := start_addr b; end_addr := end_addr b |}.

(** [BumpAllocator::new]: the memory it zero-fills is the memory the model
    reads as zero. *)
Definition BumpAllocator_new (free_ram_phys free_ram_end_phys : Z) : K BumpAllocator :=
  rassert (free_ram_phys <? free_ram_end_phys) ;;;
  ret {| start_addr := free_ram_phys; end_addr := free_ram_end_phys |}.

Definition allocate_pages (self : BumpAllocator) (page_num : Z) : K (Z * BumpAllocator) :=
  let r := self.(start_addr) in
  let* len := usize_mul PAGE_SIZE page_num in
  let* start := addr_add self.(start_addr) len in
  rassert (start <=? self.(end_addr)) ;;;
  ret (r, self <| start_addr := start |>).
Definition allocate_page (self : BumpAllocator) : K (Z * BumpAllocator) := allocate_pages self 1.
Definition end_allocation (self : BumpAllocator) : Z * Z := (self.(start_addr), self.(end_addr)).

(** ** [RootServerResourceManager] *)

Record RootServerResourceManager := {
  bump_allocator : BumpAllocator;
  cnode_satrt_idx : Z;
  cnode_idx_max : Z;
}.
#[export] Instance RootServerResourceManager_eta : Eta RootServerResourceManager := λ r,
  {| bump_allocator := bump_allocator r; cnode_satrt_idx := cnode_satrt_idx r;
     cnode_idx_max := cnode_idx_max r |}.

Definition RootServerResourceManager_new (bump_allocator : BumpAllocator)
    (cnode_start_idx cnode_idx_max : Z) : K RootServerResourceManager :=
  rassert (cnode_start_idx <? cnode_idx_max) ;;;
  ret {| bump_allocator := bump_allocator; cnode_satrt_idx := cnode_start_idx;
         cnode_idx_max := cnode_idx_max |}.

Definition alloc_page (self : RootServerResourceManager) : K (Z * RootServerResourceManager) :=
  let* '(p, b) := allocate_page self.(bump_allocator) in
  ret (kva_of_phys p, self <| bump_allocator := b |>).

Definition alloc_cnode_idx (self : RootServerResourceManager) : K (Z * RootServerResourceManager) :=
  let r := self.(cnode_satrt_idx) in
  rassert (r <=? self.(cnode_idx_max)) ;;;
  let* i := usize_add self.(cnode_satrt_idx) 1 in
  ret (r, self <| cnode_satrt_idx := i |>).

(** ** [UntypedCapGenerator] *)

Record UntypedCapGenerator := {
  ug_start : Z; ug_end : Z; ug_idx_start : Z; ug_idx_max : Z;
}.
#[export] Instance UntypedCapGenerator_eta : Eta UntypedCapGenerator := λ g,
  {| ug_start := ug_start g; ug_end := ug_end g; ug_idx_start := ug_idx_start g;
     ug_idx_max := ug_idx_max g |}.

Definition finalize (self : RootServerResourceManager) : UntypedCapGenerator :=
  let '(start_address, end_address) := end_allocation self.(bump_allocator) in
  {| ug_start := kva_of_phys start_address; ug_end := kva_of_phys end_address;
     ug_idx_start := self.(cnode_satrt_idx); ug_idx_max := self.(cnode_idx_max) |}.

(** [Iterator::next] *)
Definition untyped_generator_next (self : UntypedCapGenerator)
    : K (option ((Z * CapabilityData) * UntypedCapGenerator)) :=
  let* lim := addr_add self.(ug_start) 4096 in
  if self.(ug_end) <=? lim then ret None
  else
    rassert (self.(ug_idx_start) <=? self.(ug_idx_max)) ;;;
    let* bsize := addr_sub self.(ug_end) self.(ug_start) in
    let* untyped_cap := cap_init UntypedCap self.(ug_start) bsize in
    let* acctual_size := block_size untyped_cap in
    let* start := addr_add self.(ug_start) acctual_size in
    let* i := usize_add self.(ug_idx_start) 1 in
    ret (Some ((self.(ug_idx_start), untyped_cap), self <| ug_start := start |> <| ug_idx_start := i |>)).

(** The capabilities the [for] loop of the boot code receives. *)
Fixpoint untyped_caps (fuel : nat) (g : UntypedCapGenerator) : K (list (Z * CapabilityData)) :=
  match fuel with
  | O => λ _, OutOfFuel
  | S fuel' =>
      let* r := untyped_generator_next g in
      match r with
      | None => ret []
      | Some (x, g') => let* xs := untyped_caps fuel' g' in ret (x :: xs)
      end
  end.

(** ** [kernel_vm_init] *)

Definition flag (leaf : bool) : Z := if leaf then 0xef else 0x01.

(** [(a..b).step_by(step)] *)
Definition step_by (a b step : Z) : list Z := (λ i, a + i * step) <$> seqZ 0 ((b - a + step - 1) / step).
Fixpoint for_each {A} (f : A → K unit) (l : list A) : K unit :=
  match l with [] => ret tt | x :: l => f x ;;; for_each f l end.

Definition SUPERPAGE : Z := 2 ^ (9 + 9 + 9 + 12).
Definition GIGAPAGE : Z := 2 ^ (9 + 9 + 12).

(** [text] and [data_end] are the linker symbols [__text] and [__data_end]. *)
Definition kernel_vm_init `{KernelLayout} (text data_end free_ram_end_phys : Z) : K unit :=
  for_each (λ paddr,
    let vpn := get_vpn (kva_of_phys paddr) 3 in
    write_pte KERNEL_VM_ROOT vpn (pte_write paddr (flag true)))
    (step_by 0 free_ram_end_phys SUPERPAGE) ;;;
  let vpn := get_vpn text 3 in
  write_pte KERNEL_VM_ROOT vpn
    (pte_write (Z.land LV2TABLE (usize_not KERNEL_CODE_PFX)) (flag false)) ;;;
  let* elf_v_start := align_down text GIGAPAGE in
  for_each (λ vaddr,
    let paddr := Z.land vaddr (usize_not KERNEL_CODE_PFX) in
    write_pte LV2TABLE (get_vpn vaddr 2) (pte_write paddr (flag true)))
    (step_by elf_v_start data_end GIGAPAGE) ;;;
  activate_kernel_table.

(** ** The page allocator hands out disjoint pages *)

(** A sequence of requests and the ranges they are answered with. *)
Fixpoint allocations (reqs : list Z) (b : BumpAllocator) : K (list (Z * Z) * BumpAllocator) :=
  match reqs with
  | [] => ret ([], b)
  | n :: reqs =>
      let* '(p, b') := allocate_pages b n in
      let* '(rs, b'') := allocations reqs b' in
      ret ((p, PAGE_SIZE * n) :: rs, b'')
  end.

Lemma allocate_pages_Ok b n s p b' s' :
  0 ≤ n → allocate_pages b n s = Ok (p, b') s' →
  s' = s ∧ p = start_addr b ∧ start_addr b' = start_addr b + PAGE_SIZE * n ∧
  end_addr b' = end_addr b ∧ start_addr b' ≤ end_addr b.
Proof.
  unfold allocate_pages, addr_add, usize_mul, usize_add, rassert. mred. intros Hn.
  zcase; [|done]. zcase; [|done]. zcase; [|done]. intros [= <- <- <-]. simpl.
  split_and!; done || lia.
Qed.

(** The page allocator never gives out a byte twice, never gives out
    memory outside the range it was created with, and keeps to multiples of
    the page size from its start. *)
Lemma allocations_disjoint reqs b s rs b' s' :
  Forall (λ n, 0 < n) reqs → allocations reqs b s = Ok (rs, b') s' →
  ascending (start_addr b) rs ∧ Forall (λ '(p, n), p + n ≤ end_addr b) rs ∧
  Forall (λ '(p, n), (p - start_addr b) mod PAGE_SIZE = 0) rs ∧
  start_addr b ≤ start_addr b' ∧ end_addr b' = end_addr b.
Proof.
  revert b s rs. induction reqs as [|n reqs IH]; intros b s rs Hpos; simpl.
  - intros [= <- <- <-]. split; [done|]. split; [done|]. split; [done|]. lia.
  - apply Forall_cons in Hpos as [Hn Hpos]. intros Hr. inv_bind Hr. destruct a as [p b1].
    apply allocate_pages_Ok in Hm as (-> & -> & Hst & Hen & Hle); [|lia].
    inv_bind Hr. destruct a as [rs1 b2]. injection Hr as <- <- <-.
    destruct (IH _ _ _ Hpos Hm) as (Hasc & Hin & Hmod & Hmono & Hend).
    rewrite Hst in Hasc, Hmod, Hmono. rewrite Hen in Hin, Hend.
    assert (0 < PAGE_SIZE * n) by (unfold PAGE_SIZE; lia).
    simpl. split_and!; try done; try lia.
    + apply Forall_cons. split; [lia|done].
    + apply Forall_cons. split; [by rewrite Z.sub_diag|].
      eapply Forall_impl; [exact Hmod|]. intros [q m] Hq. simpl in *.
      replace (q - start_addr b) with (q - (start_addr b + PAGE_SIZE * n) + n * PAGE_SIZE) by lia.
      by rewrite Z.mod_add by (unfold PAGE_SIZE; lia).
Qed.

(** ** The remaining memory becomes untyped blocks *)

(** The blocks [xs] tile memory from [start] on, with slot numbers from [i]:
    each is an unused untyped block of a power-of-two size that begins where
    the one before it ends, and at most one page before [stop] is left over. *)
Fixpoint tiles (start stop i : Z) (xs : list (Z * CapabilityData)) : Prop :=
  match xs with
  | [] => start ≤ stop ≤ start + 4096
  | (j, c) :: xs =>
      j = i ∧ cap_type c = CapabilityType.cap_type_as_u8 CapabilityType.Untyped ∧
      ∃ b, untyped_at c (start - KERNEL_V_ADDR_PFX) (start - KERNEL_V_ADDR_PFX) b ∧
           tiles (start + 2 ^ b) stop (i + 1) xs
  end.

Lemma untyped_generator_step g s :
  let n := ug_end g - ug_start g in
  let b := Z.log2 n in
  KERNEL_V_ADDR_PFX ≤ ug_start g → (ug_start g - KERNEL_V_ADDR_PFX) mod 4096 = 0 →
  ug_end g ≤ KERNEL_V_ADDR_PFX + 2 ^ 46 → 4096 < n →
  0 ≤ ug_idx_start g ≤ ug_idx_max g → ug_idx_max g < 2 ^ 63 →
  ∃ c, untyped_generator_next g s =
         Ok (Some ((ug_idx_start g, c),
                   g <| ug_start := ug_start g + 2 ^ b |> <| ug_idx_start := ug_idx_start g + 1 |>)) s ∧
       untyped_at c (ug_start g - KERNEL_V_ADDR_PFX) (ug_start g - KERNEL_V_ADDR_PFX) b ∧
       cap_type c = CapabilityType.cap_type_as_u8 CapabilityType.Untyped.
Proof.
  intros n b Hs Hpg He Hn Hi Hmax. pose proof (Z.log2_spec n ltac:(lia)) as Hb. fold b in Hb.
  assert (0 ≤ b < 64) as Hb64.
  { subst b. split; [apply Z.log2_nonneg|]. apply Z.log2_lt_pow2; unfold KERNEL_V_ADDR_PFX in *; lia. }
  set (f := ug_start g - KERNEL_V_ADDR_PFX) in *.
  assert (ug_start g = KERNEL_V_ADDR_PFX + f) as Hsf by lia.
  set (c := cap_new CapabilityType.Untyped f (f * 2 ^ 16 + b)).
  assert (untyped_at c f f b) as Hu.
  { assert (12 ≤ b) by (subst b; apply Z.log2_le_pow2; lia).
    split; [|done|done|lia|done|lia]. apply get_address_cap_new. lia. }
  exists c. split; [|done]. unfold untyped_generator_next, addr_add, addr_sub.
  rewrite (bind_Ok _ _ _ (ug_start g + 4096) s)
    by (apply usize_add_Ok; unfold KERNEL_V_ADDR_PFX, W in *; lia).
  rewrite (proj2 (Z.leb_gt _ _)) by lia.
  unfold rassert. rewrite (proj2 (Z.leb_le _ _)), (bind_Ok _ _ _ tt s) by (done || lia).
  rewrite (bind_Ok _ _ _ n s) by (apply usize_sub_Ok; lia).
  rewrite (bind_Ok _ _ _ c s).
  2: { unfold cap_init. cbn [create_cap_dep_val UntypedCap CAP_TYPE]. rewrite Hsf.
       rewrite (bind_Ok _ _ _ _ _ (untyped_dep_val_size f n s ltac:(lia) ltac:(unfold KERNEL_V_ADDR_PFX in *; lia))).
       unfold ret. subst c. do 3 f_equal. rewrite phys_of_kva_mod by (unfold KERNEL_V_ADDR_PFX; lia).
       rewrite <- Zplus_mod_idemp_l. replace (KERNEL_V_ADDR_PFX mod 2 ^ 47) with 0 by reflexivity.
       rewrite Z.add_0_l. apply Z.mod_small. lia. }
  rewrite (bind_Ok _ _ _ _ _ (untyped_block_size _ _ _ _ s Hu)).
  rewrite (bind_Ok _ _ _ (ug_start g + 2 ^ b) s)
    by (apply usize_add_Ok; unfold KERNEL_V_ADDR_PFX, W in *; lia).
  by rewrite (bind_Ok _ _ _ (ug_idx_start g + 1) s) by (apply usize_add_Ok; unfold W; lia).
Qed.

Lemma untyped_caps_tiles k g s :
  KERNEL_V_ADDR_PFX ≤ ug_start g ≤ ug_end g → (ug_start g - KERNEL_V_ADDR_PFX) mod 4096 = 0 →
  ug_end g ≤ KERNEL_V_ADDR_PFX + 2 ^ 46 →
  0 ≤ ug_idx_start g → ug_idx_start g + Z.of_nat k ≤ ug_idx_max g < 2 ^ 63 →
  ug_end g - ug_start g < 2 ^ Z.of_nat k →
  ∃ xs, untyped_caps (S k) g s = Ok xs s ∧ (length xs ≤ k)%nat ∧
        tiles (ug_start g) (ug_end g) (ug_idx_start g) xs.
Proof.
  revert g. induction k as [|k IH]; intros g Hs Hpg He Hi Hmax Hlt.
  - exists []. split; [|split; [done|simpl in *; lia]]. cbn [untyped_caps].
    unfold untyped_generator_next, addr_add. rewrite !bind_assoc.
    rewrite (bind_Ok _ _ _ (ug_start g + 4096) s)
      by (apply usize_add_Ok; unfold KERNEL_V_ADDR_PFX, W in *; lia).
    by rewrite (proj2 (Z.leb_le _ _)) by lia.
  - destruct (Z.le_gt_cases (ug_end g - ug_start g) 4096) as [Hle|Hgt].
    { exists []. split; [|split; [simpl; lia|simpl; lia]]. cbn [untyped_caps].
      unfold untyped_generator_next, addr_add. rewrite !bind_assoc.
      rewrite (bind_Ok _ _ _ (ug_start g + 4096) s)
        by (apply usize_add_Ok; unfold KERNEL_V_ADDR_PFX, W in *; lia).
      by rewrite (proj2 (Z.leb_le _ _)) by lia. }
    destruct (untyped_generator_step g s) as (c & Hnext & Hu & Hty); [lia|done|lia..|].
    set (n := ug_end g - ug_start g) in *. set (b := Z.log2 n) in *.
    pose proof (Z.log2_spec n ltac:(lia)) as Hb. fold b in Hb.
    assert (b ≤ Z.of_nat k) as Hbk.
    { subst b. apply Z.lt_succ_r. apply Z.log2_lt_pow2; [lia|].
      replace (Z.succ (Z.of_nat k)) with (Z.of_nat (S k)) by lia. done. }
    assert (0 ≤ b) by apply Z.log2_nonneg.
    assert (2 ^ b ≤ 2 ^ Z.of_nat k) by (apply Z.pow_le_mono_r; lia).
    rewrite Z.pow_succ_r in Hb by lia.
    set (g' := g <| ug_start := _ |> <| ug_idx_start := _ |>) in *.
    assert ((ug_start g + 2 ^ b - KERNEL_V_ADDR_PFX) mod 4096 = 0) as Hpg'.
    { assert (12 ≤ b) by (subst b; apply Z.log2_le_pow2; lia).
      replace (2 ^ b) with (2 ^ (b - 12) * 4096)
        by (change 4096 with (2 ^ 12); rewrite <- Z.pow_add_r by lia; f_equal; lia).
      replace (ug_start g + 2 ^ (b - 12) * 4096 - KERNEL_V_ADDR_PFX)
        with (ug_start g - KERNEL_V_ADDR_PFX + 2 ^ (b - 12) * 4096) by lia.
      by rewrite Z.mod_add by lia. }
    destruct (IH g') as (xs & Hxs & Hlen & Ht); subst g'; simpl; [lia|done|lia..|].
    exists ((ug_idx_start g, c) :: xs). split; [|split; [simpl; lia|]].
    + cbn [untyped_caps]. rewrite (bind_Ok _ _ _ _ _ Hnext).
      change (untyped_caps (S k)) with (untyped_caps (S k)) in Hxs.
      cbn [untyped_caps] in Hxs. by rewrite (bind_Ok _ _ _ _ _ Hxs).
    + simpl. split; [done|]. split; [done|]. exists b. done.
Qed.

(** At the end of the boot the remaining memory is divided completely.
    The loop ends after at most 46 rounds, whatever the size of the memory;
    the capabilities it yields are unused untyped blocks in consecutive slots
    that tile the remaining memory without gap or overlap, and at most one page
    is left over. *)
Lemma untyped_blocks_tile m s :
  let p := start_addr (bump_allocator m) in
  let q := end_addr (bump_allocator m) in
  0 ≤ p ≤ q → p mod 4096 = 0 → q < 2 ^ 46 → 0 ≤ cnode_satrt_idx m → cnode_satrt_idx m + 46 ≤ cnode_idx_max m < 2 ^ 63 →
  ∃ xs, untyped_caps 47 (finalize m) s = Ok xs s ∧ (length xs ≤ 46)%nat ∧
        tiles (KERNEL_V_ADDR_PFX + p) (KERNEL_V_ADDR_PFX + q) (cnode_satrt_idx m) xs.
Proof.
  intros p q Hp Hpg Hq Hi Hm.
  assert (ug_start (finalize m) = KERNEL_V_ADDR_PFX + p) as Hs.
  { apply kva_of_phys_add. unfold is_phys. lia. }
  assert (ug_end (finalize m) = KERNEL_V_ADDR_PFX + q) as He.
  { apply kva_of_phys_add. unfold is_phys. lia. }
  assert (ug_idx_start (finalize m) = cnode_satrt_idx m) as Hsi by done.
  assert (ug_idx_max (finalize m) = cnode_idx_max m) as Hmi by done.
  rewrite <- Hs, <- He, <- Hsi. apply (untyped_caps_tiles 46); rewrite ?Hs, ?He, ?Hsi, ?Hmi;
    try (replace (KERNEL_V_ADDR_PFX + p - KERNEL_V_ADDR_PFX) with p by lia); done || lia.
Qed.

(** ** The kernel's window onto physical memory *)

(** A series of writes to one table. *)
Lemma write_ptes_Ok {A} (vpn pte : A → Z) table xs s t :
  heap s !! table = Some (OPageTable t) → length t = 512%nat → Forall (λ x, 0 ≤ vpn x < 512) xs →
  ∃ t', for_each (λ x, write_pte table (vpn x) (pte x)) xs s =
          Ok tt (s <| heap := <[table := OPageTable t']> (heap s) |>) ∧ length t' = 512%nat ∧
    t' = foldl (λ t x, <[Z.to_nat (vpn x) := pte x]> t) t xs.
Proof.
  revert s t. induction xs as [|x xs IH]; intros s t Ht Hlen Hv; simpl.
  - exists t. split; [|done]. unfold ret. rewrite insert_id by done. by destruct s.
  - apply Forall_cons in Hv as [Hx Hv].
    destruct (lookup_lt_is_Some_2 t (Z.to_nat (vpn x))) as [old Hold]; [lia|].
    assert (pte_at (heap s) table (vpn x) = Some old) as Hat
      by (unfold pte_at; by rewrite (table_at_Some _ _ _ Ht)).
    rewrite (bind_Ok _ _ _ _ _ (write_pte_Ok _ _ _ _ _ Hat)).
    rewrite (set_pte_insert _ _ _ _ _ (table_at_Some _ _ _ Ht)).
    set (t1 := <[Z.to_nat (vpn x) := pte x]> t).
    destruct (IH (s <| heap := <[table := OPageTable t1]> (heap s) |>) t1) as (t' & Hrun & Hlen' & Hfold);
      [by rewrite heap_set, lookup_insert_eq|by unfold t1; rewrite length_insert|done|].
    exists t'. rewrite Hrun, heap_set, heap_set_set, insert_insert_eq. done.
Qed.

(** The last write to an index decides. *)
Lemma foldl_insert_lookup (vpn pte : Z → Z) n t i :
  (∀ x y, 0 ≤ x < n → 0 ≤ y < n → vpn x = vpn y → x = y) →
  (∀ x, 0 ≤ x < n → 0 ≤ vpn x < Z.of_nat (length t)) → 0 ≤ i < n →
  foldl (λ t x, <[Z.to_nat (vpn x) := pte x]> t) t (seqZ 0 n) !! Z.to_nat (vpn i) = Some (pte i).
Proof.
  intros Hinj Hb Hi. assert (∃ m, n = Z.of_nat m) as (m & ->) by (exists (Z.to_nat n); lia).
  induction m as [|m IH]; [lia|].
  rewrite seqZ_S, foldl_app, Z.add_0_l. simpl.
  assert (∀ xs, length (foldl (λ t x, <[Z.to_nat (vpn x) := pte x]> t) t xs) = length t) as Hlen.
  { intros xs. clear. revert t. induction xs as [|x xs IH]; intros t; simpl; [done|].
    by rewrite IH, length_insert. }
  destruct (decide (i = Z.of_nat m)) as [->|Hne].
  - apply list_lookup_insert_eq. rewrite Hlen. specialize (Hb (Z.of_nat m) ltac:(lia)). lia.
  - rewrite list_lookup_insert_ne.
    + apply IH; [lia|intros; apply Hb; lia|intros x y ???; apply Hinj; [lia|lia|done]].
    + intros Heq. pose proof (Hb i ltac:(lia)). pose proof (Hb (Z.of_nat m) ltac:(lia)).
      apply Hne, Hinj; lia.
Qed.

Lemma foldl_map {A B C} (f : C → B → C) (g : A → B) c l :
  foldl f c (g <$> l) = foldl (λ c a, f c (g a)) c l.
Proof. revert c. induction l as [|x l IH]; intros c; simpl; [done|apply IH]. Qed.

Lemma window_vpn p : is_phys p → get_vpn (kva_of_phys p) 3 = 256 + p / SUPERPAGE.
Proof.
  intros Hp. rewrite kva_of_phys_add, get_vpn_arith by (done || lia).
  change (2 ^ (12 + 3 * 9)) with SUPERPAGE.
  replace KERNEL_V_ADDR_PFX with (0x1ffff00 * SUPERPAGE) by reflexivity.
  rewrite Z.div_add_l by done. unfold is_phys in Hp.
  assert (0 ≤ p / SUPERPAGE < 256) as Hq.
  { split; [apply Z.div_pos; [lia|done]|]. apply Z.div_lt_upper_bound; [done|].
    change (SUPERPAGE * 256) with (2 ^ 47). lia. }
  symmetry. apply Z.mod_unique_pos with 0xffff; lia.
Qed.

(** The entry of a superpage of the window. *)
Definition window_pte (p : Z) : Z := pte_write (p / SUPERPAGE * SUPERPAGE) (flag true).

Section Layout.
Context `{KernelLayout}.

(** The first loop of [kernel_vm_init]. *)
Lemma window_loop fin s root :
  heap s !! KERNEL_VM_ROOT = Some (OPageTable root) → length root = 512%nat →
  0 < fin ≤ 2 ^ 47 →
  ∃ root', for_each (λ paddr, write_pte KERNEL_VM_ROOT (get_vpn (kva_of_phys paddr) 3)
                                (pte_write paddr (flag true))) (step_by 0 fin SUPERPAGE) s =
             Ok tt (s <| heap := <[KERNEL_VM_ROOT := OPageTable root']> (heap s) |>) ∧
    length root' = 512%nat ∧
    ∀ p, 0 ≤ p < fin → root' !! Z.to_nat (get_vpn (kva_of_phys p) 3) = Some (window_pte p).
Proof.
  intros Hroot Hlen Hfin. set (n := (fin - 0 + SUPERPAGE - 1) / SUPERPAGE).
  assert (∀ i, 0 ≤ i < n → is_phys (0 + i * SUPERPAGE) ∧
    get_vpn (kva_of_phys (0 + i * SUPERPAGE)) 3 = 256 + i) as Hvpn.
  { intros i Hi. assert (is_phys (0 + i * SUPERPAGE)) as Hph.
    { unfold is_phys. pose proof (Z.div_mod (fin - 0 + SUPERPAGE - 1) SUPERPAGE ltac:(done)) as Hdm.
      pose proof (Z.mod_pos_bound (fin - 0 + SUPERPAGE - 1) SUPERPAGE ltac:(done)). fold n in Hdm.
      change SUPERPAGE with 549755813888 in *. lia. }
    split; [done|]. rewrite window_vpn by done. rewrite Z.add_0_l, Z.div_mul by done. done. }
  destruct (write_ptes_Ok (λ p, get_vpn (kva_of_phys p) 3) (λ p, pte_write p (flag true))
              KERNEL_VM_ROOT (step_by 0 fin SUPERPAGE) s root) as (root' & Hrun & Hlen' & Hfold);
    [done|done| |].
  { apply Forall_forall. intros x _. apply get_vpn_bound. }
  exists root'. split; [exact Hrun|]. split; [done|]. intros p Hp.
  unfold step_by in Hfold. fold n in Hfold. rewrite foldl_map in Hfold.
  assert (is_phys p) as Hph by (unfold is_phys; lia).
  set (i := p / SUPERPAGE).
  assert (0 ≤ i < n) as Hi.
  { subst i n. split; [apply Z.div_pos; [lia|done]|]. apply Z.div_lt_upper_bound; [done|].
    pose proof (Z.div_mod (fin - 0 + SUPERPAGE - 1) SUPERPAGE ltac:(done)).
    pose proof (Z.mod_pos_bound (fin - 0 + SUPERPAGE - 1) SUPERPAGE ltac:(done)). lia. }
  assert (get_vpn (kva_of_phys p) 3 = get_vpn (kva_of_phys (0 + i * SUPERPAGE)) 3) as ->.
  { destruct (Hvpn i Hi) as [_ ->]. by apply window_vpn. }
  rewrite Hfold.
  rewrite (foldl_insert_lookup (λ i, get_vpn (kva_of_phys (0 + i * SUPERPAGE)) 3)
             (λ i, pte_write (0 + i * SUPERPAGE) (flag true)) n root i).
  - unfold window_pte. by rewrite Z.add_0_l.
  - intros x y Hx Hy. destruct (Hvpn x Hx) as [_ ->], (Hvpn y Hy) as [_ ->]. lia.
  - intros x Hx. rewrite Hlen. apply get_vpn_bound.
  - done.
Qed.

Lemma text_vpn text : KERNEL_CODE_PFX ≤ text < W → get_vpn text 3 = 511.
Proof.
  unfold KERNEL_CODE_PFX, W. intros Ht. rewrite get_vpn_arith by lia.
  change (2 ^ (12 + 3 * 9)) with 549755813888.
  assert (text / 549755813888 = 0x1ffffff) as -> by (Z.div_mod_to_equations; lia). reflexivity.
Qed.

(** The entry of a gigabyte of the kernel's image. *)
Definition code_pte (va : Z) : Z := pte_write (Z.land (va / GIGAPAGE * GIGAPAGE) (usize_not KERNEL_CODE_PFX)) (flag true).

(** The second loop of [kernel_vm_init]. *)
Lemma code_loop start fin s lv2 :
  heap s !! LV2TABLE = Some (OPageTable lv2) → length lv2 = 512%nat →
  start mod GIGAPAGE = 0 → KERNEL_CODE_PFX ≤ start → fin ≤ W →
  ∃ lv2', for_each (λ vaddr, write_pte LV2TABLE (get_vpn vaddr 2)
                              (pte_write (Z.land vaddr (usize_not KERNEL_CODE_PFX)) (flag true))) (step_by start fin GIGAPAGE) s =
            Ok tt (s <| heap := <[LV2TABLE := OPageTable lv2']> (heap s) |>) ∧
    ∀ va, start ≤ va < fin → lv2' !! Z.to_nat (get_vpn va 2) = Some (code_pte va).
Proof.
  intros Hlv Hlen Ha Hs Hf. set (n := (fin - start + GIGAPAGE - 1) / GIGAPAGE).
  destruct (write_ptes_Ok (λ v, get_vpn v 2) (λ v, pte_write (Z.land v (usize_not KERNEL_CODE_PFX)) (flag true))
              LV2TABLE (step_by start fin GIGAPAGE) s lv2) as (lv2' & Hrun & _ & Hfold);
    [done|done|apply Forall_forall; intros; apply get_vpn_bound|].
  exists lv2'. split; [exact Hrun|]. intros va Hva. unfold step_by in Hfold. fold n in Hfold. rewrite foldl_map in Hfold.
  assert (∀ v, get_vpn v 2 = v / GIGAPAGE mod 512) as Hvpn by (intros; by rewrite get_vpn_arith).
  change GIGAPAGE with 1073741824 in *. unfold KERNEL_CODE_PFX, W in Hs, Hf.
  set (i := (va - start) / 1073741824).
  assert (0 ≤ i < n ∧ start + i * 1073741824 = va / 1073741824 * 1073741824) as [Hi Hv]
    by (unfold i, n; Z.div_mod_to_equations; lia).
  replace (get_vpn va 2) with (get_vpn (start + i * 1073741824) 2) by (rewrite !Hvpn, Hv, Z.div_mul by done; done).
  rewrite Hfold, (foldl_insert_lookup (λ i, get_vpn (start + i * 1073741824) 2)
    (λ i, pte_write (Z.land (start + i * 1073741824) (usize_not KERNEL_CODE_PFX)) (flag true)) n lv2 i).
  - unfold code_pte. change GIGAPAGE with 1073741824. by rewrite Hv.
  - intros x y Hx Hy. rewrite !Hvpn, !Z.div_add by done.
    assert (∀ j, 0 ≤ j < n → 0x3fffffffc ≤ start / 1073741824 + j < 0x400000000) as Hb
      by (intros j Hj; unfold n in Hj; Z.div_mod_to_equations; lia).
    pose proof (Hb x Hx). pose proof (Hb y Hy). Z.div_mod_to_equations; lia.
  - intros x _. rewrite Hlen. apply get_vpn_bound.
  - done.
Qed.

(** The tables [kernel_vm_init] leaves. *)
Lemma kernel_vm_init_tables text data_end fin s root lv2 :
  heap s !! KERNEL_VM_ROOT = Some (OPageTable root) → length root = 512%nat →
  heap s !! LV2TABLE = Some (OPageTable lv2) → length lv2 = 512%nat → LV2TABLE ≠ KERNEL_VM_ROOT →
  0 < fin ≤ 2 ^ 47 - SUPERPAGE → KERNEL_CODE_PFX ≤ text < W → data_end ≤ W →
  ∃ s' root' lv2', kernel_vm_init text data_end fin s = Ok tt s' ∧
    heap s' !! KERNEL_VM_ROOT = Some (OPageTable root') ∧ heap s' !! LV2TABLE = Some (OPageTable lv2') ∧
    satp s' = Z.lor SATP_SV48 (Z.shiftr (Z.land KERNEL_VM_ROOT (usize_not KERNEL_CODE_PFX)) 12) ∧
    (∀ p, 0 ≤ p < fin → root' !! Z.to_nat (get_vpn (kva_of_phys p) 3) = Some (window_pte p)) ∧
    root' !! 511%nat = Some (pte_write (Z.land LV2TABLE (usize_not KERNEL_CODE_PFX)) (flag false)) ∧
    (∀ va, text ≤ va < data_end → lv2' !! Z.to_nat (get_vpn va 2) = Some (code_pte va)).
Proof.
  intros Hroot Hrl Hlv Hll Hne Hfin Htext Hend.
  destruct (window_loop fin s root Hroot Hrl) as (root1 & Hrun1 & Hl1 & Hwin); [change SUPERPAGE with 549755813888 in *; lia|].
  set (s1 := s <| heap := _ |>) in *.
  set (code := pte_write (Z.land LV2TABLE (usize_not KERNEL_CODE_PFX)) (flag false)).
  assert (heap s1 !! KERNEL_VM_ROOT = Some (OPageTable root1)) as Hr1
    by (subst s1; by rewrite heap_set, lookup_insert_eq).
  set (s2 := s1 <| heap := <[KERNEL_VM_ROOT := OPageTable (<[511%nat := code]> root1)]> (heap s1) |>).
  assert (write_pte KERNEL_VM_ROOT 511 code s1 = Ok tt s2) as Hrun2.
  { destruct (lookup_lt_is_Some_2 root1 511) as [old Hold]; [lia|].
    rewrite (write_pte_Ok s1 KERNEL_VM_ROOT 511 old code) by (unfold pte_at; by rewrite (table_at_Some _ _ _ Hr1)).
    by rewrite (set_pte_insert _ _ _ _ _ (table_at_Some _ _ _ Hr1)). }
  assert (heap s2 !! LV2TABLE = Some (OPageTable lv2)) as Hlv2.
  { subst s2 s1. by rewrite !heap_set, !lookup_insert_ne by done. }
  set (va := Z.land text (usize_not (GIGAPAGE - 1))).
  assert (va = text / GIGAPAGE * GIGAPAGE) as Hva 
    by (apply (land_lnot_pow2 text 30); unfold W, KERNEL_CODE_PFX in *; lia).
  destruct (code_loop va data_end s2 lv2) as (lv2' & Hrun3 & Hcode);
    [done|done|by rewrite Hva, Z.mod_mul| |done|].
  { rewrite Hva. unfold KERNEL_CODE_PFX in *. change GIGAPAGE with 1073741824. Z.div_mod_to_equations; lia. }
  eexists _, (<[511%nat := code]> root1), lv2'. split; [|split_and!].
  - unfold kernel_vm_init. rewrite (bind_Ok _ _ _ _ _ Hrun1), (text_vpn text Htext).
    rewrite (bind_Ok _ _ _ _ _ Hrun2).
    rewrite (bind_Ok _ _ _ va s2).
    2: { unfold align_down. by rewrite (bind_Ok _ _ _ _ _ (usize_sub_Ok GIGAPAGE 1 s2 ltac:(done))). }
    rewrite (bind_Ok _ _ _ _ _ Hrun3). unfold activate_kernel_table. reflexivity.
  - simpl. rewrite lookup_insert_ne by done. by rewrite lookup_insert_eq.
  - simpl. by rewrite lookup_insert_eq.
  - reflexivity.
  - intros p Hp. assert (is_phys p) as Hph.
    { unfold is_phys. change SUPERPAGE with 549755813888 in *. lia. }
    rewrite list_lookup_insert_ne; [by rewrite Hwin by lia|].
    rewrite window_vpn by done. assert (p / SUPERPAGE < 255); [|lia].
    apply Z.div_lt_upper_bound; [done|]. change SUPERPAGE with 549755813888 in *. lia.
  - apply list_lookup_insert_eq. lia.
  - intros v Hv. apply Hcode. rewrite Hva. change GIGAPAGE with 1073741824. Z.div_mod_to_equations; lia.
Qed.
End Layout.
