(* ===== verification/Elf.v ===== *)
(** * ELF images ([shared/src/elf.rs], [shared/src/elf/def.rs])

    The header types that the loaders read, decoded from the bytes of an image
    in memory, the iterator over the program headers, and the loop that hands
    every loadable segment to a [ProgramMapper]. Both loaders, the kernel's and
    the root server's, are instances of that trait. *)

From S2P Require Import Prelude.

(** ** Decoding ([#[repr(C)]], little endian) *)

(** [bytes a] is the byte of memory at address [a]. *)
Fixpoint read_le (bytes : Z → Z) (n : nat) (a : Z) : Z :=
  match n with
  | O => 0
  | S n' => bytes a + 256 * read_le bytes n' (a + 1)
  end.

Definition ElfIdent : Type := list Z.
Definition EI_DENT : Z := 16.

(** The enumerations [e_type], [e_machine] and [e_version] are looked at by no
    operation and are kept as numbers; which numbers are values of their types
    is [hdr_is_value], below. *)
Record Elf64Hdr := {
  e_ident : ElfIdent;
  e_type : Z; e_machine : Z; e_version : Z;
  e_entry : Z; e_phoff : Z; e_shoff : Z;
  e_flags : Z; e_ehsize : Z; e_phentsize : Z; e_phnum : Z;
  e_shentsize : Z; e_shnum : Z; e_shstrndx : Z;
}.
Definition hdr_at (bytes : Z → Z) (a : Z) : Elf64Hdr := {|
  e_ident := bytes <$> seqZ a EI_DENT;
  e_type := read_le bytes 2 (a + 16);
  e_machine := read_le bytes 2 (a + 18);
  e_version := read_le bytes 4 (a + 20);
  e_entry := read_le bytes 8 (a + 24);
  e_phoff := read_le bytes 8 (a + 32);
  e_shoff := read_le bytes 8 (a + 40);
  e_flags := read_le bytes 4 (a + 48);
  e_ehsize := read_le bytes 2 (a + 52);
  e_phentsize := read_le bytes 2 (a + 54);
  e_phnum := read_le bytes 2 (a + 56);
  e_shentsize := read_le bytes 2 (a + 58);
  e_shnum := read_le bytes 2 (a + 60);
  e_shstrndx := read_le bytes 2 (a + 62);
|}.

Record Elf64Phdr := {
  p_type : Z;              (* ProgramType, as the number in memory *)
  p_flags : Z;
  p_offset : Z; p_vaddr : Z; p_paddr : Z;
  p_filesz : Z; p_memsz : Z; p_align : Z;
}.
Definition size_of_Elf64Phdr : Z := 56.
Definition phdr_at (bytes : Z → Z) (a : Z) : Elf64Phdr := {|
  p_type := read_le bytes 4 a;
  p_flags := read_le bytes 4 (a + 4);
  p_offset := read_le bytes 8 (a + 8);
  p_vaddr := read_le bytes 8 (a + 16);
  p_paddr := read_le bytes 8 (a + 24);
  p_filesz := read_le bytes 8 (a + 32);
  p_memsz := read_le bytes 8 (a + 40);
  p_align := read_le bytes 8 (a + 48);
|}.

Inductive ProgramType := PtNull | PtLoad | PtDynamic | PtInterp | PtNote | PtShlib | PtPhdr | PtTls.
#[export] Instance ProgramType_eq_dec : EqDecision ProgramType.
Proof. solve_decision. Defined.

(** A number that is not a discriminant of the enumeration is not a value of
    its type. *)
Definition program_type_of (n : Z) : option ProgramType :=
  match n with
  | 0 => Some PtNull | 1 => Some PtLoad | 2 => Some PtDynamic | 3 => Some PtInterp
  | 4 => Some PtNote | 5 => Some PtShlib | 6 => Some PtPhdr | 7 => Some PtTls
  | _ => None
  end.

(** ** [ProgramFlags] *)

Definition PF_X : Z := 0x01.
Definition PF_W : Z := 0x02.
Definition PF_R : Z := 0x04.
Definition is_executable (flags : Z) : bool := Z.land PF_X flags =? PF_X.
Definition is_writable (flags : Z) : bool := Z.land PF_W flags =? PF_W.
Definition is_readable (flags : Z) : bool := Z.land PF_R flags =? PF_R.

(** ** [ElfIdent] *)

Inductive ElfClass := ClassNone | Class32 | Class64 | ClassNum.
Inductive ElfData := DataNone | TwoLsb | TwoMsb.
Inductive ElfVersion := VersionNone | Current.

Inductive ElfType := TypeNone | TypeRel | TypeExec | TypeDyn | TypeCore.
Inductive ElfMachine :=
  | MachineNone | M32 | Sparc | I386 | M68k | M88k | I860 | Mips | Parisc | Sparc32Plus | PPC | S390 | Arm | Sh
  | Sparcv9 | IA64 | X86_64 | Vax.

(** The values of an enumeration, in the order of their discriminants. *)
Definition elf_types : list ElfType := [TypeNone; TypeRel; TypeExec; TypeDyn; TypeCore].
Definition elf_machines : list ElfMachine :=
  [MachineNone; M32; Sparc; I386; M68k; M88k; I860; Mips; Parisc; Sparc32Plus; PPC; S390; Arm; Sh; Sparcv9; IA64;
   X86_64; Vax].
Definition elf_versions : list ElfVersion := [VersionNone; Current].
Definition value_of {A} (values : list A) (n : Z) : option A := values !! Z.to_nat n.

(** The numbers in memory make a value of [Elf64Hdr]. *)
Definition hdr_is_value (h : Elf64Hdr) : bool :=
  match value_of elf_types (e_type h), value_of elf_machines (e_machine h), value_of elf_versions (e_version h) with
  | Some _, Some _, Some _ => true
  | _, _, _ => false
  end.

(** [self.0[i]]: the array has 16 elements. *)
Definition ident_byte (id : ElfIdent) (i : nat) : Z := default 0 (id !! i).
Definition is_elf (id : ElfIdent) : bool :=
  (ident_byte id 0 =? 0x7f) && (ident_byte id 1 =? 0x45) &&
  (ident_byte id 2 =? 0x4c) && (ident_byte id 3 =? 0x46).
Definition elfclass {S E} (id : ElfIdent) : M S E ElfClass :=
  match ident_byte id 4 with
  | 0 => ret ClassNone | 1 => ret Class32 | 2 => ret Class64 | _ => panic PExplicit
  end.
Definition elfdata {S E} (id : ElfIdent) : M S E ElfData :=
  match ident_byte id 5 with
  | 0 => ret DataNone | 1 => ret TwoLsb | 2 => ret TwoMsb | _ => panic PExplicit
  end.
Definition elfversion {S E} (id : ElfIdent) : M S E ElfVersion :=
  match ident_byte id 6 with
  | 0 => ret VersionNone | 1 => ret Current | _ => panic PExplicit
  end.

(** [Elf64Hdr::get_sheader]: the address of a section header (64 bytes each). *)
Definition get_sheader (self : Elf64Hdr) (elf_header_addr idx : Z) : option Z :=
  if self.(e_shnum) <=? idx then None else Some (elf_header_addr + self.(e_shoff) + idx * 64).

(** The header of an image for the machine the kernel runs on (RISC-V has
    number 243) is not a value of the type through which it is read. *)
Definition EM_RISCV : Z := 243.
Lemma riscv_header_invalid bytes a : e_machine (hdr_at bytes a) = EM_RISCV → hdr_is_value (hdr_at bytes a) = false.
Proof. intros Hm. unfold hdr_is_value. rewrite Hm. by destruct (value_of elf_types _). Qed.

(** ** [PHeaders] *)

(** [header] is a reference: its address and what it refers to. *)
Record PHeaders := { ph_addr : Z; ph_header : Elf64Hdr; ph_index : Z }.
Definition PHeaders_new (bytes : Z → Z) (addr : Z) : PHeaders :=
  {| ph_addr := addr; ph_header := hdr_at bytes addr; ph_index := 0 |}.

(** [Iterator::next]: a program header, and the address its contents start at. *)
Definition pheaders_next (bytes : Z → Z) (self : PHeaders)
    : option ((Elf64Phdr * Z) * PHeaders) :=
  if self.(ph_header).(e_phnum) <=? self.(ph_index) then None
  else
    let phdr := phdr_at bytes
      (self.(ph_addr) + self.(ph_header).(e_phoff) + self.(ph_index) * size_of_Elf64Phdr) in
    let p_start_addr := self.(ph_addr) + phdr.(p_offset) in
    Some ((phdr, p_start_addr),
          {| ph_addr := self.(ph_addr); ph_header := self.(ph_header);
             ph_index := self.(ph_index) + 1 |}).

(** ** Effects *)

(** The trait [ProgramMapper] is implemented in the kernel and in a user
    program: the loader is the same code over different effects. [eeq] is
    when two computations have the same behaviour. *)
Class Effect (F : Type → Type) := {
  eret : ∀ {A}, A → F A;
  ebind : ∀ {A B}, F A → (A → F B) → F B;
  eundef : ∀ {A}, F A;
  eout_of_fuel : ∀ {A}, F A;
  eeq : ∀ {A}, relation (F A);
}.
Class EffectLaws (F : Type → Type) `{Effect F} : Prop := {
  eeq_equiv :: ∀ A, Equivalence (eeq (A := A));
  ebind_proper :: ∀ A B, Proper (eeq ==> pointwise_relation A eeq ==> eeq) (ebind (A := A) (B := B));
  ebind_ret_l : ∀ A B (a : A) (f : A → F B), eeq (ebind (eret a) f) (f a);
}.

(** Kernel code: the same outcome from every state. *)
#[export] Instance M_effect S E : Effect (M S E) := {
  eret _ := ret; ebind _ _ := bind; eundef _ := undef; eout_of_fuel _ := λ _, OutOfFuel;
  eeq _ := pointwise_relation S eq;
}.
#[export] Instance M_effect_laws S E : EffectLaws (M S E).
Proof. split; [apply _|intros; apply bind_proper|done]. Qed.

(** ** [ProgramMapper] *)

(** An implementation of the trait with effects [F]; its data is of type [St]. *)
Record ProgramMapper (F : Type → Type) (St : Type) := {
  Flag : Type;
  mapper_get_flags : Z → Flag;
  mapper_map_program : St → Z → Z → Z → Z → Flag → F St;
    (* vaddr, p_start_addr, p_mem_size, p_file_size, flags *)
}.
Arguments Flag {F St} _.
Arguments mapper_get_flags {F St} _ _.
Arguments mapper_map_program {F St} _ _ _ _ _ _ _.

Section Loader.
Context {F : Type → Type} `{EffectLaws F} {St : Type} (mapper : ProgramMapper F St) (bytes : Z → Z).

(** [Elf64Hdr::map_program] *)
Definition hdr_map_program (st : St) (p_header : Elf64Phdr) (p_start_addr : Z) : F St :=
  match program_type_of p_header.(p_type) with
  | None => eundef
  | Some t =>
      if negb (bool_decide (t = PtLoad)) then eret st
      else
        let flags := mapper_get_flags mapper p_header.(p_flags) in
        mapper_map_program mapper st p_header.(p_vaddr) p_start_addr
          p_header.(p_memsz) p_header.(p_filesz) flags
  end.

(** The [for] loop of [Elf64Hdr::map_self]. *)
Fixpoint map_headers (fuel : nat) (it : PHeaders) (st : St) : F St :=
  match fuel with
  | O => eout_of_fuel
  | S fuel' =>
      match pheaders_next bytes it with
      | None => eret st
      | Some ((p_header, p_start_addr), it') =>
          ebind (hdr_map_program st p_header p_start_addr) (λ st', map_headers fuel' it' st')
      end
  end.

(** [e_phnum] is a [u16]. *)
Definition HEADERS_FUEL : nat := Z.to_nat (2 ^ 16).
Definition map_self (addr : Z) (st : St) : F St :=
  map_headers HEADERS_FUEL (PHeaders_new bytes addr) st.

(** ** What the loop does *)

(** The program headers of the image, and those of loadable segments. *)
Definition program_headers (addr : Z) : list Elf64Phdr :=
  let h := hdr_at bytes addr in
  (λ i, phdr_at bytes (addr + e_phoff h + i * size_of_Elf64Phdr)) <$> seqZ 0 (e_phnum h).
Definition load_headers (addr : Z) : list Elf64Phdr :=
  filter (λ p, p_type p = 1) (program_headers addr).

(** Hand one segment after the other to the mapper. *)
Fixpoint map_segments (addr : Z) (ps : list Elf64Phdr) (st : St) : F St :=
  match ps with
  | [] => eret st
  | p :: ps' =>
      ebind (mapper_map_program mapper st (p_vaddr p) (addr + p_offset p)
               (p_memsz p) (p_filesz p) (mapper_get_flags mapper (p_flags p)))
        (λ st', map_segments addr ps' st')
  end.

Lemma program_type_range n t : program_type_of n = Some t → 0 ≤ n ≤ 7 ∧ (t = PtLoad ↔ n = 1).
Proof.
  intros Hn. assert (0 ≤ n ≤ 7) as Hr.
  { destruct n as [|n|n]; [lia| |done].
    destruct n as [[[n|n|]|[n|n|]|]|[[n|n|]|[n|n|]|]|]; simpl in Hn; (discriminate || lia). }
  split; [done|].
  assert (n = 0 ∨ n = 1 ∨ n = 2 ∨ n = 3 ∨ n = 4 ∨ n = 5 ∨ n = 6 ∨ n = 7) as Hc by lia.
  destruct Hc as [->|[->|[->|[->|[->|[->|[->| ->]]]]]]]; simpl in Hn; simplify_eq; split; (done || lia).
Qed.

Lemma map_headers_from n addr fuel st i :
  let h := hdr_at bytes addr in
  let ps := (λ i, phdr_at bytes (addr + e_phoff h + i * size_of_Elf64Phdr)) <$> seqZ i (Z.of_nat n) in
  e_phnum h = i + Z.of_nat n → 0 ≤ i → (n < fuel)%nat →
  Forall (λ p, is_Some (program_type_of (p_type p))) ps →
  eeq (map_headers fuel {| ph_addr := addr; ph_header := h; ph_index := i |} st)
      (map_segments addr (filter (λ p, p_type p = 1) ps) st).
Proof.
  cbv zeta. revert fuel st i. induction n as [|n IH]; intros fuel st i Hn Hi Hf Hty.
  { destruct fuel as [|fuel]; [lia|]. cbn [map_headers]. unfold pheaders_next. cbn [ph_header ph_index ph_addr].
    rewrite (proj2 (Z.leb_le _ _)) by lia. reflexivity. }
  destruct fuel as [|fuel]; [lia|].
  rewrite seqZ_cons in * by lia. rewrite fmap_cons in *.
  apply Forall_cons in Hty as [[t Ht] Hty]. cbn [map_headers].
  unfold pheaders_next. cbn [ph_header ph_index ph_addr].
  rewrite (proj2 (Z.leb_gt _ _)) by lia.
  replace (Z.succ i) with (i + 1) in * by lia. replace (Z.pred (Z.of_nat (S n))) with (Z.of_nat n) in * by lia.
  assert (∀ st', eeq (map_headers fuel {| ph_addr := addr; ph_header := hdr_at bytes addr; ph_index := i + 1 |} st')
    (map_segments addr (filter (λ p, p_type p = 1)
      ((λ i, phdr_at bytes (addr + e_phoff (hdr_at bytes addr) + i * size_of_Elf64Phdr)) <$> seqZ (i + 1) (Z.of_nat n))) st')) as Hrest.
  { intros st'. apply IH; [lia|lia|lia|done]. }
  unfold hdr_map_program. rewrite Ht. destruct (program_type_range _ _ Ht) as [_ Hl].
  rewrite filter_cons. destruct (decide (t = PtLoad)) as [He|He].
  - rewrite bool_decide_true by done. rewrite decide_True by by apply Hl. cbn [negb map_segments].
    apply ebind_proper; [reflexivity|]. exact Hrest.
  - rewrite bool_decide_false by done. rewrite decide_False by (intros H1; by apply He, Hl).
    cbn [negb]. rewrite ebind_ret_l. apply Hrest.
Qed.
End Loader.

Lemma read_le_bound bytes n a : (∀ a, 0 ≤ bytes a < 256) → 0 ≤ read_le bytes n a < 256 ^ Z.of_nat n.
Proof.
  intros Hb. revert a. induction n as [|n IH]; intros a; simpl read_le; [lia|].
  specialize (Hb a). specialize (IH (a + 1)). rewrite Nat2Z.inj_succ, Z.pow_succ_r by lia. lia.
Qed.

(** C18: whatever the mapper, loading an image whose program headers have known
    types hands exactly its loadable segments to the mapper, in the order of
    the headers, each with its virtual address, the address its bytes start
    at, its sizes and its decoded flags; it stops at the first error, and the
    loop over the headers always ends. *)
Theorem map_self_loads {F} `{EffectLaws F} {St} (mapper : ProgramMapper F St) bytes addr st :
  (∀ a, 0 ≤ bytes a < 256) →
  Forall (λ p, is_Some (program_type_of (p_type p))) (program_headers bytes addr) →
  eeq (map_self mapper bytes addr st) (map_segments mapper addr (load_headers bytes addr) st).
Proof.
  intros Hb Hty. pose proof (read_le_bound bytes 2 (addr + 56) Hb) as Hn.
  change (256 ^ Z.of_nat 2) with (2 ^ 16) in Hn.
  unfold map_self, PHeaders_new, load_headers, program_headers in *.
  set (n := Z.to_nat (e_phnum (hdr_at bytes addr))).
  assert (e_phnum (hdr_at bytes addr) = Z.of_nat n) as Hnn.
  { subst n. rewrite Z2Nat.id; [done|]. exact (proj1 Hn). }
  assert (Z.of_nat n < 2 ^ 16) as Hlt by (rewrite <- Hnn; exact (proj2 Hn)).
  rewrite Hnn in *. apply map_headers_from; [lia|lia| |done]. unfold HEADERS_FUEL. lia.
Qed.
