(* ===== verification/RootServer.v ===== *)
(** * The boot sequence ([kernel/src/init.rs], [kernel/src/init/root_server.rs])

    The kernel builds the first user thread, the root server: its capability
    node, its address space with the program of an ELF image, its message
    buffer and boot information page, its control block, and untyped
    capabilities to all memory that is left; then it schedules it. *)

From S2P Require Import Prelude Shared Address Objects Riscv LinkedList Capability PageTable CNode.
From S2P Require Import Thread RoundRobin Ipc Untyped Trap Boot Elf.

Definition ROOT_TCB_IDX : Z := 1.
Definition ROOT_CNODE_IDX : Z := 2.
Definition ROOT_VSPACE_IDX : Z := 3.
Definition ROOT_IPC_BUFFER : Z := 4.
Definition ROOT_BOOT_INFO_PAGE : Z := 5.
Definition ROOT_CNODE_ENTRY_NUM_BITS : Z := 18.

(** ** Pages and page tables of the root server *)

(** [get_flags] *)
Definition get_flags (flags : Z) : Z :=
  Z.lor (Z.lor (if is_executable flags then PAGE_X else 0)
               (if is_writable flags then PAGE_W else 0))
        (if is_readable flags then PAGE_R else 0).

(** [map_page_tables]: install one table after the other until the last level
    is there. The capability is stored before it is marked as mapped. *)
Fixpoint map_page_tables (fuel : nat) (cnode_cap : CapabilityData)
    (bootstage_mbr : RootServerResourceManager) (root_table_cap : CapabilityData) (vaddr_n : Z)
    : K RootServerResourceManager :=
  match fuel with
  | O => λ _, OutOfFuel
  | S fuel' =>
      let* '(addr, mbr) := alloc_page bootstage_mbr in
      let* page_table_cap := cap_init PageTableCap addr 0 in
      let* '(idx, mbr) := alloc_cnode_idx mbr in
      unwrap_res (write_slot cnode_cap (cap_replicate page_table_cap) idx) ;;;
      let* r := try_ (pt_cap_map page_table_cap root_table_cap vaddr_n) in
      match r with
      | inl (level, _) =>
          if level =? 0 then ret mbr
          else map_page_tables fuel' cnode_cap mbr root_table_cap vaddr_n
      | inr _ => panic PExplicit
      end
  end.

(** A page needs at most three tables. *)
Definition TABLES_FUEL : nat := 3.

(** [create_mapped_page_cap] *)
Definition create_mapped_page_cap (cnode_cap root_table_cap : CapabilityData)
    (bootstage_mbr : RootServerResourceManager) (paddr vaddr_n flags : Z)
    : K (CapabilityData * RootServerResourceManager) :=
  let* page_cap := cap_init PageCap paddr 0 in
  let* r := try_ (page_cap_map page_cap root_table_cap vaddr_n flags) in
  match r with
  | inl page_cap => ret (page_cap, bootstage_mbr)
  | inr e =>
      match e.(e_kind) with
      | ErrKind.PageTableNotMappedYet =>
          let* mbr := map_page_tables TABLES_FUEL cnode_cap bootstage_mbr root_table_cap vaddr_n in
          let* page_cap := unwrap_res (page_cap_map page_cap root_table_cap vaddr_n flags) in
          ret (page_cap, mbr)
      | _ => panic PExplicit
      end
  end.

(** ** [RootServerElfMapper] *)

Record RootServerElfMapper := {
  max_vaddr : Z;
  root_rsc_mgr : RootServerResourceManager;
  root_table_cap : CapabilityData;
  cnode_cap : CapabilityData;
}.
#[export] Instance RootServerElfMapper_eta : Eta RootServerElfMapper := λ m,
  {| max_vaddr := max_vaddr m; root_rsc_mgr := root_rsc_mgr m;
     root_table_cap := root_table_cap m; cnode_cap := cnode_cap m |}.
Definition RootServerElfMapper_new (mgr : RootServerResourceManager)
    (root_table cnode : CapabilityData) : RootServerElfMapper :=
  {| max_vaddr := 0; root_rsc_mgr := mgr; root_table_cap := root_table; cnode_cap := cnode |}.

(** [ptr::copy::<u8>(copy_src, copy_dst, copy_size)] into a user page. *)
Definition load_bytes (copy_src copy_dst copy_size : Z) : K unit :=
  modify (λ s, s <| loads ::= λ l, l ++ [(copy_src, copy_dst, copy_size)] |>).

(** The body of the loop of [map_program], for page [page_idx]. *)
Definition map_program_page (vaddr p_start_addr flags page_idx : Z)
    (self : RootServerElfMapper) (file_sz_rem : Z) : K (RootServerElfMapper * Z) :=
  let* offset := usize_mul PAGE_SIZE page_idx in
  let* vaddr_n := addr_add vaddr offset in
  let self := if self.(max_vaddr) <? vaddr_n then self <| max_vaddr := vaddr_n |> else self in
  let* '(page_addr, mgr) := alloc_page self.(root_rsc_mgr) in
  let* '(page_cap, mgr) :=
    create_mapped_page_cap self.(cnode_cap) self.(root_table_cap) mgr page_addr vaddr_n flags in
  let* '(idx, mgr) := alloc_cnode_idx mgr in
  unwrap_res (write_slot self.(cnode_cap) page_cap idx) ;;;
  let self := self <| root_rsc_mgr := mgr |> in
  if file_sz_rem =? 0 then ret (self, file_sz_rem)
  else
    load_bytes (p_start_addr + offset) (cap_kva page_cap) (Z.min PAGE_SIZE file_sz_rem) ;;;
    ret (self, Z.max 0 (file_sz_rem - PAGE_SIZE)).
Fixpoint map_program_pages (vaddr p_start_addr flags : Z) (pages : list Z)
    (self : RootServerElfMapper) (file_sz_rem : Z) : K RootServerElfMapper :=
  match pages with
  | [] => ret self
  | page_idx :: pages' =>
      let* '(self, rem) := map_program_page vaddr p_start_addr flags page_idx self file_sz_rem in
      map_program_pages vaddr p_start_addr flags pages' self rem
  end.

(** [map_program] *)
Definition map_program (self : RootServerElfMapper)
    (vaddr p_start_addr p_mem_size p_file_size flags : Z) : K RootServerElfMapper :=
  let* up := align_up p_mem_size PAGE_SIZE in
  let page_num := up / PAGE_SIZE in
  map_program_pages vaddr p_start_addr flags (seqZ 0 page_num) self p_file_size.

(** [impl ProgramMapper for RootServerElfMapper] *)
Definition RootServerMapper : ProgramMapper (M KState KernelError) RootServerElfMapper := {|
  Flag := Z;
  mapper_get_flags := λ flag, Z.lor (get_flags flag) PAGE_U;
  mapper_map_program := map_program;
|}.

(** ** [RootServerMemory] *)

(** The addresses of the objects. *)
Record RootServerMemory := {
  rm_cnode : Z; rm_vspace : Z; rm_tcb : Z; rm_ipc_buf : Z; rm_boot_frame : Z;
}.

Definition alloc_obj (C : Capability) (bump_allocator : BumpAllocator) (user_size : Z)
    : K (Z * BumpAllocator) :=
  let* size := get_object_size C user_size in
  let* up := align_up size PAGE_SIZE in
  let* '(start, b) := allocate_pages bump_allocator (up / PAGE_SIZE) in
  ret (kva_of_phys start, b).

Section Layout.
Context `{KernelLayout}.

Definition init_with_uninit (b : BumpAllocator) : K (RootServerMemory * BumpAllocator) :=
  let* '(cnode, b) := alloc_obj CNodeCap b ROOT_CNODE_ENTRY_NUM_BITS in
  let* '(vspace, b) := alloc_obj PageTableCap b 0 in
  let* '(tcb, b) := alloc_obj TCBCap b 0 in
  let* '(ipc_buf, b) := alloc_obj PageCap b 0 in
  let* '(boot_frame, b) := alloc_obj PageCap b 0 in
  ret ({| rm_cnode := cnode; rm_vspace := vspace; rm_tcb := tcb; rm_ipc_buf := ipc_buf;
          rm_boot_frame := boot_frame |}, b).

(** [CNode] is zero-sized: [cnode.write(CNode::new())] writes nothing. *)
Definition create_root_cnode (self : RootServerMemory) : K CapabilityData :=
  let vaddr := self.(rm_cnode) in
  let* cap_dep_val := create_cap_dep_val CNodeCap vaddr ROOT_CNODE_ENTRY_NUM_BITS in
  let c := cap_new (CAP_TYPE CNodeCap) (phys_of_kva vaddr) cap_dep_val in
  let cnode_cap := cap_replicate c in
  unwrap_res (write_slot cnode_cap (cap_replicate c) ROOT_CNODE_IDX) ;;;
  ret c.

Definition create_address_space (self : RootServerMemory) (bytes : Z → Z)
    (cnode_cap : CapabilityData) (elf_header : Z) (mgr : RootServerResourceManager)
    : K (CapabilityData * Z * RootServerResourceManager) :=
  write_page_table self.(rm_vspace) PageTable_new ;;;
  let* c := cap_init PageTableCap self.(rm_vspace) 0 in
  let* c := unwrap_res (make_as_root c) in
  unwrap_res (write_slot cnode_cap (cap_replicate c) ROOT_VSPACE_IDX) ;;;
  let mapper := RootServerElfMapper_new mgr c cnode_cap in
  let* mapper := unwrap_res (map_self RootServerMapper bytes elf_header mapper) in
  ret (c, mapper.(max_vaddr), mapper.(root_rsc_mgr)).

(** [create_ipc_buf_frame] and [create_boot_info_frame]; [Page] is zero-sized. *)
Definition create_ipc_buf_frame (self : RootServerMemory) (cnode_cap vspace_cap : CapabilityData)
    (max_vaddr : Z) (mbr : RootServerResourceManager)
    : K (CapabilityData * RootServerResourceManager) :=
  let flags := Z.lor (Z.lor PAGE_R PAGE_W) PAGE_U in
  let* vaddr := addr_add max_vaddr PAGE_SIZE in
  let* '(page_cap, mbr) :=
    create_mapped_page_cap cnode_cap vspace_cap mbr self.(rm_ipc_buf) vaddr flags in
  unwrap_res (write_slot cnode_cap page_cap ROOT_IPC_BUFFER) ;;;
  ret (page_cap, mbr).
Definition create_boot_info_frame (self : RootServerMemory) (cnode_cap vspace_cap : CapabilityData)
    (max_vaddr : Z) (mbr : RootServerResourceManager)
    : K (CapabilityData * Z * RootServerResourceManager) :=
  let flags := Z.lor PAGE_R PAGE_U in
  let* vaddr := addr_add max_vaddr PAGE_SIZE in
  let* '(page_cap, mbr) :=
    create_mapped_page_cap cnode_cap vspace_cap mbr self.(rm_boot_frame) vaddr flags in
  unwrap_res (write_slot cnode_cap page_cap ROOT_BOOT_INFO_PAGE) ;;;
  ret (page_cap, self.(rm_boot_frame), mbr).

(** [cnode_cap.lookup_entry_mut_one_level(idx).unwrap().as_mut().unwrap()] and
    [new_entry.insert(...)], for the new entry at [tmp]. *)
Definition entry_for_root (tmp : Z) (cnode_cap c : CapabilityData) (idx : Z) : K CNodeEntry :=
  with_local_entry tmp c
    (let* parent := unwrap_res (lookup_entry_mut_one_level LOOKUP_FUEL cnode_cap idx) in
     let* slot := read_slot parent in
     unwrap slot ;;;
     entry_insert tmp parent).

Definition create_root_tcb (tmp : Z) (self : RootServerMemory)
    (cnode_cap vspace_cap ipc_buf_cap : CapabilityData) (entry_point : Z) : K CapabilityData :=
  let tcb := self.(rm_tcb) in
  write_tcb tcb (ListItem_new ThreadInfo_default) ;;;
  modify_tcb tcb (λ t, t <| registers ::= λ r, r <| sstatus := SSTATUS_SPIE |> |>) ;;;
  modify_tcb tcb (λ t, t <| registers ::= λ r, r <| sepc := entry_point |> |>) ;;;
  let* new_entry := entry_for_root tmp cnode_cap (cap_replicate cnode_cap) ROOT_CNODE_IDX in
  modify_tcb tcb (λ t, t <| root_cnode := Some new_entry |>) ;;;
  let* new_entry := entry_for_root tmp cnode_cap (cap_replicate vspace_cap) ROOT_VSPACE_IDX in
  modify_tcb tcb (λ t, t <| vspace := Some new_entry |>) ;;;
  let* new_entry := entry_for_root tmp cnode_cap (cap_replicate ipc_buf_cap) ROOT_IPC_BUFFER in
  modify_tcb tcb (λ t, t <| ipc_buffer := Some new_entry |>) ;;;
  let* c := cap_init TCBCap tcb 0 in
  unwrap_res (write_slot cnode_cap (cap_replicate c) ROOT_TCB_IDX) ;;;
  ret c.

(** ** [init.rs] *)

Definition modify_boot_info (a : Z) (f : BootInfo → BootInfo) : K unit :=
  let* h := gets heap in
  match h !! a with Some (OBootInfo b) => set_heap a (OBootInfo (f b)) | _ => undef end.

(** The loop over [bootstage_mbr.finalize().enumerate()]: the number of blocks. *)
Fixpoint give_untyped (fuel : nat) (g : UntypedCapGenerator) (root_cnode_cap : CapabilityData)
    (boot_info idx num : Z) : K Z :=
  match fuel with
  | O => λ _, OutOfFuel
  | S fuel' =>
      let* r := untyped_generator_next g in
      match r with
      | None => ret num
      | Some ((untyped_cap_idx, untyped_cap), g) =>
          rassert (num <? 32) ;;;
          unwrap_res (write_slot root_cnode_cap (cap_replicate untyped_cap) untyped_cap_idx) ;;;
          let* size := block_size untyped_cap in
          (if 32 <=? idx then panic PIndex else
           modify_boot_info boot_info (λ b, b <| untyped_infos ::= <[Z.to_nat idx :=
             {| bits := size; idx := untyped_cap_idx; Shared.is_device := false |}]> |>)) ;;;
          let* num := usize_add num 1 in
          let* first_empty := usize_add untyped_cap_idx 1 in
          modify_boot_info boot_info (λ b, b <| firtst_empty_idx := first_empty |>) ;;;
          give_untyped fuel' g root_cnode_cap boot_info (idx + 1) num
      end
  end.

(** The bytes of ["hello, root_server\n"]. *)
Definition hello : list Z :=
  [104; 101; 108; 108; 111; 44; 32; 114; 111; 111; 116; 95; 115; 101; 114; 118; 101; 114; 10].

Definition create_initial_thread (tmp stack_top : Z) (root_server_mem : RootServerMemory)
    (bootstage_mbr : RootServerResourceManager) (bytes : Z → Z) (elf_header : Z) : K unit :=
  let* root_cnode_cap := create_root_cnode root_server_mem in
  let* '(vspace_cap, max_vaddr, mbr) :=
    create_address_space root_server_mem bytes root_cnode_cap elf_header bootstage_mbr in
  let* '(ipc_page_cap, mbr) :=
    create_ipc_buf_frame root_server_mem root_cnode_cap vspace_cap max_vaddr mbr in
  let* boot_vaddr := addr_add max_vaddr PAGE_SIZE in
  let* '(_, boot_info, mbr) :=
    create_boot_info_frame root_server_mem root_cnode_cap vspace_cap boot_vaddr mbr in
  create_idle_thread stack_top ;;;
  set_heap boot_info (OBootInfo BootInfo_default) ;;;
  let entry_point := e_entry (hdr_at bytes elf_header) in
  let* root_tcb :=
    create_root_tcb tmp root_server_mem root_cnode_cap vspace_cap ipc_page_cap entry_point in
  let* num := give_untyped 47 (finalize mbr) root_cnode_cap boot_info 0 0 in
  modify_boot_info boot_info (λ b, b <| untyped_num := num |>) ;;;
  modify_boot_info boot_info (λ b, b <| msg ::= λ m, hello ++ drop (length hello) m |>) ;;;
  modify_boot_info boot_info (λ b, b <| root_cnode_idx := ROOT_CNODE_IDX |>) ;;;
  modify_boot_info boot_info (λ b, b <| root_vspace_idx := ROOT_VSPACE_IDX |>) ;;;
  let* ipc_vaddr := addr_add max_vaddr PAGE_SIZE in
  modify_boot_info boot_info (λ b, b <| ipc_buffer_addr := ipc_vaddr |>) ;;;
  let* arg := addr_add max_vaddr (PAGE_SIZE * 2) in
  tcb_set_register root_tcb [(Register.A0, arg)] ;;;
  make_runnable root_tcb.

Definition init_root_server (tmp stack_top : Z) (b : BumpAllocator) (bytes : Z → Z)
    (elf_header : Z) : K unit :=
  let* '(root_server_mem, b) := init_with_uninit b in
  let* bootstage_mbr :=
    RootServerResourceManager_new b (ROOT_BOOT_INFO_PAGE + 1) (2 ^ ROOT_CNODE_ENTRY_NUM_BITS - 1) in
  create_initial_thread tmp stack_top root_server_mem bootstage_mbr bytes elf_header ;;;
  require_schedule ;;;
  schedule.

(** The linker symbols and the address of [trap_entry]. *)
Record LinkerSymbols := { sym_text : Z; sym_data_end : Z; sym_stack_top : Z; sym_trap_entry : Z }.

Definition MTIME_PER_1MS : Z := 10000.

Definition init_kernel (sym : LinkerSymbols) (tmp : Z) (bytes : Z → Z)
    (elf_header free_ram_phys free_ram_end_phys : Z) : K unit :=
  w_stvec (sym_trap_entry sym) ;;;
  let* bump_allocator := BumpAllocator_new free_ram_phys free_ram_end_phys in
  kernel_vm_init (sym_text sym) (sym_data_end sym) free_ram_end_phys ;;;
  let* sie := r_sie in
  w_sie (Z.lor (Z.lor (Z.lor sie SIE_SEIE) SIE_STIE) SIE_SSIE) ;;;
  init_root_server tmp (sym_stack_top sym) bump_allocator bytes elf_header ;;;
  w_sscratch CPU_VAR ;;;
  set_timer MTIME_PER_1MS.
End Layout.
