(* ===== verification/BootTyped.v ===== *)
(** * Booting ends in a well-typed state

    The boot code, from the kernel's page tables to the first thread, keeps the
    state well typed ([WellTyped]): allocators work on addresses of 64 bits, and
    so do the capabilities and page-table entries made from them. *)

From S2P Require Import Prelude Shared Address Objects Riscv LinkedList Capability PageTable CNode.
From S2P Require Import Thread RoundRobin Ipc Untyped Syscall Trap TrapProps WellTyped Boot Elf RootServer.

#[local] Notation "'safe' m" := (typed (λ _, True) m) (at level 10).

(** ** Allocators *)

Record alloc_ok (b : BumpAllocator) : Prop := {
  al_start : is_usize (start_addr b);
  al_end : is_usize (end_addr b);
}.
Record mgr_ok (m : RootServerResourceManager) : Prop := {
  mg_alloc : alloc_ok (bump_allocator m);
  mg_idx : is_usize (cnode_satrt_idx m);
}.
Record gen_ok (g : UntypedCapGenerator) : Prop := {
  ge_start : is_usize (ug_start g);
  ge_end : is_usize (ug_end g);
  ge_idx : is_usize (ug_idx_start g);
}.
Lemma usize_kva p : is_usize p → is_usize (kva_of_phys p).
Proof. intros. by apply usize_lor. Qed.

Lemma typed_usize_mul (a b : Z) : is_usize a → 0 ≤ b → typed is_usize (usize_mul a b).
Proof.
  intros Ha Hb. unfold usize_mul. destruct (Z.ltb_spec (a * b) W); [|done]. apply typed_ret.
  unfold is_usize in *. split; [nia|done].
Qed.
Lemma typed_allocate_pages b n :
  alloc_ok b → 0 ≤ n → typed (λ r, is_usize (fst r) ∧ alloc_ok (snd r)) (allocate_pages b n).
Proof.
  intros [Hs He] Hn. unfold allocate_pages, addr_add.
  eapply typed_bind; [by apply typed_usize_mul|]. intros len Hlen.
  eapply typed_bind; [by apply typed_usize_add|]. intros st Hst.
  eapply (typed_bind (λ _, True)); [unfold rassert; typed|]. intros _ _. apply typed_ret. by split.
Qed.
Lemma typed_alloc_page m : mgr_ok m → typed (λ r, mgr_ok (snd r)) (alloc_page m).
Proof.
  intros [Hm Hi]. unfold alloc_page. eapply typed_bind; [by apply typed_allocate_pages|].
  intros [p b] [_ Hb]. apply typed_ret. by split.
Qed.
Lemma typed_alloc_cnode_idx m : mgr_ok m → typed (λ r, mgr_ok (snd r)) (alloc_cnode_idx m).
Proof.
  intros [Hm Hi]. unfold alloc_cnode_idx. eapply (typed_bind (λ _, True)); [unfold rassert; typed|]. intros _ _.
  eapply typed_bind; [by apply typed_usize_add|]. intros i Hi'. apply typed_ret. by split.
Qed.
#[export] Hint Resolve typed_alloc_page typed_alloc_cnode_idx : typed.

(** ** Pages of the root server *)

Lemma typed_cap_init C a n : typed_cap C → is_usize n → typed cap_ok (cap_init C a n).
Proof.
  intros HC Hn. unfold cap_init. eapply typed_bind; [by apply (tc_word _ HC)|]. intros v Hv.
  apply typed_ret. by apply cap_new_ok.
Qed.
Lemma typed_write_slot c d i : cap_ok d → safe (write_slot c d i).
Proof. intros Hd. unfold write_slot. typed. Qed.
Lemma typed_unwrap_write_slot c d i : cap_ok d → safe (unwrap_res (write_slot c d i)).
Proof. intros. by apply typed_unwrap_res, typed_write_slot. Qed.
#[export] Hint Resolve typed_cap_init typed_unwrap_write_slot page_typed page_table_typed : typed.

Lemma typed_map_page_tables n c m root v : mgr_ok m → typed mgr_ok (map_page_tables n c m root v).
Proof. revert m. induction n as [|n IH]; intros m Hm; cbn [map_page_tables]; [done|]. typed. Qed.
#[export] Hint Resolve typed_map_page_tables : typed.
Lemma typed_create_mapped_page_cap c root m p v flags :
  mgr_ok m → is_usize flags →
  typed (λ r, cap_ok (fst r) ∧ mgr_ok (snd r)) (create_mapped_page_cap c root m p v flags).
Proof.
  intros Hm Hf. unfold create_mapped_page_cap. eapply typed_bind; [eauto with typed|]. intros pc Hpc.
  eapply typed_bind; [by apply typed_try, typed_page_cap_map|]. intros [c'|e] Hr; [by apply typed_ret|].
  destruct (e_kind e); try done. eapply typed_bind; [by apply typed_map_page_tables|]. intros m' Hm'.
  eapply typed_bind; [by apply typed_unwrap_res, typed_page_cap_map|]. intros. by apply typed_ret.
Qed.
#[export] Hint Resolve typed_create_mapped_page_cap : typed.

Record mapper_ok (m : RootServerElfMapper) : Prop := {
  mp_max : is_usize (max_vaddr m);
  mp_mgr : mgr_ok (root_rsc_mgr m);
}.
Lemma typed_map_program_page v start flags i self rem :
  is_usize v → 0 ≤ i → is_usize flags → mapper_ok self →
  typed (λ r, mapper_ok (fst r)) (map_program_page v start flags i self rem).
Proof.
  intros Hv Hi Hf [Hx Hm]. unfold map_program_page, addr_add. cbv zeta.
  eapply typed_bind; [by apply typed_usize_mul|]. intros off Hoff.
  eapply typed_bind; [by apply typed_usize_add|]. intros vn Hvn.
  set (self1 := if _ <? _ then _ else _).
  assert (mapper_ok self1) as [Hx1 Hm1] by (subst self1; destruct (_ <? _); by split).
  eapply typed_bind; [by apply typed_alloc_page|]. intros [p m1] Hm1'.
  eapply typed_bind; [by apply typed_create_mapped_page_cap|]. intros [pc m2] [Hpc Hm2].
  eapply typed_bind; [by apply typed_alloc_cnode_idx|]. intros [ix m3] Hm3. simpl in *.
  eapply typed_bind; [by apply typed_unwrap_write_slot|]. intros _ _.
  destruct (rem =? 0); [by apply typed_ret|]. unfold load_bytes. typed.
Qed.
Lemma typed_map_program_pages v start flags pages self rem :
  is_usize v → Forall (λ i, 0 ≤ i) pages → is_usize flags → mapper_ok self →
  typed mapper_ok (map_program_pages v start flags pages self rem).
Proof.
  intros Hv Hp Hf. revert self rem. induction Hp as [|i pages Hi _ IH]; intros self rem Hs;
    cbn [map_program_pages]; [by apply typed_ret|].
  eapply typed_bind; [by apply typed_map_program_page|]. intros [self' rem'] Hs'. by apply IH.
Qed.
Lemma get_flags_ok f : is_usize (Z.lor (get_flags f) PAGE_U).
Proof. unfold get_flags. by repeat case_match. Qed.

Section Image.
Context (bytes : Z → Z) (bytes_u8 : ∀ a, 0 ≤ bytes a < 256).

Lemma usize_read_8 a : is_usize (read_le bytes 8 a).
Proof. exact (read_le_bound bytes 8 a bytes_u8). Qed.
Lemma typed_map_headers n it self :
  mapper_ok self → typed mapper_ok (map_headers RootServerMapper bytes n it self).
Proof.
  revert it self. induction n as [|n IH]; intros it self Hs; cbn [map_headers]; [done|].
  unfold pheaders_next. destruct (_ <=? _); [by apply typed_ret|].
  cbn [ebind M_effect]. apply (typed_bind mapper_ok); [|intros; by apply IH].
  unfold hdr_map_program. destruct (program_type_of _); [|done]. destruct (negb _); [by apply typed_ret|].
  cbn [mapper_map_program mapper_get_flags RootServerMapper]. unfold map_program. cbv zeta.
  eapply (typed_bind (λ _, True)); [typed|]. intros up _.
  apply typed_map_program_pages; [apply usize_read_8| |apply get_flags_ok|done].
  apply Forall_forall. intros i Hi%elem_of_seqZ. lia.
Qed.

(** ** The root server's objects *)

Lemma typed_align_up v al : typed (λ r, 0 ≤ r) (align_up v al).
Proof.
  unfold align_up. eapply (typed_bind (λ _, True)); [typed|]. intros t _.
  apply (typed_bind (λ r, 0 ≤ r)).
  - unfold usize_sub. destruct (Z.leb_spec 1 t); [|done]. apply typed_ret. lia.
  - intros u Hu. eapply (typed_bind (λ _, True)); [typed|]. intros m _. apply typed_ret.
    apply Z.land_nonneg. by left.
Qed.
Lemma typed_alloc_obj C b n :
  typed_cap C → alloc_ok b → typed (λ r, alloc_ok (snd r)) (alloc_obj C b n).
Proof.
  intros HC Hb. unfold alloc_obj. eapply typed_bind; [apply (tc_size _ HC)|]. intros sz _.
  eapply typed_bind; [apply typed_align_up|]. intros up Hup.
  eapply typed_bind; [apply typed_allocate_pages; [done|apply Z.div_pos; [done|by unfold PAGE_SIZE]]|].
  intros [p b'] [_ Hb']. by apply typed_ret.
Qed.

Context `{KernelLayout} (idle_usize : is_usize idle_entry).

Lemma typed_init_with_uninit b : alloc_ok b → typed (λ r, alloc_ok (snd r)) (init_with_uninit b).
Proof.
  intros Hb. unfold init_with_uninit. pose proof cnode_typed. pose proof page_table_typed.
  pose proof tcb_typed. pose proof page_typed.
  do 5 (eapply typed_bind; [by apply typed_alloc_obj|]; clear b Hb; intros [? b] Hb; simpl in Hb).
  by apply typed_ret.
Qed.
Lemma typed_create_root_cnode mem : typed cap_ok (create_root_cnode mem).
Proof.
  unfold create_root_cnode. cbn [create_cap_dep_val CNodeCap]. cbv zeta.
  apply (typed_bind is_usize); [by apply typed_ret|]. intros v Hv.
  eapply typed_bind; [apply typed_unwrap_write_slot; auto with typed|]. intros _ _. typed.
Qed.
Lemma typed_create_address_space mem c elf m :
  mgr_ok m → typed (λ r, cap_ok (fst (fst r)) ∧ is_usize (snd (fst r)) ∧ mgr_ok (snd r))
                   (create_address_space mem bytes c elf m).
Proof.
  intros Hm. unfold create_address_space. cbv zeta.
  eapply typed_bind; [eauto with typed|]. intros _ _.
  eapply typed_bind; [by apply typed_cap_init; [apply page_table_typed|]|]. intros vc Hvc.
  eapply typed_bind; [by apply typed_unwrap_res, typed_make_as_root|]. intros vc' Hvc'.
  eapply typed_bind; [apply typed_unwrap_write_slot; auto with typed|]. intros _ _.
  eapply typed_bind; [by apply typed_unwrap_res, typed_map_headers|]. intros mp [Hx Hg].
  by apply typed_ret.
Qed.
Lemma typed_create_ipc_buf_frame mem c v x m :
  mgr_ok m → typed (λ r, cap_ok (fst r) ∧ mgr_ok (snd r)) (create_ipc_buf_frame mem c v x m).
Proof.
  intros Hm. unfold create_ipc_buf_frame. cbv zeta. eapply (typed_bind (λ _, True)); [typed|]. intros vn _.
  eapply typed_bind; [by apply typed_create_mapped_page_cap|]. intros [pc m'] [Hc Hm'].
  eapply typed_bind; [by apply typed_unwrap_write_slot|]. intros _ _. by apply typed_ret.
Qed.
Lemma typed_create_boot_info_frame mem c v x m :
  mgr_ok m → typed (λ r, mgr_ok (snd r)) (create_boot_info_frame mem c v x m).
Proof.
  intros Hm. unfold create_boot_info_frame. cbv zeta. eapply (typed_bind (λ _, True)); [typed|]. intros vn _.
  eapply typed_bind; [by apply typed_create_mapped_page_cap|]. intros [pc m'] [Hc Hm'].
  eapply typed_bind; [by apply typed_unwrap_write_slot|]. intros _ _. by apply typed_ret.
Qed.

(** ** The first thread *)

Lemma typed_set_reg a i v : is_usize v →
  safe (modify_tcb a (λ t, t <| registers ::= λ r, regs_index_mut r i v |>)).
Proof. intros. apply typed_modify_tcb. intros t Ht. apply thread_regs_ok; [done|]. apply regs_mut_ok; [apply Ht|done]. Qed.
Lemma typed_create_idle_thread sp : is_usize sp → safe (create_idle_thread sp).
Proof.
  intros Hsp. unfold create_idle_thread. eapply typed_bind; [|typed].
  apply typed_modify_tcb. intros t Ht. apply thread_regs_ok; [done|].
  apply (regs_mut_ok _ Register.Sp); [|done]. apply (regs_mut_ok _ Register.SStatus); [|done].
  apply (regs_mut_ok _ Register.SEpc); [apply Ht|done].
Qed.
Lemma typed_entry_for_root tmp c d i : cap_ok d → typed entry_ok (entry_for_root tmp c d i).
Proof. intros Hd. apply typed_with_local_entry; [done|]. typed. Qed.
Lemma typed_create_root_tcb tmp mem c v b pc :
  cap_ok c → cap_ok v → cap_ok b → is_usize pc → typed cap_ok (create_root_tcb tmp mem c v b pc).
Proof.
  intros Hc Hv Hb Hpc. unfold create_root_tcb. cbv zeta.
  eapply typed_bind; [apply typed_write_tcb; split; (done || apply regs_null_ok)|]. intros _ _.
  eapply typed_bind; [by apply (typed_set_reg _ Register.SStatus)|]. intros _ _.
  eapply typed_bind; [by apply (typed_set_reg _ Register.SEpc)|]. intros _ _.
  do 3 (eapply typed_bind; [apply typed_entry_for_root; auto with typed|]; intros ? ?;
        eapply typed_bind; [apply typed_modify_tcb; auto with typed|]; intros _ _).
  eapply typed_bind; [by apply typed_cap_init; [apply tcb_typed|]|]. intros tc Htc.
  eapply typed_bind; [apply typed_unwrap_write_slot; auto with typed|]. intros _ _. typed.
Qed.

(** ** The untyped blocks and the boot information *)

Lemma typed_modify_boot_info a f : (∀ b, boot_ok b → boot_ok (f b)) → safe (modify_boot_info a f).
Proof.
  intros Hf s Hs. unfold modify_boot_info, bind, gets.
  destruct (heap s !! a) as [[| | | | | |b]|] eqn:Hb; try done.
  apply (typed_set_heap a (OBootInfo (f b))); [|done]. apply Hf. exact (wt_heap _ Hs _ _ Hb).
Qed.
Lemma boot_msg_ok b : boot_ok b → boot_ok (b <| msg ::= λ m, hello ++ drop (length hello) m |>).
Proof.
  intros []. split; try done. apply Forall_app_2; [|by apply Forall_drop].
  by repeat (apply Forall_cons_2; [done|]).
Qed.
Lemma boot_default_ok : boot_ok BootInfo_default.
Proof. split; try done; by apply Forall_replicate. Qed.
Lemma typed_untyped_next g :
  gen_ok g →
  typed (λ r, match r with Some ((i, c), g') => is_usize i ∧ cap_ok c ∧ gen_ok g' | None => True end)
    (untyped_generator_next g).
Proof.
  intros [Hs He Hi]. unfold untyped_generator_next, addr_add, addr_sub.
  eapply (typed_bind (λ _, True)); [typed|]. intros lim _. destruct (_ <=? _); [by apply typed_ret|].
  eapply (typed_bind (λ _, True)); [unfold rassert; typed|]. intros _ _.
  eapply typed_bind; [by apply typed_usize_sub|]. intros n Hn.
  apply (typed_bind cap_ok).
  { unfold cap_init. cbn [create_cap_dep_val UntypedCap]. eapply typed_bind; [by apply typed_untyped_word|].
    intros v Hv. apply typed_ret. by apply cap_new_ok. }
  intros c Hc. eapply typed_bind; [apply typed_block_size|]. intros sz Hsz.
  eapply typed_bind; [by apply typed_usize_add|]. intros st Hst.
  eapply typed_bind; [by apply typed_usize_add|]. intros i Hi'. apply typed_ret. split; [done|]. split; [done|by split].
Qed.
Lemma typed_give_untyped n g c a i k : gen_ok g → is_usize k → typed is_usize (give_untyped n g c a i k).
Proof.
  revert g i k. induction n as [|n IH]; intros g i k Hg Hk; cbn [give_untyped]; [done|].
  eapply typed_bind; [by apply typed_untyped_next|]. intros [[[j d] g']|]; [|typed]. intros (Hj & Hd & Hg').
  eapply (typed_bind (λ _, True)); [unfold rassert; typed|]. intros _ _.
  eapply typed_bind; [apply typed_unwrap_write_slot; auto with typed|]. intros _ _.
  eapply typed_bind; [apply typed_block_size|]. intros size Hsz.
  eapply (typed_bind (λ _, True)); [destruct (_ <=? _); [done|]; apply typed_modify_boot_info|].
  { intros b []. split; try done. by apply Forall_insert. }
  intros _ _. eapply typed_bind; [by apply typed_usize_add|]. intros k' Hk'.
  eapply typed_bind; [by apply typed_usize_add|]. intros e He.
  eapply typed_bind; [apply typed_modify_boot_info; intros b []; by split|]. intros _ _. by apply IH.
Qed.
Lemma finalize_ok m : mgr_ok m → gen_ok (finalize m).
Proof. intros [[Hs He] Hi]. split; [by apply usize_kva|by apply usize_kva|done]. Qed.

Lemma typed_create_initial_thread tmp sp mem m elf :
  is_usize sp → mgr_ok m → safe (create_initial_thread tmp sp mem m bytes elf).
Proof.
  intros Hsp Hm. unfold create_initial_thread, addr_add.
  eapply typed_bind; [apply typed_create_root_cnode|]. intros c Hc.
  eapply typed_bind; [by apply typed_create_address_space|]. intros [[v x] m1] (Hv & Hx & Hm1). simpl in *.
  eapply typed_bind; [by apply typed_create_ipc_buf_frame|]. intros [b m2] [Hb Hm2]. simpl in *.
  eapply (typed_bind (λ _, True)); [typed|]. intros bv _.
  eapply typed_bind; [by apply typed_create_boot_info_frame|]. intros [[pc bi] m3] Hm3. simpl in *.
  eapply typed_bind; [by apply typed_create_idle_thread|]. intros _ _.
  eapply typed_bind; [exact (typed_set_heap bi (OBootInfo BootInfo_default) boot_default_ok)|]. intros _ _.
  eapply typed_bind; [by apply typed_create_root_tcb; [..|apply usize_read_8]|]. intros tc Htc.
  eapply typed_bind; [exact (typed_give_untyped 47 (finalize m3) c bi 0 0 (finalize_ok _ Hm3) usize_0)|]. intros num Hnum.
  eapply typed_bind; [apply typed_modify_boot_info; intros d []; by split|]. intros _ _.
  eapply typed_bind; [exact (typed_modify_boot_info _ _ boot_msg_ok)|]. intros _ _.
  do 2 (eapply typed_bind; [apply typed_modify_boot_info; intros d []; by split|]; intros _ _).
  eapply typed_bind; [by apply typed_usize_add|]. intros iv Hiv.
  eapply typed_bind; [apply typed_modify_boot_info; intros d []; by split|]. intros _ _.
  eapply typed_bind; [by apply typed_usize_add|]. intros arg Harg.
  eapply typed_bind; [by apply (typed_set_reg _ Register.A0)|]. intros _ _. apply typed_resume.
Qed.
Lemma typed_init_root_server tmp sp b elf :
  is_usize sp → alloc_ok b → safe (init_root_server tmp sp b bytes elf).
Proof.
  intros Hsp Hb. unfold init_root_server.
  eapply typed_bind; [by apply typed_init_with_uninit|]. intros [mem b'] Hb'.
  apply (typed_bind mgr_ok); [unfold RootServerResourceManager_new; typed|]. intros m Hm.
  eapply typed_bind; [by apply typed_create_initial_thread|]. intros _ _.
  eapply typed_bind; [typed_mid|]. intros _ _. apply typed_schedule.
Qed.

(** ** [init_kernel] *)

Lemma typed_for_each {A} (f : A → K unit) l : (∀ x, safe (f x)) → safe (for_each f l).
Proof. intros Hf. induction l as [|x l IH]; cbn [for_each]; typed. Qed.
Lemma typed_kernel_vm_init text data_end ram_end : safe (kernel_vm_init text data_end ram_end).
Proof.
  assert (∀ t i p b, safe (write_pte t i (pte_write p (flag b)))) as Hw.
  { intros. apply typed_write_pte, pte_write_ok. by destruct b. }
  unfold kernel_vm_init. cbv zeta. eapply typed_bind; [by apply typed_for_each|]. intros _ _.
  eapply typed_bind; [apply Hw|]. intros _ _. eapply (typed_bind (λ _, True)); [typed|]. intros st _.
  eapply typed_bind; [by apply typed_for_each|]. intros _ _. apply typed_activate_kernel_table.
Qed.

(** Booting ends in a well-typed state. From well-typed static variables
    and an image of bytes, [init_kernel] (the kernel's page tables, the root
    server's capabilities, address space and thread, the untyped blocks, the
    first schedule and the timer) stores only values of the declared types. *)
Lemma boot_well_typed sym tmp elf ram ram_end s s' :
  is_usize (sym_stack_top sym) → is_usize ram → is_usize ram_end → well_typed s →
  init_kernel sym tmp bytes elf ram ram_end s = Ok tt s' → well_typed s'.
Proof.
  intros Hsp Hr Hre Hs Hrun.
  assert (safe (init_kernel sym tmp bytes elf ram ram_end)) as Ht; [|specialize (Ht s Hs); rewrite Hrun in Ht; apply Ht].
  unfold init_kernel. eapply (typed_bind (λ _, True)); [typed|]. intros _ _.
  apply (typed_bind alloc_ok); [unfold BumpAllocator_new; typed|]. intros b Hb.
  eapply typed_bind; [apply typed_kernel_vm_init|]. intros _ _.
  eapply (typed_bind (λ _, True)); [typed|]. intros v _.
  eapply (typed_bind (λ _, True)); [typed|]. intros _ _.
  eapply typed_bind; [by apply typed_init_root_server|]. intros _ _.
  eapply (typed_bind (λ _, True)); [typed|]. intros _ _. by apply typed_set_timer.
Qed.
End Image.
