(* ===== verification/BootSpace.v ===== *)
(** * The address space the boot code builds

    Properties of [map_page_tables], [create_mapped_page_cap] and the ELF
    mapper of [kernel/src/init/root_server.rs]: whatever is mapped stays
    mapped, three tables are enough for a page, and a segment ends up in
    frames of its own, with its bytes in them. *)

From S2P Require Import Prelude Shared Address Objects Riscv LinkedList Capability PageTable CNode.
From S2P Require Import Thread RoundRobin Ipc Untyped Trap Boot Elf RootServer.

(** ** Address spaces as trees

    Every table of the space has a level and the part of the address space it
    translates: the table of level [l] at position [p] translates the
    addresses [v] with [v / 2 ^ (12 + 9 * (l + 1)) = p]. *)
Record space (h : gmap Z kobject) (root : Z) (pf : gmap Z (Z * Z)) : Prop := {
  sp_root : pf !! root = Some (3, 0);
  sp_tables : ∀ a lp, pf !! a = Some lp → ∃ t, table_at h a = Some t ∧ length t = 512%nat;
  sp_below : ∀ table l p vpn pte,
    pf !! table = Some (l, p) → 1 ≤ l → 0 ≤ vpn → (l = 3 → vpn < 256) →
    pte_at h table vpn = Some pte → pte_is_valid pte = true →
    pf !! pte_as_page_table pte = Some (l - 1, p * 512 + vpn);
}.

(** A user address. *)
Definition is_user (v : Z) : Prop := 0 ≤ v < 2 ^ 47.
(** Where the table of level [l] on the way to [v] is. *)
Definition position (v l : Z) : Z := v / 2 ^ (12 + 9 * (l + 1)).

Lemma is_user_addr v : is_user v → user_addr v.
Proof.
  unfold is_user, user_addr. intros Hv. rewrite get_vpn_arith by lia.
  change (2 ^ (12 + 3 * 9)) with 549755813888. change (2 ^ 47) with 140737488355328 in Hv.
  Z.div_mod_to_equations. lia.
Qed.

Lemma position_root v : is_user v → position v 3 = 0.
Proof. unfold is_user, position. intros. apply Z.div_small. change (12 + 9 * (3 + 1)) with 48. lia. Qed.

Lemma position_step v l : is_user v → 0 ≤ l → position v l * 512 + get_vpn v l = position v (l - 1).
Proof.
  intros Hv Hl. unfold position. rewrite get_vpn_arith by lia.
  replace (12 + 9 * (l + 1)) with ((12 + l * 9) + 9) by lia.
  replace (12 + 9 * (l - 1 + 1)) with (12 + l * 9) by lia.
  rewrite Z.pow_add_r by lia. rewrite <- Z.div_div by lia. change (2 ^ 9) with 512.
  pose proof (Z.div_mod (v / 2 ^ (12 + l * 9)) 512). lia.
Qed.

Lemma space_levelled h root pf : space h root pf → levelled h (fst <$> pf).
Proof.
  intros Hs table l vpn pte Hl H1 Hv H3 Hp Hval.
  rewrite lookup_fmap in *. destruct (pf !! table) as [[l' p]|] eqn:Ht; [|done].
  simpl in Hl. simplify_eq. by rewrite (sp_below _ _ _ Hs _ _ _ _ _ Ht H1 Hv H3 Hp Hval).
Qed.

Lemma space_pte h root pf table lp v l :
  space h root pf → pf !! table = Some lp → ∃ pte, pte_at h table (get_vpn v l) = Some pte.
Proof.
  intros Hs Ht. destruct (sp_tables _ _ _ Hs _ _ Ht) as (t & Hat & Hlen).
  unfold pte_at. rewrite Hat. simpl. apply lookup_lt_is_Some_2.
  pose proof (get_vpn_bound v l). lia.
Qed.

(** The walk for [v] always ends in a table of the space that lies on the way
    to [v]. *)
Lemma walk_at_space h root pf v n table :
  space h root pf → is_user v → (n ≤ 3)%nat →
  pf !! table = Some (Z.of_nat n, position v (Z.of_nat n)) →
  ∃ l t, walk_at h (reverse (seqZ 1 (Z.of_nat n))) table v = Some (l, (t, get_vpn v l)) ∧
         0 ≤ l ≤ Z.of_nat n ∧ pf !! t = Some (l, position v l) ∧
         (1 ≤ l → ∃ pte, pte_at h t (get_vpn v l) = Some pte ∧ pte_is_valid pte = false).
Proof.
  intros Hs Hu. revert table. induction n as [|n IH]; intros table Hn Ht.
  - destruct (space_pte _ _ _ _ _ v 0 Hs Ht) as (pte & Hp).
    exists 0, table. change (reverse (seqZ 1 (Z.of_nat 0))) with (@nil Z). cbn [walk_at].
    rewrite Hp. split_and!; [done|lia|lia|done|lia].
  - rewrite levels_S. cbn [walk_at]. set (l := Z.of_nat (S n)) in *.
    destruct (space_pte _ _ _ _ _ v l Hs Ht) as (pte & Hp). rewrite Hp. cbn [mbind option_bind].
    destruct (pte_is_valid pte) eqn:Hv.
    + destruct (IH (pte_as_page_table pte)) as (l' & t & Hw & Hl' & Ht' & Hi); [lia| |].
      * replace (Z.of_nat n) with (l - 1) by lia. rewrite <- (position_step v l Hu) by lia.
        apply (sp_below _ _ _ Hs _ _ _ _ _ Ht); [lia|apply get_vpn_bound| |done|done].
        intros ->. by apply is_user_addr.
      * exists l', t. split_and!; [done|lia|lia|done|done].
    + exists l, table. split_and!; [done|lia|lia|done|]. eauto.
Qed.

Lemma walk_root h root pf v :
  space h root pf → is_user v →
  ∃ l t, walk_at h [3; 2; 1] root v = Some (l, (t, get_vpn v l)) ∧ 0 ≤ l ≤ 3 ∧
         pf !! t = Some (l, position v l) ∧
         (1 ≤ l → ∃ pte, pte_at h t (get_vpn v l) = Some pte ∧ pte_is_valid pte = false).
Proof.
  intros Hs Hu. rewrite <- levels_321. apply (walk_at_space h root pf v 3); [done|done|lia|].
  rewrite position_root by done. apply Hs.
Qed.

(** Two addresses whose walks end in the same entry of a last-level table are
    in the same page. *)
Lemma walk_same_page h root pf v w t i :
  space h root pf → is_user v → is_user w →
  walk_at h [3; 2; 1] root v = Some (0, (t, i)) → walk_at h [3; 2; 1] root w = Some (0, (t, i)) →
  v / 4096 = w / 4096.
Proof.
  intros Hs Hv Hw H1 H2.
  destruct (walk_root _ _ _ v Hs Hv) as (l1 & t1 & E1 & _ & P1 & _).
  destruct (walk_root _ _ _ w Hs Hw) as (l2 & t2 & E2 & _ & P2 & _). simplify_eq.
  pose proof (position_step v 0 Hv ltac:(lia)) as Q1. pose proof (position_step w 0 Hw ltac:(lia)) as Q2.
  change 4096 with (2 ^ (12 + 9 * (0 - 1 + 1))).
  change (v / 2 ^ (12 + 9 * (0 - 1 + 1))) with (position v (0 - 1)).
  change (w / 2 ^ (12 + 9 * (0 - 1 + 1))) with (position w (0 - 1)). congruence.
Qed.

(** Filling an entry that was not valid affects only the walks that end there. *)
Lemma walk_at_fill h levels table v t i w old :
  0 ≤ i → pte_at h t i = Some old → pte_is_valid old = false →
  (∀ l, walk_at h levels table v ≠ Some (l, (t, i))) →
  walk_at (set_pte t i w h) levels table v = walk_at h levels table v.
Proof.
  intros Hi Hold Hinv. revert table. induction levels as [|l ls IH]; intros table Hne; cbn [walk_at] in *.
  - destruct (decide ((table, get_vpn v 0) = (t, i))) as [[= -> <-]|Hd].
    + exfalso. apply (Hne 0). by rewrite Hold.
    + by rewrite pte_at_set_pte_ne by (done || apply get_vpn_bound).
  - destruct (decide ((table, get_vpn v l) = (t, i))) as [[= -> <-]|Hd].
    + exfalso. apply (Hne l). rewrite Hold. cbn [mbind option_bind]. by rewrite Hinv.
    + rewrite pte_at_set_pte_ne by (done || apply get_vpn_bound).
      destruct (pte_at h table (get_vpn v l)) as [pte|]; [|done]. cbn [mbind option_bind] in *.
      destruct (pte_is_valid pte); [|done]. by apply IH.
Qed.

Lemma translate_fill h root v t i w old :
  0 ≤ i → pte_at h t i = Some old → pte_is_valid old = false →
  (∀ l, walk_at h [3; 2; 1] root v ≠ Some (l, (t, i))) →
  translate (set_pte t i w h) root v = translate h root v.
Proof.
  intros Hi Hold Hinv Hne. unfold translate. rewrite (walk_at_fill _ _ _ _ _ _ _ old) by done.
  destruct (walk_at h [3; 2; 1] root v) as [[[|?|?] [t' i']]|] eqn:Hw; try done.
  rewrite pte_at_set_pte_ne; [done|done| |].
  - rewrite (walk_at_level_inv _ _ _ _ _ _ _ Hw). apply get_vpn_bound.
  - intros [= -> ->]. by apply (Hne 0).
Qed.

Lemma pte_at_insert_ne h a o table vpn :
  a ≠ table → pte_at (<[a := o]> h) table vpn = pte_at h table vpn.
Proof. intros. unfold pte_at. by rewrite table_at_insert_ne. Qed.

(** Writing memory that is no table of the space changes no walk. *)
Lemma walk_at_insert h root pf a o v n table :
  space h root pf → is_user v → (n ≤ 3)%nat → pf !! a = None →
  pf !! table = Some (Z.of_nat n, position v (Z.of_nat n)) →
  walk_at (<[a := o]> h) (reverse (seqZ 1 (Z.of_nat n))) table v =
  walk_at h (reverse (seqZ 1 (Z.of_nat n))) table v.
Proof.
  intros Hs Hu Hn Ha. revert table Hn. induction n as [|n IH]; intros table Hn Ht.
  - change (reverse (seqZ 1 (Z.of_nat 0))) with (@nil Z). cbn [walk_at].
    by rewrite pte_at_insert_ne by congruence.
  - rewrite levels_S. cbn [walk_at]. rewrite pte_at_insert_ne by congruence.
    destruct (pte_at h table (get_vpn v (Z.of_nat (S n)))) as [pte|] eqn:Hp; [|done].
    cbn [mbind option_bind]. destruct (pte_is_valid pte) eqn:Hv; [|done]. apply IH; [lia|].
    replace (Z.of_nat n) with (Z.of_nat (S n) - 1) by lia.
    rewrite <- (position_step v (Z.of_nat (S n)) Hu) by lia.
    apply (sp_below _ _ _ Hs _ _ _ _ _ Ht); [lia|apply get_vpn_bound| |done|done].
    intros H3. replace (Z.of_nat (S n)) with 3 by lia. by apply is_user_addr.
Qed.

Lemma space_insert h root pf a o :
  space h root pf → pf !! a = None → space (<[a := o]> h) root pf.
Proof.
  intros Hs Ha. split; [apply Hs| |].
  - intros b lp Hb. rewrite table_at_insert_ne by congruence. by apply (sp_tables _ _ _ Hs b lp).
  - intros table l p vpn pte Ht Hl Hv H3 Hp.
    rewrite pte_at_insert_ne in Hp by congruence. by apply (sp_below _ _ _ Hs _ _ _ _ _ Ht).
Qed.

Lemma translate_insert h root pf a o v :
  space h root pf → is_user v → pf !! a = None →
  walk_at (<[a := o]> h) [3; 2; 1] root v = walk_at h [3; 2; 1] root v ∧
  translate (<[a := o]> h) root v = translate h root v.
Proof.
  intros Hs Hu Ha. assert (walk_at (<[a := o]> h) [3; 2; 1] root v = walk_at h [3; 2; 1] root v) as Hw.
  { rewrite <- levels_321. apply (walk_at_insert h root pf _ _ _ 3); [done|done|lia|done|].
    rewrite position_root by done. apply Hs. }
  split; [done|]. unfold translate. rewrite Hw.
  destruct (walk_root _ _ _ v Hs Hu) as (l & t & -> & _ & Ht & _).
  destruct l; [|done..]. by rewrite pte_at_insert_ne by congruence.
Qed.

(** ** Installing a table, mapping a page *)

(** Where the walk for [v] stops. *)
Record stops (h : gmap Z kobject) (root : Z) (pf : gmap Z (Z * Z)) (v l t : Z) : Prop := {
  st_walk : walk_at h [3; 2; 1] root v = Some (l, (t, get_vpn v l));
  st_level : 0 ≤ l ≤ 3;
  st_table : pf !! t = Some (l, position v l);
  st_free : ∃ pte, pte_at h t (get_vpn v l) = Some pte ∧ pte_is_valid pte = false;
}.

Lemma space_stops h root pf v :
  space h root pf → is_user v → translate h root v = None → ∃ l t, stops h root pf v l t.
Proof.
  intros Hs Hu Htr. destruct (walk_root _ _ _ v Hs Hu) as (l & t & Hw & Hl & Ht & Hi).
  exists l, t. split; [done|done|done|]. destruct (decide (1 ≤ l)) as [|Hn]; [by apply Hi|].
  assert (l = 0) as -> by lia. destruct (space_pte _ _ _ _ _ v 0 Hs Ht) as (pte & Hp).
  exists pte. split; [done|]. destruct (pte_is_valid pte) eqn:Hv; [|done].
  by rewrite (translate_at _ _ _ _ _ _ Hw Hp Hv) in Htr.
Qed.

Lemma stops_level h root pf v l t v' l' :
  space h root pf → stops h root pf v l t → is_user v' →
  walk_at h [3; 2; 1] root v' = Some (l', (t, get_vpn v l)) → l' = l ∧ get_vpn v' l = get_vpn v l.
Proof.
  intros Hs Hst Hu' Hw'. destruct (walk_root _ _ _ v' Hs Hu') as (l2 & t2 & Hw2 & _ & Ht2 & _).
  pose proof (st_table _ _ _ _ _ _ Hst). simplify_eq. split; congruence.
Qed.

Section Install.
Context (h : gmap Z kobject) (root : Z) (pf : gmap Z (Z * Z)) (v l t self w : Z).
Context (Hs : space h root pf) (Hu : is_user v) (Hst : stops h root pf v l t) (Hl : 1 ≤ l).
Context (Hself : pf !! self = None) (He : empty_table h self).
Context (Hwv : pte_is_valid w = true) (Hwa : pte_as_page_table w = self).

Lemma install_extend v' :
  is_user v' → walk_at h [3; 2; 1] root v' = Some (l, (t, get_vpn v l)) →
  walk_at (set_pte t (get_vpn v l) w h) [3; 2; 1] root v' = Some (l - 1, (self, get_vpn v' (l - 1))).
Proof.
  intros Hu' Hw. rewrite <- levels_321 in *.
  apply (walk_at_extend _ (fst <$> pf) 3); try done.
  - by apply (space_levelled _ root).
  - by apply is_user_addr.
  - rewrite lookup_fmap, (sp_root _ _ _ Hs). done.
  - by rewrite lookup_fmap, Hself.
Qed.

Lemma install_translate v' :
  is_user v' → translate (set_pte t (get_vpn v l) w h) root v' = translate h root v'.
Proof.
  intros Hu'. destruct (st_free _ _ _ _ _ _ Hst) as (old & Hold & Hinv).
  destruct (walk_root _ _ _ v' Hs Hu') as (l' & t' & Hw' & Hl' & Ht' & _).
  destruct (decide ((t', get_vpn v' l') = (t, get_vpn v l))) as [[= -> Hv]|Hne].
  - rewrite Hv in Hw'. destruct (stops_level _ _ _ _ _ _ _ _ Hs Hst Hu' Hw') as [-> _].
    unfold translate. rewrite (install_extend v' Hu' Hw'), Hw'.
    destruct l as [|p|p]; [lia| |lia]. destruct (Z.pos p - 1) eqn:Hp; try done.
    destruct (empty_table_pte h self (get_vpn v' 0) He (get_vpn_bound _ _)) as (pte & Hpte & Hpv).
    rewrite pte_at_set_pte_ne; [|apply get_vpn_bound|apply get_vpn_bound|].
    + rewrite Hpte. cbn [mbind option_bind]. by rewrite Hpv.
    + intros [= Heq _]. pose proof (st_table _ _ _ _ _ _ Hst). congruence.
  - apply (translate_fill _ _ _ _ _ _ old); [apply get_vpn_bound|done|done|].
    intros l2 Hw2. rewrite Hw' in Hw2. by simplify_eq.
Qed.

Lemma install_space :
  space (set_pte t (get_vpn v l) w h) root (<[self := (l - 1, position v (l - 1))]> pf).
Proof.
  destruct (st_free _ _ _ _ _ _ Hst) as (old & Hold & Hinv).
  pose proof (st_table _ _ _ _ _ _ Hst) as Ht. assert (self ≠ t) as Hne by congruence.
  destruct He as (tb & Htb & Hlen & Hall). split.
  - rewrite lookup_insert_ne; [apply Hs|]. pose proof (sp_root _ _ _ Hs). congruence.
  - intros a lp Ha. destruct (decide (a = t)) as [->|Hat].
    + destruct (sp_tables _ _ _ Hs _ _ Ht) as (u & Hu1 & Hu2).
      rewrite (table_at_set_pte_eq _ _ _ _ _ Hu1). eexists. split; [done|]. by rewrite length_insert.
    + rewrite table_at_set_pte_ne by done. destruct (decide (a = self)) as [->|Has]; [eauto|].
      rewrite lookup_insert_ne in Ha by done. by apply (sp_tables _ _ _ Hs _ _ Ha).
  - intros table l' p vpn pte Hl' H1 Hv H3 Hp Hval. destruct (decide (table = self)) as [->|Hts].
    { exfalso. unfold pte_at in Hp. rewrite table_at_set_pte_ne, Htb in Hp by done.
      cbn [mbind option_bind] in Hp. rewrite (Forall_lookup_1 _ _ _ _ Hall Hp) in Hval. done. }
    rewrite lookup_insert_ne in Hl' by done.
    destruct (decide ((table, vpn) = (t, get_vpn v l))) as [[= -> ->]|Hd].
    + rewrite (pte_at_set_pte_eq _ _ _ _ _ Hold) in Hp. simplify_eq.
      rewrite lookup_insert_eq. by rewrite (position_step v l Hu) by lia.
    + rewrite pte_at_set_pte_ne in Hp by (done || apply get_vpn_bound).
      pose proof (sp_below _ _ _ Hs _ _ _ _ _ Hl' H1 Hv H3 Hp Hval) as Hb.
      rewrite lookup_insert_ne by congruence. done.
Qed.
End Install.

(** Writing an entry of a last-level table. *)
Lemma space_leaf h root pf t p i w :
  space h root pf → pf !! t = Some (0, p) → 0 ≤ i → space (set_pte t i w h) root pf.
Proof.
  intros Hs Ht Hi. split; [apply Hs| |].
  - intros a lp Ha. destruct (sp_tables _ _ _ Hs _ _ Ha) as (u & Hu1 & Hu2).
    destruct (decide (a = t)) as [->|Hat].
    + rewrite (table_at_set_pte_eq _ _ _ _ _ Hu1). eexists. split; [done|]. by rewrite length_insert.
    + rewrite table_at_set_pte_ne by done. eauto.
  - intros table l q vpn pte Hl H1 Hv H3 Hp. rewrite pte_at_set_pte_ne in Hp; [|done|done|].
    + by apply (sp_below _ _ _ Hs _ _ _ _ _ Hl).
    + intros [= -> _]. rewrite Hl in Ht. injection Ht as -> _. lia.
Qed.

Section MapPage.
Context (h : gmap Z kobject) (root : Z) (pf : gmap Z (Z * Z)) (v t w : Z).
Context (Hs : space h root pf) (Hu : is_user v) (Hst : stops h root pf v 0 t).

Lemma map_space : space (set_pte t (get_vpn v 0) w h) root pf.
Proof. eapply space_leaf; [exact Hs|apply Hst|apply get_vpn_bound]. Qed.

Lemma map_translate v' :
  is_user v' → v' / 4096 ≠ v / 4096 →
  translate (set_pte t (get_vpn v 0) w h) root v' = translate h root v'.
Proof.
  intros Hu' Hpg. destruct (st_free _ _ _ _ _ _ Hst) as (old & Hold & Hinv).
  apply (translate_fill _ _ _ _ _ _ old); [apply get_vpn_bound|done|done|].
  intros l' Hw'. destruct (stops_level _ _ _ _ _ _ _ _ Hs Hst Hu' Hw') as [-> _].
  apply Hpg. apply (walk_same_page _ _ _ _ _ _ _ Hs Hu' Hu Hw'). apply Hst.
Qed.

Lemma map_translate_self :
  pte_is_valid w = true → translate (set_pte t (get_vpn v 0) w h) root v = Some w.
Proof.
  intros Hw. destruct (st_free _ _ _ _ _ _ Hst) as (old & Hold & Hinv).
  apply (translate_at _ _ _ t (get_vpn v 0)); [|by apply (pte_at_set_pte_eq _ _ _ _ old)|done].
  rewrite (set_pte_leaf_walk _ (fst <$> pf)); [apply Hst|by apply (space_levelled _ root)| | | |].
  - by apply is_user_addr.
  - by rewrite lookup_fmap, (sp_root _ _ _ Hs).
  - by rewrite lookup_fmap, (st_table _ _ _ _ _ _ Hst).
  - apply get_vpn_bound.
Qed.
End MapPage.

(** ** The boot-time resources *)

Definition first_free (m : RootServerResourceManager) : Z := start_addr (bump_allocator m).
Definition last_free (m : RootServerResourceManager) : Z := end_addr (bump_allocator m).

(** The manager after [p] more pages and [i] more slots were taken. *)
Definition spend (m : RootServerResourceManager) (p i : Z) : RootServerResourceManager := {|
  bump_allocator := {| start_addr := first_free m + 4096 * p; end_addr := last_free m |};
  cnode_satrt_idx := cnode_satrt_idx m + i;
  cnode_idx_max := cnode_idx_max m |}.

Lemma spend_spend m p i q j : spend (spend m p i) q j = spend m (p + q) (i + j).
Proof. unfold spend, first_free, last_free. simpl. f_equal; [f_equal; lia|lia]. Qed.
Lemma spend_0 m : spend m 0 0 = m.
Proof. destruct m as [[]]. unfold spend, first_free, last_free. simpl. f_equal; [f_equal; lia|lia]. Qed.

(** The memory not yet handed out, as the kernel addresses it. *)
Definition in_free (m : RootServerResourceManager) (a : Z) : Prop :=
  KERNEL_V_ADDR_PFX + first_free m ≤ a < KERNEL_V_ADDR_PFX + last_free m.

(** What holds while the root server is built: its tables form a space, the
    free memory is untouched, and the free slots of its node are empty. *)
Record boot_inv (h : gmap Z kobject) (pf : gmap Z (Z * Z)) (root cnode : CapabilityData)
    (m : RootServerResourceManager) : Prop := {
  bi_space : space h (cap_kva root) pf;
  bi_range : 0 ≤ first_free m ∧ last_free m < 2 ^ 46;
  bi_page : first_free m mod 4096 = 0;
  bi_idx : 0 ≤ cnode_satrt_idx m ∧ cnode_idx_max m < 2 ^ radix cnode ∧ radix cnode < 64;
  bi_fresh : ∀ a, in_free m a → h !! a = None ∧ pf !! a = None;
  bi_slots : ∀ i, cnode_satrt_idx m ≤ i ≤ cnode_idx_max m →
    h !! slot_addr cnode i = None ∧ pf !! slot_addr cnode i = None ∧ ¬ in_free m (slot_addr cnode i);
}.

(** There are [p] more pages and [i] more slots. *)
Definition room_for (m : RootServerResourceManager) (p i : Z) : Prop :=
  first_free m + 4096 * p ≤ last_free m ∧ cnode_satrt_idx m + i ≤ cnode_idx_max m + 1.

(** The address of the next page. *)
Definition next_page (m : RootServerResourceManager) : Z := KERNEL_V_ADDR_PFX + first_free m.

Section Resources.
Context (h : gmap Z kobject) (pf : gmap Z (Z * Z)) (root cnode : CapabilityData)
  (m : RootServerResourceManager).
Context (Hi : boot_inv h pf root cnode m).

Lemma alloc_page_Ok s i :
  room_for m 1 i → alloc_page m s = Ok (next_page m, spend m 1 0) s.
Proof.
  intros [Hr _]. destruct Hi as [_ Hrg _ _ _ _]. unfold alloc_page, allocate_page.
  rewrite (bind_Ok _ _ _ (first_free m, {| start_addr := first_free m + 4096; end_addr := last_free m |}) s).
  - unfold ret, next_page, spend. rewrite kva_of_phys_add by (unfold is_phys; lia).
    destruct m as [[]]. unfold first_free, last_free, upd. simpl. repeat f_equal; lia.
  - unfold allocate_pages, addr_add. fold (first_free m).
    rewrite (bind_Ok _ _ _ _ _ (usize_mul_Ok PAGE_SIZE 1 s ltac:(done))).
    rewrite (bind_Ok _ _ _ _ _ (usize_add_Ok (first_free m) (PAGE_SIZE * 1) s ltac:(unfold W, PAGE_SIZE; lia))).
    unfold rassert. fold (last_free m). unfold PAGE_SIZE. rewrite (proj2 (Z.leb_le _ _)) by lia.
    mred. destruct m as [[]]. reflexivity.
Qed.

Lemma boot_inv_page : room_for m 1 0 → boot_inv h pf root cnode (spend m 1 0).
Proof.
  intros [Hr _]. destruct Hi as [Hsp Hrg Hpg Hidx Hfr Hsl]. split; [done| | | | |].
  - unfold spend, first_free, last_free in *. simpl. lia.
  - change (first_free (spend m 1 0)) with (first_free m + 4096 * 1).
    rewrite Z.mul_1_r, <- (Z.mul_1_l 4096) at 1. by rewrite Z.mod_add.
  - unfold spend. simpl. lia.
  - intros a Ha. apply Hfr. unfold in_free, spend, first_free, last_free in *. simpl in Ha. lia.
  - intros i Hb. unfold spend in Hb. simpl in Hb. destruct (Hsl i ltac:(lia)) as (H1 & H2 & H3).
    split_and!; [done|done|]. intros Ha. apply H3.
    unfold in_free, spend, first_free, last_free in *. simpl in Ha. lia.
Qed.

Lemma next_page_free : room_for m 1 0 → h !! next_page m = None ∧ pf !! next_page m = None.
Proof. intros [Hr _]. apply (bi_fresh _ _ _ _ _ Hi). unfold in_free, next_page. lia. Qed.

Lemma next_page_kva : room_for m 1 0 → is_kva (next_page m) ∧ next_page m mod 4096 = 0.
Proof.
  intros [Hr _]. destruct Hi as [_ Hrg Hpg _ _ _]. unfold next_page. split.
  - unfold is_kva, W, KERNEL_V_ADDR_PFX. lia.
  - rewrite <- Zplus_mod_idemp_r, Hpg. reflexivity.
Qed.

(** The next free slot. *)
Definition slot : Z := slot_addr cnode (cnode_satrt_idx m).

Lemma alloc_slot_Ok s c {A} (k : RootServerResourceManager → K A) :
  heap s = h → cnode_satrt_idx m ≤ cnode_idx_max m →
  (let* '(idx, m') := alloc_cnode_idx m in unwrap_res (write_slot cnode c idx) ;;; k m') s =
    k (spend m 0 1) (s <| heap := <[slot := OSlot (Some (new_with_rawcap c))]> h |>).
Proof.
  intros <- Hle. destruct Hi as [_ _ _ (H0 & Hmax & Hr) _ Hsl].
  assert (2 ^ radix cnode ≤ 2 ^ 63) by (apply Z.pow_le_mono_r; lia).
  rewrite (bind_Ok _ _ _ (cnode_satrt_idx m, spend m 0 1) s).
  2: { unfold alloc_cnode_idx, rassert. rewrite (proj2 (Z.leb_le _ _)) by lia.
       rewrite (bind_Ok _ _ _ tt s) by done.
       rewrite (bind_Ok _ _ _ _ _ (usize_add_Ok (cnode_satrt_idx m) 1 s ltac:(unfold W; lia))).
       destruct m as [[]]. unfold ret, spend, first_free, last_free. simpl. unfold upd; simpl; repeat f_equal; lia. }
  cbv beta iota. rewrite (bind_Ok _ _ _ tt (s <| heap := <[slot := OSlot (Some (new_with_rawcap c))]> (heap s) |>));
    [done|].
  unfold write_slot, capacity. destruct (Hsl (cnode_satrt_idx m) ltac:(lia)) as (Hn & _ & _).
  unfold unwrap_res. rewrite (bind_Ok _ _ _ _ _ (usize_pow2_Ok (radix cnode) s Hr)).
  rewrite (proj2 (Z.leb_gt _ _)) by lia.
  rewrite (bind_Ok _ _ _ _ _ (read_slot_Ok s (slot_addr cnode (cnode_satrt_idx m)) None
            ltac:(unfold slot_at; by rewrite Hn))).
  reflexivity.
Qed.

Lemma boot_inv_slot o :
  cnode_satrt_idx m ≤ cnode_idx_max m → boot_inv (<[slot := o]> h) pf root cnode (spend m 0 1).
Proof.
  intros Hle. destruct Hi as [Hsp Hrg Hpg Hidx Hfr Hsl].
  destruct (Hsl (cnode_satrt_idx m) ltac:(lia)) as (Hn & Hp & Hnf).
  split; [by apply space_insert| | | | |].
  - unfold spend, first_free, last_free in *. simpl. lia.
  - unfold spend. unfold first_free in *. simpl. by rewrite Z.mul_0_r, Z.add_0_r.
  - unfold spend. simpl. lia.
  - intros a Ha. assert (in_free m a) as Ha'.
    { unfold in_free, spend, first_free, last_free in *. simpl in Ha. lia. }
    rewrite lookup_insert_ne; [by apply Hfr|]. intros <-. done.
  - intros i Hb. unfold spend in Hb. simpl in Hb. destruct (Hsl i ltac:(lia)) as (H1 & H2 & H3).
    rewrite lookup_insert_ne; [|unfold slot, slot_addr, size_of_CNodeEntry; lia].
    split_and!; [done|done|]. intros Ha. apply H3.
    unfold in_free, spend, first_free, last_free in *. simpl in Ha. lia.
Qed.

Lemma slot_keeps o v :
  cnode_satrt_idx m ≤ cnode_idx_max m → is_user v →
  walk_at (<[slot := o]> h) [3; 2; 1] (cap_kva root) v = walk_at h [3; 2; 1] (cap_kva root) v ∧
  translate (<[slot := o]> h) (cap_kva root) v = translate h (cap_kva root) v.
Proof.
  intros Hle Hu. destruct (bi_slots _ _ _ _ _ Hi (cnode_satrt_idx m) ltac:(lia)) as (_ & Hp & _).
  by apply (translate_insert _ _ pf); [apply Hi| |].
Qed.
End Resources.

(** ** Creating page tables *)

Lemma set_pte_lookup_ne h t i w a : a ≠ t → set_pte t i w h !! a = h !! a.
Proof. intros. unfold set_pte. destruct (table_at h t); [|done]. by rewrite lookup_insert_ne. Qed.

(** The capability to a new page or table. *)
Definition fresh_cap (t : CapabilityType) (a : Z) : CapabilityData := cap_new t (phys_of_kva a) 0.

Lemma fresh_cap_unmapped t a : is_mapped (fresh_cap t a) = false.
Proof. rewrite is_mapped_testbit. unfold fresh_cap. rewrite cap_new_dep. apply Z.bits_0. Qed.

Lemma zero_table_empty h a : h !! a = None → empty_table h a.
Proof.
  intros Ha. exists PageTable_new. unfold table_at. rewrite Ha. split; [done|].
  split; [done|]. by apply Forall_replicate.
Qed.

Section Tables.
Context (root cnode : CapabilityData) (v : Z) (Hu : is_user v).

(** The state after a table was taken from the free memory, its capability
    stored and the table installed. *)
Definition table_installed (h : gmap Z kobject) (m : RootServerResourceManager) (l t : Z)
    : gmap Z kobject :=
  set_pte t (get_vpn v l) (pte_write (phys_of_kva (next_page m)) PAGE_V)
    (<[slot cnode m := OSlot (Some (new_with_rawcap (fresh_cap CapabilityType.PageTable (next_page m))))]> h).
Definition with_table (pf : gmap Z (Z * Z)) (m : RootServerResourceManager) (l : Z) : gmap Z (Z * Z) :=
  <[next_page m := (l - 1, position v (l - 1))]> pf.

Section Round.
Context (h : gmap Z kobject) (pf : gmap Z (Z * Z)) (m : RootServerResourceManager) (l t : Z).
Context (Hi : boot_inv h pf root cnode m) (Hst : stops h (cap_kva root) pf v l t).
Context (Hl : 1 ≤ l) (Hr : room_for m 1 1).

Lemma round_slot : cnode_satrt_idx m ≤ cnode_idx_max m.
Proof. destruct Hr. lia. Qed.
Lemma round_page : room_for m 1 0.
Proof. destruct Hr. split; lia. Qed.
Lemma page_not_slot i :
  cnode_satrt_idx m ≤ i ≤ cnode_idx_max m → next_page m ≠ slot_addr cnode i.
Proof.
  intros Hb Heq. destruct (bi_slots _ _ _ _ _ Hi i Hb) as (_ & _ & Hn). apply Hn. rewrite <- Heq.
  destruct Hr. unfold in_free, next_page. lia.
Qed.

(** The slot is written: nothing else changed for the space. *)
Lemma stored_stops o : stops (<[slot cnode m := o]> h) (cap_kva root) pf v l t.
Proof.
  destruct Hst as [Hw Hb Ht (pte & Hp & Hinv)].
  destruct (slot_keeps _ _ _ _ _ Hi o v round_slot Hu) as [Hw' _].
  split; [by rewrite Hw'|done|done|]. exists pte. split; [|done].
  rewrite pte_at_insert_ne; [done|]. intros <-.
  destruct (bi_slots _ _ _ _ _ Hi (cnode_satrt_idx m)) as (_ & Hn & _); [pose proof round_slot; lia|].
  unfold slot in Ht. congruence.
Qed.

Lemma stored_page_free o : (<[slot cnode m := o]> h) !! next_page m = None.
Proof.
  rewrite lookup_insert_ne; [by apply (next_page_free _ _ _ _ _ Hi round_page)|].
  symmetry. apply page_not_slot. pose proof round_slot. lia.
Qed.

Lemma stored_inv o : boot_inv (<[slot cnode m := o]> h) pf root cnode (spend m 0 1).
Proof. exact (boot_inv_slot _ _ _ _ _ Hi o round_slot). Qed.

Let w := pte_write (phys_of_kva (next_page m)) PAGE_V.

Lemma installed_pte : pte_is_valid w = true ∧ pte_as_page_table w = next_page m.
Proof.
  destruct (next_page_kva _ _ _ _ _ Hi round_page) as [Hk Ha]. split; [apply pte_write_valid_table|].
  by apply pte_as_page_table_write.
Qed.

Lemma installed_space : space (table_installed h m l t) (cap_kva root) (with_table pf m l).
Proof.
  destruct installed_pte as [Hwv Hwa]. apply install_space; try done.
  - apply (stored_inv _).
  - apply stored_stops.
  - apply (next_page_free _ _ _ _ _ Hi round_page).
  - apply zero_table_empty, stored_page_free.
Qed.

Lemma installed_translate v' :
  is_user v' → translate (table_installed h m l t) (cap_kva root) v' = translate h (cap_kva root) v'.
Proof.
  intros Hu'. destruct installed_pte as [Hwv Hwa]. unfold table_installed.
  rewrite (install_translate _ _ pf v l t (next_page m)); try done.
  - apply (slot_keeps _ _ _ _ _ Hi _ _ round_slot Hu').
  - apply (stored_inv _).
  - apply stored_stops.
  - apply (next_page_free _ _ _ _ _ Hi round_page).
  - apply zero_table_empty, stored_page_free.
Qed.

Lemma installed_stops : stops (table_installed h m l t) (cap_kva root) (with_table pf m l) v (l - 1) (next_page m).
Proof.
  destruct installed_pte as [Hwv Hwa]. split.
  - apply (install_extend _ _ pf v l t); try done.
    + apply (stored_inv _).
    + apply (next_page_free _ _ _ _ _ Hi round_page).
    + apply zero_table_empty, stored_page_free.
    + apply stored_stops.
  - destruct Hst. lia.
  - apply lookup_insert_eq.
  - exists 0. split; [|done]. unfold table_installed. rewrite pte_at_set_pte_ne.
    + unfold pte_at, table_at. rewrite stored_page_free. cbn [mbind option_bind].
      apply lookup_replicate. split; [done|]. pose proof (get_vpn_bound v (l - 1)). lia.
    + apply get_vpn_bound.
    + apply get_vpn_bound.
    + intros [= Heq _]. destruct (next_page_free _ _ _ _ _ Hi round_page) as [_ Hn].
      pose proof (st_table _ _ _ _ _ _ Hst). congruence.
Qed.

Lemma installed_inv : boot_inv (table_installed h m l t) (with_table pf m l) root cnode (spend m 1 1).
Proof.
  pose proof (stored_inv (OSlot (Some (new_with_rawcap (fresh_cap CapabilityType.PageTable (next_page m)))))) as Hs1.
  assert (room_for (spend m 0 1) 1 0) as Hr1.
  { destruct Hr. unfold room_for, spend, first_free, last_free in *. simpl. lia. }
  pose proof (boot_inv_page _ _ _ _ _ Hs1 Hr1) as Hs2. rewrite spend_spend in Hs2.
  pose proof (st_table _ _ _ _ _ _ Hst) as Ht.
  destruct Hs2 as [_ Hrg Hpg Hidx Hfr Hsl]. split; [exact installed_space|done|done|done| |].
  - intros a Ha. destruct (Hfr a Ha) as [H1 H2]. unfold table_installed, with_table.
    rewrite set_pte_lookup_ne by congruence. split; [done|].
    rewrite lookup_insert_ne; [done|]. intros <-.
    unfold in_free, next_page, spend, first_free in Ha. simpl in Ha. lia.
  - intros i Hb. destruct (Hsl i Hb) as (H1 & H2 & H3). unfold table_installed, with_table.
    rewrite set_pte_lookup_ne by congruence. split_and!; [done| |done].
    rewrite lookup_insert_ne; [done|]. apply page_not_slot. unfold spend in Hb. simpl in Hb. lia.
Qed.
End Round.

(** One round of the loop. *)
Lemma map_page_tables_round fuel s pf m l t :
  boot_inv (heap s) pf root cnode m → stops (heap s) (cap_kva root) pf v l t →
  1 ≤ l → room_for m 1 1 →
  map_page_tables (S fuel) cnode m root v s =
    (if l - 1 =? 0 then ret (spend m 1 1) else map_page_tables fuel cnode (spend m 1 1) root v)
      (s <| heap := table_installed (heap s) m l t |>).
Proof.
  intros Hi Hst Hl Hr. set (tc := fresh_cap CapabilityType.PageTable (next_page m)).
  pose proof (boot_inv_page _ _ _ _ _ Hi (round_page _ Hr)) as Hi1.
  destruct (next_page_kva _ _ _ _ _ Hi (round_page _ Hr)) as [Hk _].
  assert (slot cnode (spend m 1 0) = slot cnode m) as Hsl
    by (unfold slot, spend; simpl; by rewrite Z.add_0_r).
  cbn [map_page_tables]. rewrite (bind_Ok _ _ _ _ _ (alloc_page_Ok _ _ _ _ _ Hi s 1 Hr)).
  rewrite (bind_Ok _ _ _ tc s) by done. change (cap_replicate tc) with tc.
  rewrite (alloc_slot_Ok _ _ _ _ _ Hi1); [|done|].
  2: { pose proof (round_slot _ Hr). unfold spend. simpl. lia. }
  rewrite Hsl, spend_spend. change (1 + 0) with 1. change (0 + 1) with 1.
  pose proof (stored_stops _ _ _ _ _ Hi Hst Hr (OSlot (Some (new_with_rawcap tc)))) as Hst1.
  rewrite (bind_Ok _ _ _ (inl (l - 1, set_mapped tc v)) (s <| heap := table_installed (heap s) m l t |>)).
  { by destruct (l - 1 =? 0). }
  unfold try_, pt_cap_map. rewrite (fresh_cap_unmapped _ _ : is_mapped tc = false).
  rewrite (bind_Ok _ _ _ tt (s <| heap := <[slot cnode m := OSlot (Some (new_with_rawcap tc))]> (heap s) |>)) by done.
  erewrite bind_Ok.
  2: { apply (pt_map_Ok (s <| heap := <[slot cnode m := OSlot (Some (new_with_rawcap tc))]> (heap s) |>)
         _ _ _ l t (get_vpn v l)); [|done]. rewrite heap_set. exact (st_walk _ _ _ _ _ _ Hst1). }
  unfold ret. rewrite heap_set, heap_set_set. unfold table_installed. fold tc.
  replace (cap_kva tc) with (next_page m) by (symmetry; by apply cap_kva_new). done.
Qed.

(** As many tables as the walk has levels left. *)
Lemma map_page_tables_Ok n s pf m t fuel :
  boot_inv (heap s) pf root cnode m → stops (heap s) (cap_kva root) pf v (Z.of_nat (S n)) t →
  room_for m (Z.of_nat (S n)) (Z.of_nat (S n)) → (S n ≤ fuel)%nat →
  ∃ h' pf' t', map_page_tables fuel cnode m root v s =
      Ok (spend m (Z.of_nat (S n)) (Z.of_nat (S n))) (s <| heap := h' |>) ∧
    boot_inv h' pf' root cnode (spend m (Z.of_nat (S n)) (Z.of_nat (S n))) ∧
    stops h' (cap_kva root) pf' v 0 t' ∧
    ∀ v', is_user v' → translate h' (cap_kva root) v' = translate (heap s) (cap_kva root) v'.
Proof.
  revert s pf m t fuel. induction n as [|n IH]; intros s pf m t fuel Hi Hst Hr Hf.
  all: destruct fuel as [|fuel]; [lia|].
  all: assert (room_for m 1 1) as Hr1 by (destruct Hr; split; lia).
  all: rewrite (map_page_tables_round fuel s pf m _ t Hi Hst ltac:(lia) Hr1).
  all: match type of Hst with stops _ _ _ _ ?x _ => set (l := x) in Hst, Hr |- * end.
  all: assert (1 ≤ l) as Hl by lia.
  all: pose proof (installed_inv _ _ _ _ _ Hi Hst Hl Hr1) as Hi'.
  all: pose proof (installed_stops _ _ _ _ _ Hi Hst Hl Hr1) as Hst'.
  all: pose proof (installed_translate _ _ _ _ _ Hi Hst Hl Hr1) as Htr.
  - change (l - 1) with 0 in *. cbn [Z.eqb]. change l with 1 in *.
    exists (table_installed (heap s) m 1 t), (with_table pf m 1), (next_page m). done.
  - rewrite (proj2 (Z.eqb_neq _ _)) by lia. replace (l - 1) with (Z.of_nat (S n)) in * by lia.
    destruct (IH (s <| heap := table_installed (heap s) m l t |>) (with_table pf m l) (spend m 1 1)
                (next_page m) fuel) as (h' & pf' & t' & Hrun & Hi2 & Hst2 & Htr2);
      [by rewrite heap_set|by rewrite heap_set| |lia|].
    { destruct Hr. unfold room_for, spend, first_free, last_free in *. simpl. lia. }
    rewrite spend_spend in Hrun, Hi2. replace (1 + Z.of_nat (S n)) with l in * by lia.
    exists h', pf', t'. rewrite heap_set_set in Hrun. split_and!; [done|done|done|].
    intros v' Hu'. rewrite Htr2 by done. rewrite heap_set. by apply Htr.
Qed.
End Tables.

(** ** Creating a mapped page *)

Lemma boot_inv_map h pf root cnode m v t w :
  boot_inv h pf root cnode m → stops h (cap_kva root) pf v 0 t →
  boot_inv (set_pte t (get_vpn v 0) w h) pf root cnode m.
Proof.
  intros Hi Hst. pose proof (st_table _ _ _ _ _ _ Hst) as Ht.
  destruct Hi as [Hsp Hrg Hpg Hidx Hfr Hsl]. split; [by apply map_space|done|done|done| |].
  - intros a Ha. destruct (Hfr a Ha). rewrite set_pte_lookup_ne by congruence. done.
  - intros i Hb. destruct (Hsl i Hb) as (?&?&?). rewrite set_pte_lookup_ne by congruence. done.
Qed.

(** The address [v] maps to [page] with the given flags, and the addresses of
    other pages are translated as in [h]. *)
Record maps_page (h h' : gmap Z kobject) (root v page flags : Z) : Prop := {
  mp_pte : ∃ pte, translate h' root v = Some pte ∧ pte_as_page_table pte = page ∧
                  pte mod 2 ^ 10 = Z.lor flags PAGE_V;
  mp_others : ∀ v', is_user v' → v' / 4096 ≠ v / 4096 → translate h' root v' = translate h root v';
}.

Section CreatePage.
Context (root cnode : CapabilityData) (v page flags : Z).
Context (Hu : is_user v) (Hk : is_kva page) (Ha : page mod 4096 = 0) (Hf : 0 ≤ flags < 2 ^ 10).
Let pc := fresh_cap CapabilityType.Page page.

(** Mapping when the last-level table is there. *)
Lemma map_fresh_page s pf m t :
  boot_inv (heap s) pf root cnode m → stops (heap s) (cap_kva root) pf v 0 t →
  ∃ h', page_cap_map pc root v flags s = Ok (set_mapped pc v) (s <| heap := h' |>) ∧
        boot_inv h' pf root cnode m ∧ maps_page (heap s) h' (cap_kva root) v page flags.
Proof.
  intros Hi Hst. destruct (st_free _ _ _ _ _ _ Hst) as (old & Hold & Hinv).
  eexists. split; [|split].
  - apply (page_cap_map_Ok s pc root v flags t (get_vpn v 0) old);
      [apply fresh_cap_unmapped|apply Hst|done|done].
  - by apply boot_inv_map.
  - replace (cap_kva pc) with page by (symmetry; by apply cap_kva_new). split.
    + eexists. split; [|split].
      * apply (map_translate_self _ _ pf); [apply Hi|done|done|apply pte_write_valid].
      * apply pte_as_page_table_write; [done|done|by apply lor_flags_bound].
      * destruct (kva_phys_roundtrip _ Hk) as [_ Hph]. unfold is_phys in Hph.
        pose proof (lor_flags_bound _ Hf). rewrite pte_write_arith by lia.
        rewrite Z.add_comm, Z.mod_add by lia. by apply Z.mod_small.
    + intros v' Hu' Hne. by apply (map_translate _ _ pf); [apply Hi| | | |].
Qed.

Lemma create_mapped_page_Ok s pf m :
  boot_inv (heap s) pf root cnode m → translate (heap s) (cap_kva root) v = None → room_for m 3 3 →
  ∃ k h' pf', 0 ≤ k ≤ 3 ∧
    create_mapped_page_cap cnode root m page v flags s =
      Ok (set_mapped pc v, spend m k k) (s <| heap := h' |>) ∧
    boot_inv h' pf' root cnode (spend m k k) ∧
    maps_page (heap s) h' (cap_kva root) v page flags.
Proof.
  intros Hi Htr Hr. destruct (space_stops _ _ _ _ (bi_space _ _ _ _ _ Hi) Hu Htr) as (l & t & Hst).
  unfold create_mapped_page_cap. rewrite (bind_Ok _ _ _ pc s) by done.
  destruct (decide (l = 0)) as [->|Hl0].
  - destruct (map_fresh_page s pf m t Hi Hst) as (h' & Hrun & Hi' & Hmp).
    exists 0, h', pf. rewrite spend_0. split_and!; [lia|lia| |done|done].
    unfold try_. by erewrite bind_Ok by (by rewrite Hrun).
  - pose proof (st_level _ _ _ _ _ _ Hst) as Hl.
    assert (∃ n, l = Z.of_nat (S n) ∧ (S n ≤ 3)%nat) as (n & -> & Hn) by (exists (Z.to_nat (l - 1)); lia).
    destruct (map_page_tables_Ok root cnode v Hu n s pf m t TABLES_FUEL Hi Hst)
      as (h1 & pf1 & t1 & Hrun1 & Hi1 & Hst1 & Htr1); [destruct Hr; split; lia|done|].
    destruct (map_fresh_page (s <| heap := h1 |>) pf1 (spend m (Z.of_nat (S n)) (Z.of_nat (S n))) t1)
      as (h' & Hrun & Hi' & Hmp); [by rewrite heap_set|by rewrite heap_set|].
    exists (Z.of_nat (S n)), h', pf1. split_and!; [lia|lia| |done|].
    + rewrite (bind_Ok _ _ _ (inr (kerr_val ErrKind.PageTableNotMappedYet (Z.of_nat (S n)))) s).
      2: { unfold try_. by rewrite (page_cap_map_missing s pc root v flags _ _ _ (fresh_cap_unmapped _ _)
             (st_walk _ _ _ _ _ _ Hst) ltac:(lia)). }
      cbn [e_kind kerr_val]. rewrite (bind_Ok _ _ _ _ _ Hrun1).
      unfold unwrap_res. rewrite (bind_Ok _ _ _ (set_mapped pc v) (s <| heap := h' |>)); [done|].
      rewrite Hrun. by rewrite heap_set_set.
    + rewrite heap_set in Hmp. destruct Hmp as [Hp Ho]. split; [done|].
      intros v' Hu' Hne. rewrite Ho by done. by apply Htr1.
Qed.
End CreatePage.

(** ** Loading a segment *)

(** The bytes of the file that go to the frames of pages [i], [i + 1], ...: a
    full page each, but no more than the file holds. *)
Fixpoint segment_copies (src filesz i : Z) (frames : list Z) : list (Z * Z * Z) :=
  match frames with
  | [] => []
  | f :: frames' =>
      (if 4096 * i <? filesz then [(src + 4096 * i, f, Z.min 4096 (filesz - 4096 * i))] else [])
        ++ segment_copies src filesz (i + 1) frames'
  end.

Lemma boot_inv_spend_free m p i a : 0 ≤ p → in_free (spend m p i) a → in_free m a.
Proof. unfold in_free, spend, first_free, last_free. simpl. lia. Qed.

Section Segment.
Context (root cnode : CapabilityData) (vaddr src filesz flags : Z).
Context (Hv0 : 0 ≤ vaddr) (Hf : 0 ≤ flags < 2 ^ 10).
Let at_ (i : Z) : Z := vaddr + 4096 * i.

(** A mapper that works for this root and node. *)
Record mapper_ok (h : gmap Z kobject) (pf : gmap Z (Z * Z)) (mp : RootServerElfMapper) : Prop := {
  mo_inv : boot_inv h pf root cnode (root_rsc_mgr mp);
  mo_root : root_table_cap mp = root;
  mo_cnode : cnode_cap mp = cnode;
}.

Lemma max_vaddr_raised mp v :
  (if max_vaddr mp <? v then mp <| max_vaddr := v |> else mp) = mp <| max_vaddr := Z.max (max_vaddr mp) v |>.
Proof.
  destruct (Z.ltb_spec (max_vaddr mp) v); [by rewrite Z.max_r by lia|].
  rewrite Z.max_l by lia. by destruct mp.
Qed.

(** The copy of page [i], and what is left of the file after it. *)
Lemma copy_page (mp : RootServerElfMapper) f i (s : KState) :
  (if Z.max 0 (filesz - 4096 * i) =? 0 then ret (mp, Z.max 0 (filesz - 4096 * i))
   else load_bytes (src + 4096 * i) f (Z.min 4096 (Z.max 0 (filesz - 4096 * i))) ;;;
        ret (mp, Z.max 0 (Z.max 0 (filesz - 4096 * i) - 4096))) s =
  Ok (mp, Z.max 0 (filesz - 4096 * (i + 1))) (s <| loads := loads s ++ segment_copies src filesz i [f] |>).
Proof.
  cbn [segment_copies]. destruct (Z.ltb_spec (4096 * i) filesz) as [Hlt|Hge].
  - rewrite (proj2 (Z.eqb_neq _ _)) by lia. rewrite (Z.max_r 0 (filesz - 4096 * i)) by lia.
    replace (filesz - 4096 * i - 4096) with (filesz - 4096 * (i + 1)) by lia. reflexivity.
  - rewrite (Z.max_l 0 (filesz - 4096 * i)), (Z.max_l 0 (filesz - 4096 * (i + 1))) by lia.
    cbn [Z.eqb app]. rewrite app_nil_r. unfold ret. f_equal; by destruct s.
Qed.

(** Writing to the next free slot maps nothing. *)
Lemma maps_page_slot h h1 pf m o v page :
  boot_inv h1 pf root cnode m → cnode_satrt_idx m ≤ cnode_idx_max m → is_user v →
  maps_page h h1 (cap_kva root) v page flags →
  maps_page h (<[slot cnode m := o]> h1) (cap_kva root) v page flags.
Proof.
  intros Hi Hsl Hu [Hp Ho]. split.
  - destruct (slot_keeps _ _ _ _ _ Hi o v Hsl Hu) as [_ Hk]. by rewrite Hk.
  - intros v' Hu' Hne. destruct (slot_keeps _ _ _ _ _ Hi o v' Hsl Hu') as [_ Hk]. rewrite Hk. by apply Ho.
Qed.

Lemma map_program_page_Ok s pf mp i rem :
  mapper_ok (heap s) pf mp → 0 ≤ i → is_user (at_ i) → translate (heap s) (cap_kva root) (at_ i) = None →
  room_for (root_rsc_mgr mp) 4 4 → rem = Z.max 0 (filesz - 4096 * i) →
  ∃ k h' pf' mp', 0 ≤ k ≤ 3 ∧
    map_program_page vaddr src flags i mp rem s =
      Ok (mp', Z.max 0 (filesz - 4096 * (i + 1)))
         (s <| heap := h' |>
            <| loads := loads s ++ segment_copies src filesz i [next_page (root_rsc_mgr mp)] |>) ∧
    mapper_ok h' pf' mp' ∧ root_rsc_mgr mp' = spend (root_rsc_mgr mp) (1 + k) (k + 1) ∧
    max_vaddr mp' = Z.max (max_vaddr mp) (at_ i) ∧
    maps_page (heap s) h' (cap_kva root) (at_ i) (next_page (root_rsc_mgr mp)) flags.
Proof.
  intros [Hi Hrt Hcn] H0 Hu Htr Hr ->. set (m := root_rsc_mgr mp) in *.
  assert (room_for m 1 0) as Hr1 by (destruct Hr; split; lia).
  pose proof (boot_inv_page _ _ _ _ _ Hi Hr1) as Hi1.
  destruct (next_page_kva _ _ _ _ _ Hi Hr1) as [Hk Ha].
  destruct (create_mapped_page_Ok root cnode (at_ i) (next_page m) flags Hu Hk Ha Hf s pf (spend m 1 0) Hi1 Htr)
    as (k & h1 & pf1 & Hkb & Hrun & Hi2 & Hmp).
  { destruct Hr. unfold room_for, spend, first_free, last_free in *. simpl. lia. }
  rewrite spend_spend in Hrun, Hi2. replace (0 + k) with k in * by lia.
  set (pc := set_mapped (fresh_cap CapabilityType.Page (next_page m)) (at_ i)) in *.
  assert (cnode_satrt_idx (spend m (1 + k) k) ≤ cnode_idx_max (spend m (1 + k) k)) as Hsl.
  { destruct Hr. unfold spend. simpl. lia. }
  set (h2 := <[slot cnode (spend m (1 + k) k) := OSlot (Some (new_with_rawcap pc))]> h1).
  set (mp' := mp <| max_vaddr := Z.max (max_vaddr mp) (at_ i) |>
                 <| root_rsc_mgr := spend m (1 + k) (k + 1) |>).
  exists k, h2, pf1, mp'. split; [done|]. split_and!.
  - unfold map_program_page, addr_add. unfold is_user in Hu. subst at_. cbv beta in *.
    rewrite (bind_Ok _ _ _ _ _ (usize_mul_Ok PAGE_SIZE i s ltac:(unfold W, PAGE_SIZE; lia))).
    rewrite (bind_Ok _ _ _ _ _ (usize_add_Ok vaddr (PAGE_SIZE * i) s ltac:(unfold W, PAGE_SIZE; lia))).
    change PAGE_SIZE with 4096. set (vn := vaddr + 4096 * i) in *.
    rewrite max_vaddr_raised.
    change (root_rsc_mgr (mp <| max_vaddr := _ |>)) with m.
    change (cnode_cap (mp <| max_vaddr := _ |>)) with (cnode_cap mp).
    change (root_table_cap (mp <| max_vaddr := _ |>)) with (root_table_cap mp). rewrite Hrt, Hcn.
    rewrite (bind_Ok _ _ _ _ _ (alloc_page_Ok _ _ _ _ _ Hi s 0 Hr1)).
    rewrite (bind_Ok _ _ _ _ _ Hrun).
    rewrite (alloc_slot_Ok h1 pf1 root cnode (spend m (1 + k) k) Hi2) by (done || by rewrite heap_set).
    rewrite spend_spend, heap_set_set. replace (1 + k + 0) with (1 + k) by lia.
    assert (cap_kva pc = next_page m) as -> by (subst pc; unfold set_mapped; by apply cap_kva_new).
    exact (copy_page mp' (next_page m) i (s <| heap := h2 |>)).
  - split; [|done|done]. change (root_rsc_mgr mp') with (spend m (1 + k) (k + 1)).
    pose proof (boot_inv_slot _ _ _ _ _ Hi2 (OSlot (Some (new_with_rawcap pc))) Hsl) as Hi3.
    rewrite spend_spend in Hi3. by replace (1 + k + 0) with (1 + k) in Hi3 by lia.
  - done.
  - done.
  - by apply (maps_page_slot _ _ pf1).
Qed.

(** Frame [f] holds page [i] of the segment. *)
Definition holds_page (h : gmap Z kobject) (i f : Z) : Prop :=
  f mod 4096 = 0 ∧
  ∃ pte, translate h (cap_kva root) (at_ i) = Some pte ∧ pte_as_page_table pte = f ∧
         pte mod 2 ^ 10 = Z.lor flags PAGE_V.

Lemma at_page i j : at_ i / 4096 = at_ j / 4096 → i = j.
Proof.
  subst at_. cbv beta. rewrite !(Z.mul_comm 4096), !Z.div_add by lia. lia.
Qed.

Lemma map_program_pages_Ok n s pf mp i :
  mapper_ok (heap s) pf mp → 0 ≤ i →
  (∀ j, i ≤ j < i + Z.of_nat n →
     is_user (at_ j) ∧ translate (heap s) (cap_kva root) (at_ j) = None) →
  room_for (root_rsc_mgr mp) (4 * Z.of_nat n) (4 * Z.of_nat n) →
  ∃ frames h' pf' mp', length frames = n ∧
    map_program_pages vaddr src flags (seqZ i (Z.of_nat n)) mp (Z.max 0 (filesz - 4096 * i)) s =
      Ok mp' (s <| heap := h' |> <| loads := loads s ++ segment_copies src filesz i frames |>) ∧
    mapper_ok h' pf' mp' ∧ max_vaddr mp ≤ max_vaddr mp' ∧
    NoDup frames ∧ Forall (in_free (root_rsc_mgr mp)) frames ∧
    (∀ j f, frames !! j = Some f →
       at_ (i + Z.of_nat j) ≤ max_vaddr mp' ∧ holds_page h' (i + Z.of_nat j) f) ∧
    (∀ v', is_user v' → (∀ j, i ≤ j < i + Z.of_nat n → v' / 4096 ≠ at_ j / 4096) →
       translate h' (cap_kva root) v' = translate (heap s) (cap_kva root) v').
Proof.
  revert s pf mp i. induction n as [|n IH]; intros s pf mp i Hmo H0 Hpg Hr.
  { exists [], (heap s), pf, mp. cbn [map_program_pages segment_copies]. rewrite app_nil_r.
    split_and!; try done; [by destruct s|apply NoDup_nil_2]. }
  destruct (Hpg i ltac:(lia)) as [Hu Htr].
  destruct (map_program_page_Ok s pf mp i (Z.max 0 (filesz - 4096 * i)) Hmo H0 Hu Htr) as
    (k & h1 & pf1 & mp1 & Hk & Hrun1 & Hmo1 & Hm1 & Hmax1 & [(pte & Hp1 & Hp2 & Hp3) Hoth1]); [|done|].
  { destruct Hr. split; lia. }
  set (f := next_page (root_rsc_mgr mp)) in *.
  assert (in_free (root_rsc_mgr mp) f) as Hff.
  { destruct Hr. subst f. unfold in_free, next_page. lia. }
  assert (f mod 4096 = 0) as Hfa.
  { apply (next_page_kva _ _ _ _ _ (mo_inv _ _ _ Hmo)). destruct Hr. split; lia. }
  set (s1 := s <| heap := h1 |> <| loads := _ |>) in *.
  assert (∀ j, i + 1 ≤ j < i + 1 + Z.of_nat n → at_ j / 4096 ≠ at_ i / 4096) as Hne.
  { intros j Hj Heq. apply at_page in Heq. lia. }
  destruct (IH s1 pf1 mp1 (i + 1)) as
    (frames & h' & pf' & mp' & Hlen & Hrun & Hmo' & Hmax & Hnd & Hfr & Hall & Hoth); [done|lia| | |].
  { intros j Hj. destruct (Hpg j ltac:(lia)) as [Huj Htj]. split; [done|].
    change (heap s1) with h1. rewrite Hoth1; [done|done|by apply Hne]. }
  { rewrite Hm1. destruct Hr. unfold room_for, spend, first_free, last_free in *. simpl. lia. }
  exists (f :: frames), h', pf', mp'. split_and!.
  - by rewrite <- Hlen.
  - rewrite seqZ_cons by lia. replace (Z.succ i) with (i + 1) by lia.
    replace (Z.pred (Z.of_nat (S n))) with (Z.of_nat n) by lia. cbn [map_program_pages].
    rewrite (bind_Ok _ _ _ _ _ Hrun1), Hrun. subst s1. cbn [segment_copies].
    rewrite app_nil_r, app_assoc. reflexivity.
  - done.
  - lia.
  - apply NoDup_cons_2; [|done]. intros Hin. rewrite Forall_forall in Hfr. specialize (Hfr f Hin).
    rewrite Hm1 in Hfr. subst f. unfold in_free, next_page, spend, first_free in Hfr. simpl in Hfr. lia.
  - apply Forall_cons. split; [done|]. eapply Forall_impl; [exact Hfr|].
    intros a Ha. rewrite Hm1 in Ha. by apply (boot_inv_spend_free _ (1 + k) (k + 1)); [lia|].
  - intros [|j] g Hg; simpl in Hg.
    + injection Hg as <-. replace (i + Z.of_nat 0) with i by lia. split; [lia|]. split; [done|].
      exists pte. split; [|done]. rewrite Hoth; [done|done|].
      intros j Hj Heq. symmetry in Heq. by apply Hne in Heq.
    + destruct (Hall j g Hg) as [Ha Hb]. by replace (i + Z.of_nat (S j)) with (i + 1 + Z.of_nat j) by lia.
  - intros v' Hu' Hv'. rewrite Hoth; [|done|intros j Hj; apply Hv'; lia].
    change (heap s1) with h1. apply Hoth1; [done|]. apply Hv'. lia.
Qed.
End Segment.

(** C16: loading a segment. For a segment whose pages are user addresses not
    mapped yet, [map_program] gives every page of its memory size a frame of
    its own, taken from the free memory; afterwards each page translates to its
    frame with the segment's flags, addresses of other pages translate as
    before, and the bytes of the file, and no more, were copied to the frames
    of their pages; four pages of free memory and four free slots per page of
    the segment are always enough. *)
Theorem map_program_maps s pf mp vaddr src memsz filesz flags :
  let n := (memsz + 4095) / 4096 in
  let root := cap_kva (root_table_cap mp) in
  boot_inv (heap s) pf (root_table_cap mp) (cnode_cap mp) (root_rsc_mgr mp) →
  0 ≤ vaddr → 0 ≤ flags < 2 ^ 10 → 0 ≤ filesz → 0 ≤ memsz < 2 ^ 47 →
  (∀ i, 0 ≤ i < n → is_user (vaddr + 4096 * i) ∧ translate (heap s) root (vaddr + 4096 * i) = None) →
  room_for (root_rsc_mgr mp) (4 * n) (4 * n) →
  ∃ frames h' pf' mp',
    map_program mp vaddr src memsz filesz flags s =
      Ok mp' (s <| heap := h' |> <| loads := loads s ++ segment_copies src filesz 0 frames |>) ∧
    boot_inv h' pf' (root_table_cap mp) (cnode_cap mp) (root_rsc_mgr mp') ∧
    Z.of_nat (length frames) = n ∧ NoDup frames ∧ Forall (in_free (root_rsc_mgr mp)) frames ∧
    (∀ i f, frames !! i = Some f →
       vaddr + 4096 * Z.of_nat i ≤ max_vaddr mp' ∧
       holds_page (root_table_cap mp) vaddr flags h' (Z.of_nat i) f) ∧
    (∀ v', is_user v' → (∀ i, 0 ≤ i < n → v' / 4096 ≠ (vaddr + 4096 * i) / 4096) →
       translate h' root v' = translate (heap s) root v').
Proof.
  cbv zeta. intros Hi Hv Hf Hfs Hms Hpg Hr. set (n := (memsz + 4095) / 4096) in *.
  assert (0 ≤ n) as Hn by (apply Z.div_pos; lia).
  destruct (align_up_spec (E := KernelError) memsz PAGE_SIZE s) as (r & Hr1 & Hr2 & Hr3);
    [lia|by exists 12|unfold W, PAGE_SIZE; lia|].
  assert (r / PAGE_SIZE = n) as Hrn.
  { subst n. unfold PAGE_SIZE in *. Z.div_mod_to_equations. lia. }
  destruct (map_program_pages_Ok (root_table_cap mp) (cnode_cap mp) vaddr src filesz flags Hv Hf
              (Z.to_nat n) s pf mp 0) as
    (frames & h' & pf' & mp' & Hlen & Hrun & [Hi' _ _] & _ & Hnd & Hfr & Hall & Hoth).
  - done.
  - lia.
  - intros j Hj. apply Hpg. lia.
  - by rewrite Z2Nat.id.
  - rewrite Z2Nat.id in Hrun, Hoth by done. exists frames, h', pf', mp'. split_and!; try done; [|lia].
    unfold map_program. rewrite (bind_Ok _ _ _ _ _ Hr1), Hrn.
    rewrite Z.mul_0_r, Z.sub_0_r, Z.max_r in Hrun by lia. exact Hrun.
Qed.

(** A page for any address. Whatever tables are missing, creating a page
    at a user address that is not mapped ends after at most three new tables;
    the address then translates to the page with the requested flags, every
    other page is mapped as before, the tables still form one space, and each
    table took one page of memory and one slot. *)
Lemma create_mapped_page_maps s pf root cnode m page v flags :
  boot_inv (heap s) pf root cnode m → is_user v → translate (heap s) (cap_kva root) v = None →
  is_kva page → page mod 4096 = 0 → 0 ≤ flags < 2 ^ 10 → room_for m 3 3 →
  ∃ k h' pf' pte, 0 ≤ k ≤ 3 ∧
    create_mapped_page_cap cnode root m page v flags s =
      Ok (set_mapped (fresh_cap CapabilityType.Page page) v, spend m k k) (s <| heap := h' |>) ∧
    boot_inv h' pf' root cnode (spend m k k) ∧
    translate h' (cap_kva root) v = Some pte ∧ pte_as_page_table pte = page ∧
    pte mod 2 ^ 10 = Z.lor flags PAGE_V ∧
    ∀ v', is_user v' → v' / 4096 ≠ v / 4096 →
      translate h' (cap_kva root) v' = translate (heap s) (cap_kva root) v'.
Proof.
  intros Hi Hu Htr Hk Ha Hf Hr.
  destruct (create_mapped_page_Ok root cnode v page flags Hu Hk Ha Hf s pf m Hi Htr Hr)
    as (k & h' & pf' & Hkb & Hrun & Hi' & [(pte & H1 & H2 & H3) Ho]).
  exists k, h', pf', pte. done.
Qed.
