(* ===== verification/BootAsm.v ===== *)
(** * The first instructions ([kernel/src/boot.S], [kernel/src/kernel.ld])

    The boot assembly as lists of instructions with an interpreter, the
    translation of addresses the processor performs, and what the tables of the
    boot and those of [kernel_vm_init] translate: the code that runs stays
    where it is when paging is switched on and when the tables are replaced. *)

From S2P Require Import Prelude Shared Address Objects PageTable Boot.

(** ** Sv48 address translation *)

(** Of an entry: the physical address, and whether it is a leaf. *)
Definition pte_phys (pte : Z) : Z := (pte / 2 ^ 10) mod 2 ^ 44 * 4096.
Definition pte_is_leaf (pte : Z) : bool := negb (Z.land pte (Z.lor PAGE_R PAGE_X) =? 0).

(** The walk of the processor, where [rd] reads an entry of the table at a
    physical address: a leaf of level [l] maps 2^(12+9l) bytes and has to be
    aligned to them. The result is the physical address and the flags. The
    accessed and dirty bits are left to the processor. *)
Fixpoint sv48_levels (rd : Z → Z → option Z) (levels : list Z) (table va : Z) : option (Z * Z) :=
  match levels with
  | [] => None
  | l :: levels' =>
      pte ← rd table (get_vpn va l);
      if negb (pte_is_valid pte) || negb (Z.shiftr pte 54 =? 0) then None
      else if pte_is_leaf pte then
        let page := 2 ^ (12 + 9 * l) in
        if pte_phys pte mod page =? 0 then Some (pte_phys pte + va mod page, pte mod 2 ^ 10) else None
      else sv48_levels rd levels' (pte_phys pte) va
  end.
(** Bits 63 to 47 of an address are equal. *)
Definition canonical (va : Z) : bool := (va <? 2 ^ 47) || (W - 2 ^ 47 <=? va).
Definition sv48 (rd : Z → Z → option Z) (satp va : Z) : option (Z * Z) :=
  if (satp / 2 ^ 60 =? 9) && canonical va then sv48_levels rd [3; 2; 1; 0] (satp mod 2 ^ 44 * 4096) va else None.

(** ** The processor at boot *)

Record hart := { regs : Registers; words : Z → Z; h_satp : Z; h_sie : Z; h_sip : Z; pc : Z }.
#[export] Instance hart_eta : Eta hart := λ m,
  {| regs := regs m; words := words m; h_satp := h_satp m; h_sie := h_sie m; h_sip := h_sip m; pc := pc m |}.

Inductive BootCsr := CsrSatp | CsrSie | CsrSip.
Inductive BootInstr :=
  | La (rd : Register) (sym : Z)                   (* la rd, sym *)
  | Lit (rd : Register) (sym : Z)                  (* the literal of LA_FAR and JUMP_ABS *)
  | Li (rd : Register) (imm : Z)
  | Srli (rd rs : Register) (shamt : Z)
  | Slli (rd rs : Register) (shamt : Z)
  | Andi (rd rs : Register) (imm : Z)
  | Addi (rd rs : Register) (imm : Z)
  | Add (rd rs1 rs2 : Register)
  | Or (rd rs1 rs2 : Register)
  | Sd0 (rs2 rs1 : Register)                       (* sd rs2, 0(rs1) *)
  | CsrW (csr : BootCsr) (rs : option Register)    (* csrw csr, rs; None is zero *)
  | SfenceVma
  | Jr (rs : Register).                            (* jr rs; jalr zero, 0(rs) *)

Definition get (m : hart) (r : Register) : Z := regs_index (regs m) r.
Definition put (r : Register) (v : Z) (m : hart) : hart := m <| regs ::= λ f, regs_index_mut f r v |>.
Definition poke (f : Z → Z) (a v : Z) (x : Z) : Z := if x =? a then v else f x.

Definition boot_step (m : hart) (i : BootInstr) : hart :=
  match i with
  | La rd sym | Lit rd sym => put rd sym m
  | Li rd imm => put rd imm m
  | Srli rd rs n => put rd (Z.shiftr (get m rs) n) m
  | Slli rd rs n => put rd (Z.shiftl (get m rs) n mod W) m
  | Andi rd rs imm => put rd (Z.land (get m rs) imm) m
  | Addi rd rs imm => put rd ((get m rs + imm) mod W) m
  | Add rd rs1 rs2 => put rd ((get m rs1 + get m rs2) mod W) m
  | Or rd rs1 rs2 => put rd (Z.lor (get m rs1) (get m rs2)) m
  | Sd0 rs2 rs1 => m <| words ::= λ f, poke f (get m rs1) (get m rs2) |>
  | CsrW CsrSatp rs => m <| h_satp := default 0 (get m <$> rs) |>
  | CsrW CsrSie rs => m <| h_sie := default 0 (get m <$> rs) |>
  | CsrW CsrSip rs => m <| h_sip := default 0 (get m <$> rs) |>
  | SfenceVma => m
  | Jr rs => m <| pc := get m rs |>
  end.
(** A list of instructions up to its jump. *)
Fixpoint boot_exec (code : list BootInstr) (m : hart) : hart :=
  match code with
  | [] => m
  | Jr rs :: _ => boot_step m (Jr rs)
  | i :: code' => boot_exec code' (boot_step m i)
  end.

(** ** [boot.S] *)

Definition PAGE_SHIFT : Z := 12.
Definition PTE_VALID : Z := Z.shiftl 1 0.
Definition PTE_READ : Z := Z.shiftl 1 1.
Definition PTE_WRITE : Z := Z.shiftl 1 2.
Definition PTE_EXECUTE : Z := Z.shiftl 1 3.
Definition SATP_MODE_SV48 : Z := 9.
Definition SATP_MODE_SHIFT : Z := 60.
(** Of [kernel.ld]. *)
Definition RAM_START : Z := 0x80000000.
Definition KERNEL_CODE_VIRTUAL : Z := 0xffffffff80000000.

(** The labels and linker symbols the code uses. *)
Record BootSymbols := {
  abs_start : Z;
  page_kernel_level_3 : Z;
  page_init_id_lvl2 : Z;
  page_kernel_lvl2 : Z;
  free_ram : Z;               (* __free_ram_phys *)
  free_ram_end : Z;           (* __free_ram_end_phys *)
  global_pointer : Z;
  stack_top : Z;
  main : Z;                   (* _kernel_main *)
}.

Definition JUMP_ABS (target : Z) : list BootInstr := [Lit Register.T0 target; Jr Register.T0].
Definition LA_FAR (reg : Register) (sym : Z) : list BootInstr := [Lit reg sym].
Definition PPN (reg : Register) (sym : Z) : list BootInstr := [La reg sym; Srli reg reg PAGE_SHIFT].
Definition VPN_OFFSET_FROM_T1 (lvl : Z) : list BootInstr :=
  [Srli Register.T1 Register.T1 (12 + 9 * lvl); Andi Register.T1 Register.T1 0x1ff; Slli Register.T1 Register.T1 3].
Definition WRITE_PTE (pt : Z) (ppn_reg : Register) (flags : Z) : list BootInstr :=
  [La Register.T0 pt; Add Register.T0 Register.T0 Register.T1;
   Slli ppn_reg ppn_reg 10; Addi ppn_reg ppn_reg flags; Sd0 ppn_reg Register.T0].
Definition PTE_SET (pt va_sym lvl : Z) (ppn_reg : Register) (flags : Z) : list BootInstr :=
  [La Register.T1 va_sym] ++ VPN_OFFSET_FROM_T1 lvl ++ WRITE_PTE pt ppn_reg flags.
Definition PTE_SET_FAR (pt va_sym lvl : Z) (ppn_reg : Register) (flags : Z) : list BootInstr :=
  LA_FAR Register.T1 va_sym ++ VPN_OFFSET_FROM_T1 lvl ++ WRITE_PTE pt ppn_reg flags.
Definition PTE_LEAF : Z := Z.lor (Z.lor (Z.lor PTE_VALID PTE_EXECUTE) PTE_READ) PTE_WRITE.

Section Code.
Context (sym : BootSymbols).

Definition boot : list BootInstr := JUMP_ABS (abs_start sym).

Definition boot_tables : list BootInstr :=
  PPN Register.T2 (page_init_id_lvl2 sym) ++
  PTE_SET (page_kernel_level_3 sym) RAM_START 3 Register.T2 PTE_VALID ++
  PPN Register.T2 RAM_START ++
  PTE_SET (page_init_id_lvl2 sym) RAM_START 2 Register.T2 PTE_LEAF ++
  PPN Register.T2 (page_kernel_lvl2 sym) ++
  PTE_SET_FAR (page_kernel_level_3 sym) KERNEL_CODE_VIRTUAL 3 Register.T2 PTE_VALID ++
  PPN Register.T2 RAM_START ++
  PTE_SET_FAR (page_kernel_lvl2 sym) KERNEL_CODE_VIRTUAL 2 Register.T2 PTE_LEAF.
Definition enable_paging : list BootInstr :=
  [Li Register.T1 SATP_MODE_SV48; Slli Register.T1 Register.T1 SATP_MODE_SHIFT] ++
  PPN Register.T0 (page_kernel_level_3 sym) ++
  [Or Register.T0 Register.T0 Register.T1; SfenceVma; CsrW CsrSatp (Some Register.T0); SfenceVma].
(** All but [sp] and the first three arguments. *)
Definition cleared : list Register :=
  [Register.Ra; Register.Gp; Register.Tp; Register.T0; Register.T1; Register.T2; Register.S0; Register.S1;
   Register.A3; Register.A4; Register.A5; Register.A6; Register.A7; Register.S2; Register.S3; Register.S4; Register.S5;
   Register.S6; Register.S7; Register.S8; Register.S9; Register.S10; Register.S11; Register.T3; Register.T4;
   Register.T5; Register.T6].
Definition enter_kernel : list BootInstr :=
  ((λ r, Li r 0) <$> cleared) ++
  LA_FAR Register.A2 (free_ram sym) ++ LA_FAR Register.A3 (free_ram_end sym) ++
  LA_FAR Register.Gp (global_pointer sym) ++ LA_FAR Register.Sp (stack_top sym) ++
  LA_FAR Register.T0 (main sym) ++ [Jr Register.T0].
Definition abs_start_code : list BootInstr :=
  [CsrW CsrSie None; CsrW CsrSip None] ++ boot_tables ++ enable_paging ++ enter_kernel.

(** From the label [boot] to [_kernel_main]. *)
Definition boot_run (m : hart) : hart :=
  let m1 := boot_exec boot m in
  if pc m1 =? abs_start sym then boot_exec abs_start_code m1 else m1.
End Code.

(** ** What the assembly does *)

(** The linker script and [DEFINE_PAGE]: three pages of their own in the first
    gigabyte of memory. *)
Record boot_layout (sym : BootSymbols) : Prop := {
  bl_root : page_kernel_level_3 sym mod 4096 = 0 ∧ RAM_START ≤ page_kernel_level_3 sym < RAM_START + GIGAPAGE;
  bl_id : page_init_id_lvl2 sym mod 4096 = 0 ∧ RAM_START ≤ page_init_id_lvl2 sym < RAM_START + GIGAPAGE;
  bl_code : page_kernel_lvl2 sym mod 4096 = 0 ∧ RAM_START ≤ page_kernel_lvl2 sym < RAM_START + GIGAPAGE;
  bl_apart : NoDup [page_kernel_level_3 sym; page_init_id_lvl2 sym; page_kernel_lvl2 sym];
}.

Lemma poke_eq f a v : poke f a v a = v.
Proof. unfold poke. by rewrite Z.eqb_refl. Qed.
Lemma poke_ne f a v x : x ≠ a → poke f a v x = f x.
Proof. intros Hx. unfold poke. by rewrite (proj2 (Z.eqb_neq _ _) Hx). Qed.

(** One entry: [PPN] and [PTE_SET]. *)
Definition entry_word (target flags : Z) : Z := target / 4096 * 1024 + flags.
Lemma pte_set_address pt va lvl :
  0 ≤ pt < 2 ^ 32 → 0 ≤ lvl →
  (pt + Z.shiftl (Z.land (Z.shiftr va (12 + 9 * lvl)) 0x1ff) 3 mod W) mod W = pt + 8 * get_vpn va lvl.
Proof.
  intros Hpt Hl. pose proof (get_vpn_bound va lvl) as Hb. unfold get_vpn in *.
  replace (12 + lvl * 9) with (12 + 9 * lvl) in * by lia. set (i := Z.land _ 0x1ff) in *.
  rewrite Z.shiftl_mul_pow2 by lia. change (2 ^ 3) with 8. unfold W.
  rewrite (Z.mod_small (i * 8)) by lia. rewrite Z.mod_small by lia. lia.
Qed.
Lemma pte_set_word target flags :
  0 ≤ target < 2 ^ 32 → 0 ≤ flags < 1024 →
  (Z.shiftl (Z.shiftr target PAGE_SHIFT) 10 mod W + flags) mod W = entry_word target flags.
Proof.
  intros Ht Hf. unfold PAGE_SHIFT, entry_word. rewrite Z.shiftl_mul_pow2, Z.shiftr_div_pow2 by lia.
  change (2 ^ 12) with 4096. change (2 ^ 10) with 1024.
  assert (0 ≤ target / 4096 < 2 ^ 20) by (Z.div_mod_to_equations; lia). unfold W.
  rewrite (Z.mod_small (_ * 1024)) by lia. by rewrite Z.mod_small by lia.
Qed.

(** What an entry leaves in memory and in the control registers; [t0], [t1] and
    [t2] are used. *)
Definition wrote (m : hart) (a v : Z) (m' : hart) : Prop :=
  words m' = poke (words m) a v ∧ h_satp m' = h_satp m ∧ h_sie m' = h_sie m ∧ h_sip m' = h_sip m ∧
  ∃ x y z, regs m' = (regs m) <| t0 := x |> <| t1 := y |> <| t2 := z |>.
Lemma exec_entry (far : bool) pt va lvl target flags rest m :
  0 ≤ pt < 2 ^ 32 → 0 ≤ lvl → 0 ≤ target < 2 ^ 32 → 0 ≤ flags < 1024 →
  ∃ m', boot_exec (PPN Register.T2 target ++ (if far then PTE_SET_FAR else PTE_SET) pt va lvl Register.T2 flags ++ rest) m =
      boot_exec rest m' ∧
    wrote m (pt + 8 * get_vpn va lvl) (entry_word target flags) m'.
Proof.
  intros Hpt Hl Ht Hf. rewrite <- (pte_set_address pt va lvl Hpt Hl), <- (pte_set_word target flags Ht Hf).
  set (a := (pt + _) mod W). set (w := (_ + flags) mod W).
  exists {| regs := (regs m) <| t0 := a |> <| t1 := Z.shiftl (Z.land (Z.shiftr va (12 + 9 * lvl)) 0x1ff) 3 mod W |> <| t2 := w |>;
            words := poke (words m) a w; h_satp := h_satp m; h_sie := h_sie m; h_sip := h_sip m; pc := pc m |}.
  split; [|split_and!; try done; by eexists _, _, _].
  clear. destruct m as [[] f sa si sp p].
  destruct far; unfold PTE_SET_FAR, PTE_SET, PPN, LA_FAR, VPN_OFFSET_FROM_T1, WRITE_PTE; cbn [app boot_exec boot_step put get regs_index regs_index_mut regs words h_satp h_sie h_sip pc]; unfold put; cbn; reflexivity.
Qed.

(** The entry at the front of the code. *)
Ltac exec_entry_as m' W E P R :=
  let x := fresh "x" in let y := fresh "y" in let z := fresh "z" in
  match goal with
  | |- context [boot_exec (PPN Register.T2 ?target ++ PTE_SET ?pt ?va ?lvl Register.T2 ?flags ++ ?rest) ?m] =>
      destruct (exec_entry false pt va lvl target flags rest m) as (m' & -> & W & _ & E & P & x & y & z & R)
  | |- context [boot_exec (PPN Register.T2 ?target ++ PTE_SET_FAR ?pt ?va ?lvl Register.T2 ?flags ++ ?rest) ?m] =>
      destruct (exec_entry true pt va lvl target flags rest m) as (m' & -> & W & _ & E & P & x & y & z & R)
  end.

(** The registers [kernel_main] is entered with: its four arguments, the stack
    and the global pointer; what the firmware left elsewhere is gone. *)
Definition entered (sym : BootSymbols) (r : Registers) : Registers :=
  Registers_null <| a0 := a0 r |> <| a1 := a1 r |> <| a2 := free_ram sym |> <| a3 := free_ram_end sym |>
    <| gp := global_pointer sym |> <| sp := stack_top sym |> <| t0 := main sym |>
    <| scause := scause r |> <| sstatus := sstatus r |> <| sepc := sepc r |>.
Lemma exec_enter sym m :
  boot_exec (enable_paging sym ++ enter_kernel sym) m =
    m <| h_satp := Z.lor (Z.shiftr (page_kernel_level_3 sym) 12) SATP_SV48 |> <| regs := entered sym (regs m) |> <| pc := main sym |>.
Proof.
  change SATP_SV48 with (Z.shiftl SATP_MODE_SV48 SATP_MODE_SHIFT mod W). destruct m as [[] f sa si sp p].
  unfold enable_paging, enter_kernel, PPN, LA_FAR, cleared, entered, PAGE_SHIFT.
  cbn [app fmap list_fmap boot_exec boot_step get regs_index regs words h_satp h_sie h_sip pc default]. unfold put. cbn. reflexivity.
Qed.

(** The words of the tables after the four entries. *)
Definition boot_words (sym : BootSymbols) (f : Z → Z) : Z → Z :=
  poke (poke (poke (poke f
    (page_kernel_level_3 sym + 8 * 0) (entry_word (page_init_id_lvl2 sym) 1))
    (page_init_id_lvl2 sym + 8 * 2) (entry_word RAM_START 15))
    (page_kernel_level_3 sym + 8 * 511) (entry_word (page_kernel_lvl2 sym) 1))
    (page_kernel_lvl2 sym + 8 * 510) (entry_word RAM_START 15).

Section Run.
Context (sym : BootSymbols) (Hl : boot_layout sym).

Lemma boot_run_result m :
  ∃ m', boot_run sym m = m' ∧ words m' = boot_words sym (words m) ∧ h_satp m' = Z.lor (Z.shiftr (page_kernel_level_3 sym) 12) SATP_SV48 ∧
    h_sie m' = 0 ∧ h_sip m' = 0 ∧ regs m' = entered sym (regs m) ∧ pc m' = main sym.
Proof.
  destruct Hl as [[_ Hr] [_ Hi] [_ Hk] _]. unfold RAM_START, GIGAPAGE in Hr, Hi, Hk. change (2 ^ (9 + 9 + 12)) with 0x40000000 in *.
  unfold boot_run. set (m1 := boot_exec (boot sym) m).
  assert (pc m1 = abs_start sym) as -> by done. rewrite Z.eqb_refl. unfold abs_start_code, boot_tables.
  change (boot_exec ([CsrW CsrSie None; CsrW CsrSip None] ++ ?c) m1) with (boot_exec c (m1 <| h_sie := 0 |> <| h_sip := 0 |>)).
  set (m2 := m1 <| h_sie := 0 |> <| h_sip := 0 |>). rewrite <- !app_assoc.
  exec_entry_as m3 W3 E3 P3 R3; [lia|lia|lia|done|]. exec_entry_as m4 W4 E4 P4 R4; [lia|lia|done|done|].
  exec_entry_as m5 W5 E5 P5 R5; [lia|lia|lia|done|]. exec_entry_as m6 W6 E6 P6 R6; [lia|lia|done|done|].
  rewrite exec_enter. eexists. split; [reflexivity|].
  split; [change (words m6 = boot_words sym (words m)); by rewrite W6, W5, W4, W3|]. split; [done|].
  split; [change (h_sie m6 = 0); by rewrite E6, E5, E4, E3|]. split; [change (h_sip m6 = 0); by rewrite P6, P5, P4, P3|].
  split; [|done]. change (entered sym (regs m6) = entered sym (regs m)). rewrite R6, R5, R4, R3. by destruct m as [[] ? ? ? ? ?].
Qed.

(** The tables: one entry for the identity, one for the kernel's code. *)
Context (f : Z → Z).
Notation root := (page_kernel_level_3 sym).
Notation id2 := (page_init_id_lvl2 sym).
Notation code2 := (page_kernel_lvl2 sym).
Context (Hz : ∀ p i, p ∈ [root; id2; code2] → 0 ≤ i < 512 → f (p + 8 * i) = 0).

Lemma boot_word p i :
  p ∈ [root; id2; code2] → 0 ≤ i < 512 →
  boot_words sym f (p + 8 * i) =
    if p =? root then if i =? 0 then entry_word id2 1 else if i =? 511 then entry_word code2 1 else 0
    else if p =? id2 then if i =? 2 then entry_word RAM_START 15 else 0
    else if i =? 510 then entry_word RAM_START 15 else 0.
Proof.
  intros Hp Hi. pose proof Hl as [[Ar _] [Ai _] [Ak _] [Hn1 [Hn2 _]%NoDup_cons]%NoDup_cons].
  rewrite !not_elem_of_cons in Hn1. rewrite not_elem_of_cons in Hn2. destruct Hn1 as (N1 & N2 & _), Hn2 as (N3 & _).
  apply Z.mod_divide in Ar as [r Ar], Ai as [d Ai], Ak as [k Ak]; try done. pose proof (Hz p i Hp Hi) as H0.
  unfold boot_words, poke.
  rewrite !elem_of_cons, elem_of_nil in Hp. destruct Hp as [->|[->|[->|[]]]];
    repeat match goal with |- context [?a =? ?b] => destruct (Z.eqb_spec a b) end; try done; lia.
Qed.
End Run.

Lemma entry_word_spec target flags :
  target mod 4096 = 0 → 0 ≤ target < 2 ^ 56 → 0 ≤ flags < 1024 →
  pte_phys (entry_word target flags) = target ∧ entry_word target flags mod 2 ^ 10 = flags ∧
  Z.shiftr (entry_word target flags) 54 = 0 ∧ ∀ mask, 0 ≤ mask < 1024 → Z.land (entry_word target flags) mask = Z.land flags mask.
Proof.
  intros Ha Ht Hf. unfold pte_phys, entry_word. change (2 ^ 10) with 1024.
  assert (0 ≤ target / 4096 < 2 ^ 44) as Hq by (Z.div_mod_to_equations; lia).
  pose proof (Z.div_mod target 4096 ltac:(done)) as Hdm. rewrite Ha in Hdm.
  split_and!.
  - rewrite Z.div_add_l, (Z.div_small flags), Z.add_0_r by lia. rewrite Z.mod_small by lia. lia.
  - rewrite Z.add_comm, Z.mod_add, Z.mod_small by lia. done.
  - rewrite Z.shiftr_div_pow2 by lia. apply Z.div_small. lia.
  - intros mask Hm. change 1024 with (2 ^ 10) in *. apply Z.bits_inj_iff'. intros j Hj. rewrite !Z.land_spec.
    destruct (Z.lt_ge_cases j 10) as [Hlt|Hge].
    + f_equal. rewrite <- (Z.mod_pow2_bits_low _ 10 j) by lia. rewrite Z.add_comm, Z.mod_add, Z.mod_small by lia. done.
    + rewrite (Z.bits_above_log2 mask j), !andb_false_r; [done|lia|].
      destruct (Z.eq_dec mask 0) as [->|]; [simpl; lia|]. pose proof (proj1 (Z.log2_lt_pow2 mask 10 ltac:(lia)) ltac:(lia)). lia.
Qed.

(** ** What the tables translate *)

Section Walk.
Context (rd : Z → Z → option Z) (l : Z) (ls : list Z) (table va target flags : Z).
Context (Ha : target mod 4096 = 0) (Ht : 0 ≤ target < 2 ^ 56) (Hf : 0 ≤ flags < 1024) (Hv : Z.land flags 1 = 1).
Context (Hrd : rd table (get_vpn va l) = Some (entry_word target flags)).

Lemma entry_valid : pte_is_valid (entry_word target flags) = true.
Proof.
  destruct (entry_word_spec target flags Ha Ht Hf) as (_ & _ & _ & Hm). unfold pte_is_valid. change PAGE_V with 1.
  by rewrite Hm, Hv by lia.
Qed.
Lemma sv48_table : Z.land flags 10 = 0 → sv48_levels rd (l :: ls) table va = sv48_levels rd ls target va.
Proof.
  intros H10. destruct (entry_word_spec target flags Ha Ht Hf) as (Hp & _ & Hs & Hm). cbn [sv48_levels]. rewrite Hrd. cbn [mbind option_bind].
  rewrite entry_valid, Hs. unfold pte_is_leaf. change (Z.lor PAGE_R PAGE_X) with 10. by rewrite Hm, H10, Hp by lia.
Qed.
Lemma sv48_leaf :
  Z.land flags 10 = 10 → target mod 2 ^ (12 + 9 * l) = 0 →
  sv48_levels rd (l :: ls) table va = Some (target + va mod 2 ^ (12 + 9 * l), flags).
Proof.
  intros H10 Hal. destruct (entry_word_spec target flags Ha Ht Hf) as (Hp & Hfl & Hs & Hm). cbn [sv48_levels]. rewrite Hrd. cbn [mbind option_bind].
  rewrite entry_valid, Hs. unfold pte_is_leaf. change (Z.lor PAGE_R PAGE_X) with 10. rewrite Hm, H10, Hp by lia.
  cbn [negb orb Z.eqb]. rewrite Hal, Hfl. done.
Qed.
End Walk.
Lemma sv48_invalid rd l ls table va : rd table (get_vpn va l) = Some 0 → sv48_levels rd (l :: ls) table va = None.
Proof. intros Hrd. cbn [sv48_levels]. by rewrite Hrd. Qed.

Lemma satp_fields root :
  root mod 4096 = 0 → 0 ≤ root < 2 ^ 56 →
  Z.lor (Z.shiftr root 12) SATP_SV48 / 2 ^ 60 = 9 ∧ Z.lor (Z.shiftr root 12) SATP_SV48 mod 2 ^ 44 * 4096 = root.
Proof.
  intros Ha Hr. rewrite Z.shiftr_div_pow2 by lia. change (2 ^ 12) with 4096.
  assert (0 ≤ root / 4096 < 2 ^ 44) as Hq by (Z.div_mod_to_equations; lia).
  pose proof (Z.div_mod root 4096 ltac:(done)) as Hdm. rewrite Ha in Hdm.
  assert (Z.lor (root / 4096) SATP_SV48 = root / 4096 + 9 * 2 ^ 60) as ->.
  { unfold SATP_SV48. rewrite Z.lor_comm, lor_shiftl_add by lia. lia. }
  split; Z.div_mod_to_equations; lia.
Qed.

(** Reading tables from memory. *)
Definition read_words (f : Z → Z) (table i : Z) : option Z := Some (f (table + 8 * i)).

(** Addresses by their indices. *)
Ltac by_indices :=
  rewrite ?get_vpn_arith by lia; unfold canonical, W, RAM_START, KERNEL_CODE_VIRTUAL, KERNEL_CODE_PFX, GIGAPAGE in *;
  change (2 ^ (12 + 3 * 9)) with 549755813888; change (2 ^ (12 + 2 * 9)) with 1073741824;
  change (2 ^ (12 + 9 * 2)) with 1073741824; change (2 ^ (9 + 9 + 12)) with 1073741824 in *;
  change (2 ^ 47) with 140737488355328 in *; change (2 ^ 64) with 18446744073709551616 in *;
  try match goal with H : _ || _ = true |- _ => apply orb_true_iff in H; rewrite Z.ltb_lt, Z.leb_le in H end;
  Z.div_mod_to_equations; lia.
Lemma id_gigabyte va : 0 ≤ va < W → canonical va = true →
  get_vpn va 3 = 0 → get_vpn va 2 = 2 → RAM_START ≤ va < RAM_START + GIGAPAGE.
Proof. intros Hva Hc. rewrite !get_vpn_arith by lia. intros H3 H2. revert H3 H2. by_indices. Qed.
Lemma in_id_gigabyte va : RAM_START ≤ va < RAM_START + GIGAPAGE →
  canonical va = true ∧ get_vpn va 3 = 0 ∧ get_vpn va 2 = 2 ∧ va mod 2 ^ (12 + 9 * 2) = va - RAM_START.
Proof.
  intros Hr. split; [unfold canonical; rewrite (proj2 (Z.ltb_lt _ _)); [done|]|split_and!]; by_indices.
Qed.
Lemma code_gigabyte va : 0 ≤ va < W → canonical va = true →
  get_vpn va 3 = 511 → get_vpn va 2 = 510 → KERNEL_CODE_VIRTUAL ≤ va < KERNEL_CODE_VIRTUAL + GIGAPAGE.
Proof. intros Hva Hc. rewrite !get_vpn_arith by lia. intros H3 H2. revert H3 H2. by_indices. Qed.
Lemma in_code_gigabyte va : KERNEL_CODE_VIRTUAL ≤ va < KERNEL_CODE_VIRTUAL + GIGAPAGE →
  canonical va = true ∧ get_vpn va 3 = 511 ∧ get_vpn va 2 = 510 ∧ va mod 2 ^ (12 + 9 * 2) = va - KERNEL_CODE_VIRTUAL.
Proof.
  intros Hr. split; [unfold canonical; rewrite (proj2 (Z.leb_le _ _)); [by rewrite orb_true_r|]|split_and!]; by_indices.
Qed.
(** The kernel's own translation of the addresses of its image. *)
Lemma code_phys va : KERNEL_CODE_PFX ≤ va < W → Z.land va (usize_not KERNEL_CODE_PFX) = va - KERNEL_CODE_PFX.
Proof.
  intros Hv. change (usize_not KERNEL_CODE_PFX) with (Z.ones 32). rewrite Z.land_ones by lia.
  change (2 ^ 32) with 4294967296. unfold KERNEL_CODE_PFX, W in *. change (2 ^ 64) with 18446744073709551616 in *. Z.div_mod_to_equations; lia.
Qed.

Section Maps.
Context (sym : BootSymbols) (Hl : boot_layout sym) (f : Z → Z).
Notation root := (page_kernel_level_3 sym).
Notation id2 := (page_init_id_lvl2 sym).
Notation code2 := (page_kernel_lvl2 sym).
Context (Hz : ∀ p i, p ∈ [root; id2; code2] → 0 ≤ i < 512 → f (p + 8 * i) = 0).
(** Memory with these tables in it. *)
Context (g : Z → Z) (Hg : ∀ p i, p ∈ [root; id2; code2] → 0 ≤ i < 512 → g (p + 8 * i) = boot_words sym f (p + 8 * i)).
Notation rd := (read_words g).

Lemma boot_walk_root va l ls : 0 ≤ l →
  sv48_levels rd (l :: ls) root va =
    if get_vpn va l =? 0 then sv48_levels rd ls id2 va
    else if get_vpn va l =? 511 then sv48_levels rd ls code2 va else None.
Proof.
  intros Hl0. pose proof (get_vpn_bound va l) as Hb. pose proof Hl as [_ [Ai Bi] [Ak Bk] _]. unfold RAM_START, GIGAPAGE in Bi, Bk.
  pose proof (boot_word sym Hl f Hz root (get_vpn va l) ltac:(rewrite !elem_of_cons; tauto) Hb) as Hw. rewrite Z.eqb_refl in Hw.
  destruct (get_vpn va l =? 0); [|destruct (get_vpn va l =? 511)].
  - apply (sv48_table _ _ _ _ _ _ 1); try done; [lia|]. unfold read_words. by rewrite Hg, Hw by (rewrite ?elem_of_cons; tauto || done).
  - apply (sv48_table _ _ _ _ _ _ 1); try done; [lia|]. unfold read_words. by rewrite Hg, Hw by (rewrite ?elem_of_cons; tauto || done).
  - apply sv48_invalid. unfold read_words. by rewrite Hg, Hw by (rewrite ?elem_of_cons; tauto || done).
Qed.
Lemma boot_walk_id va :
  sv48_levels rd [2; 1; 0] id2 va =
    if get_vpn va 2 =? 2 then Some (RAM_START + va mod 2 ^ (12 + 9 * 2), PTE_LEAF) else None.
Proof.
  pose proof (get_vpn_bound va 2) as Hb. pose proof Hl as [_ _ _ [Hn1 _]%NoDup_cons]. rewrite !not_elem_of_cons in Hn1.
  pose proof (boot_word sym Hl f Hz id2 (get_vpn va 2) ltac:(rewrite !elem_of_cons; tauto) Hb) as Hw.
  rewrite (proj2 (Z.eqb_neq id2 root)), Z.eqb_refl in Hw by (intros Heq; by apply (proj1 Hn1)).
  destruct (get_vpn va 2 =? 2).
  - apply (sv48_leaf _ _ _ _ _ _ 15); try done. unfold read_words. by rewrite Hg, Hw by (rewrite ?elem_of_cons; tauto || done).
  - apply sv48_invalid. unfold read_words. by rewrite Hg, Hw by (rewrite ?elem_of_cons; tauto || done).
Qed.
Lemma boot_walk_code va :
  sv48_levels rd [2; 1; 0] code2 va =
    if get_vpn va 2 =? 510 then Some (RAM_START + va mod 2 ^ (12 + 9 * 2), PTE_LEAF) else None.
Proof.
  pose proof (get_vpn_bound va 2) as Hb. pose proof Hl as [_ _ _ [Hn1 [Hn2 _]%NoDup_cons]%NoDup_cons].
  rewrite !not_elem_of_cons in Hn1. rewrite not_elem_of_cons in Hn2. destruct Hn1 as (_ & N1 & _), Hn2 as (N2 & _).
  pose proof (boot_word sym Hl f Hz code2 (get_vpn va 2) ltac:(rewrite !elem_of_cons; tauto) Hb) as Hw.
  rewrite (proj2 (Z.eqb_neq code2 root)), (proj2 (Z.eqb_neq code2 id2)) in Hw by done.
  destruct (get_vpn va 2 =? 510).
  - apply (sv48_leaf _ _ _ _ _ _ 15); try done. unfold read_words. by rewrite Hg, Hw by (rewrite ?elem_of_cons; tauto || done).
  - apply sv48_invalid. unfold read_words. by rewrite Hg, Hw by (rewrite ?elem_of_cons; tauto || done).
Qed.
Lemma boot_translates va :
  0 ≤ va < W →
  sv48 rd (Z.lor (Z.shiftr root 12) SATP_SV48) va =
    if decide (RAM_START ≤ va < RAM_START + GIGAPAGE) then Some (va, PTE_LEAF)
    else if decide (KERNEL_CODE_VIRTUAL ≤ va < KERNEL_CODE_VIRTUAL + GIGAPAGE)
    then Some (Z.land va (usize_not KERNEL_CODE_PFX), PTE_LEAF) else None.
Proof.
  intros Hva. pose proof Hl as [[Ar Br] _ _ _]. unfold RAM_START, GIGAPAGE in Br.
  unfold sv48. destruct (satp_fields root Ar) as [-> ->]; [lia|].
  change (9 =? 9) with true. cbn [andb]. rewrite boot_walk_root, boot_walk_id, boot_walk_code by done.
  case_decide as Hid; [|case_decide as Hco].
  - destruct (in_id_gigabyte va Hid) as (-> & -> & -> & ->). cbn. do 2 f_equal. lia.
  - destruct (in_code_gigabyte va Hco) as (-> & -> & -> & ->). cbn [Z.eqb]. do 2 f_equal.
    rewrite code_phys; unfold RAM_START, KERNEL_CODE_VIRTUAL, KERNEL_CODE_PFX, GIGAPAGE, W in *; lia.
  - destruct (canonical va) eqn:Hc; [|done]. destruct (Z.eqb_spec (get_vpn va 3) 0) as [H3|_].
    + destruct (Z.eqb_spec (get_vpn va 2) 2) as [H2|_]; [|done]. by destruct Hid; apply id_gigabyte.
    + destruct (Z.eqb_spec (get_vpn va 3) 511) as [H3|_]; [|done].
      destruct (Z.eqb_spec (get_vpn va 2) 510) as [H2|_]; [|done]. by destruct Hco; apply code_gigabyte.
Qed.
End Maps.

(** [kernel_main] begins by clearing the words of the bss section. *)
Definition clear_bss (bss bss_end : Z) (f : Z → Z) : Z → Z := λ a, if (bss <=? a) && (a <? bss_end) then 0 else f a.
Lemma clear_bss_outside bss bss_end f a : ¬ bss ≤ a < bss_end → clear_bss bss bss_end f a = f a.
Proof. intros Ha. unfold clear_bss. destruct (Z.leb_spec bss a), (Z.ltb_spec a bss_end); done || lia. Qed.

(** A word outside the three pages. *)
Definition in_tables (sym : BootSymbols) (a : Z) : Prop :=
  ∃ p i, p ∈ [page_kernel_level_3 sym; page_init_id_lvl2 sym; page_kernel_lvl2 sym] ∧ 0 ≤ i < 512 ∧ a = p + 8 * i.

(** C20: the boot assembly leaves the kernel where it was linked. From any state of
    the registers, and the three table pages zeroed, the code ends at
    [_kernel_main] with the free memory in its third and fourth argument, the
    stack and the global pointer set, the arguments of the firmware kept and
    every other register cleared (but [t0], which holds the address of
    [_kernel_main]), interrupts off and paging on. The tables map
    exactly two gigabytes, readable, writable and executable: memory at its own
    address, where the boot code runs, and at the kernel's addresses, each of
    which is translated to the physical address the kernel computes for it.
    Nothing outside the tables is written, and they translate the same after
    [kernel_main] has cleared the bss section, which they are not part of. *)
Theorem boot_code_maps sym m bss bss_end :
  boot_layout sym → (∀ a, in_tables sym a → words m a = 0 ∧ ¬ bss ≤ a < bss_end) →
  let m' := boot_run sym m in
  pc m' = main sym ∧ regs m' = entered sym (regs m) ∧ h_sie m' = 0 ∧ h_sip m' = 0 ∧
  (∀ a, ¬ in_tables sym a → words m' a = words m a) ∧
  (∀ f va, f = words m' ∨ f = clear_bss bss bss_end (words m') → 0 ≤ va < W →
    sv48 (read_words f) (h_satp m') va =
      if decide (RAM_START ≤ va < RAM_START + GIGAPAGE) then Some (va, PTE_LEAF)
      else if decide (KERNEL_CODE_VIRTUAL ≤ va < KERNEL_CODE_VIRTUAL + GIGAPAGE)
      then Some (Z.land va (usize_not KERNEL_CODE_PFX), PTE_LEAF) else None).
Proof.
  intros Hl Hz m'. destruct (boot_run_result sym Hl m) as (m1 & Hm & Hw & Hs & He & Hi & Hr & Hp).
  assert (m' = m1) as -> by exact Hm. split_and!; try done.
  - intros a Ha. rewrite Hw. assert (∀ p i, p ∈ [page_kernel_level_3 sym; page_init_id_lvl2 sym; page_kernel_lvl2 sym] →
      0 ≤ i < 512 → a ≠ p + 8 * i) as Hne by (intros p i ? ? ->; apply Ha; by exists p, i).
    unfold boot_words. rewrite !poke_ne; try done; apply Hne; (lia || rewrite !elem_of_cons; tauto).
  - intros f va Hf Hva. rewrite Hs. apply (boot_translates sym Hl (words m)); [|intros p i Hpi Hii|done].
    + intros p i Hpi Hii. apply Hz. by exists p, i.
    + rewrite <- Hw. destruct Hf as [->| ->]; [done|]. apply clear_bss_outside, Hz. by exists p, i.
Qed.

(** ** The tables of [kernel_vm_init] *)

(** The static tables of the kernel are in its image: the table at a physical
    address is the one linked at the address of the image above it. *)
Definition image_tables (h : gmap Z kobject) (table i : Z) : option Z := pte_at h (table + KERNEL_CODE_PFX) i.

Lemma pte_write_entry phys flags : 0 ≤ phys < 2 ^ 56 → 0 ≤ flags < 1024 → pte_write phys flags = entry_word phys flags.
Proof. intros Hp Hf. by rewrite pte_write_arith by done. Qed.

Lemma window_address p :
  is_phys p → canonical (kva_of_phys p) = true ∧ kva_of_phys p mod SUPERPAGE = p mod SUPERPAGE.
Proof.
  intros Hp. rewrite kva_of_phys_add by done. unfold is_phys in Hp. split.
  - unfold canonical. rewrite (proj2 (Z.leb_le _ _)); [by rewrite orb_true_r|]. unfold W, KERNEL_V_ADDR_PFX. lia.
  - replace KERNEL_V_ADDR_PFX with (0x1ffff00 * SUPERPAGE) by reflexivity. by rewrite Z.add_comm, Z.mod_add.
Qed.
Lemma image_address va :
  KERNEL_CODE_PFX ≤ va < W →
  canonical va = true ∧ get_vpn va 3 = 511 ∧
  Z.land (va / GIGAPAGE * GIGAPAGE) (usize_not KERNEL_CODE_PFX) = va / GIGAPAGE * GIGAPAGE - KERNEL_CODE_PFX ∧
  KERNEL_CODE_PFX ≤ va / GIGAPAGE * GIGAPAGE.
Proof.
  intros Hv. assert (KERNEL_CODE_PFX ≤ va / GIGAPAGE * GIGAPAGE ≤ va) as Hg.
  { unfold KERNEL_CODE_PFX in *. change GIGAPAGE with 1073741824. Z.div_mod_to_equations; lia. }
  split; [|split; [by apply text_vpn|split; [apply code_phys; lia|lia]]].
  unfold canonical. rewrite (proj2 (Z.leb_le _ _)); [by rewrite orb_true_r|]. unfold KERNEL_CODE_PFX, W in *. lia.
Qed.

Section Kernel.
Context `{KernelLayout}.

(** The linker places the static tables, which are aligned, in the image. *)
Record tables_placed : Prop := {
  tp_root : KERNEL_VM_ROOT mod 4096 = 0 ∧ KERNEL_CODE_PFX ≤ KERNEL_VM_ROOT < W;
  tp_lv2 : LV2TABLE mod 4096 = 0 ∧ KERNEL_CODE_PFX ≤ LV2TABLE < W;
  tp_apart : LV2TABLE ≠ KERNEL_VM_ROOT;
}.

Lemma image_page a :
  a mod 4096 = 0 → KERNEL_CODE_PFX ≤ a < W →
  Z.land a (usize_not KERNEL_CODE_PFX) = a - KERNEL_CODE_PFX ∧ (a - KERNEL_CODE_PFX) mod 4096 = 0 ∧ 0 ≤ a - KERNEL_CODE_PFX < 2 ^ 56.
Proof.
  intros Ha Hp. split; [by apply code_phys|]. unfold KERNEL_CODE_PFX, W in *. split; [Z.div_mod_to_equations|]; lia.
Qed.

Section Translate.
Context (h : gmap Z kobject) (root' lv2' : list Z) (Htp : tables_placed).
Context (Hroot : h !! KERNEL_VM_ROOT = Some (OPageTable root')) (Hlv : h !! LV2TABLE = Some (OPageTable lv2')).
Notation root_satp := (Z.lor SATP_SV48 (Z.shiftr (Z.land KERNEL_VM_ROOT (usize_not KERNEL_CODE_PFX)) 12)).

Lemma image_root i : image_tables h (KERNEL_VM_ROOT - KERNEL_CODE_PFX) i = root' !! Z.to_nat i.
Proof. unfold image_tables. rewrite Z.sub_add. unfold pte_at. by rewrite (table_at_Some _ _ _ Hroot). Qed.
Lemma image_lv2 i : image_tables h (LV2TABLE - KERNEL_CODE_PFX) i = lv2' !! Z.to_nat i.
Proof. unfold image_tables. rewrite Z.sub_add. unfold pte_at. by rewrite (table_at_Some _ _ _ Hlv). Qed.
Lemma sv48_image va :
  canonical va = true →
  sv48 (image_tables h) root_satp va = sv48_levels (image_tables h) [3; 2; 1; 0] (KERNEL_VM_ROOT - KERNEL_CODE_PFX) va.
Proof.
  intros Hcan. destruct Htp as [[Ar Br] _ _]. destruct (image_page _ Ar Br) as (-> & Ar' & Br').
  rewrite Z.lor_comm. destruct (satp_fields _ Ar' Br') as [Hmode Hppn]. unfold sv48. by rewrite Hmode, Hppn, Hcan.
Qed.

Lemma window_translates p :
  0 ≤ p < 2 ^ 47 → root' !! Z.to_nat (get_vpn (kva_of_phys p) 3) = Some (window_pte p) →
  sv48 (image_tables h) root_satp (kva_of_phys p) = Some (p, flag true).
Proof.
  intros Hp Hw. destruct (window_address p Hp) as [Hcan Hmod]. rewrite sv48_image by done.
  assert (0 ≤ p / SUPERPAGE * SUPERPAGE ≤ p) as Hq by (change SUPERPAGE with 549755813888; Z.div_mod_to_equations; lia).
  rewrite (sv48_leaf _ 3 _ _ _ (p / SUPERPAGE * SUPERPAGE) (flag true)); try done.
  - change (2 ^ (12 + 9 * 3)) with SUPERPAGE. rewrite Hmod. do 2 f_equal. pose proof (Z.div_mod p SUPERPAGE ltac:(done)). lia.
  - change SUPERPAGE with (2 ^ 27 * 4096). rewrite Z.mul_assoc. by apply Z.mod_mul.
  - lia.
  - rewrite image_root, Hw. unfold window_pte. by rewrite pte_write_entry by (done || lia).
  - by apply Z.mod_mul.
Qed.

Lemma image_translates va :
  KERNEL_CODE_PFX ≤ va < W → lv2' !! Z.to_nat (get_vpn va 2) = Some (code_pte va) →
  root' !! 511%nat = Some (pte_write (Z.land LV2TABLE (usize_not KERNEL_CODE_PFX)) (flag false)) →
  sv48 (image_tables h) root_satp va = Some (Z.land va (usize_not KERNEL_CODE_PFX), flag true).
Proof.
  intros Hva Hi Hc. destruct (image_address va Hva) as (Hcan & H3 & Hg & Hge).
  destruct Htp as [_ [Al Bl] _]. destruct (image_page _ Al Bl) as (El & Al' & Bl'). rewrite El, pte_write_entry in Hc by done.
  rewrite sv48_image, (sv48_table _ 3 _ _ _ (LV2TABLE - KERNEL_CODE_PFX) (flag false)); try done.
  2: { rewrite image_root, H3. exact Hc. }
  set (g := va / GIGAPAGE * GIGAPAGE) in *.
  assert (g ≤ va) as Hgv by (unfold g; change GIGAPAGE with 1073741824; Z.div_mod_to_equations; lia).
  assert ((g - KERNEL_CODE_PFX) mod GIGAPAGE = 0) as Hgm.
  { unfold g. change KERNEL_CODE_PFX with (0x3fffffffc * GIGAPAGE). rewrite <- Z.mul_sub_distr_r. by apply Z.mod_mul. }
  rewrite (sv48_leaf _ 2 _ _ _ (g - KERNEL_CODE_PFX) (flag true)); try done.
  - rewrite code_phys by lia. change (2 ^ (12 + 9 * 2)) with GIGAPAGE. do 2 f_equal. unfold g.
    pose proof (Z.div_mod va GIGAPAGE ltac:(done)). lia.
  - revert Hgm. change GIGAPAGE with 1073741824. clear. intros. Z.div_mod_to_equations; lia.
  - unfold W, KERNEL_CODE_PFX in *. lia.
  - rewrite image_lv2, Hi. unfold code_pte. fold g. rewrite Hg, pte_write_entry; [done| |done]. unfold W, KERNEL_CODE_PFX in *. lia.
Qed.
End Translate.

(** C21: [kernel_vm_init] takes the address space over. It succeeds, and with its
    tables the processor translates every address of the kernel's window to
    the physical address it stands for, and every address of the kernel's
    image, from the start of the text to the end of the data, to the physical
    address it was loaded at, which is where the tables of the boot had it: the
    code that switches tables goes on with the next instruction. *)
Theorem kernel_tables_map text data_end fin s root lv2 :
  tables_placed → heap s !! KERNEL_VM_ROOT = Some (OPageTable root) → length root = 512%nat →
  heap s !! LV2TABLE = Some (OPageTable lv2) → length lv2 = 512%nat →
  0 < fin ≤ 2 ^ 47 - SUPERPAGE → KERNEL_CODE_PFX ≤ text → data_end ≤ W → text < data_end →
  ∃ s', kernel_vm_init text data_end fin s = Ok tt s' ∧
    (∀ p, 0 ≤ p < fin → sv48 (image_tables (heap s')) (satp s') (kva_of_phys p) = Some (p, flag true)) ∧
    (∀ va, text ≤ va < data_end →
       sv48 (image_tables (heap s')) (satp s') va = Some (Z.land va (usize_not KERNEL_CODE_PFX), flag true)).
Proof.
  intros Htp Hroot Hrl Hlv Hll Hfin Htext Hend Hlt.
  destruct (kernel_vm_init_tables text data_end fin s root lv2) as (s' & root' & lv2' & Hrun & Hr' & Hl' & Hs' & Hw & Hc & Hi);
    [done..|apply Htp|done|lia|done|].
  exists s'. split; [done|]. rewrite Hs'. split; intros a Ha.
  - apply (window_translates _ root'); [done|done| |by apply Hw]. change SUPERPAGE with 549755813888 in *. lia.
  - apply (image_translates _ root' lv2'); [done|done|done|lia|by apply Hi|done].
Qed.
End Kernel.
