(* ===== verification/VSpace.v ===== *)
(** * Address spaces as finite maps

    What the page and page-table capabilities of
    [kernel/src/capability/page_table.rs] promise: an address space is a map
    from pages to entries, and a set of tables that are in place. The operations
    on it, errors included, refine operations on these maps; the trees of
    tables in memory are those of [BootSpace]. Also what the kernel does not
    prevent: mappings in its own half, and a table in two address spaces. *)

From S2P Require Import Prelude Shared Address Objects Riscv LinkedList Capability PageTable CNode.
From S2P Require Import Thread RoundRobin Ipc Untyped Trap Boot Elf RootServer BootSpace.

(** ** The abstract state *)

(** The mapped pages by root table and page number, the tables in place by root
    table, level and position, and the tables that were never used. *)
Record VState := {
  va_pages : gmap (Z * Z) Z;
  va_tables : gset (Z * Z * Z);
  va_pool : gset Z;
}.
#[export] Instance VState_eta : Eta VState := λ a,
  {| va_pages := va_pages a; va_tables := va_tables a; va_pool := va_pool a |}.

Definition present (a : VState) (root v l : Z) : bool := bool_decide ((root, l, position v l) ∈ va_tables a).
(** The level at which the walk for [v] stops. *)
Definition missing (a : VState) (root v : Z) : Z :=
  if negb (present a root v 2) then 3
  else if negb (present a root v 1) then 2
  else if negb (present a root v 0) then 1
  else 0.

(** ** Requests *)

Inductive VReq :=
  | VMapPage (c root : CapabilityData) (v flags : Z)
  | VUnmapPage (c root : CapabilityData)
  | VMapTable (c root : CapabilityData) (v : Z)
  | VMakeRoot (c : CapabilityData).

(** The answer of a request and the updated capability. *)
Definition VAnswer : Type := KernelError + option Z * CapabilityData.

Section Layout.
Context `{KernelLayout}.

Definition exec_req (r : VReq) : K (option Z * CapabilityData) :=
  match r with
  | VMapPage c root v flags => let* c' := page_cap_map c root v flags in ret (None, c')
  | VUnmapPage c root => let* c' := page_cap_unmap c root in ret (None, c')
  | VMapTable c root v => let* '(l, c') := pt_cap_map c root v in ret (Some l, c')
  | VMakeRoot c => let* c' := make_as_root c in ret (None, c')
  end.

Definition page_entry (c : CapabilityData) (flags : Z) : Z :=
  pte_write (phys_of_kva (cap_kva c)) (Z.lor flags PAGE_V).
Definition spec_req (r : VReq) (a : VState) : VAnswer * VState :=
  match r with
  | VMapPage c root v flags =>
      let key := (cap_kva root, v / 4096) in
      let m := missing a (cap_kva root) v in
      if is_mapped c then (inl (kerr ErrKind.PageAlreadyMapped), a)
      else if negb (m =? 0) then (inl (kerr_val ErrKind.PageTableNotMappedYet m), a)
      else match va_pages a !! key with
           | Some _ => (inl (kerr ErrKind.VaddressAlreadyMapped), a)
           | None => (inr (None, set_mapped c v), a <| va_pages ::= <[key := page_entry c flags]> |>)
           end
  | VUnmapPage c root =>
      let v := get_mapped_address c in
      let key := (cap_kva root, v / 4096) in
      let m := missing a (cap_kva root) v in
      if negb (is_mapped c) then (inl (kerr ErrKind.PageNotMappedYet), a)
      else if negb (m =? 0) then (inl (kerr_val ErrKind.PageTableNotMappedYet m), a)
      else match va_pages a !! key with
           | None => (inl (kerr ErrKind.PageNotMappedYet), a)
           | Some pte =>
               if cap_kva c =? pte_as_page_table pte
               then (inr (None, set_unmapped c), a <| va_pages ::= delete key |>)
               else (inl (kerr ErrKind.InvalidOperation), a)
           end
  | VMapTable c root v =>
      let m := missing a (cap_kva root) v in
      if is_mapped c then (inl (kerr ErrKind.PageTableAlreadyMapped), a)
      else if m =? 0 then (inl (kerr ErrKind.VaddressAlreadyMapped), a)
      else (inr (Some (m - 1), set_mapped c v),
            a <| va_tables ::= λ t, {[(cap_kva root, m - 1, position v (m - 1))]} ∪ t |>
              <| va_pool ::= λ p, p ∖ {[cap_kva c]} |>)
  | VMakeRoot c =>
      if is_mapped c then (inl (kerr ErrKind.PageTableAlreadyMapped), a)
      else (inr (None, set_root (set_mapped c (cap_kva c))),
            a <| va_tables ::= λ t, {[(cap_kva c, 3, 0)]} ∪ t |> <| va_pool ::= λ p, p ∖ {[cap_kva c]} |>)
  end.

(** What a request may ask for: addresses of the user half, root tables that
    are in place, page-aligned objects, and tables of the pool. *)
Definition is_vroot (a : VState) (root : CapabilityData) : Prop := (cap_kva root, 3, 0) ∈ va_tables a.
Record frame_ok (c : CapabilityData) : Prop := {
  fr_kva : is_kva (cap_kva c);
  fr_aligned : cap_kva c mod 4096 = 0;
}.
Definition req_ok (r : VReq) (a : VState) : Prop :=
  match r with
  | VMapPage c root v flags => is_vroot a root ∧ is_user v ∧ frame_ok c ∧ 0 ≤ flags < 2 ^ 10
  | VUnmapPage c root => is_vroot a root ∧ is_user (get_mapped_address c)
  | VMapTable c root v =>
      is_vroot a root ∧ is_user v ∧ frame_ok c ∧ (is_mapped c = false → cap_kva c ∈ va_pool a)
  | VMakeRoot c => is_mapped c = false → cap_kva c ∈ va_pool a
  end.

(** ** Representation *)

(** The tables of one space: every table but the root hangs below another one,
    and no two have the same place. *)
Record tree (h : gmap Z kobject) (root : Z) (pf : gmap Z (Z * Z)) : Prop := {
  tr_space : space h root pf;
  tr_level : ∀ a l p, pf !! a = Some (l, p) → 0 ≤ l ≤ 3;
  tr_linked : ∀ a l p, pf !! a = Some (l, p) → l < 3 →
    ∃ b pte, pf !! b = Some (l + 1, p / 512) ∧ pte_at h b (p mod 512) = Some pte ∧
             pte_is_valid pte = true ∧ pte_as_page_table pte = a;
  tr_inj : ∀ a b lp, pf !! a = Some lp → pf !! b = Some lp → a = b;
}.
(** A root table for new spaces: nothing mapped in the user half. *)
Definition root_template (h : gmap Z kobject) : Prop :=
  ∃ t, table_at h KERNEL_VM_ROOT = Some t ∧ length t = 512%nat ∧
       ∀ i pte, (i < 256)%nat → t !! i = Some pte → pte_is_valid pte = false.

(** The tables of the space of [root]; [tb] has the place of every table. *)
Definition tables_of (tb : gmap Z (Z * Z * Z)) (root : Z) : gmap Z (Z * Z) :=
  omap (λ k, if decide (k.1.1 = root) then Some (k.1.2, k.2) else None) tb.
Definition root_in (tb : gmap Z (Z * Z * Z)) (root : Z) : Prop := tb !! root = Some (root, 3, 0).

Record vrep (h : gmap Z kobject) (tb : gmap Z (Z * Z * Z)) (a : VState) : Prop := {
  vr_tree : ∀ root, root_in tb root → tree h root (tables_of tb root);
  vr_pages : ∀ root v, root_in tb root → is_user v → translate h root v = va_pages a !! (root, v / 4096);
  vr_keys : ∀ root n pte, va_pages a !! (root, n) = Some pte → root_in tb root;
  vr_tables : ∀ k, k ∈ va_tables a ↔ ∃ x, tb !! x = Some k;
  vr_roots : ∀ x root l p, tb !! x = Some (root, l, p) → root_in tb root;
  vr_pool : ∀ x, x ∈ va_pool a → empty_table h x ∧ tb !! x = None;
  vr_template : root_template h ∧ tb !! KERNEL_VM_ROOT = None ∧ KERNEL_VM_ROOT ∉ va_pool a;
}.

Lemma lookup_tables_of tb root x l p : tables_of tb root !! x = Some (l, p) ↔ tb !! x = Some (root, l, p).
Proof.
  unfold tables_of. rewrite lookup_omap. destruct (tb !! x) as [[[r l'] p']|]; simpl; [|by split].
  case_decide; naive_solver.
Qed.
Lemma tables_of_None tb root x : tb !! x = None → tables_of tb root !! x = None.
Proof. intros Hx. unfold tables_of. by rewrite lookup_omap, Hx. Qed.
Lemma tables_of_other tb root root' x l p : tb !! x = Some (root, l, p) → root' ≠ root → tables_of tb root' !! x = None.
Proof. intros Hx Hne. unfold tables_of. rewrite lookup_omap, Hx. simpl. by rewrite decide_False by congruence. Qed.
Lemma tables_of_insert tb root l p x : tables_of (<[x := (root, l, p)]> tb) root = <[x := (l, p)]> (tables_of tb root).
Proof. unfold tables_of. erewrite omap_insert_Some; [done|]. simpl. by rewrite decide_True. Qed.
Lemma tables_of_insert_ne tb root root' l p x :
  root' ≠ root → tb !! x = None → tables_of (<[x := (root, l, p)]> tb) root' = tables_of tb root'.
Proof.
  intros Hne Hx. unfold tables_of. rewrite omap_insert_None by (simpl; by rewrite decide_False by congruence).
  by apply delete_id, tables_of_None.
Qed.

(** ** Where a walk stops *)

Lemma position_below v l : is_user v → 0 ≤ l → position v (l - 1) / 512 = position v l ∧ position v (l - 1) mod 512 = get_vpn v l.
Proof.
  intros Hu Hl. pose proof (position_step v l Hu Hl). pose proof (get_vpn_bound v l).
  split; [symmetry; apply (Z.div_unique_pos _ _ _ (get_vpn v l))|symmetry; apply (Z.mod_unique_pos _ _ (position v l))]; lia.
Qed.
Lemma tree_up h root pf v l x :
  tree h root pf → is_user v → pf !! x = Some (l, position v l) → 0 ≤ l < 3 →
  ∃ y, pf !! y = Some (l + 1, position v (l + 1)).
Proof.
  intros Ht Hu Hx Hl. destruct (tr_linked _ _ _ Ht _ _ _ Hx) as (y & pte & Hy & _); [lia|].
  pose proof (position_below v (l + 1) Hu) as [Hp _]; [lia|].
  replace (l + 1 - 1) with l in Hp by lia. rewrite Hp in Hy. by exists y.
Qed.
(** No table is in place below an entry that is not valid. *)
Lemma tree_hole h root pf v l t pte x :
  tree h root pf → is_user v → pf !! t = Some (l, position v l) → 1 ≤ l ≤ 3 →
  pte_at h t (get_vpn v l) = Some pte → pte_is_valid pte = false →
  pf !! x ≠ Some (l - 1, position v (l - 1)).
Proof.
  intros Ht Hu Hl Hb Hp Hv Hx. destruct (tr_linked _ _ _ Ht _ _ _ Hx) as (y & pte' & Hy & Hp' & Hv' & _); [lia|].
  destruct (position_below v l Hu) as [H1 H2]; [lia|]. rewrite H1 in Hy. rewrite H2 in Hp'.
  replace (l - 1 + 1) with l in Hy by lia.
  assert (y = t) as -> by by eapply tr_inj. congruence.
Qed.

Section Rep.
Context (h : gmap Z kobject) (tb : gmap Z (Z * Z * Z)) (a : VState) (Hrep : vrep h tb a).

Lemma present_iff root v l :
  present a root v l = true ↔ ∃ x, tables_of tb root !! x = Some (l, position v l).
Proof.
  unfold present. rewrite bool_decide_eq_true, (vr_tables _ _ _ Hrep). by setoid_rewrite lookup_tables_of.
Qed.
Lemma walk_missing root v :
  root_in tb root → is_user v →
  let pf := tables_of tb root in
  let m := missing a root v in
  ∃ t, walk_at h [3; 2; 1] root v = Some (m, (t, get_vpn v m)) ∧ 0 ≤ m ≤ 3 ∧ pf !! t = Some (m, position v m) ∧
    (1 ≤ m → ∃ pte, pte_at h t (get_vpn v m) = Some pte ∧ pte_is_valid pte = false).
Proof.
  intros Hr Hu pf m. pose proof (vr_tree _ _ _ Hrep _ Hr) as Ht.
  destruct (walk_root _ _ _ v (tr_space _ _ _ Ht) Hu) as (l & t & Hw & Hl & Hpt & Hinv).
  assert (m = l) as ->; [|by exists t].
  assert (∀ n : nat, l + Z.of_nat n ≤ 3 → ∃ x, pf !! x = Some (l + Z.of_nat n, position v (l + Z.of_nat n))) as Hup.
  { induction n as [|n IH]; intros Hn; [exists t; by rewrite Z.add_0_r|].
    destruct IH as [x Hx]; [lia|]. destruct (tree_up _ _ _ v _ x Ht Hu Hx) as [y Hy]; [lia|].
    exists y. by replace (l + Z.of_nat (S n)) with (l + Z.of_nat n + 1) by lia. }
  assert (∀ k, l ≤ k ≤ 3 → present a root v k = true) as Hthere.
  { intros k Hk. apply present_iff. destruct (Hup (Z.to_nat (k - l))) as [x Hx]; [lia|].
    exists x. by replace (l + Z.of_nat (Z.to_nat (k - l))) with k in Hx by lia. }
  assert (∀ k, 0 ≤ k → l = k + 1 → present a root v k = false) as Hhole.
  { intros k Hk Hlk. destruct (Hinv ltac:(lia)) as (pte & Hp & Hv). replace k with (l - 1) by lia. apply not_true_is_false. rewrite present_iff.
    intros [x Hx]. exact (tree_hole _ _ _ v l t pte x Ht Hu Hpt ltac:(lia) Hp Hv Hx). }
  subst m. unfold missing.
  assert (l = 0 ∨ l = 1 ∨ l = 2 ∨ l = 3) as [->|[->|[->| ->]]] by lia;
    rewrite ?(Hthere 2), ?(Hthere 1), ?(Hthere 0) by lia; cbn [negb]; try done;
    by rewrite Hhole.
Qed.

(** ** Changes of memory *)

Lemma get_vpn_page v v' l : v / 4096 = v' / 4096 → 0 ≤ l → get_vpn v l = get_vpn v' l.
Proof.
  intros Hp Hl. rewrite !get_vpn_arith by done. rewrite Z.pow_add_r by lia. change (2 ^ 12) with 4096.
  rewrite <- !Z.div_div by lia. by rewrite Hp.
Qed.
Lemma walk_page levels table v v' :
  v / 4096 = v' / 4096 → Forall (λ l, 0 ≤ l) levels → walk_at h levels table v = walk_at h levels table v'.
Proof.
  intros Hp Hl. revert table. induction Hl as [|l ls Hl _ IH]; intros table; cbn [walk_at].
  - by rewrite (get_vpn_page v v') by done.
  - rewrite (get_vpn_page v v' l) by done. destruct (pte_at h table _); [|done]. cbn [mbind option_bind].
    destruct (pte_is_valid _); [apply IH|done].
Qed.

End Rep.

(** Tables other than [t] are as before. *)
Definition table_frame (t : Z) (h h' : gmap Z kobject) : Prop := ∀ x, x ≠ t → table_at h' x = table_at h x.
Lemma tree_frame t h h' root pf :
  table_frame t h h' → pf !! t = None → tree h root pf → tree h' root pf.
Proof.
  intros Hf Ht [Hs Hl Hk Hi].
  assert (∀ x lp i, pf !! x = Some lp → pte_at h' x i = pte_at h x i) as Hp.
  { intros x lp i Hx. unfold pte_at. rewrite Hf; [done|congruence]. }
  split; [|done| |done].
  - destruct Hs as [Hr Htb Hb]. split; [done| |].
    + intros x lp Hx. rewrite Hf by congruence. by eapply Htb.
    + intros x l p i pte Hx. rewrite (Hp _ _ _ Hx). by apply Hb.
  - intros x l p Hx H3. destruct (Hk _ _ _ Hx H3) as (b & pte & Hb & Hpb & ?). exists b, pte.
    by rewrite (Hp _ _ _ Hb).
Qed.
Lemma set_pte_frame h t i w : table_frame t h (set_pte t i w h).
Proof. intros x Hx. by apply table_at_set_pte_ne. Qed.
Lemma insert_frame h t o : table_frame t h (<[t := o]> h).
Proof. intros x Hx. by apply table_at_insert_ne. Qed.

(** What a change of table [t], or of unused memory, leaves alone. *)
Section Frame.
Context (h h' : gmap Z kobject) (tb : gmap Z (Z * Z * Z)) (a : VState) (Hrep : vrep h tb a).
Context (t : Z) (o : kobject) (Hh' : h' = <[t := o]> h).

Lemma frame_pool x : x ∈ va_pool a → x ≠ t → empty_table h' x ∧ tb !! x = None.
Proof.
  intros Hx Hne. destruct (vr_pool _ _ _ Hrep x Hx) as [(u & Hu & ?) Hun]. split; [|done].
  exists u. subst h'. by rewrite table_at_insert_ne.
Qed.
Lemma frame_template : t ≠ KERNEL_VM_ROOT → root_template h'.
Proof.
  intros Hne. destruct (vr_template _ _ _ Hrep) as [(u & Hu & ?) _]. exists u. subst h'. by rewrite table_at_insert_ne.
Qed.
Lemma frame_root root' v :
  root_in tb root' → tables_of tb root' !! t = None → is_user v →
  tree h' root' (tables_of tb root') ∧ translate h' root' v = va_pages a !! (root', v / 4096).
Proof.
  intros Hr Hn Hu. pose proof (vr_tree _ _ _ Hrep _ Hr) as Htr. subst h'. split.
  - apply (tree_frame t h); [apply insert_frame|done|done].
  - rewrite <- (vr_pages _ _ _ Hrep _ _ Hr Hu). eapply translate_insert; [apply Htr|done|done].
Qed.
End Frame.

(** A table in use. *)
Lemma used_table h tb a t root l p :
  vrep h tb a → tb !! t = Some (root, l, p) →
  t ≠ KERNEL_VM_ROOT ∧ t ∉ va_pool a ∧ ∃ u, table_at h t = Some u.
Proof.
  intros Hrep Ht. pose proof (vr_template _ _ _ Hrep) as (_ & Hk & _). split_and!.
  - congruence.
  - intros Hx. destruct (vr_pool _ _ _ Hrep _ Hx) as [_ Hun]. congruence.
  - pose proof (vr_tree _ _ _ Hrep root (vr_roots _ _ _ Hrep _ _ _ _ Ht)) as Htr.
    apply lookup_tables_of in Ht.
    destruct (sp_tables _ _ _ (tr_space _ _ _ Htr) _ _ Ht) as (u & ? & _). by exists u.
Qed.

(** Writing an entry of a last-level table keeps the tree. *)
Lemma tree_leaf h root pf t p i w :
  tree h root pf → pf !! t = Some (0, p) → 0 ≤ i → tree (set_pte t i w h) root pf.
Proof.
  intros [Hs Hl Hlk Hinj] Ht Hi. split; [by eapply space_leaf|done| |done].
  intros x l q Hx H3. destruct (Hlk _ _ _ Hx H3) as (b & pte & Hb & Hp & ?). exists b, pte.
  split; [done|]. split; [|done]. pose proof (Hl _ _ _ Hx). unfold pte_at. rewrite table_at_set_pte_ne; [done|].
  intros ->. rewrite Ht in Hb. injection Hb as ? _. lia.
Qed.
Lemma tree_leaf_translate h root pf t v w v' :
  tree h root pf → is_user v → is_user v' → pf !! t = Some (0, position v 0) →
  walk_at h [3; 2; 1] root v = Some (0, (t, get_vpn v 0)) →
  translate (set_pte t (get_vpn v 0) w h) root v' =
    if decide (v' / 4096 = v / 4096) then (if pte_is_valid w then Some w else None) else translate h root v'.
Proof.
  intros Htree Hu Hu' Hpt Hw. pose proof (get_vpn_bound v 0) as Hi.
  pose proof (space_levelled _ _ _ (tr_space _ _ _ Htree)) as Hlv.
  assert ((fst <$> pf) !! root = Some 3) as H3 by by rewrite lookup_fmap, (sp_root _ _ _ (tr_space _ _ _ Htree)).
  assert ((fst <$> pf) !! t = Some 0) as H0 by by rewrite lookup_fmap, Hpt.
  case_decide as Hpg.
  - unfold translate. rewrite (set_pte_leaf_walk _ _ _ _ _ _ _ Hlv (is_user_addr _ Hu') H3 H0) by lia.
    rewrite (walk_page h _ _ v' v Hpg) by (repeat constructor; lia). rewrite Hw.
    destruct (walk_at_pte _ _ _ _ _ _ _ Hw) as (pte & Hp). by rewrite (pte_at_set_pte_eq _ _ _ _ _ Hp).
  - apply (set_pte_leaf_translate _ _ _ _ _ _ _ Hlv (is_user_addr _ Hu') H3 H0); [lia|].
    intros Hw'. apply Hpg. by eapply (walk_same_page h root pf); [apply Htree|..].
Qed.

(** Hanging an empty table below the entry where the walk for [v] stops. *)
Lemma tree_install h root pf v l t self w :
  tree h root pf → is_user v → stops h root pf v l t → 1 ≤ l → pf !! self = None → empty_table h self →
  pte_is_valid w = true → pte_as_page_table w = self →
  tree (set_pte t (get_vpn v l) w h) root (<[self := (l - 1, position v (l - 1))]> pf).
Proof.
  intros Htree Hu Hst Hl Hself He Hwv Hwa. pose proof Htree as [Hs Hlv Hlk Hinj].
  destruct (st_free _ _ _ _ _ _ Hst) as (old & Hold & Hinv). pose proof (st_table _ _ _ _ _ _ Hst) as Ht.
  pose proof (st_level _ _ _ _ _ _ Hst) as Hb. assert (self ≠ t) by congruence.
  assert (∀ x, pf !! x ≠ Some (l - 1, position v (l - 1))) as Hhole
    by (intros x; exact (tree_hole _ _ _ v l t old x Htree Hu Ht ltac:(lia) Hold Hinv)).
  destruct (position_below v l Hu) as [Hdiv Hmod]; [lia|]. split.
  - by apply install_space.
  - intros x l' p Hx. apply lookup_insert_Some in Hx as [[_ [= <- <-]]|[_ Hx]]; [lia|by eapply Hlv].
  - intros x l' p Hx H3. apply lookup_insert_Some in Hx as [[<- [= <- <-]]|[Hne Hx]].
    + exists t, w. rewrite Hdiv, Hmod, lookup_insert_ne by done. replace (l - 1 + 1) with l by lia.
      split_and!; [done| |done|done]. by apply (pte_at_set_pte_eq _ _ _ _ old).
    + destruct (Hlk _ _ _ Hx H3) as (b & pte & Hb' & Hp & Hv & ?). exists b, pte.
      rewrite lookup_insert_ne by congruence. split_and!; [done| |done|done].
      rewrite pte_at_set_pte_ne; [done|apply get_vpn_bound|apply Z.mod_pos_bound; lia|]. intros [= -> Hi].
      rewrite Hi in Hp. congruence.
  - intros x y lp Hx Hy. apply lookup_insert_Some in Hx as [[<- <-]|[_ Hx]];
      apply lookup_insert_Some in Hy as [[<- Hlp]|[_ Hy]]; [done|by apply Hhole in Hy| |by eapply Hinj].
    rewrite <- Hlp in Hx. by apply Hhole in Hx.
Qed.

Section Ops.
Context (h : gmap Z kobject) (tb : gmap Z (Z * Z * Z)) (a : VState) (Hrep : vrep h tb a).

(** Writing the last-level entry of [v]. *)
Lemma vrep_leaf root v t w :
  root_in tb root → is_user v → missing a root v = 0 →
  walk_at h [3; 2; 1] root v = Some (0, (t, get_vpn v 0)) →
  vrep (set_pte t (get_vpn v 0) w h) tb
    (a <| va_pages ::= partial_alter (λ _, if pte_is_valid w then Some w else None) (root, v / 4096) |>).
Proof.
  intros Hr Hu Hm Hw. destruct (walk_missing _ _ _ Hrep _ v Hr Hu) as (t' & Hw' & _ & Hpt & _).
  rewrite Hm in Hw', Hpt. rewrite Hw in Hw'. injection Hw' as <-.
  pose proof (vr_tree _ _ _ Hrep _ Hr) as Htree. pose proof (proj1 (lookup_tables_of _ _ _ _ _) Hpt) as Ht.
  destruct (used_table _ _ _ _ _ _ _ Hrep Ht) as (Hk & Hpool & u & Hu1). pose proof (get_vpn_bound v 0) as Hi.
  pose proof (set_pte_insert _ _ (get_vpn v 0) w _ Hu1) as Hh'. set (h' := set_pte t (get_vpn v 0) w h) in *.
  assert (∀ root', root' ≠ root → tables_of tb root' !! t = None) as Hno by (intros; by eapply tables_of_other).
  split.
  - intros root' Hr'. destruct (decide (root' = root)) as [->|Hne]; [apply (tree_leaf _ _ _ _ _ _ _ Htree Hpt); lia|].
    by apply (frame_root _ h' _ _ Hrep _ _ Hh' root' v); [|apply Hno|].
  - intros root' v' Hr' Hu'. simpl. destruct (decide (root' = root)) as [->|Hne].
    + unfold h'. rewrite (tree_leaf_translate _ _ _ _ _ _ _ Htree Hu Hu' Hpt Hw). case_decide as Hpg.
      * by rewrite Hpg, lookup_partial_alter_eq.
      * rewrite lookup_partial_alter_ne by congruence. by apply (vr_pages _ _ _ Hrep).
    + rewrite lookup_partial_alter_ne by congruence.
      by apply (frame_root _ h' _ _ Hrep _ _ Hh' root' v'); [|apply Hno|].
  - intros root' n pte. simpl. destruct (decide ((root, v / 4096) = (root', n))) as [[= <- <-]|Hne]; [done|].
    rewrite lookup_partial_alter_ne by done. apply (vr_keys _ _ _ Hrep).
  - apply (vr_tables _ _ _ Hrep).
  - apply (vr_roots _ _ _ Hrep).
  - intros x Hx. apply (frame_pool _ h' _ _ Hrep _ _ Hh'); [done|]. by intros ->.
  - split; [by apply (frame_template _ h' _ _ Hrep _ _ Hh')|apply Hrep].
Qed.

(** A table of the pool gets a place. *)
Lemma vrep_place h' t o self root l p pages :
  h' = <[t := o]> h → self ∈ va_pool a → t = self ∨ (∃ k, tb !! t = Some k) →
  let tb' := <[self := (root, l, p)]> tb in
  let a' := a <| va_pages := pages |> <| va_tables ::= λ ts, {[(root, l, p)]} ∪ ts |>
              <| va_pool ::= λ ps, ps ∖ {[self]} |> in
  root_in tb' root →
  (∀ root' n, root' ≠ root → pages !! (root', n) = va_pages a !! (root', n)) →
  tree h' root (tables_of tb' root) →
  (∀ v, is_user v → translate h' root v = pages !! (root, v / 4096)) →
  (∀ root', root' ≠ root → root_in tb root' → tables_of tb root' !! t = None) →
  vrep h' tb' a'.
Proof.
  intros Hh' Hself Ht tb' a' Hroot Hpg Htree Htr Hno. destruct (vr_pool _ _ _ Hrep _ Hself) as [_ Hfree].
  destruct (vr_template _ _ _ Hrep) as (_ & Hku & Hkp).
  assert (∀ x, tb !! x = None → x ≠ self → x ≠ t) as Hxt by (intros x Hx Hxs ->; destruct Ht as [|[k ?]]; congruence).
  assert (self ≠ KERNEL_VM_ROOT) as Hsk by congruence.
  assert (∀ root', root' ≠ root → root_in tb' root' → root_in tb root' ∧ tables_of tb' root' = tables_of tb root') as Hold.
  { intros root' Hne Hr'. split; [|by apply tables_of_insert_ne]. unfold root_in, tb' in *.
    rewrite lookup_insert_ne in Hr'; [done|]. intros ->. rewrite lookup_insert_eq in Hr'. congruence. }
  split.
  - intros root' Hr'. destruct (decide (root' = root)) as [->|Hne]; [done|]. destruct (Hold _ Hne Hr') as [Hr ->].
    apply (frame_root _ _ _ _ Hrep _ _ Hh' root' 0); [done|by apply Hno|done].
  - intros root' v Hr' Hu. destruct (decide (root' = root)) as [->|Hne]; [by apply Htr|].
    destruct (Hold _ Hne Hr') as [Hr _]. simpl. rewrite Hpg by done.
    apply (frame_root _ _ _ _ Hrep _ _ Hh' root' v); [done|by apply Hno|done].
  - intros root' n pte. simpl. destruct (decide (root' = root)) as [->|Hne]; [done|]. rewrite Hpg by done.
    intros Hr%(vr_keys _ _ _ Hrep). unfold root_in, tb'. rewrite lookup_insert_ne; [done|].
    intros ->. unfold root_in in Hr. congruence.
  - intros k. simpl. rewrite elem_of_union, elem_of_singleton, (vr_tables _ _ _ Hrep). split.
    + intros [->|[x Hx]]; [exists self; apply lookup_insert_eq|]. exists x. unfold tb'. rewrite lookup_insert_ne; congruence.
    + intros [x Hx]. unfold tb' in Hx. apply lookup_insert_Some in Hx as [[-> <-]|[_ Hx]]; [by left|right; by exists x].
  - intros x root' l' p' Hx. unfold tb' in Hx. apply lookup_insert_Some in Hx as [[-> [= <- <- <-]]|[_ Hx]]; [done|].
    apply (vr_roots _ _ _ Hrep) in Hx. unfold root_in, tb'. rewrite lookup_insert_ne; [done|]. intros ->. unfold root_in in Hx. congruence.
  - intros x. simpl. rewrite elem_of_difference, elem_of_singleton. intros [Hx Hxs].
    destruct (vr_pool _ _ _ Hrep _ Hx) as [_ Hxn]. unfold tb'. rewrite lookup_insert_ne by done.
    apply (frame_pool _ _ _ _ Hrep _ _ Hh'); auto.
  - split_and!; [apply (frame_template _ _ _ _ Hrep _ _ Hh'); apply not_eq_sym; auto|unfold tb'; by rewrite lookup_insert_ne|].
    simpl. set_solver.
Qed.

Lemma vrep_install root v t self w :
  let m := missing a root v in
  root_in tb root → is_user v → 1 ≤ m → self ∈ va_pool a →
  walk_at h [3; 2; 1] root v = Some (m, (t, get_vpn v m)) →
  pte_is_valid w = true → pte_as_page_table w = self →
  vrep (set_pte t (get_vpn v m) w h) (<[self := (root, m - 1, position v (m - 1))]> tb)
    (a <| va_tables ::= λ ts, {[(root, m - 1, position v (m - 1))]} ∪ ts |> <| va_pool ::= λ ps, ps ∖ {[self]} |>).
Proof.
  intros m Hr Hu Hm Hself Hw Hwv Hwa.
  destruct (walk_missing _ _ _ Hrep _ v Hr Hu) as (t' & Hw' & Hb & Hpt & Hfree). fold m in Hw', Hb, Hpt, Hfree.
  rewrite Hw in Hw'. injection Hw' as <-. pose proof (vr_tree _ _ _ Hrep _ Hr) as Htree.
  pose proof (proj1 (lookup_tables_of _ _ _ _ _) Hpt) as Ht.
  destruct (used_table _ _ _ _ _ _ _ Hrep Ht) as (_ & _ & u & Hu1).
  destruct (vr_pool _ _ _ Hrep _ Hself) as [He Hun].
  assert (stops h root (tables_of tb root) v m t) as Hst by (split; auto).
  assert (tables_of tb root !! self = None) as Hsn by by apply tables_of_None.
  eapply (vrep_place _ t _ self root (m - 1) (position v (m - 1)) (va_pages a)).
  - exact (set_pte_insert _ _ _ _ _ Hu1).
  - done.
  - by eauto.
  - unfold root_in. rewrite lookup_insert_ne; [done|]. intros ->. unfold root_in in Hr. congruence.
  - done.
  - rewrite tables_of_insert. by apply tree_install.
  - intros v' Hu'. rewrite <- (vr_pages _ _ _ Hrep _ _ Hr Hu').
    apply (install_translate h root (tables_of tb root) v m t self); try done. apply Htree.
  - intros root' Hne _. by eapply tables_of_other.
Qed.

(** A table of the pool becomes a root. *)
Lemma vrep_root self k :
  self ∈ va_pool a → table_at h KERNEL_VM_ROOT = Some k →
  vrep (<[self := OPageTable k]> h) (<[self := (self, 3, 0)]> tb)
    (a <| va_tables ::= λ ts, {[(self, 3, 0)]} ∪ ts |> <| va_pool ::= λ ps, ps ∖ {[self]} |>).
Proof.
  intros Hself Hk. destruct (vr_pool _ _ _ Hrep _ Hself) as [_ Hun].
  destruct (vr_template _ _ _ Hrep) as ((k' & Hk' & Hlen & Hlow) & _ & _). rewrite Hk in Hk'. injection Hk' as <-.
  assert (tables_of tb self = ∅) as Hempty.
  { apply map_empty. intros x. destruct (tables_of tb self !! x) as [[l p]|] eqn:Hx; [|done].
    apply lookup_tables_of, (vr_roots _ _ _ Hrep) in Hx. unfold root_in in Hx. congruence. }
  set (h' := <[self := OPageTable k]> h).
  assert (∀ i, 0 ≤ i < 256 → ∃ pte, pte_at h' self i = Some pte ∧ pte_is_valid pte = false) as Hinv.
  { intros i Hi. unfold pte_at, h'. rewrite table_at_insert_eq. cbn [mbind option_bind].
    destruct (lookup_lt_is_Some_2 k (Z.to_nat i)) as [pte Hp]; [lia|]. exists pte. split; [done|]. eapply Hlow; [|done]. lia. }
  apply (vrep_place h' self (OPageTable k) self self 3 0 (va_pages a)); try done.
  - by left.
  - apply lookup_insert_eq.
  - rewrite tables_of_insert, Hempty, insert_empty. split.
    + split; [apply lookup_singleton_eq| |].
      * intros x lp [<- _]%lookup_singleton_Some. exists k. unfold h'. by rewrite table_at_insert_eq.
      * intros x l p vpn pte [<- [= <- <-]]%lookup_singleton_Some _ Hv H3 Hp Hval.
        destruct (Hinv vpn ltac:(lia)) as (pte' & Hp' & Hf). congruence.
    + intros x l p [_ [= <- <-]]%lookup_singleton_Some. lia.
    + intros x l p [_ [= <- <-]]%lookup_singleton_Some. lia.
    + intros x y lp [<- _]%lookup_singleton_Some [<- _]%lookup_singleton_Some. done.
  - intros v Hu. destruct (va_pages a !! (self, v / 4096)) as [pte|] eqn:Hp.
    { apply (vr_keys _ _ _ Hrep) in Hp. unfold root_in in Hp. congruence. }
    destruct (Hinv (get_vpn v 3)) as (pte & Hpte & Hf); [pose proof (get_vpn_bound v 3); pose proof (is_user_addr v Hu); unfold user_addr in *; lia|].
    unfold translate. cbn [walk_at]. rewrite Hpte. cbn [mbind option_bind]. by rewrite Hf.
  - intros root' Hne Hr'. by apply tables_of_None.
Qed.
End Ops.

(** ** Refinement *)

(** The outcome an answer describes: an error leaves the state as it was. *)
Definition answers (out : VAnswer) (s s' : KState) : outcome KState KernelError (option Z * CapabilityData) :=
  match out with inl e => Err e s | inr x => Ok x s' end.
(** No object other than a page table changes. *)
Definition only_tables (h h' : gmap Z kobject) : Prop :=
  ∀ x o, h !! x = Some o → (∀ t, o ≠ OPageTable t) → h' !! x = Some o.
#[export] Instance only_tables_preorder : PreOrder only_tables.
Proof. split; [by intros h x o|]. intros h1 h2 h3 H1 H2 x o Hx Ho. apply H2, Ho. by apply H1. Qed.
Lemma only_tables_insert h a t u : table_at h a = Some u → only_tables h (<[a := OPageTable t]> h).
Proof.
  intros Ha x o Hx Ho. rewrite lookup_insert_ne; [done|]. intros ->. unfold table_at in Ha. rewrite Hx in Ha.
  destruct o; try done. by eapply Ho.
Qed.
Lemma only_tables_set_pte h a i w : only_tables h (set_pte a i w h).
Proof. unfold set_pte. destruct (table_at h a) eqn:Ha; [by eapply only_tables_insert|reflexivity]. Qed.

(** The tables in place after a request. *)
Definition tables_after (r : VReq) (tb : gmap Z (Z * Z * Z)) (a : VState) : gmap Z (Z * Z * Z) :=
  match r with
  | VMapTable c root v =>
      let m := missing a (cap_kva root) v in
      if is_mapped c || (m =? 0) then tb else <[cap_kva c := (cap_kva root, m - 1, position v (m - 1))]> tb
  | VMakeRoot c => if is_mapped c then tb else <[cap_kva c := (cap_kva c, 3, 0)]> tb
  | _ => tb
  end.
(** Request [r], in state [s] and abstract state [a], does what it is specified to do. *)
Definition refines (r : VReq) (s : KState) (tb : gmap Z (Z * Z * Z)) (a : VState) : Prop :=
  ∃ h', exec_req r s = answers (fst (spec_req r a)) s (s <| heap := h' |>) ∧
    vrep h' (tables_after r tb a) (snd (spec_req r a)) ∧ only_tables (heap s) h' ∧ match fst (spec_req r a) with inl _ => h' = heap s | inr _ => True end.

Lemma pages_entry h tb a root v t :
  vrep h tb a → root_in tb root → is_user v →
  walk_at h [3; 2; 1] root v = Some (0, (t, get_vpn v 0)) →
  ∃ pte, pte_at h t (get_vpn v 0) = Some pte ∧
    va_pages a !! (root, v / 4096) = if pte_is_valid pte then Some pte else None.
Proof.
  intros Hrep Hr Hu Hw. destruct (walk_at_pte _ _ _ _ _ _ _ Hw) as (pte & Hp). exists pte. split; [done|].
  rewrite <- (vr_pages _ _ _ Hrep _ _ Hr Hu). unfold translate. rewrite Hw, Hp. done.
Qed.
Lemma page_cap_unmap_branches s c root l t i pte :
  walk_at (heap s) [3; 2; 1] (cap_kva root) (get_mapped_address c) = Some (l, (t, i)) →
  pte_at (heap s) t i = Some pte → 0 ≤ l ≤ 3 →
  page_cap_unmap c root s =
    if negb (is_mapped c) then Err (kerr ErrKind.PageNotMappedYet) s
    else if negb (l =? 0) then Err (kerr_val ErrKind.PageTableNotMappedYet l) s
    else if negb (pte_is_valid pte) then Err (kerr ErrKind.PageNotMappedYet) s
    else if negb (cap_kva c =? pte_as_page_table pte) then Err (kerr ErrKind.InvalidOperation) s
    else Ok (set_unmapped c) (s <| heap := set_pte t i 0 (heap s) |>).
Proof.
  intros Hw Hp Hl. unfold page_cap_unmap. destruct (is_mapped c); [|done]. cbn [negb guard].
  rewrite (bind_Ok _ _ _ tt s) by done. unfold page_unmap, walk. rewrite !bind_assoc.
  rewrite (bind_Ok _ _ _ _ _ (walk_levels_Ok _ _ _ _ _ Hw)).
  destruct (Z.eqb_spec l 0) as [->|Hl0]; cbn [negb fst snd].
  2: { apply bind_Err. unfold as_u16. by rewrite Z.mod_small by lia. }
  rewrite !bind_assoc. rewrite (bind_Ok _ _ _ _ _ (read_pte_Ok _ _ _ _ Hp)).
  destruct (pte_is_valid pte); cbn [negb]; [|done]. change (kva_of_phys (pte_get_address pte)) with (pte_as_page_table pte).
  destruct (_ =? _); cbn [negb]; [|done]. by rewrite (bind_Ok _ _ _ _ _ (write_pte_Ok _ _ _ _ _ Hp)).
Qed.
Lemma pt_cap_map_branches s c root v l t i :
  walk_at (heap s) [3; 2; 1] (cap_kva root) v = Some (l, (t, i)) → 0 ≤ l ≤ 3 →
  pt_cap_map c root v s =
    if is_mapped c then Err (kerr ErrKind.PageTableAlreadyMapped) s
    else if l =? 0 then Err (kerr ErrKind.VaddressAlreadyMapped) s
    else Ok (l - 1, set_mapped c v)
           (s <| heap := set_pte t i (pte_write (phys_of_kva (cap_kva c)) PAGE_V) (heap s) |>).
Proof.
  intros Hw Hl. unfold pt_cap_map. destruct (is_mapped c); [done|]. cbn [negb guard].
  rewrite (bind_Ok _ _ _ tt s) by done. destruct (Z.eqb_spec l 0) as [->|Hl0].
  - apply bind_Err. unfold pt_map, walk. by rewrite (bind_Ok _ _ _ _ _ (walk_levels_Ok _ _ _ _ _ Hw)).
  - by rewrite (bind_Ok _ _ _ _ _ (pt_map_Ok _ _ _ _ _ _ _ Hw ltac:(lia))).
Qed.

Section Requests.
Context (s : KState) (tb : gmap Z (Z * Z * Z)) (a : VState) (Hrep : vrep (heap s) tb a).

Lemma vroot_in root : is_vroot a root → root_in tb (cap_kva root).
Proof. intros [x Hx]%(vr_tables _ _ _ Hrep). by eapply vr_roots. Qed.
(** A request that fails. *)
Lemma refines_error r e :
  spec_req r a = (inl e, a) → tables_after r tb a = tb → exec_req r s = Err e s → refines r s tb a.
Proof. intros Hs Ht He. exists (heap s). by rewrite Hs, Ht. Qed.

Lemma map_page_refines c root v flags : req_ok (VMapPage c root v flags) a → refines (VMapPage c root v flags) s tb a.
Proof.
  intros (Hr%vroot_in & Hu & [Hk Ha] & Hf). destruct (walk_missing _ _ _ Hrep _ v Hr Hu) as (t & Hw & Hm & _ & _).
  destruct (walk_at_pte _ _ _ _ _ _ _ Hw) as (pte & Hp).
  pose proof (page_cap_map_branches s c root v flags _ _ _ _ Hw Hp Hm) as Hb.
  destruct (is_mapped c) eqn:Hc.
  { eapply refines_error; cbn [spec_req exec_req tables_after]; [by rewrite Hc|by rewrite ?Hc|by apply bind_Err]. }
  destruct (Z.eqb_spec (missing a (cap_kva root) v) 0) as [Hm0|Hm0]; cbn [negb] in Hb.
  2: { eapply refines_error; cbn [spec_req exec_req tables_after]; [by rewrite Hc, (proj2 (Z.eqb_neq _ _))|by rewrite ?Hc, ?Hm0|by apply bind_Err]. }
  rewrite Hm0 in Hw, Hp. destruct (pages_entry _ _ _ _ _ _ Hrep Hr Hu Hw) as (pte' & Hp' & Hpg).
  assert (pte' = pte) as -> by congruence. rewrite Hm0 in Hb. destruct (pte_is_valid pte) eqn:Hv.
  { eapply refines_error; cbn [spec_req exec_req tables_after]; [by rewrite Hc, Hm0, Hpg|by rewrite ?Hc, ?Hm0|by apply bind_Err]. }
  eexists. cbn [spec_req exec_req tables_after]. rewrite Hc, Hm0, Hpg. cbn [negb Z.eqb fst snd answers]. split_and!; [|..|done].
  - by rewrite (bind_Ok _ _ _ _ _ Hb).
  - pose proof (vrep_leaf _ _ _ Hrep (cap_kva root) v t (page_entry c flags) Hr Hu Hm0 Hw) as Hl.
    unfold page_entry in Hl. rewrite pte_write_valid in Hl. exact Hl.
  - apply only_tables_set_pte.
Qed.

Lemma unmap_page_refines c root : req_ok (VUnmapPage c root) a → refines (VUnmapPage c root) s tb a.
Proof.
  intros (Hr%vroot_in & Hu). destruct (walk_missing _ _ _ Hrep _ _ Hr Hu) as (t & Hw & Hm & _ & _).
  destruct (walk_at_pte _ _ _ _ _ _ _ Hw) as (pte & Hp).
  pose proof (page_cap_unmap_branches s c root _ _ _ _ Hw Hp Hm) as Hb.
  destruct (is_mapped c) eqn:Hc; cbn [negb] in Hb.
  2: { eapply refines_error; cbn [spec_req exec_req tables_after]; [by rewrite Hc|by rewrite ?Hc|by apply bind_Err]. }
  destruct (Z.eqb_spec (missing a (cap_kva root) (get_mapped_address c)) 0) as [Hm0|Hm0]; cbn [negb] in Hb.
  2: { eapply refines_error; cbn [spec_req exec_req tables_after]; [by rewrite Hc, (proj2 (Z.eqb_neq _ _))|by rewrite ?Hc, ?Hm0|by apply bind_Err]. }
  rewrite Hm0 in Hw, Hp, Hb. destruct (pages_entry _ _ _ _ _ _ Hrep Hr Hu Hw) as (pte' & Hp' & Hpg).
  assert (pte' = pte) as -> by congruence. destruct (pte_is_valid pte) eqn:Hv; cbn [negb] in Hb.
  2: { eapply refines_error; cbn [spec_req exec_req tables_after]; [by rewrite Hc, Hm0, Hpg|by rewrite ?Hc, ?Hm0|by apply bind_Err]. }
  destruct (cap_kva c =? pte_as_page_table pte) eqn:Hfr; cbn [negb] in Hb.
  2: { eapply refines_error; cbn [spec_req exec_req tables_after]; [by rewrite Hc, Hm0, Hpg, Hfr|by rewrite ?Hc, ?Hm0|by apply bind_Err]. }
  eexists. cbn [spec_req exec_req tables_after]. rewrite Hc, Hm0, Hpg, Hfr. cbn [negb Z.eqb fst snd answers]. split_and!; [|..|done].
  - by rewrite (bind_Ok _ _ _ _ _ Hb).
  - exact (vrep_leaf _ _ _ Hrep (cap_kva root) _ t 0 Hr Hu Hm0 Hw).
  - apply only_tables_set_pte.
Qed.

Lemma map_table_refines c root v : req_ok (VMapTable c root v) a → refines (VMapTable c root v) s tb a.
Proof.
  intros (Hr%vroot_in & Hu & [Hk Ha] & Hpool). destruct (walk_missing _ _ _ Hrep _ v Hr Hu) as (t & Hw & Hm & _ & _).
  pose proof (pt_cap_map_branches s c root v _ _ _ Hw Hm) as Hb. destruct (is_mapped c) eqn:Hc.
  { eapply refines_error; cbn [spec_req exec_req tables_after]; [by rewrite Hc|by rewrite ?Hc|by apply bind_Err]. }
  destruct (Z.eqb_spec (missing a (cap_kva root) v) 0) as [Hm0|Hm0].
  { eapply refines_error; cbn [spec_req exec_req tables_after]; [by rewrite Hc, Hm0|by rewrite ?Hc, ?Hm0|by apply bind_Err]. }
  eexists. cbn [spec_req exec_req tables_after]. rewrite Hc, (proj2 (Z.eqb_neq _ _)) by done. cbn [negb fst snd answers].
  split_and!; [|..|done].
  - by rewrite (bind_Ok _ _ _ _ _ Hb).
  - apply (vrep_install _ _ _ Hrep); [done|done|lia|by apply Hpool|done|apply pte_write_valid_table|].
    by apply pte_as_page_table_write.
  - apply only_tables_set_pte.
Qed.

Lemma make_root_refines c : req_ok (VMakeRoot c) a → refines (VMakeRoot c) s tb a.
Proof.
  intros Hpool. cbn [req_ok] in Hpool. destruct (vr_template _ _ _ Hrep) as ((k & Hkt & _) & _).
  destruct (is_mapped c) eqn:Hc.
  { eapply refines_error; cbn [spec_req exec_req tables_after]; [by rewrite Hc|by rewrite Hc|apply bind_Err]. unfold make_as_root. by rewrite Hc. }
  eexists. cbn [spec_req exec_req tables_after]. rewrite Hc. cbn [negb fst snd answers]. split_and!; [|..|done].
  - unfold make_as_root. rewrite Hc. cbn [negb guard]. rewrite bind_assoc, (bind_Ok _ _ _ tt s) by done.
    unfold copy_global_mapping. rewrite !bind_assoc. rewrite (bind_Ok _ _ _ k s); [reflexivity|].
    unfold read_page_table. mred. by rewrite Hkt.
  - apply (vrep_root _ _ _ Hrep); [by apply Hpool|done].
  - destruct (vr_pool _ _ _ Hrep _ (Hpool eq_refl)) as [(u & Hu & _) _]. by eapply only_tables_insert.
Qed.
Lemma req_refines r : req_ok r a → refines r s tb a.
Proof.
  destruct r; [apply map_page_refines|apply unmap_page_refines|apply map_table_refines|apply make_root_refines].
Qed.
End Requests.

(** ** Sequences of requests *)

Fixpoint exec_reqs (rs : list VReq) : K (list VAnswer) :=
  match rs with
  | [] => ret []
  | r :: rs =>
      let* out := try_ (exec_req r) in
      let* outs := exec_reqs rs in
      ret (match out with inl x => inr x | inr e => inl e end :: outs)
  end.
Fixpoint spec_reqs (rs : list VReq) (a : VState) : list VAnswer * VState :=
  match rs with
  | [] => ([], a)
  | r :: rs =>
      let '(out, a) := spec_req r a in
      let '(outs, a) := spec_reqs rs a in
      (out :: outs, a)
  end.
Fixpoint reqs_ok (rs : list VReq) (a : VState) : Prop :=
  match rs with [] => True | r :: rs => req_ok r a ∧ reqs_ok rs (snd (spec_req r a)) end.

Fixpoint tables_reqs (rs : list VReq) (tb : gmap Z (Z * Z * Z)) (a : VState) : gmap Z (Z * Z * Z) :=
  match rs with [] => tb | r :: rs => tables_reqs rs (tables_after r tb a) (snd (spec_req r a)) end.

Lemma reqs_refine rs s tb a :
  vrep (heap s) tb a → reqs_ok rs a →
  ∃ h', exec_reqs rs s = Ok (fst (spec_reqs rs a)) (s <| heap := h' |>) ∧
    vrep h' (tables_reqs rs tb a) (snd (spec_reqs rs a)) ∧ only_tables (heap s) h'.
Proof.
  revert s tb a. induction rs as [|r rs IH]; intros s tb a Hrep Hok.
  { exists (heap s). by rewrite heap_set_id. }
  destruct Hok as [Hr Hok]. destruct (req_refines s tb a Hrep r Hr) as (h1 & He & Hrep1 & Hot & Herr).
  cbn [spec_reqs exec_reqs tables_reqs]. destruct (spec_req r a) as [out a1]. cbn [fst snd] in *.
  assert (vrep (heap (s <| heap := h1 |>)) (tables_after r tb a) a1) as Hrep1' by by rewrite heap_set.
  destruct (IH (s <| heap := h1 |>) _ a1 Hrep1' Hok) as (h2 & He2 & Hrep2 & Hot2).
  rewrite heap_set in Hot2. rewrite heap_set_set in He2.
  destruct (spec_reqs rs a1) as [outs a2]. cbn [fst snd] in *. exists h2. split; [|split; [done|by transitivity h1]].
  destruct out as [e|x]; cbn [answers] in He.
  - rewrite (bind_Ok _ _ _ (inr e) s) by (unfold try_; by rewrite He). subst h1. rewrite heap_set_id in He2.
    by rewrite (bind_Ok _ _ _ _ _ He2).
  - rewrite (bind_Ok _ _ _ (inl x) (s <| heap := h1 |>)) by (unfold try_; by rewrite He).
    by rewrite (bind_Ok _ _ _ _ _ He2).
Qed.

(** C3: address spaces are finite maps. Take any sequence of map, unmap, table
    and root requests over any number of address spaces in which ([reqs_ok])
    addresses are of the user half, frames are page-aligned, flags fit their
    ten bits, every root named is the table of a root request in place, and
    every table that is put in place (or made a root) is an empty one that no
    request used before. Then the capabilities answer exactly as the operations
    on maps do (the page that is mapped already, the level of the table that is
    missing, the page that is another one's, ...), and afterwards every user
    address of every space translates to what the map has for its page: no
    request changes another page, another address space, or an object that is
    not a page table. The kernel does not check the condition on tables: see
    [copied_table_shared] for a table that is put in place twice. *)
Theorem vspace_refines rs s tb a :
  vrep (heap s) tb a → reqs_ok rs a →
  ∃ h' tb', exec_reqs rs s = Ok (fst (spec_reqs rs a)) (s <| heap := h' |>) ∧
    vrep h' tb' (snd (spec_reqs rs a)) ∧ only_tables (heap s) h' ∧
    (∀ root v, (root, 3, 0) ∈ va_tables (snd (spec_reqs rs a)) → is_user v →
       translate h' root v = va_pages (snd (spec_reqs rs a)) !! (root, v / 4096)).
Proof.
  intros Hrep Hok. destruct (reqs_refine rs s tb a Hrep Hok) as (h' & He & Hrep' & Hot).
  exists h', (tables_reqs rs tb a). split_and!; try done.
  intros root v [x Hx]%(vr_tables _ _ _ Hrep') Hu. apply (vr_pages _ _ _ Hrep'); [|done].
  by eapply vr_roots.
Qed.

(** ** The kernel half *)

(** Root tables are copies of the kernel's, so they share what is below its
    entries; nothing keeps a request from changing it. *)
Section Shared.
Context (h : gmap Z kobject) (v : Z).

(** The root tables [rs] have the same entry for [v], to the table [l]. *)
Definition same_entry (rs : list Z) (l : Z) : Prop :=
  ∃ pte, pte_is_valid pte = true ∧ pte_as_page_table pte = l ∧ Forall (λ r, pte_at h r (get_vpn v 3) = Some pte) rs.
End Shared.

Lemma same_entry_walk h v rs l r :
  same_entry h v rs l → r ∈ rs → walk_at h [3; 2; 1] r v = walk_at h [2; 1] l v.
Proof.
  intros (pte & Hv & <- & Hall) Hr. rewrite Forall_forall in Hall. cbn [walk_at].
  rewrite (Hall _ Hr). cbn [mbind option_bind]. by rewrite Hv.
Qed.
Lemma same_entry_set h v rs l t i w : same_entry h v rs l → t ∉ rs → same_entry (set_pte t i w h) v rs l.
Proof.
  intros (pte & Hv & Hl & Hall) Ht. exists pte. split_and!; try done. rewrite Forall_forall in Hall |- *.
  intros r Hr. rewrite <- (Hall _ Hr). unfold pte_at. rewrite table_at_set_pte_ne; [done|]. by intros ->.
Qed.

(** A walk through one more table. *)
Lemma walk_next h l ls t v pte :
  pte_at h t (get_vpn v l) = Some pte → pte_is_valid pte = true →
  walk_at h (l :: ls) t v = walk_at h ls (pte_as_page_table pte) v.
Proof. intros Hp Hv. cbn [walk_at]. rewrite Hp. cbn [mbind option_bind]. by rewrite Hv. Qed.
Lemma walk_stop h l ls t v pte :
  pte_at h t (get_vpn v l) = Some pte → pte_is_valid pte = false → walk_at h (l :: ls) t v = Some (l, (t, get_vpn v l)).
Proof. intros Hp Hv. cbn [walk_at]. rewrite Hp. cbn [mbind option_bind]. by rewrite Hv. Qed.
Lemma empty_table_set h a t i w : empty_table h a → a ≠ t → empty_table (set_pte t i w h) a.
Proof. intros (u & Hu & ?) Hne. exists u. by rewrite table_at_set_pte_ne. Qed.

(** The walks while two tables and an entry are put in place below [l]. *)
Section Walks.
Context (h : gmap Z kobject) (v : Z) (rs : list Z) (l t1 t2 p2 w1 w2 : Z).
Context (Hse : same_entry h v rs l) (Hp2 : pte_at h l (get_vpn v 2) = Some p2) (Hv2 : pte_is_valid p2 = false).
Context (He1 : empty_table h t1) (He2 : empty_table h t2).
Context (Hne : l ≠ t1 ∧ l ≠ t2 ∧ t1 ≠ t2) (Hout : l ∉ rs ∧ t1 ∉ rs ∧ t2 ∉ rs).
Context (Hw1 : pte_is_valid w1 = true ∧ pte_as_page_table w1 = t1) (Hw2 : pte_is_valid w2 = true ∧ pte_as_page_table w2 = t2).

Definition first_table : gmap Z kobject := set_pte l (get_vpn v 2) w1 h.
Definition second_table : gmap Z kobject := set_pte t1 (get_vpn v 1) w2 first_table.
Definition last_entry (w : Z) : gmap Z kobject := set_pte t2 (get_vpn v 0) w second_table.

Lemma walk_before r : r ∈ rs → walk_at h [3; 2; 1] r v = Some (2, (l, get_vpn v 2)).
Proof. intros Hr. rewrite (same_entry_walk _ _ _ _ _ Hse Hr). by eapply walk_stop. Qed.

Lemma walk_first r : r ∈ rs → walk_at first_table [3; 2; 1] r v = Some (1, (t1, get_vpn v 1)).
Proof.
  intros Hr. pose proof (get_vpn_bound v 1). destruct (empty_table_pte h t1 (get_vpn v 1) He1) as (p1 & Hp1 & Hv1); [lia|].
  assert (same_entry first_table v rs l) as Hse1 by (apply same_entry_set; [done|apply Hout]).
  rewrite (same_entry_walk _ _ _ _ _ Hse1 Hr).
  rewrite (walk_next _ _ _ _ _ w1); [|by eapply pte_at_set_pte_eq|apply Hw1]. rewrite (proj2 Hw1).
  eapply walk_stop; [|exact Hv1]. unfold pte_at, first_table. rewrite table_at_set_pte_ne by naive_solver. exact Hp1.
Qed.

Lemma walk_second w r :
  r ∈ rs → pte_is_valid w = true →
  walk_at second_table [3; 2; 1] r v = Some (0, (t2, get_vpn v 0)) ∧
  (∃ p0, pte_at second_table t2 (get_vpn v 0) = Some p0 ∧ pte_is_valid p0 = false) ∧
  translate (last_entry w) r v = Some w.
Proof.
  intros Hr Hw. destruct Hne as (N1 & N2 & N3), Hout as (O1 & O2 & O3).
  destruct (empty_table_pte h t1 (get_vpn v 1) He1 (get_vpn_bound _ _)) as (p1 & Hp1 & Hv1).
  destruct (empty_table_pte h t2 (get_vpn v 0) He2 (get_vpn_bound _ _)) as (p0 & Hp0 & Hv0).
  assert (pte_at first_table t1 (get_vpn v 1) = Some p1) as Hp1'
    by (unfold pte_at, first_table; by rewrite table_at_set_pte_ne by done).
  assert (pte_at second_table t2 (get_vpn v 0) = Some p0) as Hp0'
    by (unfold pte_at, second_table, first_table; by rewrite !table_at_set_pte_ne by done).
  assert (same_entry second_table v rs l) as Hse2 by (repeat apply same_entry_set; done).
  assert (pte_at second_table l (get_vpn v 2) = Some w1) as Hl2.
  { unfold pte_at, second_table. rewrite table_at_set_pte_ne by done. by eapply pte_at_set_pte_eq. }
  assert (pte_at second_table t1 (get_vpn v 1) = Some w2) as Ht2 by by eapply pte_at_set_pte_eq.
  split_and!.
  - rewrite (same_entry_walk _ _ _ _ _ Hse2 Hr), (walk_next _ _ _ _ _ _ Hl2 (proj1 Hw1)), (proj2 Hw1).
    rewrite (walk_next _ _ _ _ _ _ Ht2 (proj1 Hw2)), (proj2 Hw2). cbn [walk_at]. by rewrite Hp0'.
  - by exists p0.
  - assert (same_entry (last_entry w) v rs l) as Hse3 by by apply same_entry_set.
    assert (∀ x i, x ≠ t2 → pte_at (last_entry w) x i = pte_at second_table x i) as Hsame
      by (intros x i Hx; unfold pte_at, last_entry; by rewrite table_at_set_pte_ne by done).
    assert (pte_at (last_entry w) t2 (get_vpn v 0) = Some w) as H0 by by eapply pte_at_set_pte_eq.
    eapply translate_at; [|exact H0|done].
    rewrite (same_entry_walk _ _ _ _ _ Hse3 Hr). rewrite <- (Hsame l) in Hl2 by done. rewrite <- (Hsame t1) in Ht2 by done.
    rewrite (walk_next _ _ _ _ _ _ Hl2 (proj1 Hw1)), (proj2 Hw1), (walk_next _ _ _ _ _ _ Ht2 (proj1 Hw2)), (proj2 Hw2).
    cbn [walk_at]. by rewrite H0.
Qed.
End Walks.

(** Two tables and a page, put in place one after the other. *)
Definition map_below (c1 c2 pg root : CapabilityData) (v flags : Z)
    : K (CapabilityData * CapabilityData * CapabilityData) :=
  let* '(_, c1') := pt_cap_map c1 root v in
  let* '(_, c2') := pt_cap_map c2 root v in
  let* pg' := page_cap_map pg root v flags in
  ret (c1', c2', pg').

Lemma page_entry_ok pg flags :
  frame_ok pg → 0 ≤ flags < 2 ^ 10 →
  pte_as_page_table (page_entry pg flags) = cap_kva pg ∧ page_entry pg flags mod 2 ^ 10 = Z.lor flags PAGE_V.
Proof.
  intros [Hk Ha] Hf. pose proof (lor_flags_bound _ Hf) as Hb.
  split; [by apply pte_as_page_table_write|]. unfold page_entry.
  destruct (kva_phys_roundtrip _ Hk) as [_ Hp]. rewrite pte_write_arith by (unfold is_phys in Hp; lia).
  rewrite Z.add_comm, Z.mod_add, Z.mod_small by lia. done.
Qed.

(** Root tables with the same entry for [v] see what is mapped below it. *)
Lemma below_shared_entry s v rs root l c1 c2 pg flags :
  same_entry (heap s) v rs l → cap_kva root ∈ rs →
  (∃ pte, pte_at (heap s) l (get_vpn v 2) = Some pte ∧ pte_is_valid pte = false) →
  empty_table (heap s) (cap_kva c1) → empty_table (heap s) (cap_kva c2) →
  NoDup ([l; cap_kva c1; cap_kva c2]) → Forall (λ x, x ∉ rs) [l; cap_kva c1; cap_kva c2] →
  is_mapped c1 = false → is_mapped c2 = false → is_mapped pg = false → frame_ok c1 → frame_ok c2 →
  (∀ r, r ∈ rs → translate (heap s) r v = None) ∧
  ∃ h', map_below c1 c2 pg root v flags s
      = Ok (set_mapped c1 v, set_mapped c2 v, set_mapped pg v) (s <| heap := h' |>) ∧
    ∀ r, r ∈ rs → translate h' r v = Some (page_entry pg flags).
Proof.
  intros Hse Hin (p2 & Hp2 & Hv2) He1 He2 Hnd Hout Hm1 Hm2 Hmp [Hk1 Ha1] [Hk2 Ha2].
  rewrite !NoDup_cons in Hnd. destruct Hnd as (Hl & H12 & _).
  assert (l ≠ cap_kva c1 ∧ l ≠ cap_kva c2 ∧ cap_kva c1 ≠ cap_kva c2) as N by set_solver.
  rewrite !Forall_cons in Hout. destruct Hout as (O1 & O2 & O3 & _).
  set (w1 := pte_write (phys_of_kva (cap_kva c1)) PAGE_V). set (w2 := pte_write (phys_of_kva (cap_kva c2)) PAGE_V).
  set (w := page_entry pg flags).
  assert (pte_is_valid w1 = true ∧ pte_as_page_table w1 = cap_kva c1) as Hw1
    by (split; [apply pte_write_valid_table|by apply pte_as_page_table_write]).
  assert (pte_is_valid w2 = true ∧ pte_as_page_table w2 = cap_kva c2) as Hw2
    by (split; [apply pte_write_valid_table|by apply pte_as_page_table_write]).
  pose proof (walk_before _ _ _ _ _ Hse Hp2 Hv2) as Hb.
  pose proof (conj O1 (conj O2 O3)) as O.
  pose proof (walk_first _ _ _ _ _ _ _ _ _ Hse Hp2 He1 N O Hw1 Hw2 _ Hin) as H1.
  pose proof (λ r Hr, walk_second _ _ _ _ _ _ _ _ _ Hse Hp2 He1 He2 N O Hw1 Hw2 w r Hr (pte_write_valid _ _)) as H2.
  split.
  { intros r Hr. unfold translate. by rewrite (Hb r Hr). }
  destruct (H2 _ Hin) as (H2w & (p0 & Hp0 & Hv0) & _).
  set (h1 := first_table (heap s) v l w1) in *. set (h2 := second_table (heap s) v l (cap_kva c1) w1 w2) in *.
  assert (pt_cap_map c1 root v s = Ok (1, set_mapped c1 v) (s <| heap := h1 |>)) as R1
    by (rewrite (pt_cap_map_branches s c1 root v _ _ _ (Hb _ Hin)) by lia; by rewrite Hm1).
  assert (pt_cap_map c2 root v (s <| heap := h1 |>) = Ok (0, set_mapped c2 v) (s <| heap := h2 |>)) as R2
    by (rewrite (pt_cap_map_branches (s <| heap := h1 |>) c2 root v 1 (cap_kva c1) (get_vpn v 1))
          by (rewrite ?heap_set; done || lia); by rewrite Hm2, heap_set, heap_set_set).
  exists (last_entry (heap s) v l (cap_kva c1) (cap_kva c2) w1 w2 w).
  split; [|intros r Hr; exact (proj2 (proj2 (H2 r Hr)))].
  unfold map_below. rewrite (bind_Ok _ _ _ _ _ R1), (bind_Ok _ _ _ _ _ R2).
  pose proof (page_cap_map_branches (s <| heap := h2 |>) pg root v flags 0 (cap_kva c2) (get_vpn v 0) p0) as R3.
  rewrite heap_set, heap_set_set, Hmp, Hv0 in R3. exact (bind_Ok _ _ _ _ _ (R3 H2w Hp0 ltac:(lia))).
Qed.

(** Several page-table capabilities made roots of new address spaces. *)
Definition as_root (c : CapabilityData) : CapabilityData := set_root (set_mapped c (cap_kva c)).
Fixpoint make_roots (cs : list CapabilityData) : K (list CapabilityData) :=
  match cs with
  | [] => ret []
  | c :: cs =>
      let* c' := make_as_root c in
      let* cs' := make_roots cs in
      ret (c' :: cs')
  end.

(** Each of them is a copy of the kernel's root table. *)
Lemma make_roots_copy cs s k :
  table_at (heap s) KERNEL_VM_ROOT = Some k → Forall (λ c, is_mapped c = false) cs →
  KERNEL_VM_ROOT ∉ map cap_kva cs →
  ∃ h', make_roots cs s = Ok (map as_root cs) (s <| heap := h' |>) ∧
    (∀ r, r ∈ KERNEL_VM_ROOT :: map cap_kva cs → table_at h' r = Some k) ∧
    (∀ x, x ∉ map cap_kva cs → h' !! x = heap s !! x).
Proof.
  revert s. induction cs as [|c cs IH]; intros s Hk Hm Hroot.
  { exists (heap s). cbn [make_roots map]. rewrite heap_set_id. split; [done|]. split; [|done].
    intros r [->|Hr%elem_of_nil]%elem_of_cons; done. }
  apply Forall_cons in Hm as [Hc Hm]. cbn [map] in Hroot. apply not_elem_of_cons in Hroot as [Hrc Hroot].
  set (s1 := s <| heap := <[cap_kva c := OPageTable k]> (heap s) |>).
  assert (make_as_root c s = Ok (as_root c) s1) as H1.
  { unfold make_as_root. rewrite Hc. cbn [negb guard]. rewrite (bind_Ok _ _ _ tt s) by done.
    unfold copy_global_mapping. rewrite !bind_assoc. rewrite (bind_Ok _ _ _ k s); [reflexivity|].
    unfold read_page_table. mred. by rewrite Hk. }
  assert (table_at (heap s1) KERNEL_VM_ROOT = Some k) as Hk1
    by (unfold s1; rewrite heap_set, table_at_insert_ne; done).
  destruct (IH s1 Hk1 Hm Hroot) as (h' & H2 & Hall & Hfr).
  exists h'. split_and!.
  - cbn [make_roots map]. rewrite (bind_Ok _ _ _ _ _ H1), (bind_Ok _ _ _ _ _ H2). unfold s1. by rewrite heap_set_set.
  - intros r Hr. cbn [map] in Hr. rewrite !elem_of_cons in Hr. destruct Hr as [->|[->|Hr]].
    + apply Hall. by left.
    + destruct (decide (cap_kva c ∈ map cap_kva cs)) as [Hin|Hin]; [apply Hall; by right|].
      unfold table_at. rewrite Hfr by done. unfold s1. by rewrite heap_set, lookup_insert_eq.
    + apply Hall. by right.
  - intros x Hx. cbn [map] in Hx. apply not_elem_of_cons in Hx as [Hxc Hx]. rewrite Hfr by done.
    unfold s1. by rewrite heap_set, lookup_insert_ne.
Qed.

(** C28: the kernel's half is not protected. Root tables made by [make_as_root]
    are copies of the kernel's, so they share the tables below its entries, and
    the page-table and page capabilities accept addresses there. Let the
    kernel's root have a valid entry for [v], to a table [l] whose own entry for
    [v] is free, and make address spaces of any number of page-table
    capabilities: [v] translates in none. A thread that then maps two empty
    tables and a page at [v] in its own space succeeds, and the page appears,
    with the flags it chose, in the kernel's space and in all the others. *)
Theorem kernel_half_shared s v k e l root others c1 c2 pg flags :
  let roots := map cap_kva (root :: others) in
  table_at (heap s) KERNEL_VM_ROOT = Some k → k !! Z.to_nat (get_vpn v 3) = Some e →
  pte_is_valid e = true → pte_as_page_table e = l →
  Forall (λ c, is_mapped c = false) (root :: others) → KERNEL_VM_ROOT ∉ roots →
  (∃ pte, pte_at (heap s) l (get_vpn v 2) = Some pte ∧ pte_is_valid pte = false) →
  empty_table (heap s) (cap_kva c1) → empty_table (heap s) (cap_kva c2) →
  NoDup ([l; cap_kva c1; cap_kva c2]) → Forall (λ x, x ∉ KERNEL_VM_ROOT :: roots) [l; cap_kva c1; cap_kva c2] →
  is_mapped c1 = false → is_mapped c2 = false → is_mapped pg = false →
  frame_ok c1 → frame_ok c2 → frame_ok pg → 0 ≤ flags < 2 ^ 10 →
  ∃ s1 h' pte,
    make_roots (root :: others) s = Ok (map as_root (root :: others)) s1 ∧
    (∀ r, r ∈ KERNEL_VM_ROOT :: roots → translate (heap s1) r v = None) ∧
    map_below c1 c2 pg (as_root root) v flags s1
      = Ok (set_mapped c1 v, set_mapped c2 v, set_mapped pg v) (s1 <| heap := h' |>) ∧
    pte_as_page_table pte = cap_kva pg ∧ pte mod 2 ^ 10 = Z.lor flags PAGE_V ∧
    ∀ r, r ∈ KERNEL_VM_ROOT :: roots → translate h' r v = Some pte.
Proof.
  intros roots Hk Hke Hev Hel Hm Hroot Hfree He1 He2 Hnd Hout Hm1 Hm2 Hmp Hf1 Hf2 Hfp Hf.
  destruct (make_roots_copy (root :: others) s k Hk Hm Hroot) as (h1 & H1 & Hall & Hfr).
  assert (∀ x, x ∉ KERNEL_VM_ROOT :: roots → table_at h1 x = table_at (heap s) x) as Hsame.
  { intros x Hx. apply not_elem_of_cons in Hx as [_ Hx]. unfold table_at. by rewrite Hfr. }
  pose proof Hout as Hout'. rewrite !Forall_cons in Hout. destruct Hout as (O1 & O2 & O3 & _).
  assert (same_entry h1 v (KERNEL_VM_ROOT :: roots) l) as Hse.
  { exists e. split_and!; try done. apply Forall_forall. intros r Hr. unfold pte_at. by rewrite (Hall r Hr). }
  assert (∀ a, a ∉ KERNEL_VM_ROOT :: roots → empty_table (heap s) a → empty_table h1 a) as Hempty.
  { intros a Ha (u & Hu & ?). exists u. by rewrite Hsame. }
  set (s1 := s <| heap := h1 |>).
  destruct (below_shared_entry s1 v (KERNEL_VM_ROOT :: roots) (as_root root) l c1 c2 pg flags)
    as (Hno & h' & Hrun & Htr); try done.
  - unfold roots. cbn [map]. right. left.
  - destruct Hfree as (p & Hp & ?). exists p. split; [|done]. unfold pte_at in *.
    change (heap s1) with h1. by rewrite Hsame.
  - by apply Hempty.
  - by apply Hempty.
  - destruct (page_entry_ok pg flags Hfp Hf) as [Hpa Hpf].
    exists s1, h', (page_entry pg flags). split_and!; done.
Qed.

(** ** A table in two places *)

(** The walk for [v] ends in the last-level table of its position. *)
Lemma tree_walk_leaf h root pf v t :
  tree h root pf → is_user v → pf !! t = Some (0, position v 0) →
  walk_at h [3; 2; 1] root v = Some (0, (t, get_vpn v 0)).
Proof.
  intros Htr Hu Ht. destruct (walk_root _ _ _ v (tr_space _ _ _ Htr) Hu) as (l & x & Hw & Hl & Hx & Hinv).
  assert (∃ y, pf !! y = Some (1, position v 1)) as [y Hy] by (apply (tree_up _ _ _ v 0 t Htr Hu Ht); lia).
  assert (∃ z, pf !! z = Some (2, position v 2)) as [z Hz] by (apply (tree_up _ _ _ v 1 y Htr Hu Hy); lia).
  assert (l = 0) as ->.
  { destruct (decide (l = 0)) as [|Hl0]; [done|]. destruct (Hinv ltac:(lia)) as (pte & Hp & Hv).
    exfalso. assert (l = 1 ∨ l = 2 ∨ l = 3) as [->|[->| ->]] by lia.
    - exact (tree_hole _ _ _ v 1 x pte t Htr Hu Hx ltac:(lia) Hp Hv Ht).
    - exact (tree_hole _ _ _ v 2 x pte y Htr Hu Hx ltac:(lia) Hp Hv Hy).
    - exact (tree_hole _ _ _ v 3 x pte z Htr Hu Hx ltac:(lia) Hp Hv Hz). }
  rewrite Hw. by rewrite (tr_inj _ _ _ Htr _ _ _ Hx Ht).
Qed.

Lemma missing_stops h tb a root v :
  vrep h tb a → root_in tb root → is_user v → 1 ≤ missing a root v →
  ∃ t, stops h root (tables_of tb root) v (missing a root v) t.
Proof.
  intros Hrep Hr Hu Hm. destruct (walk_missing _ _ _ Hrep root v Hr Hu) as (t & Hw & Hl & Ht & Hi).
  exists t. split; try done. by apply Hi.
Qed.

(** The memory after the empty table [x] was put below the entries at which the
    walks for [v] in two spaces stop: it is the last-level table of both. *)
Lemma two_places h tb a rA rB v x w :
  vrep h tb a → root_in tb rA → root_in tb rB → rA ≠ rB → is_user v →
  missing a rA v = 1 → missing a rB v = 1 → x ∈ va_pool a →
  pte_is_valid w = true → pte_as_page_table w = x →
  ∃ tA tB pfA pfB, walk_at h [3; 2; 1] rA v = Some (1, (tA, get_vpn v 1)) ∧
    walk_at (set_pte tA (get_vpn v 1) w h) [3; 2; 1] rB v = Some (1, (tB, get_vpn v 1)) ∧
    let h2 := set_pte tB (get_vpn v 1) w (set_pte tA (get_vpn v 1) w h) in
    tree h2 rA pfA ∧ tree h2 rB pfB ∧ pfA !! x = Some (0, position v 0) ∧ pfB !! x = Some (0, position v 0) ∧
    empty_table h2 x.
Proof.
  intros Hrep HA HB Hne Hu HmA HmB Hx Hwv Hwa. destruct (vr_pool _ _ _ Hrep x Hx) as [He Hxn].
  destruct (missing_stops _ _ _ rA v Hrep HA Hu) as (tA & HsA); [lia|].
  destruct (missing_stops _ _ _ rB v Hrep HB Hu) as (tB & HsB); [lia|]. rewrite HmA in HsA. rewrite HmB in HsB.
  pose proof (vr_tree _ _ _ Hrep _ HA) as TA. pose proof (vr_tree _ _ _ Hrep _ HB) as TB.
  pose proof (proj1 (lookup_tables_of _ _ _ _ _) (st_table _ _ _ _ _ _ HsA)) as HtA.
  pose proof (proj1 (lookup_tables_of _ _ _ _ _) (st_table _ _ _ _ _ _ HsB)) as HtB.
  assert (tA ≠ tB ∧ tA ≠ x ∧ tB ≠ x) as (N1 & N2 & N3) by (split_and!; congruence).
  set (h1 := set_pte tA (get_vpn v 1) w h).
  assert (tables_of tb rB !! tA = None) as HBA by by eapply tables_of_other.
  assert (tables_of tb rA !! tB = None) as HAB by by eapply tables_of_other.
  assert (tree h1 rA (<[x := (0, position v 0)]> (tables_of tb rA))) as TA1
    by (apply (tree_install h rA _ v 1 tA x w); try done; [by apply tables_of_None]).
  assert (tree h1 rB (tables_of tb rB)) as TB1 by (apply (tree_frame tA h); [apply set_pte_frame|done|done]).
  assert (stops h1 rB (tables_of tb rB) v 1 tB) as HsB1.
  { destruct HsB as [Hw Hl Ht (pte & Hp & Hv)].
    destruct (used_table _ _ _ _ _ _ _ Hrep HtA) as (_ & _ & u & Hu1). split; [|done|done|].
    - unfold h1. rewrite (set_pte_insert _ _ _ _ _ Hu1).
      by rewrite (proj1 (translate_insert _ _ _ _ _ _ (tr_space _ _ _ TB) Hu HBA)).
    - exists pte. split; [|done]. unfold pte_at, h1. by rewrite table_at_set_pte_ne by done. }
  assert (empty_table h1 x) as He1 by by apply empty_table_set.
  exists tA, tB, (<[x := (0, position v 0)]> (tables_of tb rA)), (<[x := (0, position v 0)]> (tables_of tb rB)).
  split; [apply HsA|]. split; [apply HsB1|]. cbv zeta. split_and!.
  - apply (tree_frame tB h1); [apply set_pte_frame|by rewrite lookup_insert_ne|done].
  - apply (tree_install h1 rB _ v 1 tB x w); try done. by apply tables_of_None.
  - apply lookup_insert_eq.
  - apply lookup_insert_eq.
  - by apply empty_table_set.
Qed.

(** C29: a page table can be put in two address spaces. [derive] copies the
    capability to a table that is not mapped as it is, and [map] only looks at
    the capability: with the copy, the table is also put in place in a second
    space. From then on the two spaces share it: a page mapped in the first
    appears, with its flags, at the same address of the second one, where
    nothing was mapped. (The last-level table for [v] is missing in both spaces,
    the others are in place.) *)
Theorem copied_table_shared s tb a rA rB c pg v flags :
  vrep (heap s) tb a → is_vroot a rA → is_vroot a rB → cap_kva rA ≠ cap_kva rB → is_user v →
  missing a (cap_kva rA) v = 1 → missing a (cap_kva rB) v = 1 →
  is_mapped c = false → frame_ok c → cap_kva c ∈ va_pool a →
  is_mapped pg = false → frame_ok pg → 0 ≤ flags < 2 ^ 10 →
  translate (heap s) (cap_kva rB) v = None ∧
  ∃ h' pte,
    (let* c' := page_table_derive c in
     pt_cap_map c rA v ;;; pt_cap_map c' rB v ;;; page_cap_map pg rA v flags) s
      = Ok (set_mapped pg v) (s <| heap := h' |>) ∧
    pte_as_page_table pte = cap_kva pg ∧ pte mod 2 ^ 10 = Z.lor flags PAGE_V ∧
    translate h' (cap_kva rA) v = Some pte ∧ translate h' (cap_kva rB) v = Some pte.
Proof.
  intros Hrep HA%(vroot_in _ _ _ Hrep) HB%(vroot_in _ _ _ Hrep) Hne Hu HmA HmB Hc [Hk Ha] Hx Hpg Hfp Hf.
  set (w := pte_write (phys_of_kva (cap_kva c)) PAGE_V).
  assert (pte_is_valid w = true ∧ pte_as_page_table w = cap_kva c) as [Hwv Hwa]
    by (split; [apply pte_write_valid_table|by apply pte_as_page_table_write]).
  destruct (two_places (heap s) tb a _ _ v (cap_kva c) w Hrep HA HB Hne Hu HmA HmB Hx Hwv Hwa)
    as (tA & tB & pfA & pfB & W1 & W2 & TA & TB & PA & PB & He).
  set (h1 := set_pte tA (get_vpn v 1) w (heap s)) in *. set (h2 := set_pte tB (get_vpn v 1) w h1) in *.
  split.
  { destruct (walk_missing _ _ _ Hrep _ v HB Hu) as (t & Hw & _). unfold translate. rewrite Hw. by rewrite HmB. }
  pose proof (tree_walk_leaf _ _ _ v _ TA Hu PA) as WA. pose proof (tree_walk_leaf _ _ _ v _ TB Hu PB) as WB.
  destruct (empty_table_pte h2 (cap_kva c) (get_vpn v 0) He (get_vpn_bound _ _)) as (p0 & Hp0 & Hv0).
  assert (pt_cap_map c rA v s = Ok (0, set_mapped c v) (s <| heap := h1 |>)) as R1
    by (rewrite (pt_cap_map_branches s c rA v _ _ _ W1) by lia; by rewrite Hc).
  assert (pt_cap_map (cap_replicate c) rB v (s <| heap := h1 |>) = Ok (0, set_mapped (cap_replicate c) v) (s <| heap := h2 |>)) as R2
    by (rewrite (pt_cap_map_branches (s <| heap := h1 |>) (cap_replicate c) rB v 1 tB (get_vpn v 1))
          by (rewrite ?heap_set; done || lia);
        change (is_mapped (cap_replicate c)) with (is_mapped c); by rewrite Hc, heap_set, heap_set_set).
  pose proof (page_cap_map_branches (s <| heap := h2 |>) pg rA v flags 0 (cap_kva c) (get_vpn v 0) p0) as R3.
  rewrite heap_set, heap_set_set, Hpg, Hv0 in R3. specialize (R3 WA Hp0 ltac:(lia)).
  destruct (page_entry_ok pg flags Hfp Hf) as [Hpa Hpf].
  exists (set_pte (cap_kva c) (get_vpn v 0) (page_entry pg flags) h2), (page_entry pg flags). split_and!; try done.
  - rewrite (bind_Ok _ _ _ (cap_replicate c) s) by done. rewrite (bind_Ok _ _ _ _ _ R1), (bind_Ok _ _ _ _ _ R2). exact R3.
  - rewrite (tree_leaf_translate h2 _ _ _ v _ v TA Hu Hu PA WA), decide_True by done.
    unfold page_entry. by rewrite pte_write_valid.
  - rewrite (tree_leaf_translate h2 _ _ _ v _ v TB Hu Hu PB WB), decide_True by done.
    unfold page_entry. by rewrite pte_write_valid.
Qed.
End Layout.
