(* ===== verification/BootRun.v ===== *)
(** * The boot sequence ends in the root server

    While the boot code builds the root server's objects it never touches the
    scheduler or a control block it has already written; the one thread it
    queues is the one [schedule] then runs, in the address space that was
    built for it. *)

From S2P Require Import Prelude Shared Address Objects Riscv LinkedList Capability PageTable CNode.
From S2P Require Import Thread RoundRobin Ipc Untyped Trap TrapProps Boot Elf RootServer.

(** ** Steps that leave a thread alone *)

(** What starting a thread depends on. *)
Definition Core : Type := option Z * ThreadState * Z * Z * CSlot.
Definition core (t : ThreadControlBlock) : Core :=
  (next t, status (value t), sepc (registers (value t)), sstatus (registers (value t)),
   vspace (value t)).

(** [x] stays a control block with the same [core]; scheduling stays as it was. *)
Record quiet (x : Z) (s s' : KState) : Prop := {
  quiet_sched : scheduler s' = scheduler s;
  quiet_current : current_proc s' = current_proc s;
  quiet_tcb : ∀ t, heap s !! x = Some (OTcb t) → ∃ t', heap s' !! x = Some (OTcb t') ∧ core t' = core t;
}.
#[export] Instance quiet_preorder x : PreOrder (quiet x).
Proof.
  split; [split; naive_solver|]. intros s1 s2 s3 [H1 H2 H3] [G1 G2 G3]. split; [congruence..|].
  intros t Ht. destruct (H3 t Ht) as (t' & Ht' & Hc). destruct (G3 t' Ht') as (t'' & ? & ?).
  exists t''. split; congruence.
Qed.

Section Steps.
Context (x : Z).

Lemma quiet_set_heap a o : a ≠ x → Keeps (quiet x) (set_heap a o).
Proof. intros Hne s. split; [done..|]. intros t Ht. exists t. simpl. by rewrite lookup_insert_ne. Qed.
Lemma quiet_write_tcb a o : a ≠ x → Keeps (quiet x) (write_tcb a o).
Proof. apply quiet_set_heap. Qed.
Lemma quiet_write_table a o : a ≠ x → Keeps (quiet x) (write_page_table a o).
Proof. apply quiet_set_heap. Qed.
Lemma quiet_write_entry a o : a ≠ x → Keeps (quiet x) (write_entry a o).
Proof. apply quiet_set_heap. Qed.

(** A write to an object that is not a control block. *)
Lemma quiet_insert s a o :
  (∀ t, heap s !! a ≠ Some (OTcb t)) → quiet x s (s <| heap := <[a := o]> (heap s) |>).
Proof.
  intros Ha. split; [done..|]. intros t Ht. exists t. simpl.
  rewrite lookup_insert_ne; [done|]. intros ->. by apply (Ha t).
Qed.

Lemma quiet_read_slot_write a sl o s :
  read_slot a s = Ok sl s → quiet x s (s <| heap := <[a := o]> (heap s) |>).
Proof.
  intros Hr. apply quiet_insert. intros t Ht. revert Hr.
  unfold read_slot, slot_at, bind, gets. by rewrite Ht.
Qed.
Lemma read_slot_inv a sl s s' : read_slot a s = Ok sl s' → s' = s.
Proof.
  unfold read_slot, bind, gets. destruct (slot_at (heap s) a); [|done]. by intros [= _ ->].
Qed.

Lemma quiet_modify_entry a f : Keeps (quiet x) (modify_entry a f).
Proof.
  intros s. unfold modify_entry, read_entry, bind.
  destruct (read_slot a s) as [sl s1|e s1| | |] eqn:E; try done.
  - pose proof (read_slot_inv _ _ _ _ E) as ->. destruct sl; [|done]. by apply (quiet_read_slot_write _ _ _ _ E).
  - revert E. unfold read_slot, bind, gets. by destruct (slot_at (heap s) a).
Qed.

Lemma quiet_write_slot cn c i : Keeps (quiet x) (write_slot cn c i).
Proof.
  unfold write_slot. apply keeps_bind; [apply _|keeps|]. intros cap_. destruct (cap_ <=? i); [keeps|].
  intros s. unfold bind. destruct (read_slot _ s) as [sl s1|e s1| | |] eqn:E; try done.
  - pose proof (read_slot_inv _ _ _ _ E) as ->. destruct sl; [by apply quiet_preorder|].
    by apply (quiet_read_slot_write _ _ _ _ E).
  - revert E. unfold read_slot, bind, gets. by destruct (slot_at (heap s) _).
Qed.

Lemma quiet_write_pte table vpn pte : Keeps (quiet x) (write_pte table vpn pte).
Proof.
  intros s. unfold write_pte, read_page_table, bind, gets.
  destruct (table_at (heap s) table) as [t|] eqn:E; [|done]. simpl.
  destruct (t !! Z.to_nat vpn); [|done]. apply quiet_insert.
  intros t' Ht'. revert E. unfold table_at. by rewrite Ht'.
Qed.

Lemma quiet_modify_boot_info a f : Keeps (quiet x) (modify_boot_info a f).
Proof.
  intros s. unfold modify_boot_info, bind, gets. destruct (heap s !! a) as [[]|] eqn:E; try done.
  apply quiet_insert. by rewrite E.
Qed.

Lemma quiet_modify_tcb a f :
  (∀ t, core (t <| value ::= f |>) = core t) ∨ a ≠ x → Keeps (quiet x) (modify_tcb a f).
Proof.
  intros Hf s. unfold modify_tcb, read_tcb, bind, gets. destruct (heap s !! a) as [[|t| | | | |]|] eqn:E; try done.
  split; [done..|]. intros t0 Ht0. simpl. destruct (decide (a = x)) as [->|Hne].
  - rewrite lookup_insert_eq. simplify_eq. destruct Hf as [Hf|]; [|done]. eauto.
  - rewrite lookup_insert_ne by done. eauto.
Qed.

Lemma quiet_load_bytes a b c : Keeps (quiet x) (load_bytes a b c).
Proof. intros s. split; [done..|]. eauto. Qed.
End Steps.
#[export] Hint Resolve quiet_modify_entry quiet_write_slot quiet_write_pte quiet_modify_boot_info
  quiet_load_bytes quiet_write_tcb quiet_write_table quiet_write_entry quiet_set_heap : keeps.

(** ** The boot code leaves other threads alone *)

Lemma quiet_lookup x n c p d : Keeps (quiet x) (lookup_entry_mut n c p d).
Proof. revert c d. induction n as [|n IH]; intros; cbn [lookup_entry_mut]; [done|keeps]. Qed.
Lemma quiet_walk_levels x ls t v : Keeps (quiet x) (walk_levels ls t v).
Proof. revert t. induction ls as [|l ls IH]; intros; cbn [walk_levels]; keeps. Qed.
#[export] Hint Resolve quiet_lookup quiet_walk_levels : keeps.

Lemma quiet_cap_init x C a n :
  (∀ a n, Keeps (quiet x) (create_cap_dep_val C a n)) → Keeps (quiet x) (cap_init C a n).
Proof. intros HC. unfold cap_init. apply keeps_bind; [apply _|apply HC|keeps]. Qed.
Lemma quiet_cap_init_table x a n : Keeps (quiet x) (cap_init PageTableCap a n).
Proof. apply quiet_cap_init. cbn [create_cap_dep_val PageTableCap]. keeps. Qed.
Lemma quiet_cap_init_page x a n : Keeps (quiet x) (cap_init PageCap a n).
Proof. apply quiet_cap_init. cbn [create_cap_dep_val PageCap]. keeps. Qed.
Lemma quiet_cap_init_untyped x a n : Keeps (quiet x) (cap_init UntypedCap a n).
Proof. apply quiet_cap_init. cbn [create_cap_dep_val UntypedCap]. keeps. Qed.
Lemma quiet_cap_init_tcb `{KernelLayout} x a n : Keeps (quiet x) (cap_init TCBCap a n).
Proof. apply quiet_cap_init. cbn [create_cap_dep_val TCBCap]. keeps. Qed.
#[export] Hint Resolve quiet_cap_init_table quiet_cap_init_page quiet_cap_init_untyped
  quiet_cap_init_tcb : keeps.

Lemma quiet_map_page_tables x n cn m root v : Keeps (quiet x) (map_page_tables n cn m root v).
Proof. revert m. induction n as [|n IH]; intros; cbn [map_page_tables]; [done|keeps]. Qed.
#[export] Hint Resolve quiet_map_page_tables : keeps.
Lemma quiet_create_page x cn root m p v f : Keeps (quiet x) (create_mapped_page_cap cn root m p v f).
Proof. keeps. Qed.
#[export] Hint Resolve quiet_create_page : keeps.
Lemma quiet_map_program_pages x v src f ps mp rem : Keeps (quiet x) (map_program_pages v src f ps mp rem).
Proof. revert mp rem. induction ps as [|p ps IH]; intros; cbn [map_program_pages]; keeps. Qed.
#[export] Hint Resolve quiet_map_program_pages : keeps.
Lemma quiet_map_headers x bytes n it mp : Keeps (quiet x) (map_headers RootServerMapper bytes n it mp).
Proof. revert it mp. induction n as [|n IH]; intros; cbn [map_headers]; [done|].
  destruct (pheaders_next bytes it) as [[[p src] it']|]; [|apply keeps_ret, _].
  unfold hdr_map_program. cbn [mapper_map_program mapper_get_flags RootServerMapper eret ebind eundef M_effect].
  destruct (program_type_of (p_type p)); [|done]. destruct (negb _); keeps.
Qed.
#[export] Hint Resolve quiet_map_headers : keeps.

Lemma quiet_Ok {A} x (m : K A) s a s' : m s = Ok a s' → Keeps (quiet x) m → quiet x s s'.
Proof. intros Hr Hm. specialize (Hm s). by rewrite Hr in Hm. Qed.

(** ** The capabilities of the root thread *)

(** The entry at [tmp] holds [c]. *)
Definition entry_holds (tmp : Z) (c : CapabilityData) (s : KState) : Prop :=
  ∃ e, slot_at (heap s) tmp = Some (Some e) ∧ cap e = c.
Definition holding (tmp : Z) (c : CapabilityData) (s s' : KState) : Prop :=
  entry_holds tmp c s → entry_holds tmp c s'.
#[export] Instance holding_preorder tmp c : PreOrder (holding tmp c).
Proof. split; unfold holding; [by intros ?|]. intros ???; auto. Qed.

Lemma holding_modify_entry tmp c a f :
  (∀ e, cap (f e) = cap e) → Keeps (holding tmp c) (modify_entry a f).
Proof.
  intros Hf s. unfold modify_entry, read_entry, read_slot, bind, gets.
  destruct (slot_at (heap s) a) as [[e|]|] eqn:E; try done. intros (e0 & He0 & Hc).
  unfold entry_holds, slot_at. simpl. destruct (decide (a = tmp)) as [->|].
  - rewrite lookup_insert_eq. simplify_eq. eauto.
  - rewrite lookup_insert_ne by done. eauto.
Qed.
Lemma holding_lookup tmp c n cn p d : Keeps (holding tmp c) (lookup_entry_mut n cn p d).
Proof. revert cn d. induction n as [|n IH]; intros; cbn [lookup_entry_mut]; [done|keeps]. Qed.
Lemma holding_entry_insert tmp c a b : Keeps (holding tmp c) (entry_insert a b).
Proof.
  assert (∀ u v w, Keeps (holding tmp c) (mdb_set_node u v w)).
  { intros. apply keeps_bind; [apply _| |intros _]; by apply holding_modify_entry. }
  keeps.
Qed.
#[export] Hint Resolve holding_lookup holding_entry_insert : keeps.

Lemma entry_for_root_cap tmp cn c i s e s' : entry_for_root tmp cn c i s = Ok e s' → cap e = c.
Proof.
  unfold entry_for_root, with_local_entry. intros Hr. inv_bind Hr. inv_bind Hr. injection Hm as _ <-.
  match type of Hm0 with ?m ?s0 = _ => assert (Keeps (holding tmp c) m) as Hk by keeps; specialize (Hk s0) end.
  rewrite Hm0 in Hk. destruct Hk as (e' & He' & Hc).
  { unfold entry_holds, slot_at. simpl. rewrite lookup_insert_eq. by exists (new_with_rawcap c). }
  revert Hr. unfold read_entry, read_slot, bind, gets. rewrite He'. simpl. by intros [= -> _].
Qed.
Lemma quiet_entry_for_root x tmp cn c i : tmp ≠ x → Keeps (quiet x) (entry_for_root tmp cn c i).
Proof. intros. keeps. Qed.
#[export] Hint Resolve quiet_entry_for_root : keeps.

(** The thread at [x] has this [core]. *)
Definition has_core (x : Z) (s : KState) (k : Core) : Prop :=
  ∃ t, heap s !! x = Some (OTcb t) ∧ core t = k.
Lemma quiet_core {A} x (m : K A) s a s' k :
  m s = Ok a s' → Keeps (quiet x) m → has_core x s k → has_core x s' k.
Proof.
  intros Hr Hm (t & Ht & Hk). destruct (quiet_Ok _ _ _ _ _ Hr Hm) as [_ _ Hq].
  destruct (Hq t Ht) as (t' & ? & ?). exists t'. split; congruence.
Qed.
Lemma modify_tcb_core x g f s u s' k :
  modify_tcb x f s = Ok u s' → (∀ t, core (t <| value ::= f |>) = g (core t)) →
  has_core x s k → has_core x s' (g k).
Proof.
  intros Hr Hg (t & Ht & <-). rewrite (modify_tcb_Ok _ _ _ _ Ht) in Hr. injection Hr as _ <-.
  eexists. rewrite heap_set, lookup_insert_eq. by split.
Qed.

(** Follow the [core] in a hypothesis [Hc] over a step [Hm]. *)
Ltac modified Hm g :=
  match goal with Hc : has_core _ _ _ |- _ =>
    apply (modify_tcb_core _ g _ _ _ _ _ Hm) in Hc; [|intros [[] ?]; reflexivity]; cbv beta iota in Hc end.
Ltac kept Hm :=
  match goal with Hc : has_core _ _ _ |- _ => apply (quiet_core _ _ _ _ _ _ Hm) in Hc; [|keeps] end.

Section Layout.
Context `{KernelLayout}.

Lemma quiet_create_root_cnode x mem : Keeps (quiet x) (create_root_cnode mem).
Proof. unfold create_root_cnode. cbn [create_cap_dep_val CNodeCap]. keeps. Qed.

Lemma quiet_create_root_tcb x tmp mem cn vs ipc entry :
  tmp ≠ x → rm_tcb mem ≠ x → Keeps (quiet x) (create_root_tcb tmp mem cn vs ipc entry).
Proof.
  intros Htmp Ht. unfold create_root_tcb. cbv zeta.
  repeat (apply keeps_bind; [apply _| |intros];
    [first [by apply quiet_write_tcb|by apply quiet_modify_tcb; right|keeps]|]).
  keeps.
Qed.

(** The root server's control block: not queued, not yet runnable, at the
    entry point, in user mode, in the address space given. *)
Lemma create_root_tcb_core tmp mem cn vs ipc entry s c s' :
  tmp ≠ rm_tcb mem → create_root_tcb tmp mem cn vs ipc entry s = Ok c s' →
  c = cap_new CapabilityType.Tcb (phys_of_kva (rm_tcb mem)) 0 ∧
  ∃ t e, heap s' !! rm_tcb mem = Some (OTcb t) ∧
    core t = (None, Inactive, entry, SSTATUS_SPIE, Some e) ∧ cap e = cap_replicate vs.
Proof.
  intros Htmp Hr. unfold create_root_tcb in Hr. cbv zeta in Hr. set (x := rm_tcb mem) in *.
  inv_bind Hr. rename s0 into s1. assert (has_core x s1 (None, Inactive, 0, 0, None)) as Hc.
  { injection Hm as _ <-. eexists. by rewrite heap_set, lookup_insert_eq. }
  inv_bind Hr. modified Hm0 (λ '((n, st, pc, _, v) : Core), (n, st, pc, SSTATUS_SPIE, v)).
  inv_bind Hr. modified Hm1 (λ '((n, st, _, sr, v) : Core), (n, st, entry, sr, v)).
  inv_bind Hr. kept Hm2.
  inv_bind Hr. modified Hm3 (id : Core → Core).
  inv_bind Hr. kept Hm4.
  inv_bind Hr. modified Hm5 (λ '((n, st, pc, sr, _) : Core), (n, st, pc, sr, Some a4)).
  apply entry_for_root_cap in Hm4. simpl in Hc.
  inv_bind Hr. kept Hm6.
  inv_bind Hr. modified Hm7 (id : Core → Core).
  inv_bind Hr. injection Hm8 as <- <-. inv_bind Hr. injection Hr as <- <-.
  kept Hm8.
  split; [done|]. destruct Hc as (t & Ht & Hk). by exists t, a4.
Qed.

Lemma quiet_give_untyped x n g cn bi i num : Keeps (quiet x) (give_untyped n g cn bi i num).
Proof. revert g i num. induction n as [|n IH]; intros; cbn [give_untyped]; [done|]. keeps. Qed.
Lemma quiet_ipc_frame x mem cn vs mv mbr : Keeps (quiet x) (create_ipc_buf_frame mem cn vs mv mbr).
Proof. keeps. Qed.
Lemma quiet_boot_frame x mem cn vs mv mbr : Keeps (quiet x) (create_boot_info_frame mem cn vs mv mbr).
Proof. keeps. Qed.

Lemma is_root_set_root c : is_root (set_root c) = true.
Proof.
  unfold is_root. replace 0x1 with (Z.ones 1) by reflexivity. rewrite Z.land_ones by lia.
  change (2 ^ 1) with 2. rewrite Zmod_odd, <- Z.bit0_odd, Z.shiftr_spec by lia. change (0 + 49) with 49.
  change (cap_dep_val (set_root c)) with (Z.lor (cap_dep_val c) (Z.shiftl 1 49)).
  rewrite Z.lor_spec. replace (Z.testbit (Z.shiftl 1 49) 49) with true by reflexivity.
  by rewrite orb_true_r.
Qed.

Lemma ret_inv {S E A} (a b : A) (s s' : S) : ret (E := E) a s = Ok b s' → b = a ∧ s' = s.
Proof. by intros [= -> ->]. Qed.
Lemma make_as_root_inv c s a s' : make_as_root c s = Ok a s' → a = set_root (set_mapped c (cap_kva c)).
Proof. unfold make_as_root. intros Hr. inv_bind Hr. inv_bind Hr. by apply ret_inv in Hr as [-> _]. Qed.
Lemma unwrap_res_inv {S E E' A} (m : M S E A) s a s' : unwrap_res (E' := E') m s = Ok a s' → m s = Ok a s'.
Proof. unfold unwrap_res. destruct (m s); try done. by intros [= -> ->]. Qed.

(** The root table of the new address space is the object set aside for it. *)
Lemma create_address_space_root mem bytes cn elf mgr s c mv mgr' s' :
  is_kva (rm_vspace mem) →
  create_address_space mem bytes cn elf mgr s = Ok (c, mv, mgr') s' →
  is_root c = true ∧ cap_kva c = rm_vspace mem ∧
  ∀ x, rm_vspace mem ≠ x → quiet x s s'.
Proof.
  intros Hk Hr. unfold create_address_space in Hr. inv_bind Hr. inv_bind Hr. inv_bind Hr.
  injection Hm0 as <- <-. set (c0 := cap_new _ _ _) in *.
  assert (cap_kva c0 = rm_vspace mem) as Hc0 by by apply cap_kva_new.
  assert (∀ x, rm_vspace mem ≠ x → Keeps (quiet x) (make_as_root c0)) as Hroot.
  { intros x Hx. rewrite <- Hc0 in Hx. keeps. }
  assert (a1 = set_root (set_mapped c0 (rm_vspace mem))) as ->.
  { apply unwrap_res_inv, make_as_root_inv in Hm1. by rewrite <- Hc0. }
  inv_bind Hr. inv_bind Hr. apply ret_inv in Hr as [[= -> -> ->] ->].
  split; [apply is_root_set_root|]. split; [done|]. intros x Hx.
  pose proof (quiet_Ok x _ _ _ _ Hm ltac:(by apply quiet_write_table)) as H1.
  pose proof (quiet_Ok x _ _ _ _ Hm1 ltac:(apply keeps_unwrap_res; by apply Hroot)) as H2.
  pose proof (quiet_Ok x _ _ _ _ Hm0 ltac:(keeps)) as H3.
  pose proof (quiet_Ok x _ _ _ _ Hm2 ltac:(unfold map_self; keeps)) as H4.
  by rewrite H1, H2, H3.
Qed.

(** ** Where the objects are *)

(** An address handed out by the page allocator: in the window, and below the
    kernel's own code and data. *)
Record boot_object (a : Z) : Prop := { bo_kva : is_kva a; bo_below : a < KERNEL_CODE_PFX }.
Record allocator_ok (b : BumpAllocator) : Prop := {
  ao_start : 0 ≤ start_addr b; ao_end : end_addr b < 2 ^ 46 }.

Lemma alloc_obj_Ok C b n s a b' s' :
  allocator_ok b → alloc_obj C b n s = Ok (a, b') s' → boot_object a ∧ allocator_ok b'.
Proof.
  intros [Hb He] Hr. unfold alloc_obj in Hr. inv_bind Hr. inv_bind Hr. inv_bind Hr.
  destruct a2 as [p b1]. apply ret_inv in Hr as [[= -> ->] _].
  assert (0 ≤ a1) as Ha1.
  { unfold align_up in Hm0. inv_bind Hm0. inv_bind Hm0. inv_bind Hm0. apply ret_inv in Hm0 as [-> _].
    apply Z.land_nonneg. right.
    match goal with Hs : usize_sub PAGE_SIZE 1 _ = _ |- _ => by injection Hs as <- _ end. }
  apply allocate_pages_Ok in Hm1 as (_ & -> & Hs & He' & Hle); [|by apply Z.div_pos].
  assert (0 ≤ a1 / PAGE_SIZE) by by apply Z.div_pos. unfold PAGE_SIZE in *.
  assert (is_phys (start_addr b)) as Hp by (unfold is_phys; lia).
  split; split; [by apply is_kva_of_phys| |lia|lia].
  rewrite kva_of_phys_add by done. unfold KERNEL_V_ADDR_PFX, KERNEL_CODE_PFX. lia.
Qed.

Record memory_ok (mem : RootServerMemory) : Prop := {
  mo_vspace : boot_object (rm_vspace mem);
  mo_tcb : boot_object (rm_tcb mem);
  mo_boot_frame : boot_object (rm_boot_frame mem);
}.

Lemma init_with_uninit_Ok b s mem b' s' :
  allocator_ok b → init_with_uninit b s = Ok (mem, b') s' →
  memory_ok mem ∧ ∀ x, quiet x s s'.
Proof.
  intros Hb Hr. split.
  - unfold init_with_uninit in Hr. inv_bind Hr. destruct a as [a1 b1].
    apply alloc_obj_Ok in Hm as [_ Hb1]; [|done]. inv_bind Hr. destruct a as [a2 b2].
    apply alloc_obj_Ok in Hm as [Ha2 Hb2]; [|done]. inv_bind Hr. destruct a as [a3 b3].
    apply alloc_obj_Ok in Hm as [Ha3 Hb3]; [|done]. inv_bind Hr. destruct a as [a4 b4].
    apply alloc_obj_Ok in Hm as [_ Hb4]; [|done]. inv_bind Hr. destruct a as [a5 b5].
    apply alloc_obj_Ok in Hm as [Ha5 _]; [|done]. apply ret_inv in Hr as [[= -> ->] _]. done.
  - intros x. apply (quiet_Ok x _ _ _ _ Hr). unfold init_with_uninit, alloc_obj.
    cbn [get_object_size CNodeCap PageTableCap TCBCap PageCap]. keeps.
Qed.

(** ** The root server is scheduled *)

Lemma quiet_set_a0 x c v : Keeps (quiet x) (tcb_set_register c [(Register.A0, v)]).
Proof. apply quiet_modify_tcb. left. by intros [[] ?]. Qed.
#[local] Hint Resolve quiet_set_a0 quiet_give_untyped quiet_ipc_frame quiet_boot_frame
  quiet_create_root_cnode : keeps.

(** The idle thread is current, nothing is queued. *)
Record idling (s : KState) : Prop := {
  id_sched : scheduler s = Scheduler_new;
  id_current : current_proc s = IDLE_THREAD;
  id_status : ∃ t, heap s !! IDLE_THREAD = Some (OTcb t) ∧ status (value t) = Idle;
}.
Lemma idling_quiet {A} (m : K A) s a s' :
  m s = Ok a s' → Keeps (quiet IDLE_THREAD) m → idling s → idling s'.
Proof.
  intros Hr Hm [Hs Hc (t & Ht & Hi)]. destruct (quiet_Ok _ _ _ _ _ Hr Hm) as [Hs' Hc' Ht'].
  destruct (Ht' t Ht) as (t' & ? & [=]). split; [congruence..|]. exists t'. split; congruence.
Qed.

Lemma create_idle_thread_idling stack_top s t s' :
  scheduler s = Scheduler_new → heap s !! IDLE_THREAD = Some (OTcb t) → status (value t) = Idle →
  create_idle_thread stack_top s = Ok tt s' → idling s'.
Proof.
  intros Hs Ht Hi. unfold create_idle_thread. rewrite (bind_Ok _ _ _ _ _ (modify_tcb_Ok _ _ _ _ Ht)).
  intros [= <-]. split; [done..|]. eexists. split; [apply lookup_insert_eq|done].
Qed.

(** The state in which the root server is made runnable. *)
Record ready_to_run (s : KState) (x root entry : Z) : Prop := {
  rd_idling : idling s;
  rd_tcb : ∃ e, has_core x s (None, Inactive, entry, SSTATUS_SPIE, Some e) ∧
                is_root (cap e) = true ∧ cap_kva (cap e) = root;
}.
Lemma ready_quiet {A} (m : K A) s a s' x root entry :
  m s = Ok a s' → (∀ y, Keeps (quiet y) m) → ready_to_run s x root entry → ready_to_run s' x root entry.
Proof.
  intros Hr Hm [Hi (e & Hc & ?)]. split; [by eapply idling_quiet|]. exists e. split; [|done].
  by eapply quiet_core.
Qed.

Lemma create_root_tcb_ready tmp mem cn vs ipc entry s c s' :
  tmp ≠ rm_tcb mem → tmp ≠ IDLE_THREAD → rm_tcb mem ≠ IDLE_THREAD → is_root vs = true → idling s →
  create_root_tcb tmp mem cn vs ipc entry s = Ok c s' →
  c = cap_new CapabilityType.Tcb (phys_of_kva (rm_tcb mem)) 0 ∧
  ready_to_run s' (rm_tcb mem) (cap_kva vs) entry.
Proof.
  intros Ht1 Ht2 Hne Hroot Hi Hr.
  destruct (create_root_tcb_core _ _ _ _ _ _ _ _ _ Ht1 Hr) as (-> & t & e & Ht & Hk & He).
  split; [done|]. split.
  - apply (idling_quiet _ _ _ _ Hr); [|done]. by apply quiet_create_root_tcb.
  - exists e. split; [by exists t|]. by rewrite He.
Qed.

Lemma boot_frame_addr mem cn vs mv mbr s c a mbr' s' :
  create_boot_info_frame mem cn vs mv mbr s = Ok (c, a, mbr') s' → a = rm_boot_frame mem.
Proof.
  unfold create_boot_info_frame. intros Hr. inv_bind Hr. inv_bind Hr. destruct a1. inv_bind Hr.
  by apply ret_inv in Hr as [[= -> -> ->] _].
Qed.

Lemma create_initial_thread_ready tmp stack_top mem mgr bytes elf s t s' :
  memory_ok mem → KERNEL_CODE_PFX ≤ IDLE_THREAD → KERNEL_CODE_PFX ≤ tmp → tmp ≠ IDLE_THREAD →
  scheduler s = Scheduler_new → heap s !! IDLE_THREAD = Some (OTcb t) → status (value t) = Idle →
  create_initial_thread tmp stack_top mem mgr bytes elf s = Ok tt s' →
  ∃ s1, ready_to_run s1 (rm_tcb mem) (rm_vspace mem) (e_entry (hdr_at bytes elf)) ∧
        resume (rm_tcb mem) s1 = Ok tt s'.
Proof.
  intros [[Hvk Hvb] [Htk Htb] [Hbk Hbb]] Hidle Htmp Hne Hs Ht Hi Hr. unfold create_initial_thread in Hr.
  assert (Hc : has_core IDLE_THREAD s (core t)) by by exists t.
  (* the objects *)
  inv_bind Hr. pose proof (quiet_Ok IDLE_THREAD _ _ _ _ Hm ltac:(keeps)) as Q1. clear Hm.
  inv_bind Hr. destruct a0 as [[vs mv] mbr].
  apply create_address_space_root in Hm as (Hroot & Hvs & Q2); [|done].
  assert (rm_vspace mem ≠ IDLE_THREAD) as Hvi by lia. specialize (Q2 _ Hvi).
  inv_bind Hr. destruct a0 as [ipc mbr1]. pose proof (quiet_Ok IDLE_THREAD _ _ _ _ Hm ltac:(keeps)) as Q3. clear Hm.
  inv_bind Hr. pose proof (quiet_Ok IDLE_THREAD _ _ _ _ Hm ltac:(keeps)) as Q4. clear Hm.
  inv_bind Hr. destruct a1 as [[bi bi_addr] mbr2].
  pose proof (quiet_Ok IDLE_THREAD _ _ _ _ Hm ltac:(keeps)) as Q5.
  assert (bi_addr = rm_boot_frame mem) as -> by by eapply boot_frame_addr. clear Hm.
  pose proof (transitivity Q1 (transitivity Q2 (transitivity Q3 (transitivity Q4 Q5)))) as [Qs _ Qt].
  clear Q1 Q2 Q3 Q4 Q5 Hc. destruct (Qt t Ht) as (t1 & Ht1 & [=]).
  (* the idle thread, and the root server's control block *)
  inv_bind Hr. destruct a1. apply (create_idle_thread_idling _ _ t1) in Hm; [|congruence..].
  inv_bind Hr. apply (idling_quiet _ _ _ _ Hm0) in Hm; [|apply quiet_set_heap; lia]. clear Hm0.
  inv_bind Hr. apply create_root_tcb_ready in Hm0 as [-> Hd]; [|done || lia..].
  rewrite Hvs in Hd. clear Hm. set (x := rm_tcb mem) in *.
  (* the boot information *)
  do 9 (inv_bind Hr; apply (ready_quiet _ _ _ _ _ _ _ Hm) in Hd; [|keeps]; clear Hm).
  eexists. split; [exact Hd|]. unfold make_runnable in Hr. by rewrite cap_kva_new in Hr.
Qed.

(** The idle thread is current and [x], alone in the queue, is to run next. *)
Record first_in_queue (s : KState) (x root entry : Z) : Prop := {
  fq_queue : runqueue (scheduler s) = {| ll_head := Some x; ll_last := Some x |};
  fq_current : current_proc s = IDLE_THREAD;
  fq_idle : ∃ t, heap s !! IDLE_THREAD = Some (OTcb t) ∧ status (value t) = Idle;
  fq_tcb : ∃ e, has_core x s (None, Runnable, entry, SSTATUS_SPIE, Some e) ∧
                is_root (cap e) = true ∧ cap_kva (cap e) = root;
}.

Lemma resume_first x root entry s s' :
  ready_to_run s x root entry → x ≠ IDLE_THREAD → resume x s = Ok tt s' →
  first_in_queue s' x root entry.
Proof.
  intros [[Hs Hcur (ti & Hti & Hi)] (e & (t & Ht & [= Hn Hst Hpc Hsr Hv]) & He)] Hne.
  unfold resume. rewrite (bind_Ok _ _ _ _ _ (modify_tcb_Ok _ _ _ _ Ht)).
  set (t1 := t <| value ::= thread_resume |>). set (s1 := s <| heap := _ |>).
  assert (heap s1 !! x = Some (OTcb t1)) as Ht1 by apply lookup_insert_eq.
  assert (ll_push (runqueue (scheduler s1)) x s1 =
          Ok {| ll_head := Some x; ll_last := Some x |} (s1 <| heap := heap s1 |>)) as Hp.
  { change (scheduler s1) with (scheduler s). rewrite Hs. by rewrite heap_set_id. }
  rewrite (sched_push_Ok _ _ _ _ Hp). intros [= <-]. split.
  - done.
  - done.
  - exists ti. split; [|done]. change (heap s1 !! IDLE_THREAD = Some (OTcb ti)). subst s1.
    by rewrite heap_set, lookup_insert_ne.
  - exists e. split; [|done]. exists t1. split; [done|].
    unfold core. simpl. by rewrite Hn, Hpc, Hsr, Hv.
Qed.

(** The root server runs: it is the current thread, in the address space with
    root table [root], at address [entry], in user mode, with a full quantum. *)
Record root_running (s : KState) (x root entry : Z) : Prop := {
  ru_current : current_proc s = x;
  ru_reg_base : cur_reg_base (cpu_var s) = x;
  ru_queue : scheduler s = Scheduler_new;
  ru_satp : satp s = Z.lor SATP_SV48 (Z.shiftr (phys_of_kva root) 12);
  ru_thread : ∃ t, heap s !! x = Some (OTcb t) ∧ status (value t) = Runnable ∧
    time_slice (value t) = TASK_QUANTUM ∧ sepc (registers (value t)) = entry ∧
    sstatus (registers (value t)) = SSTATUS_SPIE;
}.

Lemma schedule_first s x root entry :
  first_in_queue s x root entry → x ≠ IDLE_THREAD → requested (scheduler s) = true →
  ∃ s', schedule s = Ok tt s' ∧ root_running s' x root entry.
Proof.
  intros [Hq Hcur (ti & Hti & Hi) (e & (t & Ht & [= Hn Hst Hpc Hsr Hv]) & He & Hke)] Hne Hreq.
  set (t1 := t <| value ::= λ v, set_timeout v TASK_QUANTUM |>).
  set (s1 := s <| scheduler := (scheduler s) <| runqueue := LinkedList_new |> |>).
  set (s2 := s1 <| heap := <[x := OTcb t1]> (heap s1) |>).
  assert (schedule_pick s = Ok (Some x) s2) as Hp.
  { unfold schedule_pick. rewrite (bind_Ok _ _ _ (Some x) s1).
    2: { apply (sched_Ok s (Some x) LinkedList_new). rewrite Hq. rewrite (ll_pop_Ok _ _ x t) by done.
         by rewrite Hn. }
    rewrite (bind_Ok _ _ _ _ _ (modify_tcb_Ok x t (λ v, set_timeout v TASK_QUANTUM) s1 Ht)).
    change (s1 <| heap := _ |>) with s2.
    rewrite (bind_Ok _ _ _ IDLE_THREAD s2) by by unfold gets; rewrite <- Hcur.
    assert (heap s2 !! IDLE_THREAD = Some (OTcb ti)) as Hti2.
    { subst s2. by rewrite heap_set, lookup_insert_ne. }
    rewrite (bind_Ok _ _ _ _ _ (read_tcb_Ok _ _ _ Hti2)). unfold is_runnable.
    rewrite bool_decide_eq_false_2 by by rewrite Hi. done. }
  eexists. split; [apply (schedule_switch s x s2 t1 Hreq Hp); apply lookup_insert_eq|].
  split; [done|done| | |].
  - done.
  - change (vspace_satp t1 = Z.lor SATP_SV48 (Z.shiftr (phys_of_kva root) 12)). unfold vspace_satp.
    change (vspace (value t1)) with (vspace (value t)). by rewrite Hv, He, Hke.
  - exists t1. split; [apply lookup_insert_eq|done].
Qed.

(** Booting with no thread queued and the idle thread in the kernel's own
    memory ends with the root server running: its control block, which the
    page allocator set aside, is the current thread and the register save
    area, nothing else is queued, the processor uses the root table built for
    it, and it starts in user mode at the ELF image's entry point with a full
    time slice. *)
Lemma boot_starts_root_server tmp stack_top b bytes elf s t s' :
  KERNEL_CODE_PFX ≤ IDLE_THREAD → KERNEL_CODE_PFX ≤ tmp → tmp ≠ IDLE_THREAD →
  scheduler s = Scheduler_new → heap s !! IDLE_THREAD = Some (OTcb t) → status (value t) = Idle →
  0 ≤ start_addr b → end_addr b < 2 ^ 46 →
  init_root_server tmp stack_top b bytes elf s = Ok tt s' →
  ∃ mem b' s1, init_with_uninit b s = Ok (mem, b') s1 ∧
    root_running s' (rm_tcb mem) (rm_vspace mem) (e_entry (hdr_at bytes elf)).
Proof.
  intros Hidle Htmp Hne Hs Ht Hi Hb0 Hb1 Hr. unfold init_root_server in Hr.
  inv_bind Hr. destruct a as [mem b1]. exists mem, b1, s0. split; [done|].
  apply init_with_uninit_Ok in Hm as [Hmem Hq]; [|done]. destruct (Hq IDLE_THREAD) as [Hs0 _ Ht0].
  destruct (Ht0 t Ht) as (t0 & Ht0' & [= _ Hi0 _ _ _]).
  inv_bind Hr. assert (s1 = s0) as ->.
  { inv_bind Hm. apply ret_inv in Hm as [_ ->]. revert Hm0. by intros [= _ ->]. }
  inv_bind Hr. destruct a0.
  apply (create_initial_thread_ready _ _ _ _ _ _ _ t0) in Hm0 as (s3 & Hd & Hres); [|done || congruence..].
  assert (rm_tcb mem ≠ IDLE_THREAD) as Hx by (destruct Hmem as [_ [] _]; lia).
  eapply resume_first in Hres as [Hq1 Hc1 Hi1 Ht1]; [|done..].
  inv_bind Hr. injection Hm0 as <- <-.
  destruct (schedule_first (s1 <| scheduler := (scheduler s1) <| requested := true |> |>)
    (rm_tcb mem) (rm_vspace mem) (e_entry (hdr_at bytes elf))) as (s'' & Hsch & Hrun); [done..|].
  rewrite Hsch in Hr. by injection Hr as <-.
Qed.
End Layout.
