(* ===== verification/Entry.v ===== *)
(** * Between kernel and user mode ([kernel/src/main.rs], [kernel/src/handler.rs])

    The kernel's data structures, as the assembly finds them in memory: the
    machine of [Trap] carries out the exchange of registers that the kernel
    model takes as a step, and [kernel_main] ends in the root server. *)

From S2P Require Import Prelude Shared Address Objects Riscv LinkedList Capability PageTable CNode.
From S2P Require Import Thread RoundRobin Ipc Untyped Syscall Trap TrapProps Boot Elf RootServer BootRun.

Section Layout.
Context `{KernelLayout}.
(** [offset_of!] of the registers in a thread's control block. *)
Context (registers_offset : Z).

Definition regs_at (thread : Z) : Z := thread + registers_offset.

(** [return_to_user]: the address of the current thread's registers in [t0],
    then the assembly. *)
Definition return_from (s : KState) (m : machine) : machine :=
  run return_to_user (set_reg Register.T0 (regs_at (current_proc s)) m).

(** [kernel_main], after the statics have their initial values: what becomes of
    the processor. *)
Definition kernel_main (sym : LinkerSymbols) (tmp : Z) (bytes : Z → Z)
    (elf_header free_ram_phys free_ram_end_phys : Z) : K (machine → machine) :=
  init_kernel sym tmp bytes elf_header free_ram_phys free_ram_end_phys ;;;
  gets return_from.

(** ** Kernel data in memory *)

(** The words the assembly reads and writes. The word [CpuVar::sscratch] is
    scratch space of [trap_entry]. *)
Record in_memory (s : KState) (mem : Z → Z) : Prop := {
  im_threads : ∀ a t, heap s !! a = Some (OTcb t) → save_area mem (regs_at a) = registers (value t);
  im_sptop : mem (CPU_VAR + sptop_offset) = sptop (cpu_var s);
  im_base : mem (CPU_VAR + cur_reg_base_offset) = regs_at (cur_reg_base (cpu_var s));
}.

Definition apart (a n b m : Z) : Prop := a + n ≤ b ∨ b + m ≤ a.
(** The compiler and the allocators place these objects without overlap. *)
Record placed (s : KState) : Prop := {
  pl_cpu : room CPU_VAR 24;
  pl_room : ∀ a t, heap s !! a = Some (OTcb t) → room (regs_at a) 272;
  pl_cpu_apart : ∀ a t, heap s !! a = Some (OTcb t) → apart CPU_VAR 24 (regs_at a) 272;
  pl_apart : ∀ a b t u, heap s !! a = Some (OTcb t) → heap s !! b = Some (OTcb u) → a ≠ b →
    apart (regs_at a) 272 (regs_at b) 272;
}.

(** ** What [trap_entry] leaves alone *)

Definition stores_in_area (i : instr) : bool :=
  match i with
  | Csrrw rd _ | Csrr rd _ | Csrw rd _ | Ld rd _ _ => bool_decide (rd ≠ Register.T0)
  | Sd _ o rs1 => bool_decide (rs1 = Register.T0) && (0 <=? o) && (o <? 272)
  end.
Lemma run_outside code m base x :
  forallb stores_in_area code = true → reg_of m Register.T0 = base → room base 272 →
  x < base ∨ base + 272 ≤ x → mem (run code m) x = mem m x.
Proof.
  intros Hc H0 Hr Hx. revert m H0. induction code as [|i code IH]; intros m H0; [done|].
  cbn [forallb] in Hc. apply andb_prop in Hc as [Hi Hc]. change (run (i :: code) m) with (run code (step m i)).
  assert (reg_of (step m i) Register.T0 = base ∧ mem (step m i) x = mem m x) as [H1 H2].
  { destruct i as [rd rs|rd csr|csr rs|rs2 o rs1|rd o rs1]; cbn [stores_in_area] in Hi; cbn [step].
    4: { rewrite !andb_true_iff, Z.leb_le, Z.ltb_lt in Hi. destruct Hi as [[->%bool_decide_eq_true_1 ?] ?].
         rewrite reg_of_store. split; [done|]. apply mem_store_other.
         rewrite (ea_room _ _ _ 272 _ H0 Hr) by done. lia. }
    all: apply bool_decide_eq_true_1 in Hi; rewrite reg_of_set_other by done; done. }
  rewrite IH by done. done.
Qed.
Lemma trap_entry_outside m cpu base x :
  trap_ready m cpu base → x ≠ cpu + sscratch_offset → x < base ∨ base + 272 ≤ x →
  mem (run trap_entry m) x = mem m x.
Proof.
  intros Hready Hs Hx. destruct (run_prologue _ _ _ Hready) as (P0 & _ & _ & _ & Pmem & _).
  unfold trap_entry. rewrite run_app. rewrite (run_outside _ _ base) by (done || apply Hready).
  by apply Pmem.
Qed.

(** ** The exchange *)

Section Running.
Context (s : KState) (t : ThreadControlBlock).
Context (Hcur : heap s !! current_proc s = Some (OTcb t)) (Hplaced : placed s).

Lemma return_from_registers m :
  in_memory s (mem m) →
  m_sscratch (return_from s m) = m_sscratch m ∧ mem (return_from s m) = mem m ∧
  ∀ r, r ≠ Register.SCause → reg_of (return_from s m) r = regs_index (registers (value t)) r.
Proof.
  intros Hm. unfold return_from. set (base := regs_at (current_proc s)).
  destruct (return_to_user_run (set_reg Register.T0 base m) base) as (Hmem & Hs & Hr);
    [apply reg_of_set_same|by eapply pl_room|].
  split; [exact Hs|]. split; [exact Hmem|]. intros r Hne. rewrite Hr by done.
  rewrite <- (im_threads _ _ Hm _ _ Hcur). by rewrite save_area_index.
Qed.

(** The state in which the registers of the current thread are [f]. *)
Definition with_registers (f : Registers) : KState :=
  s <| heap := <[current_proc s := OTcb (t <| value ::= λ v, v <| registers := f |> |>)]> (heap s) |>.
Lemma with_registers_Ok f : modify_tcb (current_proc s) (λ v, v <| registers := f |>) s = Ok tt (with_registers f).
Proof. by rewrite (modify_tcb_Ok _ _ _ _ Hcur). Qed.

Lemma trap_in_memory m :
  cur_reg_base (cpu_var s) = current_proc s → in_memory s (mem m) → m_sscratch m = CPU_VAR →
  in_memory (with_registers (file m)) (mem (run trap_entry m)).
Proof.
  intros Hb [Ht Hsp Hbase] Hs. pose proof (pl_cpu_apart _ Hplaced _ _ Hcur) as Hca.
  pose proof (pl_cpu _ Hplaced) as Hcr. pose proof (pl_room _ Hplaced _ _ Hcur) as Hr.
  assert (trap_ready m CPU_VAR (regs_at (current_proc s))) as Hready by (split; [done|congruence|done..]).
  assert (∀ x, x ≠ CPU_VAR + sscratch_offset → apart (regs_at (current_proc s)) 272 x 8 →
    mem (run trap_entry m) x = mem m x) as Hout.
  { intros x Hx Ha. apply (trap_entry_outside _ _ _ _ Hready Hx). unfold apart in Ha. lia. }
  unfold apart, sptop_offset, cur_reg_base_offset, sscratch_offset in *. split.
  - intros a u. unfold with_registers. rewrite heap_set. destruct (decide (a = current_proc s)) as [->|Hne].
    + rewrite lookup_insert_eq. intros [= <-]. apply (trap_entry_run _ _ _ Hready).
    + rewrite lookup_insert_ne by done. intros Ha. rewrite <- (Ht _ _ Ha).
      apply registers_ext. intros r. rewrite !save_area_index. pose proof (offset_bound r).
      pose proof (pl_cpu_apart _ Hplaced _ _ Ha). pose proof (pl_apart _ Hplaced _ _ _ _ Hcur Ha ltac:(done)).
      unfold apart in *. apply Hout; lia.
  - change (cpu_var (with_registers _)) with (cpu_var s). rewrite <- Hsp. apply Hout; lia.
  - change (cpu_var (with_registers _)) with (cpu_var s). rewrite <- Hbase. apply Hout; lia.
Qed.
End Running.

Lemma with_registers_placed s t f :
  heap s !! current_proc s = Some (OTcb t) → placed s → placed (with_registers s t f).
Proof.
  intros Hcur [Hc Hr Hca Ha].
  assert (∀ a u, heap (with_registers s t f) !! a = Some (OTcb u) → ∃ u', heap s !! a = Some (OTcb u')) as Hold.
  { intros a u. unfold with_registers. rewrite heap_set.
    destruct (decide (a = current_proc s)) as [->|]; [by eauto|]. rewrite lookup_insert_ne by done. by eauto. }
  split; [done| | |].
  - intros a u [u' Hu]%Hold. by eapply Hr.
  - intros a u [u' Hu]%Hold. by eapply Hca.
  - intros a b u v [u' Hu]%Hold [v' Hv]%Hold. by eapply Ha.
Qed.

(** C24: the assembly exchanges registers as the kernel model says. With the
    kernel's data in memory and the save area that of the current thread,
    [return_to_user] leaves every register of that thread in the processor (but
    [scause], which only the hardware writes); and when the thread traps,
    having run arbitrary code that changed neither kernel memory nor
    [sscratch], [trap_entry] brings memory to the state in which the thread's
    control block holds the registers it trapped with and all other kernel data
    is as before, with the kernel's stack and the next trap set up. *)
Theorem user_cycle_refines s t m u :
  heap s !! current_proc s = Some (OTcb t) → cur_reg_base (cpu_var s) = current_proc s → placed s →
  in_memory s (mem m) → m_sscratch m = CPU_VAR →
  m_sscratch u = m_sscratch (return_from s m) → in_memory s (mem u) →
  (∀ r, r ≠ Register.SCause → reg_of (return_from s m) r = regs_index (registers (value t)) r) ∧
  ∃ s', modify_tcb (current_proc s) (λ v, v <| registers := file u |>) s = Ok tt s' ∧
    in_memory s' (mem (run trap_entry u)) ∧ placed s' ∧
    m_sscratch (run trap_entry u) = CPU_VAR ∧
    reg_of (run trap_entry u) Register.Sp = sptop (cpu_var s').
Proof.
  intros Hcur Hb Hp Hm Hs Hsu Hu.
  destruct (return_from_registers s t Hcur Hp m Hm) as (Hs' & _ & Hr). split; [exact Hr|].
  assert (m_sscratch u = CPU_VAR) as Hsc by congruence.
  assert (trap_ready u CPU_VAR (regs_at (current_proc s))) as Hready.
  { pose proof (im_base _ _ Hu). split; [done|congruence|apply Hp|by eapply pl_room|by eapply pl_cpu_apart]. }
  destruct (trap_entry_run _ _ _ Hready) as (_ & Hcpu & Hsp).
  exists (with_registers s t (file u)). split; [by apply with_registers_Ok|].
  split; [by apply trap_in_memory|]. split; [by apply with_registers_placed|]. split; [done|].
  rewrite Hsp. apply Hu.
Qed.

(** ** The boot sets up traps *)

Definition same_vector (s s' : KState) : Prop := stvec s' = stvec s ∧ sie s' = sie s.
#[export] Instance same_vector_preorder : PreOrder same_vector.
Proof. split; [by intros|]. intros s1 s2 s3 [] []. split; congruence. Qed.
Lemma vector_lookup n c p d : Keeps same_vector (lookup_entry_mut n c p d).
Proof. revert c d. induction n as [|n IH]; intros; cbn [lookup_entry_mut]; [done|keeps]. Qed.
Lemma vector_walk_levels ls t v : Keeps same_vector (walk_levels ls t v).
Proof. revert t. induction ls as [|l ls IH]; intros; cbn [walk_levels]; keeps. Qed.
Hint Resolve vector_lookup vector_walk_levels : keeps.
Lemma vector_cap_init C a n : (∀ a n, Keeps same_vector (create_cap_dep_val C a n)) → Keeps same_vector (cap_init C a n).
Proof. intros HC. unfold cap_init. keeps. Qed.
Ltac vector_cap := apply vector_cap_init; cbn [create_cap_dep_val PageTableCap PageCap UntypedCap TCBCap CNodeCap]; keeps.
Lemma vector_table a n : Keeps same_vector (cap_init PageTableCap a n).
Proof. vector_cap. Qed.
Lemma vector_page a n : Keeps same_vector (cap_init PageCap a n).
Proof. vector_cap. Qed.
Lemma vector_untyped a n : Keeps same_vector (cap_init UntypedCap a n).
Proof. vector_cap. Qed.
Lemma vector_tcb a n : Keeps same_vector (cap_init TCBCap a n).
Proof. vector_cap. Qed.
Lemma vector_cnode a n : Keeps same_vector (cap_init CNodeCap a n).
Proof. vector_cap. Qed.
Hint Resolve vector_table vector_page vector_untyped vector_tcb vector_cnode : keeps.
Lemma vector_map_page_tables n cn m root v : Keeps same_vector (map_page_tables n cn m root v).
Proof. revert m. induction n as [|n IH]; intros; cbn [map_page_tables]; [done|keeps]. Qed.
Hint Resolve vector_map_page_tables : keeps.
Lemma vector_map_program_pages v src f ps mp rem : Keeps same_vector (map_program_pages v src f ps mp rem).
Proof. revert mp rem. induction ps as [|p ps IH]; intros; cbn [map_program_pages]; keeps. Qed.
Hint Resolve vector_map_program_pages : keeps.
Lemma vector_give_untyped n g cn bi i num : Keeps same_vector (give_untyped n g cn bi i num).
Proof. revert g cn i num. induction n as [|n IH]; intros; cbn [give_untyped]; [done|keeps]. Qed.
Hint Resolve vector_give_untyped : keeps.
Lemma vector_map_headers bytes n it mp : Keeps same_vector (map_headers RootServerMapper bytes n it mp).
Proof.
  revert it mp. induction n as [|n IH]; intros; cbn [map_headers]; [done|].
  destruct (pheaders_next bytes it) as [[[p src] it']|]; [|apply keeps_ret, _].
  unfold hdr_map_program. cbn [mapper_map_program mapper_get_flags RootServerMapper eret ebind eundef M_effect].
  destruct (program_type_of (p_type p)); [|done]. destruct (negb _); keeps.
Qed.
Hint Resolve vector_map_headers : keeps.
Lemma vector_init_with_uninit b : Keeps same_vector (init_with_uninit b).
Proof.
  unfold init_with_uninit, alloc_obj. cbn [get_object_size CNodeCap PageTableCap TCBCap PageCap]. keeps.
Qed.
Lemma vector_create_root_cnode mem : Keeps same_vector (create_root_cnode mem).
Proof. unfold create_root_cnode. cbn [create_cap_dep_val CNodeCap]. keeps. Qed.
Hint Resolve vector_create_root_cnode : keeps.
Lemma vector_create_initial tmp st mem mbr bytes elf : Keeps same_vector (create_initial_thread tmp st mem mbr bytes elf).
Proof. keeps. Qed.
Hint Resolve vector_init_with_uninit vector_create_initial : keeps.
Lemma vector_init_root_server tmp stack_top b bytes elf : Keeps same_vector (init_root_server tmp stack_top b bytes elf).
Proof. keeps. Qed.

Lemma keeps_Ok_vector {A} (m : K A) s a s' : Keeps same_vector m → m s = Ok a s' → same_vector s s'.
Proof. intros Hm Hr. specialize (Hm s). by rewrite Hr in Hm. Qed.
Lemma vector_for_each {A} (f : A → K unit) l : (∀ y, Keeps same_vector (f y)) → Keeps same_vector (for_each f l).
Proof. intros Hf. induction l as [|y l IH]; cbn [for_each]; keeps. Qed.
Hint Resolve vector_for_each : keeps.
Lemma vector_kernel_vm_init text data_end ram_end : Keeps same_vector (kernel_vm_init text data_end ram_end).
Proof.
  unfold kernel_vm_init. cbv zeta.
  apply keeps_bind; [apply _|apply vector_for_each; keeps|intros _]. apply keeps_bind; [apply _|keeps|intros _].
  apply keeps_bind; [apply _|keeps|intros st]. apply keeps_bind; [apply _|apply vector_for_each; keeps|intros _].
  keeps.
Qed.
Lemma quiet_for_each {A} x (f : A → K unit) l : (∀ y, Keeps (quiet x) (f y)) → Keeps (quiet x) (for_each f l).
Proof. intros Hf. induction l as [|y l IH]; cbn [for_each]; keeps. Qed.
Lemma quiet_kernel_vm_init x text data_end ram_end : Keeps (quiet x) (kernel_vm_init text data_end ram_end).
Proof.
  unfold kernel_vm_init. cbv zeta.
  apply keeps_bind; [apply _|apply quiet_for_each; keeps|intros _]. apply keeps_bind; [apply _|keeps|intros _].
  apply keeps_bind; [apply _|keeps|intros st]. apply keeps_bind; [apply _|apply quiet_for_each; keeps|intros _].
  intros s. split; [done..|by eauto].
Qed.
Lemma set_timer_inv v s s' : set_timer v s = Ok tt s' → ∃ d, s' = s <| timer := d |>.
Proof.
  unfold set_timer, r_time, usize_add, bind, gets. destruct (_ <? _); [|done].
  unfold sbi_call. cbn. intros [= <-]. by eexists.
Qed.
Lemma root_running_frame s s' x root pc :
  current_proc s' = current_proc s → cpu_var s' = cpu_var s → scheduler s' = scheduler s → satp s' = satp s →
  heap s' = heap s → root_running s x root pc → root_running s' x root pc.
Proof. intros H1 H2 H3 H4 H5 []. split; congruence || (rewrite H5; done). Qed.

(** C11: [kernel_main] ends in the root server. With no thread queued and the
    idle thread in the kernel's own memory it sets up traps (the vector, the
    enabled interrupts and [sscratch]) and builds the root server, whose
    control block, which the page allocator set aside, is the current thread
    and the register save area; nothing else is queued and the processor uses
    the root table built for it. With this state in memory the processor then
    returns from the kernel to the ELF image's entry point, in user mode with
    interrupts enabled. *)
Theorem kernel_main_enters_root_server sym tmp bytes elf ram ram_end s t enter s' :
  KERNEL_CODE_PFX ≤ IDLE_THREAD → KERNEL_CODE_PFX ≤ tmp → tmp ≠ IDLE_THREAD →
  scheduler s = Scheduler_new → heap s !! IDLE_THREAD = Some (OTcb t) → status (value t) = Idle →
  0 ≤ ram → ram_end < 2 ^ 46 →
  kernel_main sym tmp bytes elf ram ram_end s = Ok enter s' →
  ∃ s0 rm b' s1,
    init_with_uninit {| start_addr := ram; end_addr := ram_end |} s0 = Ok (rm, b') s1 ∧
    root_running s' (rm_tcb rm) (rm_vspace rm) (e_entry (hdr_at bytes elf)) ∧
    stvec s' = sym_trap_entry sym ∧ csr_sscratch s' = CPU_VAR ∧
    sie s' = Z.lor (Z.lor (Z.lor (sie s) SIE_SEIE) SIE_STIE) SIE_SSIE ∧
    ∀ m, placed s' → in_memory s' (mem m) →
      reg_of (enter m) Register.SEpc = e_entry (hdr_at bytes elf) ∧
      reg_of (enter m) Register.SStatus = SSTATUS_SPIE.
Proof.
  intros Hidle Htmp Hne Hs Ht Hi Hr0 Hr1 Hr. unfold kernel_main in Hr. inv_bind Hr. destruct a.
  injection Hr as <- <-. rename Hm into Hr. unfold init_kernel in Hr.
  inv_bind Hr. destruct a. injection Hm as <-. inv_bind Hr. unfold BumpAllocator_new in Hm. inv_bind Hm.
  apply ret_inv in Hm as [-> ->]. unfold rassert in Hm0. destruct (_ <? _); [|done]. apply ret_inv in Hm0 as [_ ->].
  inv_bind Hr. destruct a. pose proof (quiet_Ok IDLE_THREAD _ _ _ _ Hm (quiet_kernel_vm_init _ _ _ _)) as [Hq1 _ Hq2].
  destruct (Hq2 t Ht) as (t1 & Ht1 & [= _ Hi1 _ _ _]). pose proof (keeps_Ok_vector _ _ _ _ (vector_kernel_vm_init _ _ _) Hm) as [Hv1 Hv2].
  inv_bind Hr. injection Hm0 as <- <-. inv_bind Hr. destruct a. injection Hm0 as <-.
  inv_bind Hr. destruct a. pose proof (keeps_Ok_vector _ _ _ _ (vector_init_root_server _ _ _ _ _) Hm0) as [Hv3 Hv4].
  apply (boot_starts_root_server _ _ _ _ _ _ t1) in Hm0 as (rm & b' & s1' & Hinit & Hrun);
    [|done..|by simpl; rewrite Hq1|done|congruence|done|done].
  inv_bind Hr. destruct a. injection Hm0 as <-. apply set_timer_inv in Hr as [d ->].
  eexists _, rm, b', s1'. split; [exact Hinit|]. split; [by eapply root_running_frame; [..|exact Hrun]|].
  split; [exact (eq_trans Hv3 Hv1)|]. split; [reflexivity|]. split; [by simpl in *; rewrite Hv4, Hv2|].
  intros m Hp Hm0. destruct (ru_thread _ _ _ _ Hrun) as (tr & Htr & _ & _ & Hpc & Hst).
  rewrite <- (ru_current _ _ _ _ Hrun) in Htr.
  lazymatch type of Hp with placed ?sf => destruct (return_from_registers sf tr Htr Hp m Hm0) as (_ & _ & Hreg) end.
  split; [exact (eq_trans (Hreg Register.SEpc ltac:(done)) Hpc)|exact (eq_trans (Hreg Register.SStatus ltac:(done)) Hst)].
Qed.

(** ** A memory for every state *)

Definition threads (s : KState) : list (Z * ThreadControlBlock) :=
  omap (λ ao, match snd ao with OTcb t => Some (fst ao, t) | _ => None end) (map_to_list (heap s)).
Lemma elem_of_threads s a t : (a, t) ∈ threads s ↔ heap s !! a = Some (OTcb t).
Proof.
  unfold threads. rewrite list_elem_of_omap. split.
  - intros ([b o] & Hin & Heq). apply elem_of_map_to_list in Hin. destruct o; simplify_eq/=. done.
  - intros Ha. exists (a, OTcb t). by rewrite elem_of_map_to_list.
Qed.
#[export] Instance room_dec a n : Decision (room a n).
Proof. unfold room. apply _. Defined.
#[export] Instance apart_dec a n b m : Decision (apart a n b m).
Proof. unfold apart. apply _. Defined.
Lemma placed_threads s :
  room CPU_VAR 24 →
  Forall (λ at_, room (regs_at (fst at_)) 272 ∧ apart CPU_VAR 24 (regs_at (fst at_)) 272) (threads s) →
  Forall (λ at_, Forall (λ bt, fst at_ = fst bt ∨ apart (regs_at (fst at_)) 272 (regs_at (fst bt)) 272)
    (threads s)) (threads s) → placed s.
Proof.
  rewrite !Forall_forall. intros Hc H1 H2. split; [done| | |].
  - intros a t Ha%elem_of_threads. by apply (H1 _ Ha).
  - intros a t Ha%elem_of_threads. by apply (H1 _ Ha).
  - intros a b t u Ha%elem_of_threads Hb%elem_of_threads Hne. 
    specialize (H2 _ Ha). rewrite Forall_forall in H2. by destruct (H2 _ Hb).
Qed.

(** The word at [x]: of [CPU_VAR], or of the thread whose registers [x] is in. *)
Definition word_of (x : Z) (at_ : Z * ThreadControlBlock) : option Z :=
  let o := x - regs_at (fst at_) in
  if (0 <=? o) && (o <? 272) then registers_words (registers (value (snd at_))) !! Z.to_nat (o / 8) else None.
Definition image_of (s : KState) (x : Z) : Z :=
  if x =? CPU_VAR + sptop_offset then sptop (cpu_var s)
  else if x =? CPU_VAR + cur_reg_base_offset then regs_at (cur_reg_base (cpu_var s))
  else default 0 (head (omap (word_of x) (threads s))).

Lemma words_offset f r : registers_words f !! Z.to_nat (offset_of r / 8) = Some (regs_index f r).
Proof. by destruct r. Qed.
Lemma head_unique {A B} (f : A → option B) l b :
  (∃ a, a ∈ l ∧ f a = Some b) → (∀ a c, a ∈ l → f a = Some c → c = b) → head (omap f l) = Some b.
Proof.
  intros (a & Ha & Hf) Hu. destruct (omap f l) as [|c l'] eqn:Hl.
  - assert (b ∈ omap f l) as Hb by (apply list_elem_of_omap; eauto). rewrite Hl in Hb. by apply elem_of_nil in Hb.
  - assert (c ∈ omap f l) as Hc by (rewrite Hl; left).
    apply list_elem_of_omap in Hc as (a' & Ha' & Hf'). cbn [head]. f_equal. by eapply Hu.
Qed.
Lemma image_of_ok s : placed s → in_memory s (image_of s).
Proof.
  intros Hp. split.
  - intros a t Ha. apply registers_ext. intros r. rewrite save_area_index. pose proof (offset_bound r) as [Ho _].
    pose proof (pl_cpu_apart _ Hp _ _ Ha) as Hc. unfold apart in Hc. unfold image_of, sptop_offset, cur_reg_base_offset.
    rewrite !(proj2 (Z.eqb_neq _ _)) by lia.
    rewrite (head_unique _ _ (regs_index (registers (value t)) r)); [done| |].
    + exists (a, t). split; [by apply elem_of_threads|]. unfold word_of. cbn [fst snd].
      replace (regs_at a + offset_of r - regs_at a) with (offset_of r) by lia.
      rewrite (proj2 (Z.leb_le _ _)), (proj2 (Z.ltb_lt _ _)) by lia. apply words_offset.
    + intros [b u] c Hb%elem_of_threads Hw. revert Hw. unfold word_of. cbn [fst snd].
      destruct (decide (a = b)) as [<-|Hne].
      * assert (u = t) as -> by congruence. replace (regs_at a + offset_of r - regs_at a) with (offset_of r) by lia.
        destruct (_ && _); [|done]. rewrite words_offset. by intros [= <-].
      * pose proof (pl_apart _ Hp _ _ _ _ Ha Hb Hne) as Hab. unfold apart in Hab.
        destruct (Z.leb_spec 0 (regs_at a + offset_of r - regs_at b)); [|done].
        destruct (Z.ltb_spec (regs_at a + offset_of r - regs_at b) 272); [lia|done].
  - unfold image_of. by rewrite Z.eqb_refl.
  - unfold image_of. rewrite (proj2 (Z.eqb_neq _ _)) by (unfold sptop_offset, cur_reg_base_offset; lia).
    by rewrite Z.eqb_refl.
Qed.
End Layout.
