(* ===== verification/UserLib.v ===== *)
(** * The user-side system-call library ([libzoea/src/syscall.rs])

    Each wrapper is the register file it enters the kernel with; the kernel's
    decoding of these registers and the library's decoding of the kernel's
    answer are related by round-trip theorems. *)

From S2P Require Import Prelude Shared Address Objects Riscv LinkedList Capability PageTable CNode.
From S2P Require Import Thread RoundRobin Ipc Untyped Syscall SyscallAtomic.

(** ** [syscall] *)

(** The registers at the [ecall]. *)
Definition ecall (cap_ptr cap_depth : Z) (inv_label : InvLabel) (arg3 arg4 arg5 arg6 : Z)
    (sysno : SysCallNo) (r : Registers) : Registers :=
  r <| a0 := cap_ptr |> <| a1 := cap_depth |> <| a2 := InvLabel.label_as_usize inv_label |>
    <| a3 := arg3 |> <| a4 := arg4 |> <| a5 := arg5 |> <| a6 := arg6 |>
    <| a7 := SysCallNo.syscall_no_as_usize sysno |>.

(** The result, from the registers after it: a value, or an error kind with
    its value. *)
Definition syscall_result (r : Registers) : (ErrKind * Z) + Z :=
  if a0 r =? 0 then inr (a1 r)
  else inl (default ErrKind.UnknownSysCall (ErrKind.errkind_try_from (a0 r)), as_u16 (a1 r)).

(** ** The wrappers *)

(** Two [u32] in one word. *)
Definition pack32 (hi lo : Z) : Z := Z.lor (shl64 hi 32) lo.

Definition put_char (char : Z) := ecall char 0 InvLabel.PutChar 0 0 0 0 SysCallNo.Print.
Definition traverse := ecall 0 0 InvLabel.CNodeTraverse 0 0 0 0 SysCallNo.Print.
Definition untyped_retype (cap_ptr cap_depth dest_ptr dest_depth index user_size num : Z)
    (cap_type : CapabilityType) :=
  let index_and_depth := pack32 index dest_depth in
  let user_size_and_num := pack32 user_size num in
  ecall cap_ptr cap_depth InvLabel.UntypedRetype dest_ptr index_and_depth user_size_and_num
    (CapabilityType.cap_type_as_u8 cap_type) SysCallNo.Call.
(** [write_reg]: the registers travel in the IPC buffer. *)
Definition write_reg (cap_ptr cap_depth : Z) (register : Registers) (buffer : IPCBuffer)
    : (ErrKind * Z) + (IPCBuffer * (Registers → Registers)) :=
  match write_as buffer register with
  | inl _ => inl (ErrKind.InvalidOperation, 0)
  | inr buffer' => inr (buffer', ecall cap_ptr cap_depth InvLabel.TcbWriteReg 0 0 0 0 SysCallNo.Call)
  end.
Definition user_set_ipc_buffer (cap_ptr cap_depth page_cap_ptr page_depth : Z) :=
  ecall cap_ptr cap_depth InvLabel.TcbSetIpcBuffer page_cap_ptr page_depth 0 0 SysCallNo.Call.
Definition configure_tcb (cap_ptr cap_depth cnode_ptr cnode_depth vspace_ptr vspace_depth : Z) :=
  ecall cap_ptr cap_depth InvLabel.TcbConfigure cnode_ptr cnode_depth vspace_ptr vspace_depth
    SysCallNo.Call.
Definition resume_tcb (cap_ptr cap_depth : Z) :=
  ecall cap_ptr cap_depth InvLabel.TcbResume 0 0 0 0 SysCallNo.Call.
Definition user_send_signal (cap_ptr cap_depth : Z) :=
  ecall cap_ptr cap_depth InvLabel.NotifySend 0 0 0 0 SysCallNo.Send.
Definition recv_signal (cap_ptr cap_depth : Z) :=
  ecall cap_ptr cap_depth InvLabel.NotifyWait 0 0 0 0 SysCallNo.Recv.
Definition cnode_copy (cap_ptr cap_depth dest_index dest_depth src_index src_depth : Z) :=
  let depth := pack32 src_depth dest_depth in
  ecall cap_ptr cap_depth InvLabel.CNodeCopy src_index depth dest_index 0 SysCallNo.Call.
Definition cnode_mint (cap_ptr cap_depth dest_index dest_depth src_index src_depth cap_val : Z) :=
  let depth := pack32 src_depth dest_depth in
  ecall cap_ptr cap_depth InvLabel.CNodeMint src_index depth dest_index cap_val SysCallNo.Call.
Definition cnode_move (cap_ptr cap_depth dest_depth dest_index src_index src_depth : Z) :=
  let depth := pack32 src_depth dest_depth in
  ecall cap_ptr cap_depth InvLabel.CNodeMove src_index depth dest_index 0 SysCallNo.Call.
Definition user_map_page (cap_ptr cap_depth dest_ptr dest_depth vaddr flags : Z) :=
  ecall cap_ptr cap_depth InvLabel.PageMap dest_ptr dest_depth vaddr flags SysCallNo.Call.
Definition user_unmap_page (cap_ptr cap_depth dest_ptr dest_depth : Z) :=
  ecall cap_ptr cap_depth InvLabel.PageUnMap dest_ptr dest_depth 0 0 SysCallNo.Call.
Definition map_page_table (cap_ptr cap_depth dest_ptr dest_depth vaddr : Z) :=
  ecall cap_ptr cap_depth InvLabel.PageTableMap dest_ptr dest_depth vaddr 0 SysCallNo.Call.
Definition make_page_table_root (cap_ptr cap_depth : Z) :=
  ecall cap_ptr cap_depth InvLabel.PageTableMakeRoot 0 0 0 0 SysCallNo.Call.
Definition send_ipc (cap_ptr cap_depth : Z) :=
  ecall cap_ptr cap_depth InvLabel.EpSend 0 0 0 0 SysCallNo.Send.
Definition recv_ipc (cap_ptr cap_depth : Z) :=
  ecall cap_ptr cap_depth InvLabel.EpRecv 0 0 0 0 SysCallNo.Recv.

(** ** Round trips *)

Lemma pack32_arith hi lo : is_u32 hi → is_u32 lo → pack32 hi lo = hi * 2 ^ 32 + lo.
Proof.
  unfold is_u32, pack32, shl64. intros Hh Hl.
  rewrite Z.mod_small by (rewrite Z.shiftl_mul_pow2 by lia; unfold W; lia).
  by apply lor_shiftl_add.
Qed.
Lemma pack32_lo hi lo : is_u32 hi → is_u32 lo → as_u32 (pack32 hi lo) = lo.
Proof.
  intros Hh Hl. rewrite pack32_arith by done. unfold as_u32, is_u32 in *.
  rewrite Z.add_comm, Z.mod_add by lia. apply Z.mod_small. lia.
Qed.
Lemma pack32_hi hi lo : is_u32 hi → is_u32 lo → Z.shiftr (pack32 hi lo) 32 = hi.
Proof.
  intros Hh Hl. rewrite pack32_arith by done. unfold is_u32 in *.
  rewrite Z.shiftr_div_pow2, Z.div_add_l, Z.div_small by lia. lia.
Qed.
Lemma as_u32_id v : is_u32 v → as_u32 v = v.
Proof. unfold is_u32, as_u32. intros. by apply Z.mod_small. Qed.

Lemma label_roundtrip l : InvLabel.label_try_from (InvLabel.label_as_usize l) = inr l.
Proof. by destruct l. Qed.

Section Layout.
Context `{KernelLayout}.

Lemma ecall_dispatch cap_ptr cap_depth l x3 x4 x5 x6 n r tmp s :
  n ≠ SysCallNo.Print →
  let r' := ecall cap_ptr cap_depth l x3 x4 x5 x6 n r in
  syscall_body tmp (a7 r') r' s = handle_invocation tmp cap_ptr cap_depth l r' s.
Proof.
  intros Hn r'. unfold syscall_body. change (a2 r') with (InvLabel.label_as_usize l).
  rewrite label_roundtrip. by destruct n.
Qed.

(** What the library asks for is what the kernel does: the retype wrapper
    packs four 32-bit values into two registers, and the kernel's handler
    unpacks the same destination, slot index, size, count and type. *)
Lemma retype_request_roundtrip tmp root slot s r cap_ptr cap_depth dest_ptr dest_depth index
    user_size num cap_type :
  is_u32 dest_depth → is_u32 index → is_u32 user_size → is_u32 num →
  let r' := untyped_retype cap_ptr cap_depth dest_ptr dest_depth index user_size num cap_type r in
  syscall_body tmp (a7 r') r' s = handle_invocation tmp cap_ptr cap_depth InvLabel.UntypedRetype r' s ∧
  invoke_untyped tmp root slot r' s =
    (let* '(_, dest) := lookup_as root CapabilityType.CNode dest_ptr dest_depth in
     let* dest_cnode := get_writable dest num index in
     slot_cap CapabilityType.Untyped slot ;;;
     invoke_retype tmp slot dest_cnode user_size num cap_type ;;;
     ret None) s.
Proof.
  intros Hd Hi Hu Hn r'. split; [by apply ecall_dispatch|]. unfold invoke_untyped.
  change (a4 r') with (pack32 index dest_depth). change (a5 r') with (pack32 user_size num).
  change (a3 r') with dest_ptr. change (a6 r') with (CapabilityType.cap_type_as_u8 cap_type).
  rewrite !pack32_lo, !pack32_hi, (as_u32_id index) by done.
  rewrite (bind_Ok _ _ _ cap_type s); [done|].
  unfold cap_try_from_u8. by destruct cap_type.
Qed.

(** The error kinds the library's [TryFrom] knows: all but two. *)
Definition decoded_kind (k : ErrKind) : ErrKind :=
  match k with ErrKind.NotRootPageTable => ErrKind.UnknownSysCall | _ => k end.

(** C34: the caller learns how its call ended. Decoding the registers the
    kernel leaves gives back the value of a successful call and the error of a
    failed one, for every error kind except [NotRootPageTable], which the
    library reports as [UnknownSysCall]. *)
Theorem syscall_result_roundtrip (res : option Z + KernelError) r :
  (∀ e, res = inr e → 0 ≤ e_val e < 2 ^ 16) →
  syscall_result (set_result res r) =
    match res with
    | inl v => inr (default (a1 r) v)
    | inr e => inl (decoded_kind (e_kind e), e_val e)
    end.
Proof.
  intros Hv. destruct res as [[v|]|[k v]]; try reflexivity.
  specialize (Hv _ eq_refl). simpl in Hv. unfold syscall_result.
  cbn [set_result e_kind e_val].
  replace (as_u16 (a1 _)) with v by (symmetry; apply Z.mod_small; done).
  by destruct k.
Qed.

(** Registers written to a thread through the IPC buffer arrive as they
    were: the image [write_reg] stores in the buffer is the one the kernel's
    [TcbWriteReg] handler reads. *)
Lemma write_reg_roundtrip cap_ptr cap_depth register buffer :
  length (message buffer) = Z.to_nat MESSAGE_LEN →
  ∃ buffer' req, write_reg cap_ptr cap_depth register buffer = inr (buffer', req) ∧
    read_as Registers buffer' = inr register ∧ tag buffer' = tag buffer ∧
    length (message buffer') = Z.to_nat MESSAGE_LEN.
Proof.
  intros Hlen. eexists _, _. split; [reflexivity|]. split; [|split; [reflexivity|]].
  - unfold read_as. cbn. by destruct register.
  - simpl. rewrite length_drop, Hlen. reflexivity.
Qed.
End Layout.
