(* ===== verification/UserProg.v ===== *)
(** * User programs

    What a user thread does between two system calls is not visible to the
    kernel, so a user program is a tree of the effects it has: system calls,
    each with the registers it is made with and what is done with the answer,
    and accesses to its memory. The library ([CapLib]) and the programs written
    with it are functions into this type; a machine that runs several of them
    over the kernel is in [System]. *)

From S2P Require Import Prelude Shared Address Objects Riscv LinkedList Capability PageTable CNode.
From S2P Require Import Thread RoundRobin Ipc Untyped Syscall UserLib.

(** [SysCallFailed] ([libzoea/src/syscall.rs]) *)
Definition SysCallFailed : Type := ErrKind * Z.

(** A computation of type [Result<A, SysCallFailed>]; addresses are virtual. *)
Inductive Prog (A : Type) : Type :=
  | PRet (a : A)
  | PThrow (e : SysCallFailed)
  | PPanic (k : panic_kind)
  | PUndef
  | POutOfFuel
  | PCall (req : Registers → Registers) (k : SysCallFailed + Z → Prog A)
  | PReadBuffer (vaddr : Z) (k : IPCBuffer → Prog A)
  | PWriteBuffer (vaddr : Z) (b : IPCBuffer) (k : Prog A)
  | PReadBootInfo (vaddr : Z) (k : BootInfo → Prog A)
  | PCopy (src dst size : Z) (k : Prog A).
Arguments PRet {A}.
Arguments PThrow {A}.
Arguments PPanic {A}.
Arguments PUndef {A}.
Arguments POutOfFuel {A}.
Arguments PCall {A}.
Arguments PReadBuffer {A}.
Arguments PWriteBuffer {A}.
Arguments PReadBootInfo {A}.
Arguments PCopy {A}.

Fixpoint pbind {A B} (p : Prog A) (f : A → Prog B) : Prog B :=
  match p with
  | PRet a => f a
  | PThrow e => PThrow e
  | PPanic k => PPanic k
  | PUndef => PUndef
  | POutOfFuel => POutOfFuel
  | PCall req k => PCall req (λ r, pbind (k r) f)
  | PReadBuffer v k => PReadBuffer v (λ b, pbind (k b) f)
  | PWriteBuffer v b k => PWriteBuffer v b (pbind k f)
  | PReadBootInfo v k => PReadBootInfo v (λ b, pbind (k b) f)
  | PCopy a b n k => PCopy a b n (pbind k f)
  end.

Declare Scope prog_scope.
Delimit Scope prog_scope with prog.
Notation "'let!' x := m 'in' f" := (pbind m (λ x, f))
  (at level 100, x name, m at level 100, f at level 200, right associativity) : prog_scope.
Notation "'let!' ' p := m 'in' f" := (pbind m (λ x, match x with p => f end))
  (at level 100, p pattern, m at level 100, f at level 200, right associativity) : prog_scope.
Notation "m ;; f" := (pbind m (λ _, f)) (at level 100, f at level 200, right associativity) : prog_scope.
Open Scope prog_scope.

(** The [Result] of a computation, for code that looks at it. *)
Fixpoint ptry {A} (p : Prog A) : Prog (A + SysCallFailed) :=
  match p with
  | PRet a => PRet (inl a)
  | PThrow e => PRet (inr e)
  | PPanic k => PPanic k
  | PUndef => PUndef
  | POutOfFuel => POutOfFuel
  | PCall req k => PCall req (λ r, ptry (k r))
  | PReadBuffer v k => PReadBuffer v (λ b, ptry (k b))
  | PWriteBuffer v b k => PWriteBuffer v b (ptry k)
  | PReadBootInfo v k => PReadBootInfo v (λ b, ptry (k b))
  | PCopy a b n k => PCopy a b n (ptry k)
  end.

(** Arithmetic and other code without effects. *)
Definition pure_ {A} (m : M unit SysCallFailed A) : Prog A :=
  match m tt with
  | Ok a _ => PRet a
  | Err e _ => PThrow e
  | Panic k => PPanic k
  | Undef => PUndef
  | OutOfFuel => POutOfFuel
  end.

(** [syscall] *)
Definition call (req : Registers → Registers) : Prog Z :=
  PCall req (λ r, match r with inr v => PRet v | inl e => PThrow e end).

(** ** Laws *)

(** Programs are equal when their continuations are, point by point. *)
Inductive peq {A} : Prog A → Prog A → Prop :=
  | peq_ret a : peq (PRet a) (PRet a)
  | peq_throw e : peq (PThrow e) (PThrow e)
  | peq_panic k : peq (PPanic k) (PPanic k)
  | peq_undef : peq PUndef PUndef
  | peq_fuel : peq POutOfFuel POutOfFuel
  | peq_call req k k' : (∀ r, peq (k r) (k' r)) → peq (PCall req k) (PCall req k')
  | peq_read v k k' : (∀ b, peq (k b) (k' b)) → peq (PReadBuffer v k) (PReadBuffer v k')
  | peq_write v b k k' : peq k k' → peq (PWriteBuffer v b k) (PWriteBuffer v b k')
  | peq_boot v k k' : (∀ b, peq (k b) (k' b)) → peq (PReadBootInfo v k) (PReadBootInfo v k')
  | peq_copy a b n k k' : peq k k' → peq (PCopy a b n k) (PCopy a b n k').
#[export] Hint Constructors peq : prog.

#[export] Instance peq_equiv A : Equivalence (@peq A).
Proof.
  split.
  - intros p. induction p; auto with prog.
  - intros p q Hp. induction Hp; auto with prog.
  - intros p q r Hp. revert r. induction Hp; intros r Hr; inversion Hr; subst; auto with prog.
Qed.
#[export] Instance pbind_proper A B :
  Proper (peq ==> pointwise_relation A peq ==> peq) (@pbind A B).
Proof. intros p q Hp f g Hf. induction Hp; simpl; auto with prog. Qed.
Lemma pbind_assoc {A B C} (p : Prog A) (f : A → Prog B) (g : B → Prog C) :
  peq (pbind (pbind p f) g) (pbind p (λ a, pbind (f a) g)).
Proof. induction p; simpl; try reflexivity; auto with prog. Qed.

(** ** Running one thread *)

(** The frame a user address is in, when the current tables map it with these
    permissions. *)
Definition user_frame (s : KState) (vaddr flags : Z) : option Z :=
  let root := kva_of_phys (Z.shiftl (Z.land (satp s) (Z.ones 44)) 12) in
  pte ← translate (heap s) root vaddr;
  let need := Z.lor flags PAGE_U in
  if Z.land pte need =? need then Some (pte_as_page_table pte) else None.

(** The accesses. A page fault is a trap the kernel panics on; objects start at
    page boundaries. *)
Definition with_frame {A} (vaddr flags : Z) (f : Z → M KState SysCallFailed A) : M KState SysCallFailed A :=
  let* frame := gets (λ s, user_frame s vaddr flags) in
  match frame with None => panic PExplicit | Some a => f a end.
Definition at_start {A} (vaddr : Z) (m : M KState SysCallFailed A) : M KState SysCallFailed A :=
  if vaddr mod PAGE_SIZE =? 0 then m else undef.
Definition read_buffer (vaddr : Z) : M KState SysCallFailed IPCBuffer :=
  at_start vaddr (with_frame vaddr PAGE_R (λ a, unwrap_res (read_page a))).
Definition write_buffer (vaddr : Z) (b : IPCBuffer) : M KState SysCallFailed unit :=
  at_start vaddr (with_frame vaddr PAGE_W (λ a, unwrap_res (write_page a b))).
Definition read_boot_info (vaddr : Z) : M KState SysCallFailed BootInfo :=
  at_start vaddr (with_frame vaddr PAGE_R (λ a,
    let* h := gets heap in
    match h !! a with Some (OBootInfo b) => ret b | _ => undef end)).
(** Bytes copied within one page. *)
Definition copy_bytes (src dst size : Z) : M KState SysCallFailed unit :=
  with_frame dst PAGE_W (λ a,
    if PAGE_SIZE <? dst mod PAGE_SIZE + size then undef
    else modify (λ s, s <| loads ::= λ l, l ++ [(src, a + dst mod PAGE_SIZE, size)] |>)).

(** Accesses to a mapped page reach its frame. *)
Lemma buffer_access {A} s v need (f : Z → M KState SysCallFailed A) d :
  v mod 4096 = 0 → user_frame s v need = Some d → at_start v (with_frame v need f) s = f d s.
Proof.
  intros Hv Hf. unfold at_start, PAGE_SIZE. rewrite Hv, Z.eqb_refl. unfold with_frame.
  rewrite (bind_Ok _ _ _ (Some d) s); [done|]. unfold gets. by rewrite Hf.
Qed.

Section Layout.
Context `{KernelLayout}.

(** A system call that does not block: the registers at the [ecall], the
    kernel's handler, and the registers after it. *)
Definition direct_call (tmp : Z) (req : Registers → Registers) : M KState SysCallFailed Z :=
  let* current := gets current_proc in
  unwrap_res (modify_tcb current (λ v, v <| registers ::= req |>)) ;;;
  let* t := unwrap_res (read_tcb current) in
  unwrap_res (handle_syscall tmp (a7 t.(value).(registers)) current) ;;;
  let* t := unwrap_res (read_tcb current) in
  match syscall_result t.(value).(registers) with inr v => ret v | inl e => throw e end.

(** The current thread runs a program whose calls do not block. *)
Fixpoint run_direct {A} (tmp : Z) (p : Prog A) : M KState SysCallFailed A :=
  match p with
  | PRet a => ret a
  | PThrow e => throw e
  | PPanic k => panic k
  | PUndef => undef
  | POutOfFuel => λ _, OutOfFuel
  | PCall req k =>
      let* r := try_ (direct_call tmp req) in
      run_direct tmp (k match r with inl v => inr v | inr e => inl e end)
  | PReadBuffer v k => let* b := read_buffer v in run_direct tmp (k b)
  | PWriteBuffer v b k => write_buffer v b ;;; run_direct tmp k
  | PReadBootInfo v k => let* b := read_boot_info v in run_direct tmp (k b)
  | PCopy src dst size k => copy_bytes src dst size ;;; run_direct tmp k
  end.

Lemma run_direct_bind {A B} tmp (p : Prog A) (f : A → Prog B) s :
  run_direct tmp (pbind p f) s = (let* a := run_direct tmp p in run_direct tmp (f a)) s.
Proof.
  revert s. induction p as [a|e|k| | |req k IH|v k IH|v b k IH|v k IH|a b n k IH];
    intros s; simpl; try reflexivity.
  all: rewrite bind_assoc; unfold bind;
    match goal with |- match ?m with _ => _ end = _ => destruct m; (reflexivity || apply IH) end.
Qed.
Lemma run_direct_call tmp req s v s' :
  direct_call tmp req s = Ok v s' → run_direct tmp (call req) s = Ok v s'.
Proof.
  intros Hr. unfold call. cbn [run_direct]. rewrite (bind_Ok _ _ _ (inl v) s'); [done|].
  unfold try_. by rewrite Hr.
Qed.
End Layout.
