(* ===== verification/CapLib.v ===== *)
(** * The typed capabilities of the user library ([libzoea/src/caps.rs])

    User code holds capabilities as paths into its capability space, with what
    it remembers of the object; every operation is a system call. What the
    library believes about its capability space is the subject of
    [CapLibProps]. *)

From S2P Require Import Prelude Shared Address Objects Riscv LinkedList Capability PageTable CNode.
From S2P Require Import Thread RoundRobin Ipc Untyped Syscall UserLib UserProg.

(** [u32] addition. *)
Definition u32_add {S E} (a b : Z) : M S E Z :=
  if a + b <? 2 ^ 32 then ret (a + b) else panic PArith.

(** ** Objects *)

Class KernelObject (K : Type) := {
  OBJ_TYPE : CapabilityType;
  from_retype : Z → bool → K;
}.
Class FixedSizeObject (K : Type) `{KernelObject K} := { OBJECT_SIZE : Z }.
Class Copyable (K : Type) `{KernelObject K} := { copy_data : K → K }.
Class Mintable (K : Type) `{KernelObject K} := { mint_data : K → Z → K }.
Arguments OBJ_TYPE K {_}.
Arguments OBJECT_SIZE K {_ _}.

Record UserCap (K : Type) := { cap_ptr : Z; cap_depth : Z; cap_data : K }.
Arguments Build_UserCap {K}.
Arguments cap_ptr {K}.
Arguments cap_depth {K}.
Arguments cap_data {K}.
#[export] Instance UserCap_eta K : Eta (UserCap K) := λ c,
  {| cap_ptr := cap_ptr c; cap_depth := cap_depth c; cap_data := cap_data c |}.

Record UntypedData := { ut_is_device : bool; ut_size_bits : Z }.
#[export] Instance UntypedData_object : KernelObject UntypedData := {
  OBJ_TYPE := CapabilityType.Untyped;
  from_retype user_size is_device := {| ut_is_device := is_device; ut_size_bits := user_size |};
}.

Record CNodeData := { cn_radix : Z; cursor : Z }.
#[export] Instance CNodeData_eta : Eta CNodeData := λ c, {| cn_radix := cn_radix c; cursor := cursor c |}.
#[export] Instance CNodeData_object : KernelObject CNodeData := {
  OBJ_TYPE := CapabilityType.CNode;
  from_retype user_size _ := {| cn_radix := as_u32 user_size; cursor := 0 |};
}.

Record PageTableData := { ptd_mapped_address : Z; ptd_is_root : bool; ptd_is_mapped : bool }.
#[export] Instance PageTableData_eta : Eta PageTableData := λ p,
  {| ptd_mapped_address := ptd_mapped_address p; ptd_is_root := ptd_is_root p;
     ptd_is_mapped := ptd_is_mapped p |}.
#[export] Instance PageTableData_object : KernelObject PageTableData := {
  OBJ_TYPE := CapabilityType.PageTable;
  from_retype _ _ := {| ptd_mapped_address := 0; ptd_is_root := false; ptd_is_mapped := false |};
}.
#[export] Instance PageTableData_fixed : FixedSizeObject PageTableData := { OBJECT_SIZE := 4096 }.

(** [PageFlags] *)
Record PageFlags := { pg_writable : bool; pg_readable : bool; pg_executable : bool }.
Definition page_flags_usize (value : PageFlags) : Z :=
  let write := if value.(pg_writable) then 0x02 else 0x00 in
  let read := if value.(pg_readable) then 0x04 else 0x00 in
  let exec := if value.(pg_executable) then 0x01 else 0x00 in
  Z.lor (Z.lor write read) exec.
Definition flags_readonly : PageFlags := {| pg_writable := false; pg_readable := true; pg_executable := false |}.
Definition flags_writeonly : PageFlags := {| pg_writable := true; pg_readable := false; pg_executable := false |}.
Definition flags_executable : PageFlags := {| pg_writable := false; pg_readable := true; pg_executable := true |}.
Definition flags_all : PageFlags := {| pg_writable := true; pg_readable := true; pg_executable := true |}.
Definition flags_readandwrite : PageFlags := {| pg_writable := true; pg_readable := true; pg_executable := false |}.
Definition flags_never : PageFlags := {| pg_writable := false; pg_readable := false; pg_executable := false |}.

Record PageData := { pg_mapped_address : Z; pg_is_mapped : bool; pg_rights : PageFlags }.
#[export] Instance PageData_object : KernelObject PageData := {
  OBJ_TYPE := CapabilityType.Page;
  from_retype _ _ := {| pg_mapped_address := 0; pg_is_mapped := false; pg_rights := flags_never |};
}.
#[export] Instance PageData_fixed : FixedSizeObject PageData := { OBJECT_SIZE := 4096 }.
#[export] Instance PageData_copyable : Copyable PageData := { copy_data c := c }.

Inductive EndpointData := EndpointUnit.
#[export] Instance EndpointData_object : KernelObject EndpointData := {
  OBJ_TYPE := CapabilityType.EndPoint; from_retype _ _ := EndpointUnit }.
#[export] Instance EndpointData_fixed : FixedSizeObject EndpointData := { OBJECT_SIZE := 0 }.
#[export] Instance EndpointData_mintable : Mintable EndpointData := { mint_data c _ := c }.

Inductive NotificaitonData := NotificaitonUnit.
#[export] Instance NotificaitonData_object : KernelObject NotificaitonData := {
  OBJ_TYPE := CapabilityType.Notification; from_retype _ _ := NotificaitonUnit }.
#[export] Instance NotificaitonData_fixed : FixedSizeObject NotificaitonData := { OBJECT_SIZE := 0 }.
#[export] Instance NotificaitonData_copyable : Copyable NotificaitonData := { copy_data c := c }.
#[export] Instance NotificaitonData_mintable : Mintable NotificaitonData := { mint_data c _ := c }.

Inductive TcbData := TcbUnit.
#[export] Instance TcbData_object : KernelObject TcbData := {
  OBJ_TYPE := CapabilityType.Tcb; from_retype _ _ := TcbUnit }.
#[export] Instance TcbData_fixed : FixedSizeObject TcbData := { OBJECT_SIZE := 0 }.

(** ** Slots *)

(** [CSlot]: the path and the radix of the node, and the index in it. *)
Record UserSlot := { us_pptr : Z; us_depth : Z; us_radix : Z; us_index : Z }.

Definition get_cap_ptr {S E} (self : UserSlot) : M S E (Z * Z) :=
  let* new_depth := u32_add self.(us_depth) self.(us_radix) in
  let* p := usize_shl self.(us_pptr) self.(us_radix) in
  let* new_pptr := usize_add p self.(us_index) in
  ret (new_pptr, new_depth).

Definition get_size {S E} (self : UserCap CNodeData) : M S E Z := usize_pow2 self.(cap_data).(cn_radix).

(** [get_slot]: the next slot; the node remembers that it was given out. *)
Definition get_slot {S} (self : UserCap CNodeData) : M S SysCallFailed (UserSlot * UserCap CNodeData) :=
  let* size := get_size self in
  if size <=? self.(cap_data).(cursor) then throw (ErrKind.NoEnoughSlot, 0)
  else
    let slot := {| us_pptr := self.(cap_ptr); us_depth := self.(cap_depth);
                   us_radix := self.(cap_data).(cn_radix);
                   us_index := as_u32 self.(cap_data).(cursor) |} in
    let* c := usize_add self.(cap_data).(cursor) 1 in
    ret (slot, self <| cap_data ::= λ d, d <| cursor := c |> |>).

(** [from_untyped_info] *)
Definition from_untyped_info (root_radix : Z) (info : UntypedInfo) : UserCap UntypedData :=
  {| cap_ptr := info.(idx); cap_depth := root_radix;
     cap_data := {| ut_is_device := Shared.is_device info; ut_size_bits := info.(bits) |} |}.

(** ** The operations *)

Definition retype_single_ut (T : Type) `{KernelObject T} (self : UserCap UntypedData)
    (slot : UserSlot) (user_size : Z) : Prog (UserCap T) :=
  let num := 1 in
  call (untyped_retype self.(cap_ptr) self.(cap_depth) slot.(us_pptr) slot.(us_depth)
          slot.(us_index) (as_u32 user_size) num (OBJ_TYPE T)) ;;
  let new_c := from_retype user_size self.(cap_data).(ut_is_device) in
  let! '(p, d) := pure_ (get_cap_ptr slot) in
  PRet {| cap_ptr := p; cap_depth := d; cap_data := new_c |}.
Definition retype_single_with_fixed_size (T : Type) `{FixedSizeObject T}
    (self : UserCap UntypedData) (slot : UserSlot) : Prog (UserCap T) :=
  retype_single_ut T self slot (OBJECT_SIZE T).

(** [CNodeCapability::copy] and [mint]: the slot is given out also when the
    call then fails, so the node is returned with either outcome. *)
Definition cnode_cap_copy {K : Type} `{Copyable K} (self : UserCap CNodeData) (c : UserCap K)
    : Prog ((UserCap K + SysCallFailed) * UserCap CNodeData) :=
  let! g := ptry (pure_ (get_slot self)) in
  match g with
  | inr e => PRet (inr e, self)
  | inl (slot, self) =>
      let depth := slot.(us_radix) in
      let index := slot.(us_index) in
      let! '(dest_ptr, dest_depth) := pure_ (get_cap_ptr slot) in
      let! r := ptry (call (cnode_copy self.(cap_ptr) self.(cap_depth) index depth
                              c.(cap_ptr) c.(cap_depth))) in
      match r with
      | inr e => PRet (inr e, self)
      | inl _ => PRet (inl {| cap_ptr := dest_ptr; cap_depth := dest_depth;
                             cap_data := copy_data c.(cap_data) |}, self)
      end
  end.
Definition cnode_cap_mint {K : Type} `{Mintable K} (self : UserCap CNodeData) (c : UserCap K)
    (cap_val : Z) : Prog ((UserCap K + SysCallFailed) * UserCap CNodeData) :=
  let! g := ptry (pure_ (get_slot self)) in
  match g with
  | inr e => PRet (inr e, self)
  | inl (slot, self) =>
      let! '(dest_ptr, dest_depth) := pure_ (get_cap_ptr slot) in
      let! r := ptry (call (cnode_mint self.(cap_ptr) self.(cap_depth) dest_ptr dest_depth
                              c.(cap_ptr) c.(cap_depth) cap_val)) in
      match r with
      | inr e => PRet (inr e, self)
      | inl _ => PRet (inl {| cap_ptr := dest_ptr; cap_depth := dest_depth;
                             cap_data := mint_data c.(cap_data) cap_val |}, self)
      end
  end.
(** [delete] does nothing yet. *)
Definition cnode_cap_delete {K} (self : UserCap CNodeData) (_ : UserCap K) : Prog unit := PRet tt.

Definition table_cap_map (self root_table : UserCap PageTableData) (vaddr : Z) : Prog Z :=
  call (map_page_table self.(cap_ptr) self.(cap_depth) root_table.(cap_ptr) root_table.(cap_depth) vaddr).
Definition table_cap_make_as_root (self : UserCap PageTableData) : Prog (UserCap PageTableData) :=
  call (make_page_table_root self.(cap_ptr) self.(cap_depth)) ;;
  PRet (self <| cap_data ::= λ d, d <| ptd_is_mapped := true |> |>).

Definition page_cap_map_user (self : UserCap PageData) (root_table : UserCap PageTableData) (vaddr : Z)
    (flags : PageFlags) : Prog (UserCap PageData) :=
  call (user_map_page self.(cap_ptr) self.(cap_depth) root_table.(cap_ptr) root_table.(cap_depth) vaddr
          (page_flags_usize flags)) ;;
  PRet (self <| cap_data := {| pg_is_mapped := true; pg_mapped_address := vaddr; pg_rights := flags |} |>).
Definition page_cap_unmap_user (self : UserCap PageData) (root_table : UserCap PageTableData)
    : Prog (UserCap PageData) :=
  call (user_unmap_page self.(cap_ptr) self.(cap_depth) root_table.(cap_ptr) root_table.(cap_depth)) ;;
  PRet (self <| cap_data := {| pg_is_mapped := false; pg_mapped_address := 0; pg_rights := flags_never |} |>).

Definition tcb_cap_set_ipc_buffer (self : UserCap TcbData) (page_cap : UserCap PageData) : Prog unit :=
  call (user_set_ipc_buffer self.(cap_ptr) self.(cap_depth) page_cap.(cap_ptr) page_cap.(cap_depth)) ;; PRet tt.
(** The registers go through the message buffer, given by its address. *)
Definition tcb_cap_write_regs (self : UserCap TcbData) (regs : Registers) (ipc_buffer : Z) : Prog unit :=
  PReadBuffer ipc_buffer (λ b,
    match write_reg self.(cap_ptr) self.(cap_depth) regs b with
    | inl e => PThrow e
    | inr (b', req) => PWriteBuffer ipc_buffer b' (call req ;; PRet tt)
    end).
Definition tcb_cap_configure (self : UserCap TcbData) (root_cnode : UserCap CNodeData)
    (root_vspace : UserCap PageTableData) : Prog unit :=
  call (configure_tcb self.(cap_ptr) self.(cap_depth) root_cnode.(cap_ptr) root_cnode.(cap_depth)
          root_vspace.(cap_ptr) root_vspace.(cap_depth)) ;; PRet tt.
Definition tcb_cap_resume (self : UserCap TcbData) : Prog unit :=
  call (resume_tcb self.(cap_ptr) self.(cap_depth)) ;; PRet tt.

Definition ep_user_send (self : UserCap EndpointData) : Prog unit :=
  call (send_ipc self.(cap_ptr) self.(cap_depth)) ;; PRet tt.
Definition ep_user_recive (self : UserCap EndpointData) : Prog Z :=
  call (recv_ipc self.(cap_ptr) self.(cap_depth)).
Definition notify_user_send (self : UserCap NotificaitonData) : Prog unit :=
  call (user_send_signal self.(cap_ptr) self.(cap_depth)) ;; PRet tt.
Definition notify_user_wait (self : UserCap NotificaitonData) : Prog Z :=
  call (recv_signal self.(cap_ptr) self.(cap_depth)).

