(* ===== verification/CapLibProps.v ===== *)
(** * What the library's capabilities stand for

    A capability of [CapLib] is a path: it is shown to lead to the slot the
    kernel filled. Copying works for every node the library knows; minting only
    in the caller's root node. *)

From S2P Require Import Prelude Shared Address Objects Riscv LinkedList Capability PageTable CNode.
From S2P Require Import Thread RoundRobin Ipc Untyped Syscall SyscallProps UserLib UserProg CapLib.

(** ** Slots *)

(** What the library assumes of a node: its radix is one the kernel can
    address, and the next free slot is in it. *)
Record node_ok (self : UserCap CNodeData) : Prop := {
  no_radix : 0 < cn_radix (cap_data self) ≤ 32;
  no_cursor : 0 ≤ cursor (cap_data self);
}.

Lemma get_slot_Ok {S} self (s : S) :
  node_ok self → cursor (cap_data self) < 2 ^ cn_radix (cap_data self) →
  get_slot self s =
    Ok ({| us_pptr := cap_ptr self; us_depth := cap_depth self; us_radix := cn_radix (cap_data self);
           us_index := cursor (cap_data self) |},
        self <| cap_data ::= λ d, d <| cursor := cursor (cap_data self) + 1 |> |>) s.
Proof.
  intros [Hr Hc] Hlt. assert (2 ^ cn_radix (cap_data self) ≤ 2 ^ 32) by (apply Z.pow_le_mono_r; lia).
  unfold get_slot, get_size. rewrite (bind_Ok _ _ _ _ _ (usize_pow2_Ok (cn_radix (cap_data self)) s ltac:(lia))).
  rewrite (proj2 (Z.leb_gt _ _)) by lia.
  rewrite (bind_Ok _ _ _ _ _ (usize_add_Ok (cursor (cap_data self)) 1 s ltac:(unfold W; lia))).
  unfold ret. rewrite as_u32_id by (unfold is_u32; lia). done.
Qed.
Lemma get_slot_full {S} self (s : S) :
  node_ok self → 2 ^ cn_radix (cap_data self) ≤ cursor (cap_data self) →
  get_slot self s = Err (ErrKind.NoEnoughSlot, 0) s.
Proof.
  intros [Hr Hc] Hge. unfold get_slot, get_size.
  rewrite (bind_Ok _ _ _ _ _ (usize_pow2_Ok (cn_radix (cap_data self)) s ltac:(lia))). by rewrite (proj2 (Z.leb_le _ _)) by lia.
Qed.

(** ** What a path names *)

(** The slot of the thread's capability space a library capability stands for. *)
Definition names {K} (h : gmap Z kobject) (root : CapabilityData) (c : UserCap K) (a : Z) : Prop :=
  resolves h root (cap_ptr c) (cap_depth c) a.

(** The library's node [self] is the kernel's node [n]. *)
Record node_rep (h : gmap Z kobject) (root : CapabilityData) (self : UserCap CNodeData)
    (n : CapabilityData) : Prop := {
  nr_slot : ∃ a e, names h root self a ∧ slot_at h a = Some (Some e) ∧ e.(cap) = n;
  nr_node : is_cnode n;
  nr_radix : radix n = cn_radix (cap_data self);
  nr_ok : node_ok self;
  nr_depth : 0 ≤ cap_depth self ∧ cap_depth self + cn_radix (cap_data self) < 64;
  nr_ptr : 0 ≤ cap_ptr self ∧ (cap_ptr self + 1) * 2 ^ cn_radix (cap_data self) < W;
}.

Definition user_slot (self : UserCap CNodeData) : UserSlot :=
  {| us_pptr := cap_ptr self; us_depth := cap_depth self; us_radix := cn_radix (cap_data self);
     us_index := cursor (cap_data self) |}.
Definition slot_path (self : UserCap CNodeData) : Z * Z :=
  (cap_ptr self * 2 ^ cn_radix (cap_data self) + cursor (cap_data self),
   cap_depth self + cn_radix (cap_data self)).

Lemma get_cap_ptr_Ok {S E} h root self n (s : S) :
  node_rep h root self n → cursor (cap_data self) < 2 ^ cn_radix (cap_data self) →
  get_cap_ptr (E := E) (user_slot self) s = Ok (slot_path self) s.
Proof.
  intros [_ _ _ [Hr Hc] Hd Hp] Hlt. unfold get_cap_ptr, u32_add, usize_shl. cbn [us_depth us_radix us_pptr us_index user_slot].
  rewrite (proj2 (Z.ltb_lt (cap_depth self + _) _)) by lia.
  rewrite (bind_Ok _ _ _ (cap_depth self + cn_radix (cap_data self)) s) by done.
  rewrite (proj2 (Z.ltb_lt (cn_radix _) _)) by lia.
  assert (0 < 2 ^ cn_radix (cap_data self)) by lia.
  rewrite (bind_Ok _ _ _ (cap_ptr self * 2 ^ cn_radix (cap_data self)) s).
  2: { unfold ret. rewrite Z.shiftl_mul_pow2, Z.mod_small by lia. done. }
  assert (cap_ptr self * 2 ^ cn_radix (cap_data self) + cursor (cap_data self) < W) as Hw by nia.
  by rewrite (bind_Ok _ _ _ _ _ (usize_add_Ok _ _ s Hw)).
Qed.

(** The path of the next slot leads to that slot. *)
Lemma slot_path_resolves h root self n :
  node_rep h root self n → cursor (cap_data self) < 2 ^ cn_radix (cap_data self) →
  resolves h root (fst (slot_path self)) (snd (slot_path self)) (slot_addr n (cursor (cap_data self))).
Proof.
  intros [(a & e & Hn & He & <-) Hnode Hrad [Hr Hc] Hd Hp] Hlt. unfold slot_path. simpl.
  rewrite <- Hrad in *. by apply (resolves_extend _ _ _ _ a); [|done..|lia|lia|lia].
Qed.

(** ** Paths survive what does not change capabilities *)

(** The capabilities stored in [h] are those stored in [h']. *)
Definition keeps_caps (h h' : gmap Z kobject) : Prop :=
  ∀ a e, slot_at h a = Some (Some e) → ∃ e', slot_at h' a = Some (Some e') ∧ e'.(cap) = e.(cap).

(** The same, except for what is stored at [x]. *)
Definition keeps_others (x : Z) (h h' : gmap Z kobject) : Prop :=
  ∀ a e, a ≠ x → slot_at h a = Some (Some e) → ∃ e', slot_at h' a = Some (Some e') ∧ e'.(cap) = e.(cap).

(** The free slots of [h], other than these, are free in [h']. *)
Definition keeps_free (except : list Z) (h h' : gmap Z kobject) : Prop :=
  ∀ a, a ∉ except → slot_at h a = Some None → slot_at h' a = Some None.

(** No node capability is stored at [a]. *)
Definition no_node (h : gmap Z kobject) (a : Z) : Prop :=
  ∀ e, entry_at h a = Some e → ¬ is_cnode e.(cap).

(** Only the nodes on the way matter. *)
Definition keeps_nodes (h h' : gmap Z kobject) : Prop :=
  ∀ a e, slot_at h a = Some (Some e) → is_cnode e.(cap) → ∃ e', slot_at h' a = Some (Some e') ∧ e'.(cap) = e.(cap).
Lemma resolves_keeps_nodes h h' c p d a : keeps_nodes h h' → resolves h c p d a → resolves h' c p d a.
Proof.
  intros Hk. induction 1 as [c p Hr|c p d e a Hr Hd He Hc _ IH]; [by apply resolves_here|].
  destruct (Hk _ _ He Hc) as (e' & He' & Hcap). rewrite <- Hcap in *. by apply resolves_below with e'.
Qed.
Lemma keeps_others_nodes x h h' : no_node h x → keeps_others x h h' → keeps_nodes h h'.
Proof.
  intros Hx Hk a e He Hc. apply Hk; [|done]. intros ->. apply (Hx e); [unfold entry_at; by rewrite He|done].
Qed.
Lemma resolves_keeps h h' c p d a : keeps_caps h h' → resolves h c p d a → resolves h' c p d a.
Proof. intros Hk. apply resolves_keeps_nodes. intros b e Hb _. by apply Hk. Qed.

(** A path of fewer than 64 bits is followed within the kernel's bound. *)
Lemma lookup_path s root p d a sl :
  radix_pos (heap s) → 0 < radix root → 0 ≤ d < 64 →
  resolves (heap s) root p d a → slot_at (heap s) a = Some sl →
  lookup root p d s = Ok a s.
Proof.
  intros Hp Hr Hd Hres Hsl. unfold lookup. rewrite as_u32_id by (unfold is_u32; lia).
  destruct (lookup_resolves _ _ _ _ _ _ Hres Hsl) as (n & Hn).
  destruct (lookup_terminates_depth s root p d) as (out & _ & Hf); [done|done|lia|].
  rewrite Hf by (unfold LOOKUP_FUEL; lia).
  rewrite <- (Hf (max n LOOKUP_FUEL)) by (unfold LOOKUP_FUEL; lia). apply Hn. lia.
Qed.

(** In every memory with the slots of [h], the lookup of the path ends at [a]. *)
Definition leads (h : gmap Z kobject) (n : CapabilityData) (p d a : Z) : Prop :=
  ∀ s, (∀ b, slot_at (heap s) b = slot_at h b) → lookup n p d s = Ok a s.

Lemma resolves_leads h n p d a sl :
  radix_pos h → 0 < radix n → 0 ≤ d < 64 → resolves h n p d a → slot_at h a = Some sl →
  leads h n p d a.
Proof.
  intros Hp Hr Hd Hres Hsl s Hs. apply (lookup_path _ _ _ _ _ sl); [|done|done| |by rewrite Hs].
  - intros b e. rewrite Hs. apply Hp.
  - apply (resolves_keeps h); [|done]. intros b e Hb. exists e. by rewrite Hs.
Qed.

(** The lookup ends at the first empty slot, whatever remains of the path. *)
Lemma stops_leads h n p d :
  0 < radix n < 64 → radix n ≤ d < 64 →
  slot_at h (slot_addr n (slot_index p (radix n) (d - radix n))) = Some None →
  leads h n p d (slot_addr n (slot_index p (radix n) (d - radix n))).
Proof.
  intros Hr Hd Hsl s Hs. unfold lookup. rewrite as_u32_id by (unfold is_u32; lia).
  change LOOKUP_FUEL with (S 64). rewrite lookup_entry_mut_S, lookup_one_Ok by lia.
  by rewrite Hs, Hsl.
Qed.

(** Changing the control block of a thread changes no slot. *)
Lemma slot_at_tcb h x t t' a : h !! x = Some (OTcb t) → slot_at (<[x := OTcb t']> h) a = slot_at h a.
Proof.
  intros Hx. unfold slot_at. destruct (decide (x = a)) as [<-|]; [by rewrite lookup_insert_eq, Hx|].
  by rewrite lookup_insert_ne.
Qed.

(** ** A call that succeeds *)

(** Thread [x] runs in the capability space of root [root]. *)
Record runs_in (s : KState) (x : Z) (t : ThreadControlBlock) (root : CapabilityData) : Prop := {
  ri_current : current_proc s = x;
  ri_tcb : heap s !! x = Some (OTcb t);
  ri_root : ∃ e, root_cnode (value t) = Some e ∧ cap_replicate e.(cap) = root;
  ri_pc : sepc (registers (value t)) + 4 < W;
}.

(** [s] with the registers of [x] changed by [req]. *)
Definition requesting (s : KState) (x : Z) (t : ThreadControlBlock) (req : Registers → Registers) : KState :=
  s <| heap := <[x := OTcb (t <| value ::= λ v, v <| registers ::= req |> |>)]> (heap s) |>.

Section Calls.
Context `{KernelLayout}.

(** The registers after a call. *)
Definition ended (res : option Z + KernelError) (r : Registers) : Registers :=
  (set_result res r) <| sepc := sepc r + 4 |>.
Definition answered (v : option Z) : Registers → Registers := ended (inl v).
Lemma answered_result v r : syscall_result (answered v r) = inr (default (a1 r) v).
Proof. by destruct v. Qed.

Lemma handle_syscall_ends tmp n x s t res s2 t2 :
  heap s !! x = Some (OTcb t) → try_ (E' := KernelError) (syscall_body tmp n (registers (value t))) s = Ok res s2 →
  heap s2 !! x = Some (OTcb t2) → sepc (registers (value t2)) + 4 < W →
  handle_syscall tmp n x s =
    Ok tt (s2 <| heap := <[x := OTcb (t2 <| value ::= λ w, w <| registers ::= ended res |> |>)]> (heap s2) |>).
Proof.
  intros Ht Hb Ht2 Hpc. unfold handle_syscall. rewrite (bind_Ok _ _ _ _ _ (read_tcb_Ok _ _ _ Ht)).
  rewrite (bind_Ok _ _ _ _ _ Hb). rewrite (bind_Ok _ _ _ _ _ (modify_tcb_Ok _ _ _ _ Ht2)).
  set (t1 := t2 <| value ::= _ |>). set (s3 := s2 <| heap := _ |>).
  assert (heap s3 !! x = Some (OTcb t1)) as Ht3 by apply lookup_insert_eq.
  rewrite (bind_Ok _ _ _ _ _ (read_tcb_Ok _ _ _ Ht3)).
  assert (sepc (registers (value t1)) = sepc (registers (value t2))) as Hpc1 by by destruct res as [[]|].
  rewrite (bind_Ok _ _ _ (sepc (registers (value t2)) + 4) s3) by (rewrite Hpc1; by apply usize_add_Ok).
  rewrite (modify_tcb_Ok _ _ _ _ Ht3). subst s3. by rewrite heap_set, heap_set_set, insert_insert_eq.
Qed.

(** The control block after a call with result [res]. *)
Definition after_call (req : Registers → Registers) (res : option Z + KernelError) (t : ThreadControlBlock)
    : ThreadControlBlock :=
  t <| value ::= λ v, v <| registers ::= λ r, ended res (req r) |> |>.

(** A call whose handler ran, whatever it did to the caller. *)
Lemma direct_call_returns tmp req s x t res s2 t2 :
  current_proc s = x → heap s !! x = Some (OTcb t) →
  let r := req (registers (value t)) in
  try_ (E' := KernelError) (syscall_body tmp (a7 r) r) (requesting s x t req) = Ok res s2 →
  heap s2 !! x = Some (OTcb t2) → sepc (registers (value t2)) + 4 < W →
  direct_call tmp req s =
    (match syscall_result (ended res (registers (value t2))) with inr v => ret v | inl e => throw e end)
      (s2 <| heap := <[x := OTcb (t2 <| value ::= λ w, w <| registers ::= ended res |> |>)]> (heap s2) |>).
Proof.
  intros Hcur Ht r Hb Ht2 Hpc. set (s1 := requesting s x t req) in *. unfold direct_call, unwrap_res.
  rewrite (bind_Ok _ _ _ x s) by by unfold gets; rewrite Hcur.
  rewrite (bind_Ok _ _ _ tt s1) by by rewrite (modify_tcb_Ok _ _ _ _ Ht).
  set (t1 := t <| value ::= λ v, v <| registers ::= req |> |>).
  assert (heap s1 !! x = Some (OTcb t1)) as Ht1 by apply lookup_insert_eq.
  rewrite (bind_Ok _ _ _ t1 s1) by by rewrite (read_tcb_Ok _ _ _ Ht1).
  pose proof (handle_syscall_ends tmp (a7 r) x s1 t1 res s2 t2 Ht1 Hb Ht2 Hpc) as Hrun.
  set (t3 := t2 <| value ::= _ |>) in *.
  rewrite (bind_Ok _ _ _ tt (s2 <| heap := <[x := OTcb t3]> (heap s2) |>)).
  2: { change (a7 (registers (value t1))) with (a7 r). by rewrite Hrun. }
  by rewrite (bind_Ok _ _ _ t3 (s2 <| heap := <[x := OTcb t3]> (heap s2) |>))
    by by rewrite (read_tcb_Ok x t3) by apply lookup_insert_eq.
Qed.
Lemma direct_call_ends tmp req s x t root res s2 :
  runs_in s x t root → sepc (req (registers (value t))) = sepc (registers (value t)) →
  let r := req (registers (value t)) in
  let s1 := requesting s x t req in
  try_ (E' := KernelError) (syscall_body tmp (a7 r) r) s1 = Ok res s2 → heap s2 !! x = heap s1 !! x →
  direct_call tmp req s =
    (match syscall_result (ended res r) with inr v => ret v | inl e => throw e end)
      (s2 <| heap := <[x := OTcb (after_call req res t)]> (heap s2) |>).
Proof.
  intros [Hcur Ht _ Hpc] Hsepc r s1 Hb H2. set (t1 := t <| value ::= λ v, v <| registers ::= req |> |>).
  assert (heap s2 !! x = Some (OTcb t1)) as Ht2 by (rewrite H2; apply lookup_insert_eq).
  refine (direct_call_returns tmp req s x t res s2 t1 Hcur Ht Hb Ht2 _).
  change (sepc (req (registers (value t))) + 4 < W). by rewrite Hsepc.
Qed.
Lemma direct_call_answers tmp req s x t root v s2 :
  runs_in s x t root → sepc (req (registers (value t))) = sepc (registers (value t)) →
  let r := req (registers (value t)) in
  let s1 := requesting s x t req in
  syscall_body tmp (a7 r) r s1 = Ok v s2 → heap s2 !! x = heap s1 !! x →
  direct_call tmp req s =
    Ok (default (a1 r) v) (s2 <| heap := <[x := OTcb (after_call req (inl v) t)]> (heap s2) |>).
Proof.
  intros Hrun Hsepc r s1 Hb H2. assert (try_ (E' := KernelError) (syscall_body tmp (a7 r) r) s1 = Ok (inl v) s2) as Htry
    by (unfold try_; by rewrite Hb).
  rewrite (direct_call_ends tmp req s x t root (inl v) s2 Hrun Hsepc Htry H2).
  change (ended (inl v)) with (answered v). by rewrite answered_result.
Qed.
Lemma direct_call_Ok tmp req s x t root v s2 :
  runs_in s x t root → sepc (req (registers (value t))) = sepc (registers (value t)) →
  let r := req (registers (value t)) in
  let s1 := requesting s x t req in
  syscall_body tmp (a7 r) r s1 = Ok v s2 → heap s2 !! x = heap s1 !! x →
  ∃ t3, direct_call tmp req s = Ok (default (a1 r) v) (s2 <| heap := <[x := OTcb t3]> (heap s2) |>).
Proof.
  intros Hrun Hsepc r s1 Hb H2. eexists. exact (direct_call_answers tmp req s x t root v s2 Hrun Hsepc Hb H2).
Qed.
(** A call that fails with an error the library knows as [k]. *)
Lemma direct_call_Err tmp req s x t root e k s2 :
  runs_in s x t root → sepc (req (registers (value t))) = sepc (registers (value t)) →
  let r := req (registers (value t)) in
  let s1 := requesting s x t req in
  syscall_body tmp (a7 r) r s1 = Err e s2 → heap s2 !! x = heap s1 !! x →
  (∀ r, syscall_result (ended (inr e) r) = inl k) →
  ∃ t3, direct_call tmp req s = Err k (s2 <| heap := <[x := OTcb t3]> (heap s2) |>).
Proof.
  intros Hrun Hsepc r s1 Hb H2 Hk. assert (try_ (E' := KernelError) (syscall_body tmp (a7 r) r) s1 = Ok (inr e) s2) as Htry
    by (unfold try_; by rewrite Hb).
  eexists. by rewrite (direct_call_ends tmp req s x t root (inr e) s2 Hrun Hsepc Htry H2), Hk.
Qed.

(** ** Copying *)

(** The [match] of [handle_invocation] on the type of the capability. *)
Definition dispatch (tmp : Z) (ct : CapabilityType) (root : CapabilityData) (slot current : Z) (label : InvLabel)
    (ipc : option Z) (reg : Registers) : K (option Z) :=
  match ct with
  | CapabilityType.Untyped => invoke_untyped tmp root slot reg
  | CapabilityType.CNode => invoke_cnode tmp root slot label reg
  | CapabilityType.Tcb => invoke_tcb tmp root slot label ipc reg
  | CapabilityType.Notification => invoke_notification slot current label
  | CapabilityType.EndPoint => invoke_endpoint slot current label
  | CapabilityType.Page => invoke_page root slot label reg
  | CapabilityType.PageTable => invoke_page_table root slot label reg
  end.

(** The kernel finds the capability a path names. *)
Lemma handle_named tmp s x t root p d a e ct req label r :
  runs_in s x t root → radix_pos (heap s) → 0 < radix root → 0 ≤ d < 64 →
  resolves (heap s) root p d a → slot_at (heap s) a = Some (Some e) →
  CapabilityType.cap_type_try_from (cap_type e.(cap)) = inr ct →
  handle_invocation tmp p d label r (requesting s x t req) =
    dispatch tmp ct root a x label (ipc_buffer_ref (value t)) r (requesting s x t req).
Proof.
  intros [Hcur Ht (er & Her & Hroot) _] Hp Hr Hd Hn He Hc. set (s1 := requesting s x t req).
  assert (∀ b, slot_at (heap s1) b = slot_at (heap s) b) as Hsl by (intros b; by apply slot_at_tcb with t).
  assert (keeps_caps (heap s) (heap s1)) as Hk by (intros b eb Hb; exists eb; by rewrite Hsl).
  unfold handle_invocation.
  rewrite (bind_Ok _ _ _ x s1) by by unfold get_current_tcb, gets; rewrite <- Hcur.
  rewrite (bind_Ok _ _ _ _ _ (read_tcb_Ok x _ s1 (lookup_insert_eq _ _ _))).
  rewrite (bind_Ok _ _ _ er s1) by by (simpl; rewrite Her). rewrite Hroot.
  rewrite (bind_Ok _ _ _ a s1).
  2: { apply (lookup_path s1 root _ _ a (Some e)); [|done|lia| |by rewrite Hsl].
       - intros b eb. rewrite Hsl. apply Hp.
       - by apply (resolves_keeps _ _ _ _ _ _ Hk). }
  rewrite (bind_Ok _ _ _ e s1) by by apply occupied_Ok; rewrite Hsl.
  by rewrite (bind_Ok _ _ _ ct s1) by by apply get_cap_type_Ok.
Qed.

(** The capability space of [root] has, under the path of [u], the capability
    [c] of type [ct], in the slot at [a]. *)
Record holds {K} (h : gmap Z kobject) (root : CapabilityData) (u : UserCap K) (ct : CapabilityType) (a : Z)
    (c : CapabilityData) : Prop := {
  ho_names : names h root u a;
  ho_depth : 0 ≤ cap_depth u < 64;
  ho_entry : ∃ e, slot_at h a = Some (Some e) ∧ e.(cap) = c;
  ho_type : CapabilityType.cap_type_try_from (cap_type c) = inr ct;
}.
Lemma holds_keeps {K} h h' root (u : UserCap K) ct a c :
  keeps_caps h h' → holds h root u ct a c → holds h' root u ct a c.
Proof.
  intros Hk [Hn Hd (e & He & <-) Ht]. split; [by apply (resolves_keeps h)|done| |done]. by apply Hk.
Qed.
Lemma holds_slots {K} h h' root (u : UserCap K) ct a c :
  (∀ b, slot_at h' b = slot_at h b) → holds h root u ct a c → holds h' root u ct a c.
Proof. intros Hsl. apply holds_keeps. intros b eb Hb. exists eb. by rewrite Hsl. Qed.
Lemma holds_lookup {K} s root (u : UserCap K) ct a c :
  radix_pos (heap s) → 0 < radix root → holds (heap s) root u ct a c →
  lookup_as root ct (cap_ptr u) (cap_depth u) s = Ok (a, c) s.
Proof.
  intros Hp Hr [Hn Hd (e & He & <-) Ht]. unfold lookup_as.
  rewrite (bind_Ok _ _ _ _ _ (lookup_path _ _ _ _ _ _ Hp Hr Hd Hn He)).
  rewrite (bind_Ok _ _ _ e s) by by apply occupied_Ok. by rewrite (bind_Ok _ _ _ _ _ (try_ref_as_Ok _ _ s Ht)).
Qed.
Lemma slot_cap_Ok {K} s root (u : UserCap K) ct a c : holds (heap s) root u ct a c → slot_cap ct a s = Ok c s.
Proof.
  intros [_ _ (e & He & <-) Ht]. unfold slot_cap. rewrite (bind_Ok _ _ _ e s) by by apply read_entry_Ok.
  by apply try_ref_as_Ok.
Qed.
(** The kernel finds a capability the thread holds. *)
Lemma handle_held {K} tmp s x t root (u : UserCap K) ct a c req label r :
  runs_in s x t root → radix_pos (heap s) → 0 < radix root → holds (heap s) root u ct a c →
  handle_invocation tmp (cap_ptr u) (cap_depth u) label r (requesting s x t req) =
    dispatch tmp ct root a x label (ipc_buffer_ref (value t)) r (requesting s x t req).
Proof.
  intros Hrun Hp Hr [Hn Hd (e & He & <-) Ht]. by apply (handle_named tmp s x t root _ _ a e ct).
Qed.
Lemma requesting_slots s x t req b :
  heap s !! x = Some (OTcb t) → slot_at (heap (requesting s x t req)) b = slot_at (heap s) b.
Proof. intros Ht. by apply slot_at_tcb with t. Qed.

(** The kernel finds the node the library invokes. *)
Lemma handle_node tmp s x t root self n req label r :
  runs_in s x t root → radix_pos (heap s) → 0 < radix root → node_rep (heap s) root self n →
  ∃ a e, slot_at (heap s) a = Some (Some e) ∧ e.(cap) = n ∧
    handle_invocation tmp (cap_ptr self) (cap_depth self) label r (requesting s x t req) =
    invoke_cnode tmp root a label r (requesting s x t req).
Proof.
  intros Hrun Hp Hr [(a & e & Hn & He & Hc) Hnode _ [Hr0 _] Hd _]. exists a, e. split; [done|]. split; [done|].
  apply (handle_named tmp s x t root _ _ a e CapabilityType.CNode); [done..|lia|done|done|]. by rewrite Hc.
Qed.

(** The request of [copy] and [mint]: [c] is to be derived into the slot at path
    [dp], [dd] of the node. *)
Definition insert_request {K} (self : UserCap CNodeData) (c : UserCap K) (label : InvLabel) (dp dd val : Z) :=
  ecall (cap_ptr self) (cap_depth self) label (cap_ptr c) (pack32 (cap_depth c) dd) dp val SysCallNo.Call.

(** The source and the destination of the request, and room for the kernel's
    local entry, where an earlier call may have left anything but a node
    capability. *)
Record insert_places {K} (s : KState) (tmp x : Z) (root : CapabilityData) (c : UserCap K)
    (src : Z) (e : CNodeEntry) (dest : Z) : Prop := {
  ip_src : names (heap s) root c src;
  ip_depth : 0 ≤ cap_depth c < 64;
  ip_entry : slot_at (heap s) src = Some (Some e);
  ip_free : slot_at (heap s) dest = Some None;
  ip_local : local_ok s tmp src dest e;
  ip_tmp : tmp ≠ x ∧ no_node (heap s) tmp;
}.

Lemma insert_args {K} s tmp x t root self n (c : UserCap K) src e dest label dp dd val a en :
  runs_in s x t root → radix_pos (heap s) → 0 < radix root → node_rep (heap s) root self n →
  insert_places s tmp x root c src e dest → leads (heap s) n dp dd dest → 0 ≤ dd < 64 →
  slot_at (heap s) a = Some (Some en) → en.(cap) = n →
  let req := insert_request self c label dp dd val in
  cnode_args (requesting s x t req) root a (req (registers (value t))) src e dest ∧
  local_ok (requesting s x t req) tmp src dest e.
Proof.
  intros [_ Ht _ _] Hp Hr [_ Hnode Hrad [Hr0 _] _ _] [Hsrc Hcd He Hfree [Htmp Hks Hnl] _] Hdest Hdd Ha Hen req.
  set (s1 := requesting s x t req).
  assert (∀ b, slot_at (heap s1) b = slot_at (heap s) b) as Hsl by (intros b; by apply slot_at_tcb with t).
  assert (keeps_caps (heap s) (heap s1)) as Hk by (intros b eb Hb; exists eb; by rewrite Hsl).
  assert (radix_pos (heap s1)) as Hp1 by (intros b eb; rewrite Hsl; apply Hp).
  assert (is_u32 (cap_depth c) ∧ is_u32 dd) as [Hu1 Hu2] by (unfold is_u32; lia).
  split; [|split; [done|done|]].
  - split; [| |by rewrite Hsl|by rewrite Hsl].
    + exists n. split.
      * unfold slot_cap. rewrite (bind_Ok _ _ _ en s1) by by apply read_entry_Ok; rewrite Hsl.
        rewrite Hen. by apply try_ref_as_Ok.
      * change (a4 (req _)) with (pack32 (cap_depth c) dd). rewrite pack32_lo by done.
        by apply Hdest.
    + change (a4 (req _)) with (pack32 (cap_depth c) dd). rewrite pack32_hi, as_u32_id by done.
      apply (lookup_path _ _ _ _ _ (Some e)); [done|done|done| |by rewrite Hsl].
      by apply (resolves_keeps _ _ _ _ _ _ Hk).
  - intros pn Hpn. destruct (Hnl pn Hpn) as (P1 & P2 & P3). split_and!; try done.
    unfold entry_at. by rewrite Hsl.
Qed.

Lemma direct_insert {K} s tmp x t root self n (c : UserCap K) src e dest label dp dd val c0 :
  runs_in s x t root → radix_pos (heap s) → 0 < radix root → node_rep (heap s) root self n →
  insert_places s tmp x root c src e dest → leads (heap s) n dp dd dest → 0 ≤ dd < 64 →
  label ≠ InvLabel.CNodeMove → (∀ s', entry_derive e s' = Ok c0 s') →
  ∃ v s' ed, direct_call tmp (insert_request self c label dp dd val) s = Ok v s' ∧
    keeps_others tmp (heap s) (heap s') ∧ keeps_free [tmp; dest] (heap s) (heap s') ∧
    slot_at (heap s') dest = Some (Some ed) ∧
    ed.(cap) = if bool_decide (label = InvLabel.CNodeMint) then set_cap_dep_val c0 val else c0.
Proof.
  intros Hrun Hp Hr Hnr Hip Hdest Hdd Hlab Hder. set (req := insert_request _ _ _ _ _ _).
  pose proof Hrun as [_ Ht _ _]. pose proof Hip as [_ _ _ Hfree _ [Htx Htmp]].
  set (r := req (registers (value t))). set (s1 := requesting s x t req).
  assert (∀ b, slot_at (heap s1) b = slot_at (heap s) b) as Hsl by (intros b; by apply slot_at_tcb with t).
  destruct (handle_node tmp s x t root self n req label r Hrun Hp Hr Hnr) as (a & en & Ha & Hen & Hinv).
  destruct (insert_args s tmp x t root self n c src e dest label dp dd val a en) as [Hargs Hloc]; [done..|].
  destruct (invoke_cnode_insert tmp root a label r s1 src e dest c0 Hargs Hloc Hlab (Hder _))
    as (h' & ed & Hi & Hed & Hcap & _ & Hkeep & Hfr).
  assert (x ≠ dest) as Hxd by (intros ->; unfold slot_at in Hfree; by rewrite Ht in Hfree).
  assert (h' !! x = heap s1 !! x) as Hx.
  { apply Hfr; [done|done|]. unfold entry_at. rewrite Hsl. unfold slot_at. by rewrite Ht. }
  destruct (direct_call_Ok tmp req s x t root None (s1 <| heap := h' |>)) as (t3 & Hcall); [done|done| |done|].
  { refine (eq_trans _ (eq_trans Hinv Hi)). by apply (ecall_dispatch _ _ label). }
  exists (a1 r), (s1 <| heap := <[x := OTcb t3]> h' |>), ed. split; [exact Hcall|]. rewrite heap_set.
  assert (∀ b, slot_at (<[x := OTcb t3]> h') b = slot_at h' b) as Hsl'.
  { intros b. eapply slot_at_tcb. rewrite Hx. apply lookup_insert_eq. }
  split; [|split; [|rewrite Hsl'; split; [by apply entry_at_slot|done]]].
  - intros b eb Hbt Hb. rewrite Hsl'. destruct (Hkeep b eb) as (eb' & Hb' & ?).
    + done.
    + unfold entry_at. by rewrite Hsl, Hb.
    + exists eb'. split; [by apply entry_at_slot|done].
  - intros b Hb Hfb. rewrite Hsl'. unfold slot_at. rewrite Hfr.
    + fold (slot_at (heap s1) b). by rewrite Hsl.
    + set_solver.
    + set_solver.
    + unfold entry_at. by rewrite Hsl, Hfb.
Qed.

(** The state of the library's node after a slot was given out and the call
    kept all capabilities. *)
Lemma node_rep_next h h' root self n :
  keeps_nodes h h' → node_rep h root self n →
  node_rep h' root (self <| cap_data ::= λ d, d <| cursor := cursor (cap_data self) + 1 |> |>) n.
Proof.
  intros Hk [(a & e & Hn & He & Hc) Hnode Hrad [Hr Hcu] Hd Hp]. split; try done.
  - destruct (Hk _ _ He) as (e' & He' & Hc'); [by rewrite Hc|]. exists a, e'. split; [|by rewrite Hc'].
    by apply (resolves_keeps_nodes h).
  - split; simpl; lia.
Qed.

(** A request that the kernel refuses as a whole. *)
Lemma direct_refused {K} s tmp x t root self n (c : UserCap K) src e dest label dp dd val k :
  runs_in s x t root → radix_pos (heap s) → 0 < radix root → node_rep (heap s) root self n →
  insert_places s tmp x root c src e dest → leads (heap s) n dp dd dest → 0 ≤ dd < 64 →
  (∀ s', entry_derive e s' = Err (kerr k) s') →
  (∀ r, syscall_result (ended (inr (kerr k)) r) = inl (k, 0)) →
  ∃ s', direct_call tmp (insert_request self c label dp dd val) s = Err (k, 0) s' ∧
    ∀ a, a ≠ x → heap s' !! a = heap s !! a.
Proof.
  intros Hrun Hp Hr Hnr Hip Hdest Hdd Hder Hk. set (req := insert_request _ _ _ _ _ _).
  set (r := req (registers (value t))). set (s1 := requesting s x t req).
  destruct (handle_node tmp s x t root self n req label r Hrun Hp Hr Hnr) as (a & en & Ha & Hen & Hinv).
  destruct (insert_args s tmp x t root self n c src e dest label dp dd val a en) as [Hargs _]; [done..|].
  pose proof (invoke_cnode_refused tmp root a label r s1 src e dest _ Hargs (Hder _)) as Hi.
  destruct (direct_call_Err tmp req s x t root (kerr k) (k, 0) s1) as (t3 & Hcall); [done|done| |done|done|].
  { refine (eq_trans _ (eq_trans Hinv Hi)). by apply (ecall_dispatch _ _ label). }
  eexists. split; [exact Hcall|]. intros b Hb. rewrite heap_set. unfold s1, requesting.
  by rewrite heap_set, !lookup_insert_ne.
Qed.

(** The library's node after a slot was given out. *)
Definition next_slot (self : UserCap CNodeData) : UserCap CNodeData :=
  self <| cap_data ::= λ d, d <| cursor := cursor (cap_data self) + 1 |> |>.

(** How [copy] continues after the kernel's answer. *)
Lemma copy_runs {K} `{Copyable K} s tmp root self n (c : UserCap K) r s' :
  node_rep (heap s) root self n → cursor (cap_data self) < 2 ^ cn_radix (cap_data self) →
  try_ (E' := SysCallFailed) (direct_call tmp
    (insert_request self c InvLabel.CNodeCopy (cursor (cap_data self)) (cn_radix (cap_data self)) 0)) s = Ok r s' →
  run_direct tmp (cnode_cap_copy self c) s =
    Ok (match r with
        | inl _ => inl {| cap_ptr := fst (slot_path self); cap_depth := snd (slot_path self);
                          cap_data := copy_data (cap_data c) |}
        | inr k => inr k
        end, next_slot self) s'.
Proof.
  intros Hnr Hcur Hr. pose proof (nr_ok _ _ _ _ Hnr) as Hok.
  unfold cnode_cap_copy, pure_. rewrite (get_slot_Ok self tt Hok Hcur). cbn [ptry pbind].
  change (Build_UserSlot _ _ _ _) with (user_slot self).
  rewrite (get_cap_ptr_Ok _ _ _ _ tt Hnr Hcur). cbn [ptry pbind call slot_path run_direct].
  rewrite (bind_Ok _ _ _ r s').
  - by destruct r.
  - exact Hr.
Qed.

(** C14: copying through the library, for a node the library knows correctly
    and that has a free slot left. When the capability can be derived (nodes,
    page tables, endpoints, notifications and mapped pages), [copy] succeeds:
    the capability it returns names, in the caller's capability space, the slot
    the kernel filled with the derived capability, the library's picture of the
    node stays right and no other capability changes. When it can not (threads,
    untyped memory and pages that are not mapped), [copy] returns the error of
    the derivation and changes nothing in the kernel but the caller's
    registers; the library's cursor has moved on all the same. The conditions
    on the kernel's side: the source's successor in the derivation list is
    none, a live entry or the kernel's local entry (left there by an earlier
    copy), and what an earlier call left in that local is no node capability. *)
Theorem library_copy {K} `{Copyable K} s tmp x t root self n (c : UserCap K) src e ct :
  let dest := slot_addr n (cursor (cap_data self)) in
  runs_in s x t root → radix_pos (heap s) → 0 < radix root → node_rep (heap s) root self n →
  cursor (cap_data self) < 2 ^ cn_radix (cap_data self) →
  insert_places s tmp x root c src e dest → CapabilityType.cap_type_try_from (cap_type e.(cap)) = inr ct →
  match derivation ct e.(cap) with
  | inl c0 =>
      ∃ c' s' ed,
        run_direct tmp (cnode_cap_copy self c) s = Ok (inl c', next_slot self) s' ∧
        names (heap s') root c' dest ∧ slot_at (heap s') dest = Some (Some ed) ∧ ed.(cap) = c0 ∧
        cap_data c' = copy_data (cap_data c) ∧ node_rep (heap s') root (next_slot self) n ∧
        keeps_others tmp (heap s) (heap s') ∧ keeps_free [tmp; dest] (heap s) (heap s')
  | inr k =>
      ∃ s', run_direct tmp (cnode_cap_copy self c) s = Ok (inr (k, 0), next_slot self) s' ∧
        ∀ a, a ≠ x → heap s' !! a = heap s !! a
  end.
Proof.
  intros dest Hrun Hp Hr Hnr Hcur Hip Ht. pose proof Hnr as [_ _ Hrad Hok Hd _].
  pose proof Hok as [Hr0 Hc0]. pose proof (λ s', entry_derive_spec e ct s' Ht) as Hder.
  assert (leads (heap s) n (cursor (cap_data self)) (cn_radix (cap_data self)) dest) as Hres.
  { rewrite <- Hrad. apply (resolves_leads _ _ _ _ _ None); [done|lia|lia| |apply Hip].
    replace dest with (slot_addr n (slot_index (cursor (cap_data self)) (radix n) 0)).
    - apply resolves_here. lia.
    - subst dest. unfold slot_index. rewrite Z.pow_0_r, Z.div_1_r, Z.mod_small by (rewrite Hrad; lia). done. }
  destruct (derivation ct (cap e)) as [c0|k] eqn:Hc.
  - destruct (direct_insert s tmp x t root self n c src e dest InvLabel.CNodeCopy (cursor (cap_data self))
                (cn_radix (cap_data self)) 0 c0) as (v & s' & ed & Hcall & Hk & Hf & Hed & Hce); [done..|lia|done|done|].
    pose proof (keeps_others_nodes _ _ _ (proj2 (ip_tmp _ _ _ _ _ _ _ _ Hip)) Hk) as Hkn.
    exists {| cap_ptr := fst (slot_path self); cap_depth := snd (slot_path self); cap_data := copy_data (cap_data c) |}, s', ed.
    split_and!; try done.
    + rewrite (copy_runs s tmp root self n c (inl v) s' Hnr Hcur); [reflexivity|]. unfold try_. by rewrite Hcall.
    + apply (resolves_keeps_nodes _ _ _ _ _ _ Hkn). exact (slot_path_resolves _ _ _ _ Hnr Hcur).
    + exact (node_rep_next (heap s) (heap s') root self n Hkn Hnr).
  - destruct (direct_refused s tmp x t root self n c src e dest InvLabel.CNodeCopy (cursor (cap_data self))
                (cn_radix (cap_data self)) 0 k) as (s' & Hcall & Hs'); [done..|lia|done| |].
    { intros r. revert Hc. unfold derivation. destruct ct; try destruct (is_mapped _); intros; by simplify_eq. }
    exists s'. split; [|done].
    rewrite (copy_runs s tmp root self n c (inr (k, 0)) s' Hnr Hcur); [reflexivity|]. unfold try_. by rewrite Hcall.
Qed.

(** ** Minting *)

(** How [mint] runs when the kernel's lookup in the node ends at [dest]. *)
Lemma mint_runs {K} `{Mintable K} s tmp x t root self n (c : UserCap K) src e dest c0 val :
  runs_in s x t root → radix_pos (heap s) → 0 < radix root → node_rep (heap s) root self n →
  cursor (cap_data self) < 2 ^ cn_radix (cap_data self) →
  insert_places s tmp x root c src e dest → (∀ s', entry_derive e s' = Ok c0 s') →
  leads (heap s) n (fst (slot_path self)) (snd (slot_path self)) dest →
  ∃ c' self' s' ed,
    run_direct tmp (cnode_cap_mint self c val) s = Ok (inl c', self') s' ∧
    names (heap s') root c' (slot_addr n (cursor (cap_data self))) ∧
    slot_at (heap s') dest = Some (Some ed) ∧ ed.(cap) = set_cap_dep_val c0 val ∧
    cap_data c' = mint_data (cap_data c) val ∧
    node_rep (heap s') root self' n ∧ cursor (cap_data self') = cursor (cap_data self) + 1 ∧
    keeps_others tmp (heap s) (heap s') ∧ keeps_free [tmp; dest] (heap s) (heap s').
Proof.
  intros Hrun Hp Hr Hnr Hcur Hip Hder Hres. pose proof Hnr as [_ _ Hrad Hok Hd _].
  pose proof Hok as [Hr0 Hc0]. unfold slot_path in Hres. cbn [fst snd] in Hres.
  destruct (direct_insert s tmp x t root self n c src e dest InvLabel.CNodeMint
              (fst (slot_path self)) (snd (slot_path self)) val c0)
    as (v & s' & ed & Hcall & Hk & Hf & Hed & Hc); [done..|unfold slot_path; simpl; lia|done|done|].
  pose proof (keeps_others_nodes _ _ _ (proj2 (ip_tmp _ _ _ _ _ _ _ _ Hip)) Hk) as Hkn.
  eexists _, _, s', ed. split_and!.
  - unfold cnode_cap_mint, pure_. rewrite (get_slot_Ok self tt Hok Hcur). cbn [ptry pbind].
    change (Build_UserSlot _ _ _ _) with (user_slot self).
    rewrite (get_cap_ptr_Ok _ _ _ _ tt Hnr Hcur). cbn [ptry pbind call slot_path run_direct].
    rewrite (bind_Ok _ _ _ (inl v) s'); [reflexivity|]. unfold try_.
    change (direct_call tmp _ s) with (direct_call tmp (insert_request self c InvLabel.CNodeMint
      (fst (slot_path self)) (snd (slot_path self)) val) s).
    by rewrite Hcall.
  - apply (resolves_keeps_nodes _ _ _ _ _ _ Hkn). exact (slot_path_resolves _ _ _ _ Hnr Hcur).
  - done.
  - done.
  - done.
  - by apply (node_rep_next (heap s)).
  - done.
  - done.
  - done.
Qed.

(** Minting through the library, in the caller's root node. The capability
    [mint] returns names the slot the kernel filled with the derived
    capability, whose word is the badge asked for. *)
Lemma library_mint {K} `{Mintable K} s tmp x t root self (c : UserCap K) src e c0 val :
  let dest := slot_addr root (cursor (cap_data self)) in
  runs_in s x t root → radix_pos (heap s) → node_rep (heap s) root self root →
  cursor (cap_data self) < 2 ^ cn_radix (cap_data self) →
  insert_places s tmp x root c src e dest → (∀ s', entry_derive e s' = Ok c0 s') →
  ∃ c' self' s' ed,
    run_direct tmp (cnode_cap_mint self c val) s = Ok (inl c', self') s' ∧
    names (heap s') root c' dest ∧ slot_at (heap s') dest = Some (Some ed) ∧
    ed.(cap) = set_cap_dep_val c0 val ∧
    node_rep (heap s') root self' root ∧ cursor (cap_data self') = cursor (cap_data self) + 1 ∧
    keeps_others tmp (heap s) (heap s').
Proof.
  intros dest Hrun Hp Hnr Hcur Hip Hder. pose proof Hnr as [_ _ Hrad [Hr0 _] Hd _].
  destruct (mint_runs s tmp x t root self root c src e dest c0 val)
    as (c' & self' & s' & ed & Hm & Hn & Hed & Hc & _ & Hnr' & Hcu & Hk & _); [done|done|lia|done..| |].
  - apply (resolves_leads _ _ _ _ _ None); [done|lia|unfold slot_path; simpl; lia| |apply Hip].
    by apply slot_path_resolves.
  - exists c', self', s', ed. done.
Qed.

(** C32: minting into another node goes astray. [mint] gives the kernel the
    path of the slot from the root, which the kernel follows from the node: when
    the slot of the node that the path's first bits select is empty, the
    capability is put there, and the one [mint] returns names a slot that is
    still empty. *)
Theorem library_mint_astray {K} `{Mintable K} s tmp x t root self n (c : UserCap K) src e c0 val :
  let dest := slot_addr n (cursor (cap_data self)) in
  let got := slot_addr n (slot_index (fst (slot_path self)) (radix n) (cap_depth self)) in
  runs_in s x t root → radix_pos (heap s) → 0 < radix root → node_rep (heap s) root self n →
  cursor (cap_data self) < 2 ^ cn_radix (cap_data self) →
  insert_places s tmp x root c src e got → (∀ s', entry_derive e s' = Ok c0 s') →
  slot_at (heap s) dest = Some None → dest ≠ got → dest ≠ tmp →
  ∃ c' self' s' ed,
    run_direct tmp (cnode_cap_mint self c val) s = Ok (inl c', self') s' ∧
    names (heap s') root c' dest ∧ slot_at (heap s') dest = Some None ∧
    slot_at (heap s') got = Some (Some ed) ∧ ed.(cap) = set_cap_dep_val c0 val.
Proof.
  intros dest got Hrun Hp Hr Hnr Hcur Hip Hder Hfree Hne Htmp. pose proof Hnr as [_ _ Hrad [Hr0 _] Hd _].
  destruct (mint_runs s tmp x t root self n c src e got c0 val)
    as (c' & self' & s' & ed & Hm & Hn & Hed & Hc & _ & _ & _ & _ & Hf); [done..| |].
  - assert (snd (slot_path self) - radix n = cap_depth self) as Hdd by (unfold slot_path; simpl; lia).
    pose proof (stops_leads (heap s) n (fst (slot_path self)) (snd (slot_path self))) as Hst.
    rewrite Hdd in Hst. apply Hst; [lia|lia|apply Hip].
  - exists c', self', s', ed. split_and!; try done. apply Hf; [set_solver|done].
Qed.
End Calls.
