(* ===== verification/LibMap.v ===== *)
(** * Mapping through the library, and using what was mapped

    [page_cap_map_user] ([libzoea/src/caps.rs]) asks the kernel for a mapping;
    here the call, the page tables it changes and the accesses through them are
    put together. *)

From S2P Require Import Prelude Shared Address Objects Riscv LinkedList Capability PageTable CNode.
From S2P Require Import Thread RoundRobin Ipc Untyped Syscall SyscallProps BootSpace VSpace UserLib UserProg CapLib CapLibProps.

Section Layout.
Context `{KernelLayout}.

(** ** Memory that no address space uses *)

Definition unused (tb : gmap Z (Z * Z * Z)) (a : VState) (x : Z) : Prop :=
  tb !! x = None ∧ x ∉ va_pool a ∧ x ≠ KERNEL_VM_ROOT.

Lemma not_table_unused h tb a x : vrep h tb a → table_at h x = None → unused tb a x.
Proof.
  intros Hrep Hx. split_and!.
  - destruct (tb !! x) as [[[root l] p]|] eqn:Ht; [|done].
    destruct (used_table _ _ _ _ _ _ _ Hrep Ht) as (_ & _ & u & Hu). congruence.
  - intros Hp. destruct (vr_pool _ _ _ Hrep _ Hp) as [(u & Hu & _) _]. congruence.
  - intros ->. destruct (vr_template _ _ _ Hrep) as [(u & Hu & _) _]. congruence.
Qed.
Lemma vrep_insert h tb a x o : vrep h tb a → unused tb a x → vrep (<[x := o]> h) tb a.
Proof.
  intros Hrep (Hx & Hp & Hk). set (h' := <[x := o]> h). assert (h' = <[x := o]> h) as Hh' by done.
  destruct (vr_template _ _ _ Hrep) as (_ & Htb & Hpool).
  split; try apply Hrep.
  - intros root Hr. apply (tree_frame x h); [apply insert_frame|by apply tables_of_None|by apply Hrep].
  - intros root v Hr Hu. apply (frame_root _ _ _ _ Hrep _ _ Hh'); [done|by apply tables_of_None|done].
  - intros y Hy. apply (frame_pool _ _ _ _ Hrep _ _ Hh' _ Hy). congruence.
  - split_and!; [|done|done]. by apply (frame_template _ _ _ _ Hrep _ _ Hh').
Qed.
Lemma vrep_object h tb a x o o' : vrep h tb a → h !! x = Some o → (∀ t, o ≠ OPageTable t) → vrep (<[x := o']> h) tb a.
Proof.
  intros Hrep Hx Ho. apply vrep_insert; [done|]. apply (not_table_unused h); [done|].
  unfold table_at. rewrite Hx. destruct o; try done. by edestruct Ho.
Qed.

(** ** What the processor sees *)

(** The register [satp] of the space of [root]. *)
Definition satp_of (root : CapabilityData) : Z := Z.lor SATP_SV48 (Z.shiftr (phys_of_kva (cap_kva root)) 12).
Lemma satp_root root :
  frame_ok root → kva_of_phys (Z.shiftl (Z.land (satp_of root) (Z.ones 44)) 12) = cap_kva root.
Proof.
  intros [Hk Ha]. destruct (kva_phys_roundtrip _ Hk) as [Hr Hp]. unfold is_phys in Hp.
  set (p := phys_of_kva (cap_kva root)) in *.
  assert (p mod 4096 = 0) as Hm.
  { unfold p. unfold is_kva, KERNEL_V_ADDR_PFX in Hk. rewrite phys_of_kva_mod by lia.
    rewrite <- Znumtheory.Zmod_div_mod; [done|lia|lia|]. by exists (2 ^ 35). }
  replace (Z.shiftl (Z.land (satp_of root) (Z.ones 44)) 12) with p; [done|].
  unfold satp_of. fold p. rewrite Z.land_lor_distr_l. change (Z.land SATP_SV48 (Z.ones 44)) with 0.
  rewrite Z.lor_0_l, Z.land_ones, Z.shiftr_div_pow2, Z.shiftl_mul_pow2 by lia.
  rewrite Z.mod_small by (change (2 ^ 12) with 4096; Z.div_mod_to_equations; lia).
  change (2 ^ 12) with 4096. Z.div_mod_to_equations; lia.
Qed.

(** A mapped page can be accessed when its rights cover what is needed. *)
Lemma user_frame_mapped s tb a root v c flags need :
  vrep (heap s) tb a → is_vroot a root → frame_ok root → satp s = satp_of root → is_user v →
  va_pages a !! (cap_kva root, v / 4096) = Some (page_entry c flags) → frame_ok c → 0 ≤ flags < 2 ^ 10 →
  Z.land flags (Z.lor need PAGE_U) = Z.lor need PAGE_U →
  user_frame s v need = Some (cap_kva c).
Proof.
  intros Hrep Hroot Hfr Hsatp Hu Hpg [Hk Ha] Hf Hneed. unfold user_frame. rewrite Hsatp, satp_root by done.
  rewrite (vr_pages _ _ _ Hrep _ _ (vroot_in _ _ _ Hrep _ Hroot) Hu), Hpg. cbn [mbind option_bind].
  set (n := Z.lor need PAGE_U) in *.
  assert (Z.land (page_entry c flags) n = n) as ->.
  { unfold page_entry, pte_write. rewrite !Z.land_lor_distr_l, Hneed, Z.lor_assoc, Z.lor_comm, Z.lor_assoc.
    apply Z.bits_inj'. intros i Hi. rewrite !Z.lor_spec, !Z.land_spec. destruct (Z.testbit n i); rewrite ?andb_false_r; try done.
    by rewrite orb_true_r. }
  rewrite Z.eqb_refl. f_equal. apply pte_as_page_table_write; [done|done|by apply lor_flags_bound].
Qed.

(** ** The call *)

(** The flags of an entry for the rights [fl]. *)
Definition user_flags (fl : PageFlags) : Z := Z.lor PAGE_U (get_user_flags (page_flags_usize fl)).
Lemma user_flags_bound fl : 0 ≤ user_flags fl < 2 ^ 10.
Proof. by destruct fl as [[] [] []]. Qed.

(** The page [c] may be mapped at [v] in the space of [root]. *)
Record mappable (h : gmap Z kobject) (tb : gmap Z (Z * Z * Z)) (a : VState) (c root : CapabilityData) (v : Z)
    : Prop := {
  mp_vrep : vrep h tb a;
  mp_root : is_vroot a root;
  mp_user : is_user v;
  mp_aligned : v mod 4096 = 0;
  mp_frame : frame_ok c;
  mp_unmapped : is_mapped c = false;
  mp_tables : missing a (cap_kva root) v = 0;
  mp_free : va_pages a !! (cap_kva root, v / 4096) = None;
}.
(** The space with the page mapped. *)
Definition with_page (c root : CapabilityData) (v : Z) (fl : PageFlags) (a : VState) : VState :=
  a <| va_pages ::= <[(cap_kva root, v / 4096) := page_entry c (user_flags fl)]> |>.

Lemma page_cap_map_mappable s tb a c root v fl :
  mappable (heap s) tb a c root v →
  ∃ h', page_cap_map c root v (user_flags fl) s = Ok (set_mapped c v) (s <| heap := h' |>) ∧
    vrep h' tb (with_page c root v fl a) ∧ only_tables (heap s) h'.
Proof.
  intros [Hrep Hroot Hu _ Hfr Hun Hm Hfree].
  destruct (req_refines s tb a Hrep (VMapPage c root v (user_flags fl))) as (h' & He & Hrep' & Hot & _).
  { split_and!; try done; apply user_flags_bound. }
  cbn [spec_req exec_req tables_after] in *. rewrite Hun, Hm, Hfree in *. cbn [negb Z.eqb fst snd answers] in *.
  exists h'. split_and!; [|done|done].
  destruct (page_cap_map c root v (user_flags fl) s) as [c' s'| | | |] eqn:Hr; unfold bind in He; rewrite Hr in He;
    unfold ret in He; try done. by injection He as -> ->.
Qed.

Lemma invoke_page_map s tb a root slot (u : UserCap PageData) c slot_r (ur : UserCap PageTableData) cr v fl r :
  radix_pos (heap s) → 0 < radix root →
  holds (heap s) root u CapabilityType.Page slot c → holds (heap s) root ur CapabilityType.PageTable slot_r cr →
  mappable (heap s) tb a c cr v →
  a3 r = cap_ptr ur → a4 r = cap_depth ur → a5 r = v → a6 r = page_flags_usize fl →
  ∃ h' e, invoke_page root slot InvLabel.PageMap r s =
      Ok None (s <| heap := <[slot := OSlot (Some (e <| cap := set_mapped c v |>))]> h' |>) ∧
    vrep h' tb (with_page c cr v fl a) ∧ only_tables (heap s) h' ∧ h' !! slot = Some (OSlot (Some e)).
Proof.
  intros Hp Hr Hho Hhor Hmp H3 H4 H5 H6. unfold invoke_page. rewrite H3, H4, H5, H6.
  rewrite (bind_Ok _ _ _ _ _ (slot_cap_Ok _ _ _ _ _ _ Hho)).
  rewrite (bind_Ok _ _ _ tt s) by (unfold is_aligned, PAGE_SIZE; by rewrite (mp_aligned _ _ _ _ _ _ Hmp)).
  rewrite (bind_Ok _ _ _ _ _ (holds_lookup _ _ _ _ _ _ Hp Hr Hhor)).
  destruct (page_cap_map_mappable s tb a c cr v fl Hmp) as (h' & Hm & Hrep & Hot).
  unfold user_flags in Hm. rewrite (bind_Ok _ _ _ _ _ Hm). destruct Hho as [_ _ (e & He & Hc) _].
  assert (h' !! slot = Some (OSlot (Some e))) as He'.
  { apply Hot; [|done]. unfold slot_at in He. destruct (heap s !! slot) as [[]|]; try done. by injection He as ->. }
  exists h', e. split_and!; try done. unfold update_cap.
  rewrite (bind_Ok _ _ _ _ _ (modify_entry_Ok (s <| heap := h' |>) slot e _ ltac:(unfold entry_at, slot_at; by rewrite heap_set, He'))).
  by rewrite heap_set, heap_set_set.
Qed.

(** ** Mapping and using a page *)

Lemma slot_at_occupied h a e : slot_at h a = Some (Some e) → h !! a = Some (OSlot (Some e)).
Proof. unfold slot_at. destruct (h !! a) as [[]|]; naive_solver. Qed.
Lemma mappable_tcb h tb a c root v x t t' :
  mappable h tb a c root v → h !! x = Some (OTcb t) → mappable (<[x := OTcb t']> h) tb a c root v.
Proof. intros [] Hx. split; [|done..]. by eapply vrep_object. Qed.

(** After the call: the page is mapped, and everything that is neither a page
    table, nor the thread, nor the capability itself is as before. *)
Lemma page_map_call s tmp x t root (u : UserCap PageData) c slot (ur : UserCap PageTableData) cr slot_r tb a v fl :
  runs_in s x t root → radix_pos (heap s) → 0 < radix root →
  holds (heap s) root u CapabilityType.Page slot c → holds (heap s) root ur CapabilityType.PageTable slot_r cr →
  mappable (heap s) tb a c cr v →
  ∃ n s', run_direct tmp (call (user_map_page (cap_ptr u) (cap_depth u) (cap_ptr ur) (cap_depth ur) v (page_flags_usize fl))) s
            = Ok n s' ∧
    vrep (heap s') tb (with_page c cr v fl a) ∧ satp s' = satp s ∧
    keeps_nodes (heap s) (heap s') ∧ ∃ e, slot_at (heap s') slot = Some (Some e) ∧ e.(cap) = set_mapped c v.
Proof.
  intros Hrun Hp Hr Hho Hhor Hmp. set (req := user_map_page _ _ _ _ _ _). pose proof Hrun as [_ Ht _ _].
  set (s1 := requesting s x t req).
  assert (∀ b, slot_at (heap s1) b = slot_at (heap s) b) as Hsl by (intros b; by apply requesting_slots).
  destruct (invoke_page_map s1 tb a root slot u c slot_r ur cr v fl (req (registers (value t))))
    as (h' & e & Hi & Hrep & Hot & He); try done.
  { intros b eb. rewrite Hsl. apply Hp. }
  1-2: by eapply holds_slots.
  { by eapply mappable_tcb. }
  set (s2 := s1 <| heap := _ |>) in Hi.
  assert (heap s1 !! x = Some (OTcb (t <| value ::= λ v, v <| registers ::= req |> |>))) as Hx1 by apply lookup_insert_eq.
  assert (x ≠ slot) as Hxs by (intros ->; by rewrite (Hot _ _ Hx1) in He).
  assert (heap s2 !! x = heap s1 !! x) as Hx2.
  { unfold s2. rewrite heap_set, lookup_insert_ne by done. rewrite Hx1. by apply Hot. }
  assert (syscall_body tmp (a7 (req (registers (value t)))) (req (registers (value t))) s1 = Ok None s2) as Hb.
  { refine (eq_trans (ecall_dispatch _ _ InvLabel.PageMap _ _ _ _ SysCallNo.Call _ tmp s1 ltac:(done)) _).
    refine (eq_trans _ Hi). exact (handle_held tmp s x t root u _ slot c _ _ _ Hrun Hp Hr Hho). }
  destruct (direct_call_Ok tmp req s x t root None s2 Hrun eq_refl Hb Hx2) as (t3 & Hcall).
  eexists _, _. split; [by apply run_direct_call|]. rewrite heap_set.
  split_and!; [|done|..].
  - eapply vrep_object; [|by rewrite Hx2|done]. unfold s2. rewrite heap_set. by eapply vrep_object.
  - destruct Hho as [_ _ (e0 & He0 & Hc0) Hct]. intros b eb Hb' Hcn. exists eb. split; [|done].
    assert (b ≠ slot) by (intros ->; unfold is_cnode in Hcn; rewrite Hb' in He0; injection He0 as ->; congruence).
    rewrite <- Hsl in Hb'. apply slot_at_occupied in Hb'. assert (b ≠ x) by congruence.
    unfold slot_at. rewrite lookup_insert_ne by done. unfold s2. rewrite heap_set, lookup_insert_ne by done.
    by rewrite (Hot _ _ Hb') by done.
  - eexists. unfold slot_at. rewrite lookup_insert_ne by done. unfold s2. by rewrite heap_set, lookup_insert_eq.
Qed.

(** C19: a page that is mapped through the library can be used. A thread maps a
    page it holds at an address of its own address space, readable and
    writable, writes a buffer at that address and reads it back: the calls
    succeed, it reads what it wrote, the bytes are in the frame of the page
    capability, the kernel's capability records the mapping, and the address
    space has this page more and is otherwise as before. The page is not mapped
    yet and its frame aligned and no table in use; the address is page-aligned,
    of the user half and free, with all its tables in place; the root table is
    that of the running thread; the spaces are in the form of [vspace_refines]. *)
Theorem library_map_access s tmp x t root (u : UserCap PageData) c slot (ur : UserCap PageTableData) cr slot_r
    tb a v fl b :
  runs_in s x t root → radix_pos (heap s) → 0 < radix root →
  holds (heap s) root u CapabilityType.Page slot c → holds (heap s) root ur CapabilityType.PageTable slot_r cr →
  mappable (heap s) tb a c cr v → frame_ok cr → satp s = satp_of cr →
  is_Some (page_at (heap s) (cap_kva c)) → unused tb a (cap_kva c) →
  pg_readable fl = true → pg_writable fl = true →
  ∃ u' s',
    run_direct tmp (let! u' := page_cap_map_user u ur v fl in
                    PWriteBuffer v b (PReadBuffer v (λ b', PRet (u', b')))) s = Ok (u', b) s' ∧
    holds (heap s') root u' CapabilityType.Page slot (set_mapped c v) ∧
    cap_data u' = {| pg_is_mapped := true; pg_mapped_address := v; pg_rights := fl |} ∧
    page_at (heap s') (cap_kva c) = Some b ∧ vrep (heap s') tb (with_page c cr v fl a).
Proof.
  intros Hrun Hp Hr Hho Hhor Hmp Hfr Hsatp Hpage Hun Hrd Hwr.
  destruct (page_map_call s tmp x t root u c slot ur cr slot_r tb a v fl) as (n & s1 & Hcall & Hrep & Hsatp1 & Hkeep & e1 & He1 & Hc1);
    [done..|].
  pose proof Hmp as [_ Hroot Hu Hal Hfc _ _ _].
  set (s2 := s1 <| heap := <[cap_kva c := OPage b]> (heap s1) |>).
  assert (vrep (heap s2) tb (with_page c cr v fl a)) as Hrep2 by (apply vrep_insert; done).
  assert (∀ s' need, vrep (heap s') tb (with_page c cr v fl a) → satp s' = satp s1 →
    Z.land (user_flags fl) (Z.lor need PAGE_U) = Z.lor need PAGE_U → user_frame s' v need = Some (cap_kva c)) as Hframe.
  { intros s' need Hrep' Hs' Hneed. eapply (user_frame_mapped s' tb _ cr v c (user_flags fl));
      [exact Hrep'|done|done|congruence|done|apply lookup_insert_eq|done|apply user_flags_bound|done]. }
  assert (∀ need, need = PAGE_R ∨ need = PAGE_W → Z.land (user_flags fl) (Z.lor need PAGE_U) = Z.lor need PAGE_U) as Hrights.
  { clear -Hrd Hwr. destruct fl as [w r e]. simpl in Hrd, Hwr. subst. intros need [-> | ->]; by destruct e. }
  assert (∀ y e, slot_at (heap s) y = Some (Some e) → y ≠ cap_kva c) as Hne.
  { intros y e Hy%slot_at_occupied ->. destruct Hpage as [? Hpg]. unfold page_at in Hpg. by rewrite Hy in Hpg. }
  assert (page_at (heap s2) (cap_kva c) = Some b) as Hb by (unfold page_at, s2; by rewrite heap_set, lookup_insert_eq).
  set (u' := u <| cap_data := {| pg_is_mapped := true; pg_mapped_address := v; pg_rights := fl |} |>).
  assert (run_direct tmp (page_cap_map_user u ur v fl) s = Ok u' s1) as Hmap.
  { unfold page_cap_map_user. by rewrite run_direct_bind, (bind_Ok _ _ _ _ _ Hcall). }
  exists u', s2. split; [|split; [|split; [reflexivity|split; [|exact Hrep2]]]].
  - rewrite run_direct_bind, (bind_Ok _ _ _ _ _ Hmap). cbn [run_direct]. unfold write_buffer. rewrite (bind_Ok _ _ _ tt s2).
    + unfold read_buffer. rewrite (bind_Ok _ _ _ b s2); [done|].
      rewrite (buffer_access s2 v PAGE_R _ (cap_kva c) Hal); [|apply Hframe; [done|done|apply Hrights; auto]].
      unfold unwrap_res. by rewrite (read_page_Ok s2 (cap_kva c) b Hb).
    + by rewrite (buffer_access s1 v PAGE_W _ (cap_kva c) Hal); [|apply Hframe; [done|done|apply Hrights; auto]].
  - destruct Hho as [Hn Hd (e0 & He0 & _) Hct]. split; [|done| |done].
    + apply (resolves_keeps_nodes (heap s)); [|done]. intros y e Hy Hcn. destruct (Hkeep y e Hy Hcn) as (e' & He' & ?).
      exists e'. split; [|done]. unfold slot_at, s2. rewrite heap_set, lookup_insert_ne by (symmetry; by eapply Hne). exact He'.
    + exists e1. split; [|done]. unfold slot_at, s2. rewrite heap_set, lookup_insert_ne by (symmetry; by eapply Hne). exact He1.
  - exact Hb.
Qed.
End Layout.
