(* ===== verification/LibRetype.v ===== *)
(** * Creating objects through the library

    [retype_single] of [libzoea/src/caps.rs] down to the object the kernel
    initialises: the capability the library returns names the slot of the new
    capability. The last slot of a node is given out but can not be used. *)

From S2P Require Import Prelude Shared Address Objects Riscv LinkedList Capability PageTable CNode.
From S2P Require Import Thread RoundRobin Ipc Untyped Syscall SyscallProps UserLib UserProg CapLib CapLibProps.

Section Layout.
Context `{KernelLayout}.

Lemma invoke_retype_class tmp src dest us num ct C :
  retype_class ct = Some C → invoke_retype tmp src dest us num ct = retype_and_insert tmp src dest C us num.
Proof. destruct ct; naive_solver. Qed.

(** One free slot of a node; the bound excludes the last slot. *)
Lemma get_writable_one n i s :
  0 ≤ radix n < 63 → 0 ≤ i < 2 ^ radix n → slot_at (heap s) (slot_addr n i) = Some None →
  get_writable n 1 i s =
    if 1 + i <? 2 ^ radix n then Ok (slot_addr n i) s else Err (kerr ErrKind.InvalidOperation) s.
Proof.
  intros Hr Hi Hs. assert (2 ^ radix n ≤ 2 ^ 62) by (apply Z.pow_le_mono_r; lia).
  unfold get_writable. rewrite (bind_Ok _ _ _ _ _ (usize_pow2_Ok (radix n) s ltac:(lia))).
  rewrite (bind_Ok _ _ _ _ _ (usize_add_Ok 1 i s ltac:(unfold W; lia))).
  destruct (1 + i <? 2 ^ radix n); [|done]. cbn [guard]. rewrite (bind_Ok _ _ _ tt s) by done.
  rewrite (bind_Ok _ _ _ true s); [done|]. change (Z.to_nat 1) with 1%nat. cbn [all_none].
  by rewrite (bind_Ok _ _ _ _ _ (read_slot_Ok _ _ _ Hs)).
Qed.

(** The node the library knows as [self] is held by the thread. *)
Lemma node_holds h root self n : node_rep h root self n → ∃ a, holds h root self CapabilityType.CNode a n.
Proof.
  intros [(a & e & Hn & He & Hc) Hnode _ [Hr0 _] Hd _]. exists a. split; [done|lia|by eexists|exact Hnode].
Qed.

Section Retype.
Context {T : Type} `{KernelObject T}.
Context (s : KState) (tmp x : Z) (t : ThreadControlBlock) (root : CapabilityData).
Context (u : UserCap UntypedData) (src : Z) (e : CNodeEntry) (self : UserCap CNodeData) (n : CapabilityData) (us : Z).
Context (Hrun : runs_in s x t root) (Hp : radix_pos (heap s)) (Hr : 0 < radix root).
Context (Hu : holds (heap s) root u CapabilityType.Untyped src e.(cap)) (He : entry_at (heap s) src = Some e).
Context (Hnr : node_rep (heap s) root self n) (Hcur : cursor (cap_data self) < 2 ^ cn_radix (cap_data self)).
Context (Hus : is_u32 us).

Notation dest := (slot_addr n (cursor (cap_data self))).
Context (Hfree : slot_at (heap s) dest = Some None).

Definition retype_request : Registers → Registers :=
  untyped_retype (cap_ptr u) (cap_depth u) (cap_ptr self) (cap_depth self) (cursor (cap_data self)) us 1 (OBJ_TYPE T).

(** The kernel's handler of the request, from the lookup of the untyped
    capability to the destination slot. *)
Lemma retype_handled :
  let s1 := requesting s x t retype_request in
  let r := retype_request (registers (value t)) in
  syscall_body tmp (a7 r) r s1 =
    (if 1 + cursor (cap_data self) <? 2 ^ radix n
     then invoke_retype tmp src dest us 1 (OBJ_TYPE T) ;;; ret None
     else throw (kerr ErrKind.InvalidOperation)) s1.
Proof.
  intros s1 r. pose proof Hrun as [_ Ht _ _]. pose proof Hnr as [_ _ Hrad [Hr0 Hc0] Hd _].
  assert (∀ b, slot_at (heap s1) b = slot_at (heap s) b) as Hsl by (intros b; by apply requesting_slots).
  assert (2 ^ cn_radix (cap_data self) ≤ 2 ^ 32) by (apply Z.pow_le_mono_r; lia).
  destruct (node_holds _ _ _ _ Hnr) as (a & Hself).
  destruct (retype_request_roundtrip tmp root src s1 (registers (value t)) (cap_ptr u) (cap_depth u) (cap_ptr self)
    (cap_depth self) (cursor (cap_data self)) us 1 (OBJ_TYPE T)) as [Hb Hi];
    [unfold is_u32; lia|unfold is_u32; lia|done|done|].
  refine (eq_trans Hb (eq_trans (handle_held tmp s x t root u _ src _ retype_request _ _ Hrun Hp Hr Hu) (eq_trans Hi _))).
  rewrite (bind_Ok _ _ _ (a, n) s1).
  2: { apply holds_lookup; [intros b eb; rewrite Hsl; apply Hp|done|]. by apply (holds_slots (heap s)). }
  pose proof (get_writable_one n (cursor (cap_data self)) s1) as Hw. rewrite Hsl, Hrad in Hw. rewrite Hrad.
  specialize (Hw ltac:(lia) ltac:(lia) Hfree). destruct (_ <? _); [|by apply bind_Err].
  rewrite (bind_Ok _ _ _ _ _ Hw).
  rewrite (bind_Ok _ _ _ (cap e) s1); [done|]. eapply slot_cap_Ok, (holds_slots (heap s)); [exact Hsl|exact Hu].
Qed.

(** The library's side of a call that succeeded. *)
Lemma retype_single_Ok v s' :
  direct_call tmp retype_request s = Ok v s' →
  run_direct tmp (retype_single_ut T u (user_slot self) us) s =
    Ok {| cap_ptr := fst (slot_path self); cap_depth := snd (slot_path self);
          cap_data := from_retype us (ut_is_device (cap_data u)) |} s'.
Proof.
  intros Hcall. unfold retype_single_ut. rewrite as_u32_id by done.
  rewrite run_direct_bind, (bind_Ok _ _ _ _ _ (run_direct_call tmp _ s v s' Hcall)).
  unfold pure_. by rewrite (get_cap_ptr_Ok _ _ _ _ tt Hnr Hcur).
Qed.

Lemma requesting_places obj req :
  create_places s tmp src dest obj e → create_places (requesting s x t req) tmp src dest obj e.
Proof.
  intros [Hk Hnd Hnl Hno]. pose proof Hrun as [_ Ht _ _].
  split; [done|done| |unfold entry_at; by rewrite requesting_slots].
  intros pn Hpn. destruct (Hnl pn Hpn) as (P1 & P2 & P3). split_and!; try done.
  unfold entry_at. by rewrite requesting_slots.
Qed.
End Retype.

(** C10: creating an object through the library, of any of the six types the
    kernel creates. For an untyped capability to ordinary memory with enough
    room left and a free slot of a node the library knows (not its last one),
    [retype_single] succeeds. At the first aligned free address of the block a
    thread (with the next number), an endpoint, a notification or a page table
    is initialised; the memory of a page or a node stays as it is. The
    capability returned names the slot that now holds the capability to the
    object, of its type and, for a node, with the radix asked for; the block no
    longer covers the object; other capabilities and memory are unchanged.
    Conditions: no capability is stored at the object's address; the untyped
    capability's successor in the derivation list is none, a live entry or the
    kernel's local entry (as after an earlier retype of the block), in which no
    node capability was left; thread numbers do not run out. *)
Theorem library_retype {T : Type} `{KernelObject T} s tmp x t root u src e self n us C size align base f b :
  let dest := slot_addr n (cursor (cap_data self)) in
  let obj := KERNEL_V_ADDR_PFX + round_up f align in
  let ct := OBJ_TYPE T in
  runs_in s x t root → radix_pos (heap s) → 0 < radix root →
  holds (heap s) root u CapabilityType.Untyped src e.(cap) → entry_at (heap s) src = Some e →
  node_rep (heap s) root self n → cursor (cap_data self) + 1 < 2 ^ cn_radix (cap_data self) → is_u32 us →
  slot_at (heap s) dest = Some None → retype_class ct = Some C →
  (ct = CapabilityType.Tcb → 0 ≤ tcbidx s < W - 1) →
  untyped_at e.(cap) base f b → object_layout C us size align → size ≤ base + 2 ^ b - f →
  create_places s tmp src dest obj e → x ∉ [tmp; dest; obj] → no_node (heap s) tmp →
  ∃ (c' : UserCap T) s' ed es,
    run_direct tmp (retype_single_ut T u (user_slot self) us) s = Ok c' s' ∧
    names (heap s') root c' dest ∧ cap_data c' = from_retype us (ut_is_device (cap_data u)) ∧
    slot_at (heap s') dest = Some (Some ed) ∧ cap_kva ed.(cap) = obj ∧ cap_dep_val ed.(cap) = object_word ct us ∧
    cap_type ed.(cap) = CapabilityType.cap_type_as_u8 ct ∧
    heap s' !! obj = with_object ct obj (tcbidx s) (heap s) !! obj ∧ tcbidx s' = next_idx ct (tcbidx s) ∧
    slot_at (heap s') src = Some (Some es) ∧ untyped_at es.(cap) base (round_up f align + size) b ∧
    (∀ a ea, a ≠ src → a ≠ tmp → slot_at (heap s) a = Some (Some ea) →
       ∃ ea', slot_at (heap s') a = Some (Some ea') ∧ ea'.(cap) = ea.(cap)) ∧
    (∀ a, a ∉ [tmp; dest; obj; x] → entry_at (heap s) a = None → heap s' !! a = heap s !! a).
Proof.
  intros dest obj ct Hrun Hp Hr Hu He Hnr Hcur Hus Hfree HC Hidx Hun Hol Hle Hcp Hx Htmp.
  pose proof Hrun as [_ Ht _ _]. pose proof Hnr as [_ _ Hrad [_ Hc0] _ _].
  set (req := retype_request u self us (T := T)). set (s1 := requesting s x t req).
  assert (∀ a, entry_at (heap s1) a = entry_at (heap s) a) as Hent
    by (intros a; unfold entry_at; by rewrite (requesting_slots s x t req)).
  assert (obj ≠ x ∧ dest ≠ x ∧ tmp ≠ x) as (Hox & Hdx & Htx) by set_solver.
  destruct (retype_creates_object tmp src dest ct C us size align base f b s1 e)
    as (h' & ed & es & Hrt & Ho & Hed & Hk & Hdep & Hty & Hes & Hues & Hcaps & Hfr); try done.
  { by rewrite Hent. }
  { by eapply requesting_places. }
  set (s2 := s1 <| tcbidx := _ |> <| heap := h' |>) in Hrt.
  assert (h' !! x = heap s1 !! x) as Hx'.
  { apply Hfr; [done..|]. rewrite Hent. unfold entry_at, slot_at. by rewrite Ht. }
  assert (syscall_body tmp (a7 (req (registers (value t)))) (req (registers (value t))) s1 = Ok None s2) as Hbody.
  { refine (eq_trans (retype_handled (T := T) s tmp x t root u src e self n us Hrun Hp Hr Hu Hnr ltac:(lia) Hus Hfree) _).
    rewrite (proj2 (Z.ltb_lt _ _)) by (rewrite Hrad; lia). rewrite (invoke_retype_class _ _ _ _ _ _ _ HC).
    by rewrite (bind_Ok _ _ _ _ _ Hrt). }
  destruct (direct_call_Ok tmp req s x t root None s2 Hrun eq_refl Hbody Hx') as (t3 & Hcall).
  set (s' := _ <| heap := _ |>) in Hcall. assert (heap s' = <[x := OTcb t3]> h') as Hh' by done.
  assert (∀ a, slot_at (heap s') a = slot_at h' a) as Hsl'.
  { intros a. rewrite Hh'. eapply slot_at_tcb. rewrite Hx'. apply lookup_insert_eq. }
  assert (∀ a ea, a ≠ src → a ≠ tmp → slot_at (heap s) a = Some (Some ea) →
       ∃ ea', slot_at (heap s') a = Some (Some ea') ∧ ea'.(cap) = ea.(cap)) as Hkeep.
  { intros a ea Ha Hat Hea. assert (entry_at (heap s) a = Some ea) as Hea' by (unfold entry_at; by rewrite Hea).
    destruct (Hcaps a ea) as (ea' & ? & ?); [done|done|intros E; by rewrite E, Hfree in Hea|by rewrite Hent|].
    exists ea'. rewrite Hsl'. split; [by apply entry_at_slot|done]. }
  eexists _, s', ed, es. split; [eapply retype_single_Ok; [exact Hnr|lia|exact Hus|exact Hcall]|].
  rewrite !Hsl', Hh'. split_and!; try done.
  - rewrite <- Hh'. apply (resolves_keeps_nodes (heap s)); [|by apply slot_path_resolves; [|lia]].
    intros a ea Hea Hcn. apply Hkeep; [| |done].
    + intros ->. apply entry_at_slot in He. rewrite Hea in He.
      injection He as ->. pose proof (ho_type _ _ _ _ _ _ Hu). unfold is_cnode in Hcn. congruence.
    + intros ->. apply (Htmp ea); [unfold entry_at; by rewrite Hea|done].
  - by apply entry_at_slot.
  - rewrite lookup_insert_ne by done. refine (eq_trans Ho _). fold obj. rewrite !with_object_at. unfold s1, requesting. by rewrite heap_set, lookup_insert_ne.
  - by apply entry_at_slot.
  - intros a Ha Hea. rewrite !not_elem_of_cons in Ha. destruct Ha as (A1 & A2 & A3 & A4 & _).
    rewrite lookup_insert_ne, Hfr by (done || by rewrite Hent).
    unfold s1, requesting. by rewrite heap_set, lookup_insert_ne.
Qed.

(** C31: the last slot of a node can not receive an object. The library gives
    it out like any other, but the kernel's bound check excludes it: the
    request fails with [InvalidOperation], whatever it asks for, and nothing but
    the caller's registers changes. *)
Theorem library_retype_last_slot {T : Type} `{KernelObject T} s tmp x t root u src e self n us :
  runs_in s x t root → radix_pos (heap s) → 0 < radix root →
  holds (heap s) root u CapabilityType.Untyped src e.(cap) → node_rep (heap s) root self n →
  cursor (cap_data self) + 1 = 2 ^ cn_radix (cap_data self) → is_u32 us →
  slot_at (heap s) (slot_addr n (cursor (cap_data self))) = Some None →
  (∃ self', get_slot self tt = Ok (user_slot self, self') tt) ∧
  ∃ s', run_direct tmp (retype_single_ut T u (user_slot self) us) s = Err (ErrKind.InvalidOperation, 0) s' ∧
    ∀ a, a ≠ x → heap s' !! a = heap s !! a.
Proof.
  intros Hrun Hp Hr Hu Hnr Hcur Hus Hfree. pose proof Hnr as [_ _ Hrad Hok _ _]. split.
  { eexists. apply (get_slot_Ok self tt Hok). lia. }
  set (req := retype_request u self us (T := T)). set (s1 := requesting s x t req).
  assert (syscall_body tmp (a7 (req (registers (value t)))) (req (registers (value t))) s1
            = Err (kerr ErrKind.InvalidOperation) s1) as Hbody.
  { refine (eq_trans (retype_handled (T := T) s tmp x t root u src e self n us Hrun Hp Hr Hu Hnr ltac:(lia) Hus Hfree) _).
    by rewrite (proj2 (Z.ltb_ge _ _)) by (rewrite Hrad; lia). }
  destruct (direct_call_Err tmp req s x t root _ (ErrKind.InvalidOperation, 0) s1 Hrun eq_refl Hbody eq_refl)
    as (t3 & Hcall); [done|].
  eexists. split.
  - unfold retype_single_ut. rewrite as_u32_id by done. rewrite run_direct_bind. apply bind_Err.
    unfold call. cbn [run_direct]. change (untyped_retype _ _ _ _ _ _ _ _) with req.
    rewrite (bind_Ok _ _ _ (inr (ErrKind.InvalidOperation, 0)) _) by (unfold try_; by rewrite Hcall). reflexivity.
  - intros a Ha. rewrite heap_set. unfold s1, requesting. rewrite heap_set, !lookup_insert_ne by done. done.
Qed.
End Layout.
