(* ===== verification/LibThread.v ===== *)
(** * Starting a thread through the library

    [TCBCap::write_regs] and [TCBCap::make_runnable] of [libzoea/src/caps.rs],
    which a parent calls one after the other: from the registers the caller
    writes into its message buffer to the run queue of the kernel. *)

From S2P Require Import Prelude Shared Address Objects Riscv LinkedList Capability PageTable CNode.
From S2P Require Import Thread RoundRobin Ipc Untyped Syscall SyscallProps UserLib UserProg CapLib CapLibProps.

Section Layout.
Context `{KernelLayout}.

(** The buffer at [v] of the running thread is the frame [d]: the thread may
    read and write it, and the kernel knows it as the thread's buffer. *)
Record own_buffer (s : KState) (t : ThreadControlBlock) (v d : Z) (b : IPCBuffer) : Prop := {
  ob_aligned : v mod 4096 = 0;
  ob_read : user_frame s v PAGE_R = Some d;
  ob_write : user_frame s v PAGE_W = Some d;
  ob_kernel : ipc_buffer_ref (value t) = Some d;
  ob_page : page_at (heap s) d = Some b;
  ob_length : length (message b) = Z.to_nat MESSAGE_LEN;
}.

(** Writing a buffer keeps the capabilities. *)
Lemma page_keeps_caps h d b b' : page_at h d = Some b → keeps_caps h (<[d := OPage b']> h).
Proof.
  intros Hd a e He. exists e. split; [|done]. unfold slot_at in *. destruct (decide (d = a)) as [->|].
  - unfold page_at in Hd. by destruct (h !! a) as [[]|].
  - by rewrite lookup_insert_ne.
Qed.
Lemma radix_pos_page h d b b' : page_at h d = Some b → radix_pos h → radix_pos (<[d := OPage b']> h).
Proof.
  intros Hd Hp a e He. apply (Hp a). unfold slot_at in *. destruct (decide (d = a)) as [->|].
  - by rewrite lookup_insert_eq in He.
  - by rewrite lookup_insert_ne in He.
Qed.

(** ** The two invocations *)

Lemma invoke_write_regs tmp s root (u : UserCap TcbData) slot c d b regs r ty :
  holds (heap s) root u CapabilityType.Tcb slot c → page_at (heap s) d = Some b → read_as Registers b = inr regs →
  heap s !! cap_kva c = Some (OTcb ty) →
  invoke_tcb tmp root slot InvLabel.TcbWriteReg (Some d) r s =
    Ok None (s <| heap := <[cap_kva c := OTcb (ty <| value ::= λ w, w <| registers := regs |> |>)]> (heap s) |>).
Proof.
  intros Hu Hd Hb Hy. unfold invoke_tcb. rewrite (bind_Ok _ _ _ _ _ (slot_cap_Ok _ _ _ _ _ _ Hu)).
  rewrite (bind_Ok _ _ _ d s) by done. rewrite (bind_Ok _ _ _ _ _ (read_page_Ok _ _ _ Hd)), Hb.
  unfold tcb_set_registers. by rewrite (bind_Ok _ _ _ _ _ (modify_tcb_Ok _ _ _ _ Hy)).
Qed.

Lemma invoke_resume tmp s root (u : UserCap TcbData) slot c ipc r ty xs :
  holds (heap s) root u CapabilityType.Tcb slot c → rq_rep s xs → cap_kva c ∉ xs →
  heap s !! cap_kva c = Some (OTcb ty) →
  ∃ s' q', invoke_tcb tmp root slot InvLabel.TcbResume ipc r s = Ok None s' ∧
    s' = s <| heap := link_last xs (cap_kva c) (<[cap_kva c := OTcb (ty <| value ::= thread_resume |>)]> (heap s)) |>
           <| scheduler := (scheduler s) <| runqueue := q' |> |> ∧
    rq_rep s' (xs ++ [cap_kva c]).
Proof.
  intros Hu Hrq Hni Hy. destruct (resume_Ok s xs (cap_kva c) ty Hrq Hni Hy) as (s' & q' & Hk & Hs & Hrq').
  exists s', q'. split; [|done]. unfold invoke_tcb. rewrite (bind_Ok _ _ _ _ _ (slot_cap_Ok _ _ _ _ _ _ Hu)).
  unfold make_runnable. by rewrite (bind_Ok _ _ _ _ _ Hk).
Qed.

(** ** The two calls *)

(** Each call: the handler runs on the capability, and only it and the caller's
    registers change. *)
Lemma write_regs_call tmp s x t root (u : UserCap TcbData) slot c v d b regs ty :
  runs_in s x t root → radix_pos (heap s) → 0 < radix root →
  holds (heap s) root u CapabilityType.Tcb slot c → own_buffer s t v d b →
  heap s !! cap_kva c = Some (OTcb ty) → cap_kva c ≠ x →
  ∃ b' req, (∀ r, sepc (req r) = sepc r) ∧
    run_direct tmp (tcb_cap_write_regs u regs v) s =
      Ok tt (s <| heap := <[x := OTcb (after_call req (inl None) t)]>
        (<[cap_kva c := OTcb (ty <| value ::= λ w, w <| registers := regs |> |>)]>
        (<[x := OTcb (t <| value ::= λ w, w <| registers ::= req |> |>)]>
        (<[d := OPage b']> (heap s)))) |>).
Proof.
  intros Hrun Hp Hr Hu [Hal Hrd Hwr Hk Hd Hlen] Hy Hyx. pose proof Hrun as [Hcur Ht Hroot Hpc].
  destruct (write_reg_roundtrip (cap_ptr u) (cap_depth u) regs b Hlen) as (b' & req & Hreq & Hb' & _).
  assert (d ≠ x) as Hdx by by eapply buffer_ne. assert (d ≠ cap_kva c) as Hdy by by eapply buffer_ne.
  assert (req = ecall (cap_ptr u) (cap_depth u) InvLabel.TcbWriteReg 0 0 0 0 SysCallNo.Call) as Hdef
    by (unfold write_reg in Hreq; destruct (write_as b regs); [done|by injection Hreq]).
  exists b', req. split; [by subst req|].
  set (s0 := s <| heap := <[d := OPage b']> (heap s) |>).
  assert (runs_in s0 x t root) as Hrun0 by (split; [done|by unfold s0; rewrite heap_set, lookup_insert_ne|done|done]).
  assert (holds (heap s0) root u CapabilityType.Tcb slot c) as Hu0 by (eapply holds_keeps, Hu; by eapply page_keeps_caps).
  assert (radix_pos (heap s0)) as Hp0 by by eapply radix_pos_page.
  assert (run_direct tmp (call req ;; PRet tt) s0 = Ok tt
    (s0 <| heap := <[x := OTcb (after_call req (inl None) t)]>
        (<[cap_kva c := OTcb (ty <| value ::= λ w, w <| registers := regs |> |>)]> (heap (requesting s0 x t req))) |>)) as Hgo.
  2: { unfold tcb_cap_write_regs. cbn [run_direct]. unfold read_buffer. rewrite (bind_Ok _ _ _ b s).
    2: { rewrite (buffer_access s v PAGE_R _ d Hal Hrd). unfold unwrap_res. by rewrite (read_page_Ok s d b Hd). }
    rewrite Hreq. cbn [run_direct]. unfold write_buffer. rewrite (bind_Ok _ _ _ tt s0).
    2: { by rewrite (buffer_access s v PAGE_W _ d Hal Hwr). }
    exact Hgo. }
  rewrite run_direct_bind, (bind_Ok _ _ _ (default (a1 (req (registers (value t)))) None)
    (s0 <| heap := <[x := OTcb (after_call req (inl None) t)]>
        (<[cap_kva c := OTcb (ty <| value ::= λ w, w <| registers := regs |> |>)]> (heap (requesting s0 x t req))) |>)); [done|].
  apply run_direct_call. set (s1 := requesting s0 x t req).
  assert (heap s1 !! cap_kva c = Some (OTcb ty)) as Hy1.
  { unfold s1, requesting, s0. rewrite heap_set, heap_set, !lookup_insert_ne by done. done. }
  refine (eq_trans (direct_call_answers tmp req s0 x t root None _ Hrun0 _ _ _) _); [by subst req| |..].
  - refine (eq_trans _ (invoke_write_regs tmp s1 root u slot c d b' regs (req (registers (value t))) ty _ _ Hb' Hy1)).
    + subst req. refine (eq_trans (ecall_dispatch _ _ InvLabel.TcbWriteReg _ _ _ _ SysCallNo.Call _ tmp _ ltac:(done)) _).
      refine (eq_trans (handle_held tmp s0 x t root u _ slot c _ _ _ Hrun0 Hp0 Hr Hu0) _). by rewrite Hk.
    + eapply holds_slots, Hu0. intros a. by apply requesting_slots with (t := t), ri_tcb with root.
    + unfold page_at, s1, requesting, s0. by rewrite heap_set, heap_set, lookup_insert_ne, lookup_insert_eq by done.
  - rewrite heap_set, lookup_insert_ne by done. reflexivity.
  - rewrite heap_set, heap_set_set. reflexivity.
Qed.

Lemma resume_call tmp s x t root (u : UserCap TcbData) slot c ty xs :
  runs_in s x t root → radix_pos (heap s) → 0 < radix root →
  holds (heap s) root u CapabilityType.Tcb slot c → heap s !! cap_kva c = Some (OTcb ty) → cap_kva c ≠ x →
  rq_rep s xs → cap_kva c ∉ xs → x ∉ xs →
  let req := resume_tcb (cap_ptr u) (cap_depth u) in
  ∃ s', run_direct tmp (tcb_cap_resume u) s = Ok tt s' ∧ rq_rep s' (xs ++ [cap_kva c]) ∧ current_proc s' = x ∧
    requested (scheduler s') = requested (scheduler s) ∧
    heap s' = <[x := OTcb (after_call req (inl None) t)]> (link_last xs (cap_kva c)
      (<[cap_kva c := OTcb (ty <| value ::= thread_resume |>)]>
        (<[x := OTcb (t <| value ::= λ w, w <| registers ::= req |> |>)]> (heap s)))).
Proof.
  intros Hrun Hp Hr Hu Hy Hyx Hrq Hny Hnx req. pose proof Hrun as [Hcur Ht _ _]. set (s1 := requesting s x t req).
  assert (rq_rep s1 xs) as Hrq1 by by apply rq_rep_value.
  assert (heap s1 !! cap_kva c = Some (OTcb ty)) as Hy1 by (unfold s1, requesting; by rewrite heap_set, lookup_insert_ne by done).
  assert (holds (heap s1) root u CapabilityType.Tcb slot c) as Hu1.
  { eapply holds_slots, Hu. intros a. by apply requesting_slots with (t := t). }
  destruct (invoke_resume tmp s1 root u slot c (ipc_buffer_ref (value t)) (req (registers (value t))) ty xs Hu1 Hrq1 Hny Hy1)
    as (s2 & q' & Hi & Hs2 & Hrq2).
  assert (heap s2 = link_last xs (cap_kva c) (<[cap_kva c := OTcb (ty <| value ::= thread_resume |>)]> (heap s1))) as Hh2
    by by subst s2.
  assert (heap s2 !! x = heap s1 !! x) as Hx2 by (rewrite Hh2, link_last_frame_notin, lookup_insert_ne by done; done).
  assert (syscall_body tmp (a7 (req (registers (value t)))) (req (registers (value t))) s1 = Ok None s2) as Hb.
  { refine (eq_trans (ecall_dispatch _ _ InvLabel.TcbResume _ _ _ _ SysCallNo.Call _ tmp s1 ltac:(done)) _).
    refine (eq_trans _ Hi). exact (handle_held tmp s x t root u _ slot c _ _ _ Hrun Hp Hr Hu). }
  pose proof (run_direct_call _ _ _ _ _ (direct_call_answers tmp req s x t root None s2 Hrun eq_refl Hb Hx2)) as Hcall.
  eexists. split; [unfold tcb_cap_resume; rewrite run_direct_bind; by rewrite (bind_Ok _ _ _ _ _ Hcall)|].
  split; [|split; [by subst s2|split; [by subst s2|by rewrite heap_set, Hh2]]].
  assert (heap s2 !! x = Some (OTcb (t <| value ::= λ w, w <| registers ::= req |> |>))) as Hx3
    by (rewrite Hx2; apply lookup_insert_eq).
  set (t1 := t <| value ::= _ |>) in Hx3.
  change (after_call req (inl None) t) with (t1 <| value ::= λ w, w <| registers ::= ended (inl None) |> |>).
  by apply rq_rep_value.
Qed.

(** ** Starting a thread *)

(** Between the two calls: the caller answered, the new registers in place, the
    buffer written. *)
Definition written (s : KState) (x : Z) (t1 : ThreadControlBlock) (y : Z) (ty1 : ThreadControlBlock) (d : Z)
    (b : IPCBuffer) (s1 : KState) : Prop :=
  (∀ a, heap s1 !! a = if decide (a = x) then Some (OTcb t1) else if decide (a = y) then Some (OTcb ty1)
                       else if decide (a = d) then Some (OPage b) else heap s !! a) ∧
  scheduler s1 = scheduler s ∧ current_proc s1 = current_proc s.

Section Between.
Context (s s1 : KState) (x y d : Z) (t t1 ty ty1 : ThreadControlBlock) (b b' : IPCBuffer).
Context (Hw : written s x t1 y ty1 d b' s1).
Context (Ht : heap s !! x = Some (OTcb t)) (Hy : heap s !! y = Some (OTcb ty)) (Hd : page_at (heap s) d = Some b).

Lemma written_caps : keeps_caps (heap s) (heap s1).
Proof.
  intros a e Ha. exists e. split; [|done]. destruct Hw as [Hs1 _]. unfold slot_at in *. rewrite Hs1.
  repeat case_decide; subst; try done; [by rewrite Ht in Ha|by rewrite Hy in Ha|].
  unfold page_at in Hd. by destruct (heap s !! d) as [[]|].
Qed.
Lemma written_radix_pos : radix_pos (heap s) → radix_pos (heap s1).
Proof.
  intros Hp a e Ha. apply (Hp a). destruct Hw as [Hs1 _]. unfold slot_at in *. rewrite Hs1 in Ha. by repeat case_decide.
Qed.
Lemma buffer_not_queued xs : rq_rep s xs → d ∉ xs.
Proof.
  intros Hrq Hin. destruct (links_tcb _ _ _ (rq_links _ _ Hrq) Hin) as (td & Htd & _). by eapply page_at_tcb.
Qed.
Lemma written_queue xs : x ∉ xs → y ∉ xs → rq_rep s xs → rq_rep s1 xs.
Proof.
  intros Hx Hyq Hrq. pose proof (buffer_not_queued xs Hrq). destruct Hw as (Hs1 & Hsc & _), Hrq as [? ? ? Hl].
  split; rewrite ?Hsc; [done..|]. revert Hl. apply links_mono. intros a ta Ha Hta. exists ta.
  rewrite Hs1, !decide_False by congruence. done.
Qed.
End Between.

(** The two calls, and everything they change. *)
Lemma start_thread_call tmp s x t root (u : UserCap TcbData) slot c v d b regs ty xs :
  runs_in s x t root → sepc (registers (value t)) + 8 < W → radix_pos (heap s) → 0 < radix root →
  holds (heap s) root u CapabilityType.Tcb slot c → own_buffer s t v d b →
  heap s !! cap_kva c = Some (OTcb ty) → cap_kva c ≠ x → rq_rep s xs → cap_kva c ∉ xs → x ∉ xs →
  ∃ s' f b', run_direct tmp (tcb_cap_write_regs u regs v ;; tcb_cap_resume u) s = Ok tt s' ∧
    heap s' !! cap_kva c = Some (OTcb (ty <| value ::= λ w, thread_resume (w <| registers := regs |>) |>)) ∧
    heap s' !! x = Some (OTcb (t <| value ::= λ w, w <| registers ::= f |> |>)) ∧ (∀ r, sepc (f r) = sepc r + 8) ∧
    rq_rep s' (xs ++ [cap_kva c]) ∧ current_proc s' = x ∧ heap s' !! d = Some (OPage b') ∧
    requested (scheduler s') = requested (scheduler s) ∧
    (∀ a ta, a ∈ xs → heap s !! a = Some (OTcb ta) → ∃ ta', heap s' !! a = Some (OTcb ta') ∧ value ta' = value ta) ∧
    (∀ a, a ∉ x :: cap_kva c :: d :: xs → heap s' !! a = heap s !! a).
Proof.
  intros Hrun Hpc Hp Hr Hu Hob Hy Hyx Hrq Hny Hnx. pose proof Hob as [_ _ _ _ Hd _]. pose proof Hrun as [Hcur Ht Hroot _].
  destruct (write_regs_call tmp s x t root u slot c v d b regs ty) as (b' & req & Hsepc & Hcall); [done..|].
  set (y := cap_kva c) in *. assert (d ≠ x) as Hdx by by eapply buffer_ne. assert (d ≠ y) as Hdy by by eapply buffer_ne.
  pose proof (buffer_not_queued _ _ _ Hd xs Hrq) as Hdxs.
  set (ty1 := ty <| value ::= λ w, w <| registers := regs |> |>) in *. set (t1 := after_call req (inl None) t) in *.
  set (s1 := s <| heap := _ |>) in Hcall.
  assert (written s x t1 y ty1 d b' s1) as Hw.
  { split; [|done]. intros a. unfold s1. rewrite heap_set. repeat case_decide; subst; simplify_map_eq; done. }
  pose proof (proj1 Hw) as Hs1.
  assert (runs_in s1 x t1 root) as Hrun1.
  { split; [done|rewrite Hs1; by rewrite decide_True|done|]. change (sepc (req (registers (value t))) + 4 + 4 < W). rewrite Hsepc. lia. }
  destruct (resume_call tmp s1 x t1 root u slot c ty1 xs) as (s2 & Hres & Hrq2 & Hcur2 & Hq2 & Hh2); try done.
  { by eapply written_radix_pos. }
  { by eapply holds_keeps, Hu; eapply written_caps. }
  { rewrite Hs1. by rewrite decide_False, decide_True by done. }
  { by eapply written_queue. }
  fold y in Hrq2, Hh2.
  exists s2, (λ r, ended (inl None) (resume_tcb (cap_ptr u) (cap_depth u) (ended (inl None) (req r)))), b'.
  assert (∀ a, a ∉ xs → a ≠ x → a ≠ y → heap s2 !! a = heap s1 !! a) as Hfr.
  { intros a Ha Hax Hay. rewrite Hh2, lookup_insert_ne, link_last_frame_notin, !lookup_insert_ne by done. done. }
  split; [by rewrite run_direct_bind, (bind_Ok _ _ _ _ _ Hcall)|]. split_and!; try done.
  - rewrite Hh2, lookup_insert_ne, link_last_frame_notin, lookup_insert_eq by done. done.
  - rewrite Hh2, lookup_insert_eq. done.
  - intros r. change (sepc (req r) + 4 + 4 = sepc r + 8). rewrite Hsepc. lia.
  - rewrite Hfr, Hs1 by done. by rewrite !decide_False, decide_True by done.
  - intros a ta Ha Hta. rewrite Hh2, lookup_insert_ne by congruence.
    destruct (link_last_tcb xs y (<[y := OTcb (ty1 <| value ::= thread_resume |>)]>
      (<[x := OTcb (t1 <| value ::= λ w, w <| registers ::= resume_tcb (cap_ptr u) (cap_depth u) |> |>)]> (heap s1))) a ta)
      as (ta' & Hta' & Hv & _); [|by exists ta'].
    rewrite !lookup_insert_ne, Hs1, !decide_False by congruence. done.
  - intros a Ha. rewrite !not_elem_of_cons in Ha. destruct Ha as (? & ? & ? & ?). rewrite Hfr, Hs1, !decide_False by done. done.
Qed.
End Layout.
