(* ===== verification/LibConfigure.v ===== *)
(** * Configuring a thread through the library

    [TCBCap::configure] and [TCBCap::set_ipc_buffer] of [libzoea/src/caps.rs]:
    what they put into the control block of a thread, and what happens when a
    thread is configured twice. *)

From S2P Require Import Prelude Shared Address Objects Riscv LinkedList Capability PageTable CNode.
From S2P Require Import Thread RoundRobin Ipc Untyped Syscall SyscallProps UserLib UserProg CapLib CapLibProps.

(** ** Putting an entry into a control block *)

(** Memory in which the entries other than those at [except] keep their
    capabilities, and everything that is no entry is the same. *)
Record linked (except : list Z) (h h' : gmap Z kobject) : Prop := {
  ln_entries : ∀ a e, a ∉ except → entry_at h a = Some e → ∃ e', entry_at h' a = Some e' ∧ e'.(cap) = e.(cap);
  ln_other : ∀ a, a ∉ except → entry_at h a = None → h' !! a = h !! a;
}.
Lemma linked_trans xs h1 h2 h3 : linked xs h1 h2 → linked xs h2 h3 → linked xs h1 h3.
Proof.
  intros [E1 O1] [E2 O2]. split.
  - intros a e Ha He. destruct (E1 a e Ha He) as (e2 & He2 & <-). by apply E2.
  - intros a Ha He. rewrite O2; [by apply O1|done|]. unfold entry_at, slot_at. by rewrite O1.
Qed.
(** The capabilities stay where they are; a node among them is as large as it was. *)
Lemma linked_keeps_caps xs h h' : linked xs h h' → (∀ a, a ∈ xs → entry_at h a = None) → keeps_caps h h'.
Proof.
  intros [E _] Hx a e He. assert (entry_at h a = Some e) as He' by by unfold entry_at; rewrite He.
  destruct (E a e) as (e' & Hq & Hc); [intros Ha; by rewrite Hx in He'|done|]. exists e'. split; [by apply entry_at_slot|done].
Qed.
Lemma linked_radix_pos xs h h' :
  linked xs h h' → (∀ a e, a ∈ xs → entry_at h' a = Some e → is_cnode e.(cap) → 0 < radix e.(cap)) →
  radix_pos h → radix_pos h'.
Proof.
  intros [E O] Hx Hp a e He Hc. assert (entry_at h' a = Some e) as He' by by unfold entry_at; rewrite He.
  destruct (decide (a ∈ xs)) as [Ha|Ha]; [by apply (Hx a)|]. destruct (entry_at h a) as [e0|] eqn:He0.
  - destruct (E a e0 Ha He0) as (e1 & He1 & Hc1). simplify_eq. rewrite Hc1 in Hc |- *. apply (Hp a e0); [by apply entry_at_slot|done].
  - apply (Hp a e); [|done]. unfold slot_at in *. by rewrite <- (O a Ha He0).
Qed.
Lemma linked_mono xs ys h h' : (∀ a, a ∈ xs → a ∈ ys) → linked xs h h' → linked ys h h'.
Proof. intros Hs [E O]. split; intros a; [intros e|]; intros Ha; [apply E|apply O]; naive_solver. Qed.

(** Once an entry is linked, its local is left behind. *)
Lemma read_entry_inv s a e s' : read_entry a s = Ok e s' → entry_at (heap s') a = Some e.
Proof.
  unfold read_entry, read_slot, bind, gets, entry_at. destruct (slot_at (heap s) a) as [[e2|]|] eqn:Ht; try done.
  unfold ret. intros [= -> <-]. by rewrite Ht.
Qed.
Lemma with_local_entry_at tmp c link s e s' : with_local_entry tmp c link s = Ok e s' → entry_at (heap s') tmp = Some e.
Proof. unfold with_local_entry. intros Hr. inv_bind Hr. inv_bind Hr. by eapply read_entry_inv. Qed.

(** The shape [set_root_cspace], [set_root_vspace] and [set_ipc_buffer] share. *)
Definition install (get : ThreadInfo → CSlot) (put : CNodeEntry → ThreadInfo → ThreadInfo) (tmp self : Z)
    (c : CapabilityData) (parent : Z) : K unit :=
  let* t := read_tcb self in
  rassert (bool_decide (get t.(value) = None)) ;;;
  let* e := with_local_entry tmp c (entry_insert tmp parent) in
  modify_tcb self (put e).

Section Install.
Context (get : ThreadInfo → CSlot) (put : CNodeEntry → ThreadInfo → ThreadInfo).

Lemma install_Ok s tmp y ty c parent pe :
  heap s !! y = Some (OTcb ty) → get (value ty) = None → tmp ≠ y →
  parent ≠ tmp → is_kva parent → is_kva tmp → entry_at (heap s) parent = Some pe → next_live (heap s) parent tmp pe →
  ∃ h' e, install get put tmp y c parent s = Ok tt (s <| heap := h' |>) ∧ e.(cap) = c ∧
    mdb_get_node e.(mdb) false = Some parent ∧ h' !! y = Some (OTcb (ty <| value ::= put e |>)) ∧
    linked [tmp; y] (heap s) h' ∧ (∀ a, a ≠ tmp → a ≠ parent → next_of h' a = next_of (heap s) a) ∧
    entry_at h' tmp = Some e.
Proof.
  intros Hy Hg Hty Hpt Hkp Hkt Hp Hnl.
  destruct (with_local_insert s tmp parent c pe) as (h & e & Hrun & Hc & Hpv & _ & Hcaps & Hfr & Hnx); [done..|].
  assert (entry_at (heap s) y = None) as Hye by (unfold entry_at, slot_at; by rewrite Hy).
  assert (h !! y = Some (OTcb ty)) as Hy1 by by rewrite Hfr.
  assert (∀ a, a ≠ y → entry_at (<[y := OTcb (ty <| value ::= put e |>)]> h) a = entry_at h a) as Hat.
  { intros a Ha. unfold entry_at, slot_at. by rewrite lookup_insert_ne by done. }
  exists (<[y := OTcb (ty <| value ::= put e |>)]> h), e. split_and!; try done.
  - unfold install. rewrite (bind_Ok _ _ _ _ _ (read_tcb_Ok _ _ _ Hy)). rewrite bool_decide_eq_true_2 by done.
    rewrite (bind_Ok _ _ _ tt s), (bind_Ok _ _ _ _ _ Hrun) by done.
    rewrite (modify_tcb_Ok y ty (put e) (s <| heap := h |>)) by by rewrite heap_set. by rewrite heap_set, heap_set_set.
  - by rewrite lookup_insert_eq.
  - split.
    + intros a ea Ha Hea. rewrite Hat by set_solver. apply Hcaps; [set_solver|done].
    + intros a Ha Hea. rewrite lookup_insert_ne by set_solver. apply Hfr; [set_solver|done].
  - intros a Hat' Hap. rewrite <- (Hnx a Hat' Hap). unfold next_of. destruct (decide (a = y)) as [->|]; [|by rewrite Hat].
    unfold entry_at, slot_at. by rewrite lookup_insert_eq, Hy1.
  - rewrite Hat by done. exact (with_local_entry_at _ _ _ _ _ _ Hrun).
Qed.

(** A slot of a control block is filled only once. *)
Lemma install_twice s tmp y ty c parent :
  heap s !! y = Some (OTcb ty) → get (value ty) ≠ None → install get put tmp y c parent s = Panic PAssert.
Proof.
  intros Hy Hg. unfold install. rewrite (bind_Ok _ _ _ _ _ (read_tcb_Ok _ _ _ Hy)).
  by rewrite bool_decide_eq_false_2.
Qed.
End Install.

Section Layout.
Context `{KernelLayout}.

(** Two entries to derive from, and stack space for the local entry. *)
Record config_places (s : KState) (tmp y csrc : Z) (ec : CNodeEntry) (vsrc : Z) (ev : CNodeEntry) : Prop := {
  cp_tmp : is_kva tmp ∧ tmp ∉ [y; csrc; vsrc] ∧ entry_at (heap s) tmp = None;
  cp_src : is_kva csrc ∧ is_kva vsrc ∧ csrc ≠ vsrc;
  cp_cspace : entry_at (heap s) csrc = Some ec ∧ next_live (heap s) csrc tmp ec;
  cp_vspace : entry_at (heap s) vsrc = Some ev ∧ next_live (heap s) vsrc tmp ev;
}.

(** The control block with its two spaces. *)
Definition configured (ec ev : CNodeEntry) (t : ThreadControlBlock) : ThreadControlBlock :=
  t <| value ::= λ v, v <| root_cnode := Some ec |> <| vspace := Some ev |> |>.

Lemma next_live_linked s h' tmp y a e :
  linked [tmp; y] (heap s) h' → entry_at (heap s) y = None → a ∉ [tmp; y] → next_of h' a = next_of (heap s) a →
  entry_at (heap s) a = Some e → next_live (heap s) a tmp e →
  ∃ e', entry_at h' a = Some e' ∧ e'.(cap) = e.(cap) ∧ next_live h' a tmp e'.
Proof.
  intros [E _] Hy Ha Hn He Hnl. destruct (E a e Ha He) as (e' & He' & Hc). exists e'. split_and!; try done.
  intros pn Hpn. unfold next_of in Hn. rewrite He', He in Hn. simpl in Hn. rewrite Hn in Hpn.
  destruct (Hnl pn Hpn) as (P1 & P2 & P3). split_and!; try done.
  destruct (decide (pn = tmp)) as [|Hpt]; [by left|]. destruct P3 as [|[en Hen]]; [done|right].
  destruct (E pn en) as (en' & ? & _); [|done|by eexists]. assert (pn ≠ y) by congruence. set_solver.
Qed.

(** The two derivations of [TcbConfigure]. *)
Lemma set_spaces s tmp c ty csrc ec vsrc ev :
  let y := cap_kva c in
  heap s !! y = Some (OTcb ty) → root_cnode (value ty) = None → vspace (value ty) = None →
  config_places s tmp y csrc ec vsrc ev →
  ∃ h' ec' ev', (tcb_set_cspace tmp c csrc ;;; tcb_set_vspace tmp c vsrc) s = Ok tt (s <| heap := h' |>) ∧
    ec'.(cap) = ec.(cap) ∧ ev'.(cap) = ev.(cap) ∧
    h' !! y = Some (OTcb (configured ec' ev' ty)) ∧ linked [tmp; y] (heap s) h' ∧ entry_at h' tmp = Some ev'.
Proof.
  intros y Hy Hc0 Hv0 [(Hkt & Htn & _) (Hkc & Hkv & Hcv) [Hec Hlc] [Hev Hlv]].
  assert (tmp ≠ y ∧ csrc ≠ tmp ∧ vsrc ≠ tmp) as (Hty & Hct & Hvt) by set_solver.
  assert (entry_at (heap s) y = None) as Hye by (unfold entry_at, slot_at; by rewrite Hy).
  destruct (install_Ok root_cnode (λ e t, t <| root_cnode := Some e |>) s tmp y ty ec.(cap) csrc ec)
    as (h1 & ec' & H1 & Hc1 & _ & Hy1 & Hl1 & Hn1 & _); [done..|].
  set (ty1 := ty <| value ::= _ |>) in Hy1. set (s1 := s <| heap := h1 |>) in H1.
  destruct (next_live_linked s h1 tmp y vsrc ev) as (ev1 & Hev1 & Hcv1 & Hlv1); [done|done| |by apply Hn1|done|done|].
  { assert (vsrc ≠ y) by congruence. set_solver. }
  destruct (install_Ok vspace (λ e t, t <| vspace := Some e |>) s1 tmp y ty1 (cap_replicate ev1.(cap)) vsrc ev1)
    as (h2 & ev' & H2 & Hc2 & _ & Hy2 & Hl2 & _ & Ht2); [done..|].
  exists h2, ec', ev'. split_and!.
  - rewrite (bind_Ok _ _ _ tt s1).
    + unfold tcb_set_vspace. rewrite (bind_Ok _ _ _ _ _ (read_entry_Ok s1 _ _ (entry_at_slot _ _ _ Hev1))).
      rewrite (bind_Ok _ _ _ (cap_replicate ev1.(cap)) s1) by done. refine (eq_trans H2 _). by unfold s1; rewrite heap_set_set.
    + unfold tcb_set_cspace. rewrite (bind_Ok _ _ _ _ _ (read_entry_Ok s _ _ (entry_at_slot _ _ _ Hec))).
      by rewrite (bind_Ok _ _ _ ec.(cap) s) by done.
  - done.
  - rewrite Hc2, <- Hcv1. by destruct (cap ev1).
  - rewrite Hy2. by destruct ty.
  - by apply (linked_trans _ _ h1).
  - done.
Qed.

(** ** The calls *)

(** A handler that panics takes the call with it. *)
Lemma direct_call_panics tmp req s x t root k :
  runs_in s x t root →
  syscall_body tmp (a7 (req (registers (value t)))) (req (registers (value t))) (requesting s x t req) = Panic k →
  direct_call tmp req s = Panic k.
Proof.
  intros [Hcur Ht _ _] Hb. set (s1 := requesting s x t req) in *.
  unfold direct_call, unwrap_res. rewrite (bind_Ok _ _ _ x s) by by unfold gets; rewrite Hcur.
  rewrite (bind_Ok _ _ _ tt s1) by by rewrite (modify_tcb_Ok _ _ _ _ Ht).
  set (t1 := t <| value ::= λ v, v <| registers ::= req |> |>).
  assert (heap s1 !! x = Some (OTcb t1)) as Ht1 by apply lookup_insert_eq.
  rewrite (bind_Ok _ _ _ t1 s1) by by rewrite (read_tcb_Ok _ _ _ Ht1).
  unfold handle_syscall, bind at 1. rewrite (bind_Ok _ _ _ _ _ (read_tcb_Ok _ _ _ Ht1)).
  unfold try_, bind at 1. change (registers (value t1)) with (req (registers (value t))). by rewrite Hb.
Qed.

(** The caller keeps its control block through the call, apart from its registers. *)
Lemma linked_requesting s x t t' req tmp y h' :
  heap s !! x = Some (OTcb t) → linked [tmp; y] (heap (requesting s x t req)) h' →
  linked [tmp; y; x] (heap s) (<[x := OTcb t']> h').
Proof.
  intros Ht [E O].
  assert (∀ a, entry_at (heap (requesting s x t req)) a = entry_at (heap s) a) as Hat
    by (intros a; unfold entry_at; by rewrite requesting_slots).
  split; intros a.
  - intros e Ha He. destruct (E a e) as (e' & He' & Hc); [set_solver|by rewrite Hat|]. exists e'. split; [|done].
    unfold entry_at, slot_at in *. by rewrite lookup_insert_ne by set_solver.
  - intros Ha He. rewrite lookup_insert_ne by set_solver. rewrite O; [|set_solver|by rewrite Hat].
    unfold requesting. by rewrite heap_set, lookup_insert_ne by set_solver.
Qed.
Lemma requesting_next_live s x t req a tmp e :
  heap s !! x = Some (OTcb t) → next_live (heap s) a tmp e → next_live (heap (requesting s x t req)) a tmp e.
Proof.
  intros Ht Hnl pn Hpn. unfold entry_at. rewrite requesting_slots by done. by apply Hnl.
Qed.

Section Configure.
Context (s : KState) (tmp x : Z) (t : ThreadControlBlock) (root : CapabilityData).
Context (u : UserCap TcbData) (slot : Z) (c : CapabilityData) (ty : ThreadControlBlock).
Context (uc : UserCap CNodeData) (csrc : Z) (ec : CNodeEntry) (uv : UserCap PageTableData) (vsrc : Z) (ev : CNodeEntry).
Context (Hp : radix_pos (heap s)) (Hr : 0 < radix root).
Context (Hu : holds (heap s) root u CapabilityType.Tcb slot c).
Context (Huc : holds (heap s) root uc CapabilityType.CNode csrc ec.(cap)).
Context (Huv : holds (heap s) root uv CapabilityType.PageTable vsrc ev.(cap)).
Context (Hne : csrc ≠ vsrc).

(** The arguments of [TcbConfigure]. *)
Lemma invoke_configure_args ipc r :
  a3 r = cap_ptr uc → a4 r = cap_depth uc → a5 r = cap_ptr uv → a6 r = cap_depth uv →
  invoke_tcb tmp root slot InvLabel.TcbConfigure ipc r s =
    (tcb_set_cspace tmp c csrc ;;; tcb_set_vspace tmp c vsrc ;;; ret None) s.
Proof.
  intros H3 H4 H5 H6. pose proof Huc as [Hnc Hdc (ec1 & Hec1 & Hcc) Htc]. pose proof Huv as [Hnv Hdv (ev1 & Hev1 & Hcv) Htv].
  unfold invoke_tcb. rewrite (bind_Ok _ _ _ _ _ (slot_cap_Ok _ _ _ _ _ _ Hu)). rewrite H3, H4, H5, H6.
  rewrite (bind_Ok _ _ _ (csrc, vsrc) s).
  2: { unfold lookup_two_entries_mut.
       rewrite (bind_Ok _ _ _ _ _ (lookup_path _ _ _ _ _ _ Hp Hr Hdc Hnc Hec1)).
       rewrite (bind_Ok _ _ _ _ _ (lookup_path _ _ _ _ _ _ Hp Hr Hdv Hnv Hev1)).
       by rewrite (proj2 (Z.eqb_neq _ _)) by done. }
  rewrite (bind_Ok _ _ _ ec1 s) by by apply occupied_Ok. rewrite Hcc.
  rewrite (bind_Ok _ _ _ _ _ (try_ref_as_Ok _ _ s Htc)).
  rewrite (bind_Ok _ _ _ ev1 s) by by apply occupied_Ok. rewrite Hcv.
  by rewrite (bind_Ok _ _ _ _ _ (try_ref_as_Ok _ _ s Htv)).
Qed.
End Configure.

Section Call.
Context (s : KState) (tmp x : Z) (t : ThreadControlBlock) (root : CapabilityData).
Context (u : UserCap TcbData) (slot : Z) (c : CapabilityData) (ty : ThreadControlBlock).
Context (uc : UserCap CNodeData) (csrc : Z) (ec : CNodeEntry) (uv : UserCap PageTableData) (vsrc : Z) (ev : CNodeEntry).
Context (Hrun : runs_in s x t root) (Hp : radix_pos (heap s)) (Hr : 0 < radix root).
Context (Hu : holds (heap s) root u CapabilityType.Tcb slot c).
Context (Huc : holds (heap s) root uc CapabilityType.CNode csrc ec.(cap)).
Context (Huv : holds (heap s) root uv CapabilityType.PageTable vsrc ev.(cap)).
Context (Hy : heap s !! cap_kva c = Some (OTcb ty)) (Hyx : cap_kva c ≠ x).

Notation req := (configure_tcb (cap_ptr u) (cap_depth u) (cap_ptr uc) (cap_depth uc) (cap_ptr uv) (cap_depth uv)).
Notation s1 := (requesting s x t req).

(** What the kernel does with the request. *)
Lemma configure_handled :
  let r := req (registers (value t)) in csrc ≠ vsrc →
  syscall_body tmp (a7 r) r s1 = (tcb_set_cspace tmp c csrc ;;; tcb_set_vspace tmp c vsrc ;;; ret None) s1.
Proof.
  intros r Hne. pose proof Hrun as [_ Ht _ _].
  assert (∀ b, slot_at (heap s1) b = slot_at (heap s) b) as Hsl by (intros b; by apply requesting_slots).
  refine (eq_trans (ecall_dispatch _ _ InvLabel.TcbConfigure _ _ _ _ SysCallNo.Call _ tmp s1 ltac:(done)) _).
  refine (eq_trans (handle_held tmp s x t root u _ slot c _ _ _ Hrun Hp Hr Hu) _).
  apply (invoke_configure_args s1 tmp root u slot c uc csrc ec uv vsrc ev); try done.
  - intros a e. rewrite Hsl. apply Hp.
  - by apply (holds_slots (heap s)).
  - by apply (holds_slots (heap s)).
  - by apply (holds_slots (heap s)).
Qed.

(** A thread that has a capability space already makes the kernel panic. *)
Lemma configure_again :
  csrc ≠ vsrc → root_cnode (value ty) ≠ None → direct_call tmp req s = Panic PAssert.
Proof.
  intros Hne Hc0. pose proof Hrun as [Hcur Ht _ _].
  assert (heap s1 !! cap_kva c = Some (OTcb ty)) as Hy1 by (unfold requesting; by rewrite heap_set, lookup_insert_ne).
  assert (∃ e, slot_at (heap s1) csrc = Some (Some e)) as [e He].
  { destruct Huc as [_ _ (e & He & _) _]. exists e. by rewrite requesting_slots. }
  assert (syscall_body tmp (a7 (req (registers (value t)))) (req (registers (value t))) s1 = Panic PAssert) as Hb.
  { refine (eq_trans (configure_handled Hne) _). unfold bind at 1. unfold tcb_set_cspace.
    rewrite (bind_Ok _ _ _ _ _ (read_entry_Ok s1 _ _ He)), (bind_Ok _ _ _ e.(cap) s1) by done.
    change (set_root_cspace tmp (cap_kva c)) with (install root_cnode (λ e t, t <| root_cnode := Some e |>) tmp (cap_kva c)).
    by rewrite (install_twice _ _ s1 tmp (cap_kva c) ty). }
  by apply (direct_call_panics _ _ _ x t root).
Qed.
Context (Hcp : config_places s tmp (cap_kva c) csrc ec vsrc ev).
Lemma requesting_config : config_places s1 tmp (cap_kva c) csrc ec vsrc ev.
Proof.
  pose proof Hrun as [_ Ht _ _]. destruct Hcp as [(T1 & T2 & T3) S1 [C1 C2] [V1 V2]].
  assert (∀ a, entry_at (heap s1) a = entry_at (heap s) a) as Hat by (intros a; unfold entry_at; by rewrite requesting_slots).
  split; rewrite ?Hat; try done; split; try done; by apply requesting_next_live.
Qed.
(** A thread without spaces gets the two it is configured with. *)
Lemma configure_call :
  tmp ≠ x → root_cnode (value ty) = None → vspace (value ty) = None →
  ∃ h' ec' ev', run_direct tmp (tcb_cap_configure u uc uv) s = Ok tt (s <| heap := h' |>) ∧
    ec'.(cap) = ec.(cap) ∧ ev'.(cap) = ev.(cap) ∧ h' !! cap_kva c = Some (OTcb (configured ec' ev' ty)) ∧
    h' !! x = Some (OTcb (after_call req (inl None) t)) ∧ linked [tmp; cap_kva c; x] (heap s) h' ∧ radix_pos h'.
Proof.
  intros Htx Hc0 Hv0. pose proof Hrun as [_ Ht _ _].
  assert (heap s1 !! cap_kva c = Some (OTcb ty)) as Hy1 by (unfold requesting; by rewrite heap_set, lookup_insert_ne).
  destruct (set_spaces s1 tmp c ty csrc ec vsrc ev Hy1 Hc0 Hv0 requesting_config) as (h2 & ec' & ev' & H2 & Hc & Hv & Hy2 & Hl & Het).
  assert (h2 !! x = heap s1 !! x) as Hx2.
  { apply (ln_other _ _ _ Hl); [set_solver|]. unfold entry_at, slot_at, requesting. by rewrite heap_set, lookup_insert_eq. }
  assert (syscall_body tmp (a7 (req (registers (value t)))) (req (registers (value t))) s1 = Ok None (s1 <| heap := h2 |>)) as Hb.
  { refine (eq_trans (configure_handled (proj2 (proj2 (cp_src _ _ _ _ _ _ _ Hcp)))) _). unfold bind in H2 |- *.
    destruct (tcb_set_cspace tmp c csrc s1) as [[] s2| | | |]; try done. by destruct (tcb_set_vspace tmp c vsrc s2) as [[] s3| | | |]; simplify_eq. }
  pose proof (run_direct_call _ _ _ _ _ (direct_call_answers tmp req s x t root None _ Hrun eq_refl Hb Hx2)) as Hcall.
  exists (<[x := OTcb (after_call req (inl None) t)]> h2), ec', ev'. split_and!; try done.
  - unfold tcb_cap_configure. rewrite run_direct_bind, (bind_Ok _ _ _ _ _ Hcall). unfold requesting. by rewrite heap_set, !heap_set_set.
  - by rewrite lookup_insert_ne.
  - apply lookup_insert_eq.
  - by eapply linked_requesting.
  - eapply linked_radix_pos; [by eapply linked_requesting| |done]. intros a e Ha. unfold entry_at, slot_at.
    destruct (decide (x = a)) as [<-|Hxa]; [by rewrite lookup_insert_eq|]. rewrite lookup_insert_ne by done.
    assert (a = tmp ∨ a = cap_kva c) as [->| ->] by set_solver; [|by rewrite Hy2].
    intros He. assert (ev' = e) as <- by by unfold entry_at, slot_at in Het; simplify_eq.
    rewrite Hv. destruct Huv as [_ _ (e1 & He1 & <-) _]. by apply (Hp vsrc).
Qed.

End Call.

(** C30: a user can panic the kernel by configuring a thread twice. A thread that
    holds the capabilities to another thread's control block, to a node and to
    a page table configures that thread through the library; it had no spaces,
    so the call succeeds and the thread gets both of them. The same call again
    never returns an error: the kernel panics on its assertion that the thread
    has no capability space yet. *)
Theorem library_configure_twice s tmp x t root (u : UserCap TcbData) slot c ty (uc : UserCap CNodeData) csrc ec
    (uv : UserCap PageTableData) vsrc ev :
  runs_in s x t root → sepc (registers (value t)) + 8 < W → radix_pos (heap s) → 0 < radix root →
  holds (heap s) root u CapabilityType.Tcb slot c →
  holds (heap s) root uc CapabilityType.CNode csrc ec.(cap) →
  holds (heap s) root uv CapabilityType.PageTable vsrc ev.(cap) →
  heap s !! cap_kva c = Some (OTcb ty) → cap_kva c ≠ x → tmp ≠ x →
  config_places s tmp (cap_kva c) csrc ec vsrc ev → root_cnode (value ty) = None → vspace (value ty) = None →
  (∃ s1 ec' ev', run_direct tmp (tcb_cap_configure u uc uv) s = Ok tt s1 ∧
    heap s1 !! cap_kva c = Some (OTcb (configured ec' ev' ty)) ∧ ec'.(cap) = ec.(cap) ∧ ev'.(cap) = ev.(cap)) ∧
  run_direct tmp (tcb_cap_configure u uc uv ;; tcb_cap_configure u uc uv) s = Panic PAssert.
Proof.
  intros Hrun Hpc Hp Hr Hu Huc Huv Hy Hyx Htx Hcp Hc0 Hv0. pose proof Hrun as [Hcur Ht Hroot _].
  destruct (configure_call s tmp x t root u slot c ty uc csrc ec uv vsrc ev Hrun Hp Hr Hu Huc Huv Hy Hyx Hcp Htx Hc0 Hv0)
    as (h' & ec' & ev' & Hrun1 & Hc & Hv & Hy1 & Hx1 & Hl & Hp1).
  split; [by eexists _, ec', ev'|]. rewrite run_direct_bind, (bind_Ok _ _ _ _ _ Hrun1).
  set (t1 := after_call _ _ t) in Hx1.
  assert (runs_in (s <| heap := h' |>) x t1 root) as Hrun2.
  { split; [done|done|done|]. change (sepc (registers (value t)) + 4 + 4 < W). lia. }
  assert (keeps_caps (heap s) h') as Hk.
  { eapply linked_keeps_caps; [done|]. intros a Ha. destruct Hcp as [(_ & _ & Hte) _ _ _].
    assert (a = tmp ∨ a = cap_kva c ∨ a = x) as [->|[->| ->]] by set_solver; [done|..]; unfold entry_at, slot_at; by rewrite ?Hy, ?Ht. }
  unfold tcb_cap_configure. rewrite run_direct_bind. unfold call. cbn [run_direct]. unfold bind, try_.
  by rewrite (configure_again (s <| heap := h' |>) tmp x t1 root u slot c (configured ec' ev' ty) uc csrc ec uv vsrc ev
    Hrun2 Hp1 Hr (holds_keeps _ _ _ _ _ _ _ Hk Hu) (holds_keeps _ _ _ _ _ _ _ Hk Huc) (holds_keeps _ _ _ _ _ _ _ Hk Huv)
    Hy1 Hyx (proj2 (proj2 (cp_src _ _ _ _ _ _ _ Hcp)))).
Qed.

(** ** The message buffer *)

Section Buffer.
Context (s : KState) (tmp x : Z) (t : ThreadControlBlock) (root : CapabilityData).
Context (u : UserCap TcbData) (slot : Z) (c : CapabilityData) (ty : ThreadControlBlock).
Context (up : UserCap PageData) (psrc : Z) (ep : CNodeEntry).
Context (Hrun : runs_in s x t root) (Hp : radix_pos (heap s)) (Hr : 0 < radix root).
Context (Hu : holds (heap s) root u CapabilityType.Tcb slot c).
Context (Hup : holds (heap s) root up CapabilityType.Page psrc ep.(cap)) (Hep : entry_at (heap s) psrc = Some ep).
Context (Hy : heap s !! cap_kva c = Some (OTcb ty)) (Hyx : cap_kva c ≠ x).

Notation req := (user_set_ipc_buffer (cap_ptr u) (cap_depth u) (cap_ptr up) (cap_depth up)).
Notation s1 := (requesting s x t req).
Notation r := (req (registers (value t))).

Lemma requesting_entry a : entry_at (heap s1) a = entry_at (heap s) a.
Proof. pose proof Hrun as [_ Ht _ _]. unfold entry_at. by rewrite requesting_slots. Qed.
Lemma buffer_handled :
  syscall_body tmp (a7 r) r s1 =
    (let* page_cap_new := derive PageCap ep.(cap) in set_ipc_buffer tmp (cap_kva c) page_cap_new psrc ;;; ret None) s1.
Proof.
  pose proof Hrun as [_ Ht _ _]. assert (∀ b, slot_at (heap s1) b = slot_at (heap s) b) as Hsl by (intros b; by apply requesting_slots).
  refine (eq_trans (ecall_dispatch _ _ InvLabel.TcbSetIpcBuffer _ _ _ _ SysCallNo.Call _ tmp s1 ltac:(done)) _).
  refine (eq_trans (handle_held tmp s x t root u _ slot c _ _ _ Hrun Hp Hr Hu) _).
  cbn [dispatch]. unfold invoke_tcb. rewrite (bind_Ok _ _ _ _ _ (slot_cap_Ok _ _ _ _ _ _ (holds_slots _ _ _ _ _ _ _ Hsl Hu))).
  rewrite (bind_Ok _ _ _ (psrc, ep.(cap)) s1).
  2: { apply (holds_lookup s1 root up); [|done|by apply (holds_slots (heap s))]. intros a e. rewrite Hsl. apply Hp. }
  unfold tcb_set_ipc_buffer. rewrite bind_assoc.
  rewrite (bind_Ok _ _ _ _ _ (read_entry_Ok s1 psrc ep (entry_at_slot _ _ _ (eq_trans (requesting_entry psrc) Hep)))). by rewrite bind_assoc.
Qed.

(** A mapped page becomes the buffer. *)
Lemma set_buffer_call :
  is_mapped ep.(cap) = true → ipc_buffer (value ty) = None → tmp ≠ x → tmp ∉ [cap_kva c; psrc] → is_kva tmp → is_kva psrc →
  next_live (heap s) psrc tmp ep →
  ∃ h' e, run_direct tmp (tcb_cap_set_ipc_buffer u up) s = Ok tt (s <| heap := h' |>) ∧
    h' !! cap_kva c = Some (OTcb (ty <| value ::= λ v, v <| ipc_buffer := Some e |> |>)) ∧ cap_kva e.(cap) = cap_kva ep.(cap) ∧
    h' !! x = Some (OTcb (after_call req (inl None) t)) ∧ linked [tmp; cap_kva c; x] (heap s) h'.
Proof.
  intros Hm Hb0 Htx Htn Hkt Hkp Hnl. pose proof Hrun as [_ Ht _ _].
  assert (heap s1 !! cap_kva c = Some (OTcb ty)) as Hy1 by (unfold requesting; by rewrite heap_set, lookup_insert_ne).
  destruct (install_Ok ipc_buffer (λ e t, t <| ipc_buffer := Some e |>) s1 tmp (cap_kva c) ty ((cap_replicate ep.(cap)) <| cap_dep_val := 0 |>) psrc ep)
    as (h2 & e & H2 & Hc & _ & Hy2 & Hl & _); try done; [set_solver|set_solver|by rewrite requesting_entry|by apply requesting_next_live|].
  assert (h2 !! x = heap s1 !! x) as Hx2.
  { apply (ln_other _ _ _ Hl); [set_solver|]. unfold entry_at, slot_at, requesting. by rewrite heap_set, lookup_insert_eq. }
  assert (syscall_body tmp (a7 r) r s1 = Ok None (s1 <| heap := h2 |>)) as Hb.
  { refine (eq_trans buffer_handled _). rewrite (bind_Ok _ _ _ ((cap_replicate ep.(cap)) <| cap_dep_val := 0 |>) s1).
    - by rewrite (bind_Ok _ _ _ _ _ H2).
    - change (page_derive ep.(cap) s1 = Ok ((cap_replicate ep.(cap)) <| cap_dep_val := 0 |>) s1). unfold page_derive, guard. by rewrite Hm. }
  pose proof (run_direct_call _ _ _ _ _ (direct_call_answers tmp req s x t root None _ Hrun eq_refl Hb Hx2)) as Hcall.
  exists (<[x := OTcb (after_call req (inl None) t)]> h2), e. split_and!; try done.
  - unfold tcb_cap_set_ipc_buffer. rewrite run_direct_bind, (bind_Ok _ _ _ _ _ Hcall). unfold requesting. by rewrite heap_set, !heap_set_set.
  - by rewrite lookup_insert_ne.
  - by rewrite Hc.
  - apply lookup_insert_eq.
  - by eapply linked_requesting.
Qed.

(** A page that is not mapped is refused, and nothing changes but the registers
    of the caller. *)
Lemma set_buffer_unmapped :
  is_mapped ep.(cap) = false →
  ∃ t', run_direct tmp (tcb_cap_set_ipc_buffer u up) s =
    Err (ErrKind.PageTableNotMappedYet, 0) (s <| heap := <[x := OTcb t']> (heap s) |>).
Proof.
  intros Hm.
  assert (syscall_body tmp (a7 r) r s1 = Err (kerr ErrKind.PageTableNotMappedYet) s1) as Hb.
  { refine (eq_trans buffer_handled _). unfold bind at 1.
    assert (derive PageCap ep.(cap) s1 = Err (kerr ErrKind.PageTableNotMappedYet) s1) as ->; [|done].
    change (page_derive ep.(cap) s1 = Err (kerr ErrKind.PageTableNotMappedYet) s1). unfold page_derive, guard. by rewrite Hm. }
  destruct (direct_call_Err tmp req s x t root _ (ErrKind.PageTableNotMappedYet, 0) s1 Hrun eq_refl Hb eq_refl) as (t3 & Hd); [done|].
  exists t3. unfold tcb_cap_set_ipc_buffer. rewrite run_direct_bind. unfold call. cbn [run_direct]. unfold bind, try_. rewrite Hd.
  transitivity (Err (A := unit) (ErrKind.PageTableNotMappedYet, 0) (s1 <| heap := <[x := OTcb t3]> (heap s1) |>)); [done|].
  unfold requesting. by rewrite heap_set, heap_set_set, insert_insert_eq.
Qed.

(** A thread that has a buffer makes the kernel panic. *)
Lemma set_buffer_twice :
  is_mapped ep.(cap) = true → ipc_buffer (value ty) ≠ None → run_direct tmp (tcb_cap_set_ipc_buffer u up) s = Panic PAssert.
Proof.
  intros Hm Hb0. assert (heap s1 !! cap_kva c = Some (OTcb ty)) as Hy1 by (unfold requesting; by rewrite heap_set, lookup_insert_ne).
  assert (syscall_body tmp (a7 r) r s1 = Panic PAssert) as Hb.
  { refine (eq_trans buffer_handled _). rewrite (bind_Ok _ _ _ ((cap_replicate ep.(cap)) <| cap_dep_val := 0 |>) s1).
    - change (set_ipc_buffer tmp (cap_kva c)) with (install ipc_buffer (λ e t, t <| ipc_buffer := Some e |>) tmp (cap_kva c)).
      unfold bind at 1. by rewrite (install_twice _ _ s1 tmp (cap_kva c) ty).
    - change (page_derive ep.(cap) s1 = Ok ((cap_replicate ep.(cap)) <| cap_dep_val := 0 |>) s1). unfold page_derive, guard. by rewrite Hm. }
  unfold tcb_cap_set_ipc_buffer. rewrite run_direct_bind. unfold call. cbn [run_direct]. unfold bind, try_.
  by rewrite (direct_call_panics tmp req s x t root PAssert Hrun Hb).
Qed.
End Buffer.
End Layout.
