(* ===== verification/RootProg.v ===== *)
(** * The root server and the programs it starts

    [rootserver/src/{boot_info,elf,rootserver}.rs], [simple/src/simple.rs] and
    the output of [libzoea/src/lib.rs], as programs of [UserProg]: the root
    server creates objects, maps pages, loads a second program from an ELF
    image, starts a child thread and exchanges signals and messages with it. *)

From Stdlib Require Import String Ascii.
From S2P Require Import Prelude Shared Address Objects Riscv LinkedList Capability PageTable CNode.
From S2P Require Import Thread RoundRobin Ipc Untyped Syscall Elf UserLib UserProg CapLib.
Open Scope prog_scope.

(** ** Output ([libzoea/src/lib.rs]) *)

(** The bytes of a literal. *)
Definition text (s : string) : list Z := (λ c, Z.of_N (N_of_ascii c)) <$> list_ascii_of_string s.

(** [SyscallWriter::write_str]: stops at the first error, which [_print] ignores. *)
Fixpoint write_str (bytes : list Z) : Prog bool :=
  match bytes with
  | [] => PRet true
  | ch :: bytes' =>
      let! r := ptry (call (put_char ch)) in
      match r with inl _ => write_str bytes' | inr _ => PRet false end
  end.
Definition println (bytes : list Z) : Prog unit := write_str (bytes ++ [10]) ;; PRet tt.

(** The texts [core::fmt] makes of the values that are printed. *)
Record Formatter := {
  fmt_boot_info : BootInfo → list Z;
  fmt_usize : Z → list Z;
  fmt_failed : SysCallFailed → list Z;
  fmt_notification : UserCap NotificaitonData → list Z;
  fmt_endpoint : UserCap EndpointData → list Z;
  fmt_panic : panic_kind → list Z;
}.

(** ** [boot_info.rs] *)

Definition ROOT_CNODE_RADIX : Z := 18.
Definition get_untyped (boot_info : BootInfo) : Prog (UserCap UntypedData) :=
  match boot_info.(untyped_infos) !! 0%nat with
  | Some info => PRet (from_untyped_info ROOT_CNODE_RADIX info)
  | None => PPanic PIndex
  end.
Definition get_root_cnode (boot_info : BootInfo) : UserCap CNodeData :=
  {| cap_ptr := boot_info.(root_cnode_idx); cap_depth := ROOT_CNODE_RADIX;
     cap_data := {| cn_radix := ROOT_CNODE_RADIX; cursor := boot_info.(firtst_empty_idx) |} |}.
Definition get_root_vspace (boot_info : BootInfo) : UserCap PageTableData :=
  {| cap_ptr := boot_info.(root_vspace_idx); cap_depth := ROOT_CNODE_RADIX;
     cap_data := {| ptd_mapped_address := 0; ptd_is_root := true; ptd_is_mapped := true |} |}.

(** ** [elf.rs] *)

(** The effects of user programs, for the loader of [Elf]. *)
#[export] Instance Prog_effect : Effect Prog := {
  eret _ := PRet; ebind _ _ := pbind; eundef _ := PUndef; eout_of_fuel _ := POutOfFuel;
  eeq _ := peq;
}.
#[export] Instance Prog_effect_laws : EffectLaws Prog.
Proof. split; [apply _|apply _|]. intros A B a f. simpl. reflexivity. Qed.

Record ElfProgramMapper := {
  em_cnode : UserCap CNodeData;
  em_ut : UserCap UntypedData;
  em_root_table : UserCap PageTableData;
  em_target_root_vspace : UserCap PageTableData;
  em_free_address : Z;
}.
#[export] Instance ElfProgramMapper_eta : Eta ElfProgramMapper := λ m,
  {| em_cnode := em_cnode m; em_ut := em_ut m; em_root_table := em_root_table m;
     em_target_root_vspace := em_target_root_vspace m; em_free_address := em_free_address m |}.

(** A mapper that failed is dropped: its state does not outlive an error. *)
Definition mapper_get_slot (self : ElfProgramMapper) : Prog (UserSlot * ElfProgramMapper) :=
  let! '(slot, cnode) := pure_ (get_slot self.(em_cnode)) in
  PRet (slot, self <| em_cnode := cnode |>).

(** [map_page_tables]: a failed [map] is tried again with another table, until
    no slot is left. *)
Fixpoint user_map_page_tables (fuel : nat) (self : ElfProgramMapper) (vaddr : Z) : Prog ElfProgramMapper :=
  match fuel with
  | O => POutOfFuel
  | S fuel' =>
      let! '(table_slot, self) := mapper_get_slot self in
      let! page_table_cap := retype_single_with_fixed_size PageTableData self.(em_ut) table_slot in
      let! r := ptry (table_cap_map page_table_cap self.(em_target_root_vspace) vaddr) in
      match r with
      | inl level => if level =? 0 then PRet self else user_map_page_tables fuel' self vaddr
      | inr _ => user_map_page_tables fuel' self vaddr
      end
  end.
(** One round per free slot, and one to find that there is none. *)
Definition slots_left (c : UserCap CNodeData) : nat :=
  Z.to_nat (2 ^ cn_radix (cap_data c) - cursor (cap_data c)).
Definition user_tables_fuel (self : ElfProgramMapper) : nat := S (slots_left self.(em_cnode)).

Definition map_page_with_tables (self : ElfProgramMapper) (vaddr : Z) (flags : PageFlags)
    : Prog (UserCap PageData * ElfProgramMapper) :=
  let! '(slot, self) := mapper_get_slot self in
  let! page_cap := retype_single_with_fixed_size PageData self.(em_ut) slot in
  let! r := ptry (page_cap_map_user page_cap self.(em_target_root_vspace) vaddr flags) in
  match r with
  | inl page_cap => PRet (page_cap, self)
  | inr (ErrKind.PageTableNotMappedYet, _) =>
      let! self := user_map_page_tables (user_tables_fuel self) self vaddr in
      let! page_cap := page_cap_map_user page_cap self.(em_target_root_vspace) vaddr flags in
      PRet (page_cap, self)
  | inr _ => PThrow (ErrKind.InvalidOperation, 0)
  end.

(** [map_page]: the new mapper and the bytes of the file that remain. *)
Definition user_map_page_bytes (self : ElfProgramMapper) (vaddr p_start_addr : Z) (flags : PageFlags)
    (file_sz_rem offset : Z) : Prog (ElfProgramMapper * Z) :=
  let! '(page_cap, self) := map_page_with_tables self vaddr flags in
  if file_sz_rem =? 0 then PRet (self, file_sz_rem)
  else
    let! '(r, cnode) := cnode_cap_copy self.(em_cnode) page_cap in
    let self := self <| em_cnode := cnode |> in
    match r with
    | inr e => PThrow e
    | inl tmp_page_cap =>
        let copy_size := Z.min PAGE_SIZE file_sz_rem in
        let! tmp_page_cap :=
          page_cap_map_user tmp_page_cap self.(em_root_table) self.(em_free_address) flags_readandwrite in
        PCopy (p_start_addr + offset) self.(em_free_address) copy_size
          (let rem := Z.max 0 (file_sz_rem - PAGE_SIZE) in
           let! tmp_page_cap := page_cap_unmap_user tmp_page_cap self.(em_root_table) in
           cnode_cap_delete self.(em_cnode) tmp_page_cap ;;
           PRet (self, rem))
    end.
Fixpoint user_map_pages (vaddr p_start_addr : Z) (flags : PageFlags) (pages : list Z)
    (self : ElfProgramMapper) (file_sz_rem : Z) : Prog ElfProgramMapper :=
  match pages with
  | [] => PRet self
  | page_idx :: pages' =>
      let! offset := pure_ (usize_mul PAGE_SIZE page_idx) in
      let! vaddr_n := pure_ (usize_add vaddr offset) in
      let! '(self, rem) := user_map_page_bytes self vaddr_n p_start_addr flags file_sz_rem offset in
      user_map_pages vaddr p_start_addr flags pages' self rem
  end.
Definition user_map_program (self : ElfProgramMapper) (vaddr p_start_addr p_mem_size p_file_size : Z)
    (flags : PageFlags) : Prog ElfProgramMapper :=
  let! up := pure_ (align_up p_mem_size PAGE_SIZE) in
  user_map_pages vaddr p_start_addr flags (seqZ 0 (up / PAGE_SIZE)) self p_file_size.

(** [impl ProgramMapper for ElfProgramMapper] *)
Definition user_get_flags (flag : Z) : PageFlags :=
  {| pg_writable := is_writable flag; pg_readable := is_readable flag; pg_executable := is_executable flag |}.
Definition UserMapper : ProgramMapper Prog ElfProgramMapper := {|
  Flag := PageFlags;
  mapper_get_flags := user_get_flags;
  mapper_map_program := user_map_program;
|}.

Definition ElfProgramMapper_new (cnode : UserCap CNodeData) (ut : UserCap UntypedData)
    (root_table target_root_vspace : UserCap PageTableData) (free_address : Z) : ElfProgramMapper :=
  {| em_cnode := cnode; em_ut := ut; em_root_table := root_table;
     em_target_root_vspace := target_root_vspace; em_free_address := free_address |}.
Definition try_new (cnode : UserCap CNodeData) (ut : UserCap UntypedData)
    (root_table : UserCap PageTableData) (free_address : Z) : Prog ElfProgramMapper :=
  let! '(table_slot, cnode) := pure_ (get_slot cnode) in
  let! target_root_vspace := retype_single_with_fixed_size PageTableData ut table_slot in
  let! target_root_vspace := table_cap_make_as_root target_root_vspace in
  PRet (ElfProgramMapper_new cnode ut root_table target_root_vspace free_address).
Definition mapper_finalize (self : ElfProgramMapper)
    : UserCap CNodeData * UserCap UntypedData * UserCap PageTableData :=
  (self.(em_cnode), self.(em_ut), self.(em_target_root_vspace)).

(** ** [rootserver.rs] *)

(** What the linker places: the image of the second program and the bytes of
    memory, the stack of the child and the child's code. *)
Record RootImage := {
  ri_bytes : Z → Z;
  ri_simple : Z;        (* SIMPLE *)
  ri_stack_bottom : Z;  (* &STACK[511] *)
  ri_children : Z;      (* children *)
}.

(** The [Result] of [copy] and [mint], passed on with [?]. *)
Definition question {A B} (r : (A + SysCallFailed) * B) : Prog (A * B) :=
  match r with (inl a, b) => PRet (a, b) | (inr e, _) => PThrow e end.

(** Retyping into the next slot of a node. *)
Definition retype_next (T : Type) `{FixedSizeObject T} (untyped : UserCap UntypedData)
    (cnode : UserCap CNodeData) : Prog (UserCap T * UserCap CNodeData) :=
  let! '(slot, cnode) := pure_ (get_slot cnode) in
  let! c := retype_single_with_fixed_size T untyped slot in
  PRet (c, cnode).

Section Programs.
Context (fmt : Formatter) (image : RootImage).

(** The thread is started with no return address: where the source returns
    after an error, there is nothing to return to. At the end it spins. *)
Definition children (regs : Registers) : Prog unit :=
  let not := {| cap_ptr := a0 regs; cap_depth := as_u32 (a1 regs); cap_data := NotificaitonUnit |} in
  let ep := {| cap_ptr := a2 regs; cap_depth := as_u32 (a3 regs); cap_data := EndpointUnit |} in
  println (text "children: notification is " ++ fmt_notification fmt not) ;;
  println (text "children: ep is " ++ fmt_endpoint fmt ep) ;;
  let! r := ptry (notify_user_send not) in
  match r with
  | inr e => println (text "children failed to send signal: " ++ fmt_failed fmt e) ;; PUndef
  | inl _ =>
  println (text "children: send signal") ;;
  println (text "child: call recv") ;;
  let! r := ptry (ep_user_recive ep) in
  match r with
  | inr e => println (text "children failed to recv: " ++ fmt_failed fmt e) ;; PUndef
  | inl _ =>
  println (text "child: recv done") ;;
  println (text "child: call send") ;;
  let! r := ptry (ep_user_send ep) in
  match r with
  | inr e => println (text "children failed to send(1): " ++ fmt_failed fmt e) ;; PUndef
  | inl _ =>
  println (text "child: send done") ;;
  println (text "child: call send") ;;
  let! r := ptry (ep_user_send ep) in
  match r with
  | inr e => println (text "children failed to send(2): " ++ fmt_failed fmt e) ;; PUndef
  | inl _ => println (text "child: send done")
  end end end end.

(** Create the objects, map a page to write to and a page to try out, load the
    second program: the part of [try_main] up to [elf_mapper.finalize()]. *)
Record RootObjects := {
  ro_cnode : UserCap CNodeData;
  ro_vspace : UserCap PageTableData;
  ro_child_tcb : UserCap TcbData;
  ro_notify : UserCap NotificaitonData;
  ro_endpoint : UserCap EndpointData;
  ro_mapper : ElfProgramMapper;
}.
Definition root_setup (boot_info : BootInfo) : Prog RootObjects :=
  let root_cnode := get_root_cnode boot_info in
  let! untyped := get_untyped boot_info in
  let root_vspace := get_root_vspace boot_info in
  println (text "boot info: " ++ fmt_boot_info fmt boot_info) ;;
  let! '(child_tcb, root_cnode) := retype_next TcbData untyped root_cnode in
  let! '(notify, root_cnode) := retype_next NotificaitonData untyped root_cnode in
  let! '(lv2_slot, root_cnode) := pure_ (get_slot root_cnode) in
  let! lv2_cnode := retype_single_ut CNodeData untyped lv2_slot 18 in
  let! '(page, root_cnode) := retype_next PageData untyped root_cnode in
  let! '(page_table, root_cnode) := retype_next PageTableData untyped root_cnode in
  let! '(endpoint, root_cnode) := retype_next EndpointData untyped root_cnode in
  let vaddr := 0x0000000001000000 - 0x1000 in
  table_cap_map page_table root_vspace vaddr ;;
  let! page := page_cap_map_user page root_vspace vaddr flags_readandwrite in
  PReadBuffer vaddr (λ b, PWriteBuffer vaddr (b <| tag := 3 |>) (
  tcb_cap_set_ipc_buffer child_tcb page ;;
  let vaddr := 0x0000000001000000 - 0x2000 in
  let! '(page, root_cnode) := retype_next PageData untyped root_cnode in
  let! page := page_cap_map_user page root_vspace vaddr flags_readonly in
  let! page := page_cap_unmap_user page root_vspace in
  let! elf_mapper := try_new lv2_cnode untyped root_vspace vaddr in
  let! elf_mapper := map_self UserMapper (ri_bytes image) (ri_simple image) elf_mapper in
  println (text "[TEST][PASS] ROOTSERVER_MAPPED_SIMPLE") ;;
  println (text "mapping was done") ;;
  PRet {| ro_cnode := root_cnode; ro_vspace := root_vspace; ro_child_tcb := child_tcb;
          ro_notify := notify; ro_endpoint := endpoint; ro_mapper := elf_mapper |})).

Definition try_main (boot_info : BootInfo) : Prog unit :=
  let! o := root_setup boot_info in
  let root_cnode := ro_cnode o in
  let new_entry := e_entry (hdr_at (ri_bytes image) (ri_simple image)) in
  let '(lv2_cnode, untyped, root_vspace_for_new_proc) := mapper_finalize (ro_mapper o) in
  let! '(new_proc, lv2_cnode) := retype_next TcbData untyped lv2_cnode in
  let! r := cnode_cap_copy lv2_cnode (ro_notify o) in
  let! '(_, lv2_cnode) := question r in
  let! r := cnode_cap_mint root_cnode (ro_notify o) 4 in
  let! '(minted_not_1, root_cnode) := question r in
  let! r := cnode_cap_mint root_cnode (ro_notify o) 8 in
  let! '(minted_not_2, root_cnode) := question r in
  let! r := cnode_cap_mint root_cnode (ro_endpoint o) 0xdeadbeef in
  let! '(minted_ep, root_cnode) := question r in
  tcb_cap_configure (ro_child_tcb o) root_cnode (ro_vspace o) ;;
  tcb_cap_write_regs (ro_child_tcb o)
    (Registers_null <| sp := ri_stack_bottom image |> <| sepc := ri_children image |>
       <| a0 := cap_ptr minted_not_1 |> <| a1 := cap_depth minted_not_1 |>
       <| a2 := cap_ptr minted_ep |> <| a3 := cap_depth minted_ep |>)
    (ipc_buffer_addr boot_info) ;;
  call traverse ;;
  tcb_cap_resume (ro_child_tcb o) ;;
  println (text "parnet: wait") ;;
  let! v := notify_user_wait (ro_notify o) in
  println (text "parent: wake up " ++ fmt_usize fmt v) ;;
  notify_user_send minted_not_2 ;;
  println (text "parent: call send") ;;
  ep_user_send (ro_endpoint o) ;;
  println (text "parnet: send done") ;;
  println (text "parent: call recv") ;;
  ep_user_recive (ro_endpoint o) ;;
  println (text "parnet: recv done") ;;
  println (text "parent: call recv") ;;
  ep_user_recive (ro_endpoint o) ;;
  println (text "parnet: recv done") ;;
  tcb_cap_configure new_proc lv2_cnode root_vspace_for_new_proc ;;
  tcb_cap_write_regs new_proc (Registers_null <| sepc := new_entry |>) (ipc_buffer_addr boot_info) ;;
  tcb_cap_resume new_proc ;;
  println (text "[TEST][PASS] ROOTSERVER_RESUMED_SIMPLE").

(** [main]; the reference to the boot information is its address. *)
Definition main (boot_info : Z) : Prog unit :=
  PReadBootInfo boot_info (λ b,
    let! r := ptry (try_main b) in
    match r with
    | inr e =>
        println (text "[TEST][FAIL] ROOTSERVER_MAIN: " ++ fmt_failed fmt e) ;;
        println (text "rootserver failed: " ++ fmt_failed fmt e)
    | inl _ => println (text "[TEST][PASS] ROOTSERVER_DONE")
    end).
(** The [panic_handler] ([ctrl1.rs]) prints a message and spins. *)
Fixpoint panic_handler (p : Prog unit) : Prog unit :=
  match p with
  | PPanic k => println (fmt_panic fmt k)
  | PCall req k => PCall req (λ r, panic_handler (k r))
  | PReadBuffer v k => PReadBuffer v (λ b, panic_handler (k b))
  | PWriteBuffer v b k => PWriteBuffer v b (panic_handler k)
  | PReadBootInfo v k => PReadBootInfo v (λ b, panic_handler (k b))
  | PCopy a b n k => PCopy a b n (panic_handler k)
  | _ => p
  end.
(** [exit], and [start], which calls [main] and then [exit]. *)
Definition exit : Prog unit := PPanic PExplicit.
Definition root_start (regs : Registers) : Prog unit := panic_handler (main (a0 regs) ;; exit).
End Programs.

(** ** [simple.rs] *)

Definition simple_main : Prog unit :=
  println (text "[TEST][PASS] SIMPLE_MAIN") ;;
  println (text "Hello, world, from, simple!").
(** Here [exit] spins. *)
Definition simple_start : Prog unit := simple_main.
