(* ===== verification/RootProps.v ===== *)
(** * The root server always ends

    Whatever the kernel answers and whatever memory holds: the loops of the
    root server end, those over page tables because every round takes a slot
    of the node, and no slot is given back. *)

From S2P Require Import Prelude Shared Address Objects Riscv LinkedList Capability PageTable CNode.
From S2P Require Import Thread RoundRobin Ipc Untyped Syscall Elf UserLib UserProg CapLib RootProg.

(** No branch of the program, for no answer to its calls, is cut off by the
    fuel of a loop; each ends in an error, a panic or a result that satisfies
    [P]. *)
Fixpoint ends_in {A} (P : A → Prop) (p : Prog A) : Prop :=
  match p with
  | PRet a => P a
  | PThrow _ | PPanic _ | PUndef => True
  | POutOfFuel => False
  | PCall _ k => ∀ r, ends_in P (k r)
  | PReadBuffer _ k => ∀ b, ends_in P (k b)
  | PWriteBuffer _ _ k => ends_in P k
  | PReadBootInfo _ k => ∀ b, ends_in P (k b)
  | PCopy _ _ _ k => ends_in P k
  end.
Definition ends {A} (p : Prog A) : Prop := ends_in (λ _, True) p.

Lemma ends_in_bind {A B} (P : A → Prop) (Q : B → Prop) (p : Prog A) (f : A → Prog B) :
  ends_in P p → (∀ a, P a → ends_in Q (f a)) → ends_in Q (pbind p f).
Proof. induction p; simpl; intros; auto. Qed.
Lemma ends_bind {A B} (p : Prog A) (f : A → Prog B) :
  ends p → (∀ a, ends (f a)) → ends (pbind p f).
Proof. intros Hp Hf. eapply ends_in_bind; [exact Hp|intros; apply Hf]. Qed.
Lemma ends_try {A} (p : Prog A) : ends p → ends (ptry p).
Proof. unfold ends. induction p; simpl; intros; auto. Qed.
Lemma ends_call req : ends (call req).
Proof. intros []; exact I. Qed.

(** Arithmetic has no loops. *)
Definition no_loop {A} (m : M unit SysCallFailed A) : Prop := m tt ≠ OutOfFuel.
Lemma ends_pure {A} (m : M unit SysCallFailed A) : no_loop m → ends (pure_ m).
Proof. unfold ends, no_loop, pure_. by destruct (m tt). Qed.
Lemma no_loop_bind {A B} (m : M unit SysCallFailed A) (f : A → M unit SysCallFailed B) :
  no_loop m → (∀ a, no_loop (f a)) → no_loop (bind m f).
Proof. unfold no_loop, bind. intros Hm Hf. destruct (m tt) as [a []| | | |]; (apply Hf || done). Qed.

Ltac head_symbol t := lazymatch t with ?f _ => head_symbol f | _ => t end.
Ltac no_loop :=
  intros; cbv beta zeta;
  lazymatch goal with
  | |- no_loop (bind _ _) => apply no_loop_bind; [no_loop|intros; no_loop]
  | |- no_loop (ret _) => discriminate
  | |- no_loop (throw _) => discriminate
  | |- no_loop (panic _) => discriminate
  | |- no_loop (if ?x then _ else _) => destruct x; no_loop
  | |- no_loop ?m => let h := head_symbol m in unfold h; no_loop
  end.
Create HintDb ends.
Ltac ends :=
  intros; cbv beta zeta;
  first
    [ solve [auto with ends nocore]
    | lazymatch goal with
      | |- ends (pbind _ _) => apply ends_bind; [ends|intros; ends]
      | |- ends (ptry _) => apply ends_try; ends
      | |- ends (call _) => apply ends_call
      | |- ends (pure_ _) => apply ends_pure; no_loop
      | |- ends (PRet _) => exact I
      | |- ends (PThrow _) => exact I
      | |- ends (PPanic _) => exact I
      | |- ends (PReadBuffer ?v ?k) => change (∀ b, ends (k b)); ends
      | |- ends (PWriteBuffer ?v ?b ?k) => change (ends k); ends
      | |- ends (PReadBootInfo ?v ?k) => change (∀ b, ends (k b)); ends
      | |- ends (PCopy ?a ?b ?n ?k) => change (ends k); ends
      | |- ends (match ?x with _ => _ end) => destruct x; ends
      | |- ends ?p => let h := head_symbol p in unfold h; ends
      end ].

Lemma write_str_ends bytes : ends (write_str bytes).
Proof. induction bytes; cbn [write_str]; ends. Qed.
#[export] Hint Resolve write_str_ends : ends.
Lemma panic_handler_ends fmt p : ends p → ends (panic_handler fmt p).
Proof. unfold ends. induction p; intros Hp; try exact I; simpl in *; auto. change (ends (println (fmt_panic fmt k))). ends. Qed.

(** ** The page tables *)

(** A round takes a slot. *)
Lemma mapper_get_slot_takes self :
  ends_in (λ r, S (slots_left (em_cnode (snd r))) = slots_left (em_cnode self)) (mapper_get_slot self).
Proof.
  unfold mapper_get_slot, pure_, get_slot, get_size, usize_pow2, usize_add, bind, slots_left.
  destruct (_ <? 64); [|done]. cbn [ret]. destruct (Z.leb_spec (2 ^ cn_radix (cap_data (em_cnode self))) (cursor (cap_data (em_cnode self)))); [done|].
  destruct (_ <? W); [|done]. simpl. lia.
Qed.
Lemma user_map_page_tables_ends n self vaddr :
  (slots_left self.(em_cnode) < n)%nat → ends (user_map_page_tables n self vaddr).
Proof.
  revert self. induction n as [|n IH]; intros self Hn; [lia|]. cbn [user_map_page_tables].
  eapply ends_in_bind; [apply mapper_get_slot_takes|]. intros [slot self'] Hs. simpl in Hs.
  apply ends_bind; [ends|]. intros c. apply ends_bind; [ends|].
  intros [level|e]; [destruct (level =? 0); [exact I|]|]; apply IH; lia.
Qed.
Lemma user_tables_end self vaddr : ends (user_map_page_tables (user_tables_fuel self) self vaddr).
Proof. apply user_map_page_tables_ends. unfold user_tables_fuel. lia. Qed.
#[export] Hint Resolve user_tables_end : ends.

(** ** The image *)

Lemma user_map_pages_ends vaddr start flags pages self rem :
  ends (user_map_pages vaddr start flags pages self rem).
Proof. revert self rem. induction pages as [|i pages IH]; intros; cbn [user_map_pages]; ends. Qed.
#[export] Hint Resolve user_map_pages_ends : ends.

Lemma user_map_headers_end bytes n it st :
  (Z.to_nat (e_phnum (ph_header it) - ph_index it) < n)%nat →
  ends (map_headers UserMapper bytes n it st).
Proof.
  revert it st. induction n as [|n IH]; intros it st Hn; [lia|]. cbn [map_headers].
  unfold pheaders_next. destruct (Z.leb_spec (e_phnum (ph_header it)) (ph_index it)); [exact I|].
  apply ends_bind; [|intros st'; apply IH; simpl; lia].
  unfold hdr_map_program. destruct (program_type_of _) as [t|]; [|exact I].
  destruct (negb _); [exact I|]. cbn [mapper_map_program UserMapper]. ends.
Qed.
Lemma user_map_self_ends bytes addr st :
  (∀ a, 0 ≤ bytes a < 256) → ends (map_self UserMapper bytes addr st).
Proof.
  intros Hb. apply user_map_headers_end. pose proof (read_le_bound bytes 2 (addr + 56) Hb) as Hn.
  change (256 ^ Z.of_nat 2) with (2 ^ 16) in Hn.
  change (0 ≤ e_phnum (hdr_at bytes addr) < 2 ^ 16) in Hn.
  cbn [ph_header ph_index PHeaders_new]. unfold HEADERS_FUEL. lia.
Qed.

(** C15: the root server ends. Whatever image it loads, whatever the boot
    information and its memory hold, and whatever the kernel answers to each of
    its calls, it comes to its end, panics, or reads a header type the source's
    enumeration lacks, after finitely many calls: the headers of the image are
    finitely many, and the loop that creates missing page tables, which goes on
    when a call fails, uses up a slot of its node in every round. *)
Theorem root_server_ends fmt image regs :
  (∀ a, 0 ≤ ri_bytes image a < 256) → ends (root_start fmt image regs).
Proof. intros Hb. pose proof (user_map_self_ends (ri_bytes image) (ri_simple image)). apply panic_handler_ends. ends. Qed.
