(* ===== verification/System.v ===== *)
(** * The whole system

    Kernel and user threads together: a thread runs its program up to a system
    call, the kernel handles the trap and schedules, and a thread that runs
    again finds the kernel's answer in its registers. Timer interrupts come at
    any time. The steps are a relation; [sys_run] follows one of them after the
    other, and can be evaluated. *)

From S2P Require Import Prelude Shared Address Objects Riscv LinkedList Capability PageTable CNode.
From S2P Require Import Thread RoundRobin Ipc Untyped Syscall Trap TrapProps BootRun UserLib UserProg.

(** What a thread does next: go on with a program, or look at the answer to its
    last call. *)
Inductive Code :=
  | Running (p : Prog unit)
  | Awaiting (k : SysCallFailed + Z → Prog unit).

Record Sys := { kern : KState; code : gmap Z Code }.
#[export] Instance Sys_eta : Eta Sys := λ s, {| kern := kern s; code := code s |}.

(** A memory access of a running program, and what is left of the program. *)
Definition access (p : Prog unit) : option (M KState SysCallFailed (Prog unit)) :=
  match p with
  | PReadBuffer v k => Some (let* b := read_buffer v in ret (k b))
  | PWriteBuffer v b k => Some (write_buffer v b ;;; ret k)
  | PReadBootInfo v k => Some (let* b := read_boot_info v in ret (k b))
  | PCopy src dst size k => Some (copy_bytes src dst size ;;; ret k)
  | _ => None
  end.

Definition TIMER_INTERRUPT : Z := 2 ^ 63 + SUPREVISORTIMER.

Section System.
Context `{KernelLayout}.
(** Where the kernel's local entries live, and the programs by address space
    ([satp]) and entry point. *)
Context (tmp : Z) (entry : Z → Z → Registers → option (Prog unit)).

Definition with_code (sy : Sys) (s : KState) (c : Code) : Sys :=
  {| kern := s; code := <[current_proc (kern sy) := c]> (code sy) |}.

(** The trap of a call: the thread's registers are in its save area. *)
Definition call_trap (req : Registers → Registers) : K unit :=
  let* current := get_current_tcb in
  modify_tcb current (λ v, v <| registers ::= req |>) ;;;
  handle_trap tmp ECALLUSER.

Inductive sys_step (sy : Sys) : Sys → Prop :=
  | step_call req k s' :
      code sy !! current_proc (kern sy) = Some (Running (PCall req k)) →
      call_trap req (kern sy) = Ok tt s' →
      sys_step sy (with_code sy s' (Awaiting k))
  | step_answer k t :
      code sy !! current_proc (kern sy) = Some (Awaiting k) →
      heap (kern sy) !! current_proc (kern sy) = Some (OTcb t) →
      sys_step sy (with_code sy (kern sy) (Running (k (syscall_result (registers (value t))))))
  | step_start t p :
      code sy !! current_proc (kern sy) = None →
      heap (kern sy) !! current_proc (kern sy) = Some (OTcb t) →
      entry (satp (kern sy)) (sepc (registers (value t))) (registers (value t)) = Some p →
      sys_step sy (with_code sy (kern sy) (Running p))
  | step_access p m p' s' :
      code sy !! current_proc (kern sy) = Some (Running p) →
      access p = Some m → m (kern sy) = Ok p' s' →
      sys_step sy (with_code sy s' (Running p'))
  | step_timer s' :
      handle_trap tmp TIMER_INTERRUPT (kern sy) = Ok tt s' →
      sys_step sy {| kern := s'; code := code sy |}.

(** The step taken when no interrupt comes before it is needed: a program that
    has ended, and the idle thread, wait for the timer. *)
Definition sys_next (sy : Sys) : option Sys :=
  let s := kern sy in
  match code sy !! current_proc s with
  | Some (Running (PCall req k)) =>
      match call_trap req s with Ok _ s' => Some (with_code sy s' (Awaiting k)) | _ => None end
  | Some (Running p) =>
      match access p with
      | Some m => match m s with Ok p' s' => Some (with_code sy s' (Running p')) | _ => None end
      | None =>
          match handle_trap tmp TIMER_INTERRUPT s with
          | Ok _ s' => Some {| kern := s'; code := code sy |} | _ => None end
      end
  | Some (Awaiting k) =>
      match heap s !! current_proc s with
      | Some (OTcb t) => Some (with_code sy s (Running (k (syscall_result (registers (value t))))))
      | _ => None
      end
  | None =>
      match heap s !! current_proc s with
      | Some (OTcb t) =>
          match entry (satp s) (sepc (registers (value t))) (registers (value t)) with
          | Some p => Some (with_code sy s (Running p))
          | None =>
              match handle_trap tmp TIMER_INTERRUPT s with
              | Ok _ s' => Some {| kern := s'; code := code sy |} | _ => None end
          end
      | _ => None
      end
  end.
Fixpoint sys_run (n : nat) (sy : Sys) : option Sys :=
  match n with
  | O => Some sy
  | S n' => match sys_next sy with Some sy' => sys_run n' sy' | None => None end
  end.

Lemma sys_next_step sy sy' : sys_next sy = Some sy' → sys_step sy sy'.
Proof.
  unfold sys_next. intros Hn. destruct (code sy !! current_proc (kern sy)) as [[p|k]|] eqn:Hc.
  - destruct p as [| | | | |req k| | | |]; cbn [access] in Hn.
    6: { destruct (call_trap req (kern sy)) as [[] s'| | | |] eqn:Ht; [|done..].
         injection Hn as <-. by eapply step_call. }
    1-5: destruct (handle_trap tmp TIMER_INTERRUPT (kern sy)) as [[] s'| | | |] eqn:Ht; [|done..];
         injection Hn as <-; by apply step_timer.
    all: match type of Hn with match ?m with _ => _ end = _ => destruct m as [p' s'| | | |] eqn:Hm; [|done..] end;
         injection Hn as <-; by eapply step_access.
  - destruct (heap (kern sy) !! current_proc (kern sy)) as [[|t| | | | |]|] eqn:Ht; try done.
    injection Hn as <-. by apply step_answer.
  - destruct (heap (kern sy) !! current_proc (kern sy)) as [[|t| | | | |]|] eqn:Ht; try done.
    destruct (entry _ _ _) as [p|] eqn:He.
    + injection Hn as <-. by eapply step_start.
    + destruct (handle_trap tmp TIMER_INTERRUPT (kern sy)) as [[] s'| | | |] eqn:Htr; [|done..].
      injection Hn as <-. by apply step_timer.
Qed.
Lemma sys_run_steps n sy sy' : sys_run n sy = Some sy' → rtc sys_step sy sy'.
Proof.
  revert sy. induction n as [|n IH]; intros sy; simpl; [intros [= ->]; reflexivity|].
  destruct (sys_next sy) as [sy1|] eqn:Hn; [|done]. intros Hr.
  eapply rtc_l; [by apply sys_next_step|by apply IH].
Qed.

(** ** The save area belongs to the running thread *)

Lemma keeps_access p m : access p = Some m → Keeps same_cpu m.
Proof. destruct p; cbn [access]; intros [= <-]; keeps. Qed.
Lemma call_trap_reg_base req s s' : call_trap req s = Ok tt s' → reg_base_ok s → reg_base_ok s'.
Proof.
  unfold call_trap. intros Hr Hok. inv_bind Hr. inv_bind Hr. eapply trap_reg_base; [|exact Hr].
  apply keeps_Ok in Hm; [|keeps]. apply keeps_Ok in Hm0; [|keeps].
  eapply same_cpu_ok; [exact Hm0|]. by eapply same_cpu_ok.
Qed.
Lemma sys_step_reg_base sy sy' : sys_step sy sy' → reg_base_ok (kern sy) → reg_base_ok (kern sy').
Proof.
  intros Hs Hok. destruct Hs as [req k s' _ Ht|k t|t p|p m p' s' _ Hp Hm|s' Ht]; try exact Hok.
  - by eapply call_trap_reg_base.
  - pose proof (keeps_access _ _ Hp (kern sy)) as Hk. rewrite Hm in Hk. by eapply same_cpu_ok.
  - by eapply trap_reg_base.
Qed.

(** C12: from the state in which the boot leaves the machine, and whatever the
    threads do and whenever the timer fires, the register save area is always
    that of the current thread: no trap can store the registers of one thread
    into another. *)
Theorem system_reg_base s x root pc sy :
  root_running s x root pc → rtc sys_step {| kern := s; code := ∅ |} sy →
  cur_reg_base (cpu_var (kern sy)) = current_proc (kern sy).
Proof.
  intros Hrun Hsteps. change (reg_base_ok (kern sy)).
  assert (reg_base_ok (kern {| kern := s; code := ∅ |})) as Hok
    by (destruct Hrun as [Hc Hb _ _ _]; unfold reg_base_ok; simpl; congruence).
  revert Hok. induction Hsteps as [sy0|sy0 sy1 sy2 Hs _ IH]; [done|].
  intros Hok. apply IH. by eapply sys_step_reg_base.
Qed.
End System.
