(* ===== verification/Direct.v ===== *)
(** * One thread at a time

    The theorems on the library follow one thread through calls that do not
    block ([UserProg.run_direct]). Here such a run is shown to be a run of the
    whole system ([System.sys_step]): traps, scheduler and other threads
    included. *)

From S2P Require Import Prelude Shared Address Objects Riscv LinkedList Capability PageTable CNode.
From S2P Require Import Thread RoundRobin Ipc Untyped Syscall SyscallProps Trap TrapProps UserLib UserProg CapLib CapLibProps.
From S2P Require Import BootRun System.

Section Layout.
Context `{KernelLayout} (tmp : Z) (entry : Z → Z → Registers → option (Prog unit)).

(** ** What a direct run leaves alone *)

Lemma keeps_direct_call req : Keeps same_cpu (direct_call tmp req).
Proof. pose proof keeps_handle_syscall as Hs. unfold direct_call. keeps. Qed.
#[local] Hint Resolve keeps_direct_call : keeps.
Lemma keeps_run_direct {A} (p : Prog A) : Keeps same_cpu (run_direct tmp p).
Proof.
  induction p as [| | | | |req k IH|v k IH|v b k IH|v k IH|a b n k IH]; cbn [run_direct]; try done; keeps.
Qed.
Lemma unrequested_before {A} (p : Prog A) s o :
  run_direct tmp p s = o →
  match o with Ok _ s' | Err _ s' => requested (scheduler s') = false → requested (scheduler s) = false | _ => True end.
Proof.
  intros <-. pose proof (keeps_run_direct p s) as Hk. destruct (run_direct tmp p s) as [a s'|e s'| | |]; try done;
    destruct Hk as (_ & _ & Hq); destruct (requested (scheduler s)); naive_solver.
Qed.

(** ** A call *)

(** A call of the thread that runs, when no other thread is to run after it. *)
Lemma direct_call_trap req s r s' :
  reg_base_ok s → try_ (E' := SysCallFailed) (direct_call tmp req) s = Ok r s' → requested (scheduler s') = false →
  call_trap tmp req s = Ok tt s' ∧
  ∃ t, heap s' !! current_proc s = Some (OTcb t) ∧
    syscall_result (registers (value t)) = match r with inl v => inr v | inr e => inl e end.
Proof.
  intros Hreg Hr Hq. set (x := current_proc s) in *. unfold call_trap, get_current_tcb.
  rewrite (bind_Ok _ _ _ x s) by done.
  assert (∃ s0, direct_call tmp req s = s0 ∧ match s0 with Ok v s1 => r = inl v ∧ s' = s1 | Err e s1 => r = inr e ∧ s' = s1 | _ => False end)
    as (o & Hd & Ho).
  { eexists. split; [reflexivity|]. unfold try_ in Hr. destruct (direct_call tmp req s); try done; by injection Hr as <- <-. }
  unfold direct_call in Hd. rewrite (bind_Ok _ _ _ x s) in Hd by done. unfold unwrap_res, bind in Hd.
  destruct (modify_tcb x _ s) as [[] s1| | | |] eqn:Hm; [|by subst o..].
  rewrite (bind_Ok _ _ _ tt s1 Hm). destruct (read_tcb x s1) as [t s2| | | |] eqn:Ht; [|by subst o..].
  assert (s2 = s1) as ->. { revert Ht. unfold read_tcb, bind, gets. by destruct (heap s1 !! x) as [[]|]; intros [= _ <-]. }
  destruct (handle_syscall tmp (a7 (registers (value t))) x s1) as [[] s3| | | |] eqn:Hh; [|by subst o..].
  destruct (read_tcb x s3) as [t3 s4| | | |] eqn:Ht3; [|by subst o..].
  assert (heap s3 !! x = Some (OTcb t3) ∧ s4 = s3) as [Hx ->].
  { revert Ht3. unfold read_tcb, bind, gets. by destruct (heap s3 !! x) as [[]|]; intros [= <- <-]. }
  assert (s' = s3) as ->.
  { destruct (syscall_result _); unfold ret, throw in Hd; subst o; naive_solver. }
  split.
  - unfold handle_trap. change (Z.shiftr ECALLUSER 63 =? 1) with false.
    change (Z.land ECALLUSER (usize_not (Z.shiftl 1 63)) =? ECALLUSER) with true. cbv iota.
    rewrite bind_assoc, (bind_Ok _ _ _ (cpu_var s1) s1) by done.
    assert (cur_reg_base (cpu_var s1) = x) as ->.
    { apply keeps_Ok in Hm; [|keeps]. by destruct Hm as (-> & _). }
    rewrite bind_assoc, (bind_Ok _ _ _ _ _ Ht), (bind_Ok _ _ _ _ _ Hh).
    unfold schedule. rewrite (bind_Ok _ _ _ (scheduler s3) s3) by done. by rewrite Hq.
  - exists t3. split; [done|]. destruct (syscall_result _); unfold ret, throw in Hd; subst o; naive_solver.
Qed.

(** ** A run *)

(** What is left of [p ;; k] after [p]. *)
Definition rest {A} (r : A + SysCallFailed) (k : A → Prog unit) : Prog unit :=
  match r with inl a => k a | inr e => PThrow e end.

Lemma call_steps sy req k r s1 :
  reg_base_ok (kern sy) → code sy !! current_proc (kern sy) = Some (Running (PCall req k)) →
  try_ (E' := SysCallFailed) (direct_call tmp req) (kern sy) = Ok r s1 → requested (scheduler s1) = false →
  rtc (sys_step tmp entry) sy
    {| kern := s1;
       code := <[current_proc (kern sy) := Running (k match r with inl v => inr v | inr e => inl e end)]> (code sy) |}.
Proof.
  intros Hreg Hc Hr Hq. destruct (direct_call_trap req _ _ _ Hreg Hr Hq) as (Ht & t & Hx & Hres).
  assert (current_proc s1 = current_proc (kern sy)) as Hcur.
  { pose proof (keeps_try (E' := SysCallFailed) same_cpu _ (keeps_direct_call req) (kern sy)) as Hk. rewrite Hr in Hk. apply Hk. }
  set (sy1 := with_code sy s1 (Awaiting k)).
  eapply rtc_l; [by apply (step_call tmp entry sy req k s1)|]. fold sy1. apply rtc_once.
  replace {| kern := s1; code := _ |} with (with_code sy1 (kern sy1) (Running (k (syscall_result (registers (value t)))))).
  - apply (step_answer tmp entry sy1 k t); cbn [sy1 with_code kern code]; rewrite Hcur; [apply lookup_insert_eq|done].
  - unfold with_code. cbn [sy1 with_code kern code]. by rewrite Hcur, insert_insert_eq, Hres.
Qed.

(** An access ends or faults; it never fails with an error. *)
Lemma with_frame_no_err {A} v fl (f : Z → M KState SysCallFailed A) s e s' :
  (∀ d, f d s ≠ Err e s') → with_frame v fl f s ≠ Err e s'.
Proof. intros Hf. unfold with_frame, bind, gets. by destruct (user_frame s v fl). Qed.
Lemma at_start_no_err {A} v (m : M KState SysCallFailed A) s e s' : m s ≠ Err e s' → at_start v m s ≠ Err e s'.
Proof. unfold at_start. by destruct (_ =? _). Qed.
Lemma unwrap_res_no_err {A} (m : K A) s (e : SysCallFailed) s' : unwrap_res m s ≠ Err e s'.
Proof. unfold unwrap_res. by destruct (m s). Qed.
(** One step, and the rest of the run. *)
Lemma steps_then {A} (p1 : Prog A) (k : A → Prog unit) sy s1 r s' :
  let sy1 := {| kern := s1; code := <[current_proc (kern sy) := Running (pbind p1 k)]> (code sy) |} in
  same_cpu (kern sy) s1 → rtc (sys_step tmp entry) sy sy1 →
  (reg_base_ok (kern sy1) → code sy1 !! current_proc (kern sy1) = Some (Running (pbind p1 k)) →
   rtc (sys_step tmp entry) sy1
     {| kern := s'; code := <[current_proc (kern sy1) := Running (rest r k)]> (code sy1) |}) →
  reg_base_ok (kern sy) →
  rtc (sys_step tmp entry) sy {| kern := s'; code := <[current_proc (kern sy) := Running (rest r k)]> (code sy) |}.
Proof.
  intros sy1 Hs H1 IH Hreg. pose proof Hs as (_ & Hcur & _). cbn [sy1 kern code] in IH. rewrite Hcur in IH.
  etrans; [exact H1|]. rewrite insert_insert_eq in IH. apply IH; [by eapply same_cpu_ok|apply lookup_insert_eq].
Qed.

Lemma access_then {A B} (m : M KState SysCallFailed B) (c : B → Prog A) q (k : A → Prog unit) sy r s' :
  Keeps same_cpu m → (∀ e s1, m (kern sy) ≠ Err e s1) →
  reg_base_ok (kern sy) → code sy !! current_proc (kern sy) = Some (Running q) →
  access q = Some (let* b := m in ret (pbind (c b) k)) →
  try_ (E' := SysCallFailed) (let* b := m in run_direct tmp (c b)) (kern sy) = Ok r s' →
  (∀ b sy1, reg_base_ok (kern sy1) → code sy1 !! current_proc (kern sy1) = Some (Running (pbind (c b) k)) →
     try_ (E' := SysCallFailed) (run_direct tmp (c b)) (kern sy1) = Ok r s' →
     rtc (sys_step tmp entry) sy1 {| kern := s'; code := <[current_proc (kern sy1) := Running (rest r k)]> (code sy1) |}) →
  rtc (sys_step tmp entry) sy {| kern := s'; code := <[current_proc (kern sy) := Running (rest r k)]> (code sy) |}.
Proof.
  intros Hk Hne Hreg Hc Ha Hr IH. specialize (Hk (kern sy)). unfold try_, bind in Hr.
  destruct (m (kern sy)) as [b s1|e s1| | |] eqn:Hm; [|by destruct (Hne e s1)|done..].
  apply (steps_then (c b) k sy s1); [done| |intros; by apply (IH b)|done].
  eapply rtc_once, (step_access tmp entry sy q _ (pbind (c b) k) s1 Hc Ha). by rewrite (bind_Ok _ _ _ _ _ Hm).
Qed.

(** The run of a program is a run of the system. *)
Lemma run_direct_steps {A} (p : Prog A) (k : A → Prog unit) sy r s' :
  reg_base_ok (kern sy) → code sy !! current_proc (kern sy) = Some (Running (pbind p k)) →
  try_ (E' := SysCallFailed) (run_direct tmp p) (kern sy) = Ok r s' → requested (scheduler s') = false →
  rtc (sys_step tmp entry) sy
    {| kern := s'; code := <[current_proc (kern sy) := Running (rest r k)]> (code sy) |}.
Proof.
  revert sy. induction p as [a|e|pk| | |req c IH|v c IH|v b c IH|v c IH|src dst n c IH];
    intros sy Hreg Hc Hr Hq; cbn [run_direct] in Hr.
  1-2: injection Hr as <- <-; destruct sy as [s cs]; cbn [kern code rest] in *; by rewrite insert_id.
  1-3: done.
  - unfold try_ at 1 in Hr. unfold bind in Hr.
    destruct (try_ (direct_call tmp req) (kern sy)) as [r1 s1| | | |] eqn:H1; [|by unfold try_ in H1; destruct (direct_call _ _ _)|done..].
    assert (same_cpu (kern sy) s1) as Hs.
    { pose proof (keeps_try (E' := SysCallFailed) same_cpu _ (keeps_direct_call req) (kern sy)) as Hk. by rewrite H1 in Hk. }
    assert (requested (scheduler s1) = false) as Hq1.
    { pose proof (unrequested_before (c match r1 with inl v => inr v | inr e => inl e end) s1 _ eq_refl) as Hb.
      destruct (run_direct tmp _ s1); try done; injection Hr as <- <-; by apply Hb. }
    apply (steps_then (c match r1 with inl v => inr v | inr e => inl e end) k sy s1); [done| | |done].
    + by apply (call_steps sy req (λ r, pbind (c r) k) r1 s1).
    + intros Hreg1 Hc1. exact (IH _ _ Hreg1 Hc1 Hr Hq).
  - apply (access_then (read_buffer v) c (pbind (PReadBuffer v c) k) k sy r s'); [keeps| |exact Hreg|exact Hc|done|exact Hr|intros b sy1 H1 H2 H3; exact (IH b sy1 H1 H2 H3 Hq)].
    intros e s1. apply at_start_no_err, with_frame_no_err. intros d. apply unwrap_res_no_err.
  - apply (access_then (write_buffer v b) (λ _, c) (pbind (PWriteBuffer v b c) k) k sy r s'); [keeps| |exact Hreg|exact Hc|done|exact Hr|intros _ sy1 H1 H2 H3; exact (IH sy1 H1 H2 H3 Hq)].
    intros e s1. apply at_start_no_err, with_frame_no_err. intros d. apply unwrap_res_no_err.
  - apply (access_then (read_boot_info v) c (pbind (PReadBootInfo v c) k) k sy r s'); [keeps| |exact Hreg|exact Hc|done|exact Hr|intros b sy1 H1 H2 H3; exact (IH b sy1 H1 H2 H3 Hq)].
    intros e s1. apply at_start_no_err, with_frame_no_err. intros d. unfold bind, gets. by destruct (heap _ !! d) as [[]|].
  - apply (access_then (copy_bytes src dst n) (λ _, c) (pbind (PCopy src dst n c) k) k sy r s'); [keeps| |exact Hreg|exact Hc|done|exact Hr|intros _ sy1 H1 H2 H3; exact (IH sy1 H1 H2 H3 Hq)].
    intros e s1. apply with_frame_no_err. intros d. by destruct (_ <? _).
Qed.

(** C17: what the library does to one thread, it does in the system. Whenever a
    program of the running thread, followed directly through its calls and
    accesses, ends with a result or an error in a state in which no other
    thread has been asked for, the whole system can take steps to that state:
    traps, handlers and scheduler leave the same thread running, which goes on
    with the rest of its program, or fails with the error; all other threads
    are where they were. *)
Theorem direct_run_steps {A} (p : Prog A) (k : A → Prog unit) sy r s' :
  reg_base_ok (kern sy) → code sy !! current_proc (kern sy) = Some (Running (pbind p k)) →
  try_ (E' := SysCallFailed) (run_direct tmp p) (kern sy) = Ok r s' → requested (scheduler s') = false →
  ∃ sy', rtc (sys_step tmp entry) sy sy' ∧ kern sy' = s' ∧ current_proc s' = current_proc (kern sy) ∧
    code sy' !! current_proc s' = Some (Running (rest r k)) ∧
    (∀ x, x ≠ current_proc s' → code sy' !! x = code sy !! x).
Proof.
  intros Hreg Hc Hr Hq. eexists. split; [by eapply run_direct_steps|]. cbn [kern code].
  assert (current_proc s' = current_proc (kern sy)) as ->.
  { pose proof (keeps_try (E' := SysCallFailed) same_cpu _ (keeps_run_direct p) (kern sy)) as Hk. rewrite Hr in Hk. apply Hk. }
  split_and!; [done|done|apply lookup_insert_eq|]. intros x Hx. by rewrite lookup_insert_ne.
Qed.
End Layout.
