(* ===== verification/Rendezvous.v ===== *)
(** * Two threads meet at an endpoint

    The whole path of a message: the first thread's call through the library
    blocks and the kernel runs the second one, whose call then delivers. Calls,
    capability lookup, endpoint, scheduler and the steps of the system are
    those of the other files; here they are composed. *)

From S2P Require Import Prelude Shared Address Objects Riscv LinkedList Capability PageTable CNode.
From S2P Require Import Thread RoundRobin Ipc Untyped Syscall SyscallProps Trap TrapProps UserLib UserProg CapLib CapLibProps.
From S2P Require Import BootRun System.

(** ** What a party asks for *)

Definition ep_label (st : EndpointState) : InvLabel :=
  match st with EpStRecv => InvLabel.EpRecv | _ => InvLabel.EpSend end.
Definition ep_request (st : EndpointState) (u : UserCap EndpointData) : Registers → Registers :=
  match st with EpStRecv => recv_ipc (cap_ptr u) (cap_depth u) | _ => send_ipc (cap_ptr u) (cap_depth u) end.
(** A sender takes the badge of the capability it sends through. *)
Definition entering (st : EndpointState) (c : CapabilityData) (v : ThreadInfo) : ThreadInfo :=
  match st with EpStRecv => v | _ => v <| badge := cap_dep_val c |> end.

(** The control block of [t] in the kernel: its request made, its badge set. *)
Definition at_kernel (st : EndpointState) (u : UserCap EndpointData) (c : CapabilityData) (t : ThreadControlBlock)
    : ThreadControlBlock :=
  t <| value ::= λ v, entering st c (v <| registers ::= ep_request st u |>) |>.

Section Layout.
Context `{KernelLayout}.

(** Thread [x] has, in its capability space, the capability [c] of type [ct]
    under the path of [u]. *)
Record caller {K} (h : gmap Z kobject) (ct : CapabilityType) (x : Z) (t : ThreadControlBlock) (u : UserCap K)
    (c : CapabilityData) : Prop := {
  ca_tcb : h !! x = Some (OTcb t);
  ca_cap : ∃ er a, root_cnode (value t) = Some er ∧ 0 < radix (cap_replicate er.(cap)) ∧
             holds h (cap_replicate er.(cap)) u ct a c;
  ca_pc : sepc (registers (value t)) + 4 < W;
}.
(** A thread that communicates over an endpoint, with its buffer. *)
Record party (h : gmap Z kobject) (x : Z) (t : ThreadControlBlock) (u : UserCap EndpointData) (c : CapabilityData)
    : Prop := {
  pa_caller : caller h CapabilityType.EndPoint x t u c;
  pa_buffer : is_buffer h (ipc_buffer_ref (value t));
}.
Lemma pa_tcb h x t u c : party h x t u c → h !! x = Some (OTcb t).
Proof. by intros [[] _]. Qed.

Definition waiting (wait : bool) (s : KState) : KState :=
  if wait then s <| scheduler := (scheduler s) <| requested := true |> |> else s.

Lemma invoke_endpoint_Ok st a s x t root (u : UserCap EndpointData) c wait s2 :
  st ≠ EpStIdel → holds (heap s) root u CapabilityType.EndPoint a c → heap s !! x = Some (OTcb t) →
  ep_op st (cap_kva c) x (s <| heap := <[x := OTcb (t <| value ::= entering st c |>)]> (heap s) |>) = Ok wait s2 →
  invoke_endpoint a x (ep_label st) s = Ok None (waiting wait s2).
Proof.
  intros Hst Hho Ht Hop. unfold invoke_endpoint. rewrite (bind_Ok _ _ _ _ _ (slot_cap_Ok _ _ _ _ _ _ Hho)).
  destruct st; [| |done]; cbn [ep_label].
  - rewrite (bind_Ok _ _ _ wait s2); [by destruct wait|]. unfold ep_cap_send.
    rewrite (bind_Ok _ _ _ _ _ (modify_tcb_Ok _ _ _ _ Ht)). exact Hop.
  - rewrite (bind_Ok _ _ _ wait s2); [by destruct wait|]. rewrite <- Hop. unfold ep_cap_recv, ep_op. f_equal.
    rewrite (insert_id (heap s)); [by rewrite heap_set_id|]. rewrite Ht. by destruct t.
Qed.

(** ** Registers and badges change neither queues nor buffers *)

Lemma ep_rep_value st h ep q x t f :
  ep_rep h ep (AWait st q) → h !! x = Some (OTcb t) → (∀ v, status (f v) = status v) →
  ep_rep (<[x := OTcb (t <| value ::= f |>)]> h) ep (AWait st q).
Proof.
  intros (e & He & Hs & Hst & Hq & Hrep & Hb) Ht Hf. exists e. rewrite lookup_insert_ne by congruence.
  split_and!; try done; [by apply list_rep_value|].
  rewrite Forall_forall in Hb |- *. intros a Ha. destruct (Hb a Ha) as (ta & Hta & Hsa).
  unfold blocked_at. destruct (decide (x = a)) as [->|]; [|rewrite lookup_insert_ne by done; by exists ta].
  rewrite lookup_insert_eq. eexists. split; [done|]. simplify_eq. simpl. by rewrite Hf.
Qed.
Lemma ep_rep_idle_tcb h ep x t t' :
  h !! x = Some (OTcb t) → ep_rep h ep AIdle → ep_rep (<[x := OTcb t']> h) ep AIdle.
Proof.
  intros Ht Hep. pose proof Hep as (e & He & _).
  apply (ep_rep_idle h _ ep e); [done|by rewrite lookup_insert_ne by congruence|done].
Qed.
Lemma is_buffer_tcb h x t t' b : h !! x = Some (OTcb t) → is_buffer h b → is_buffer (<[x := OTcb t']> h) b.
Proof. intros Ht. by apply (is_buffer_insert_ne h x (OTcb t)). Qed.

(** ** The scheduler after a thread blocked *)

Lemma schedule_unrequested s : requested (scheduler s) = false → schedule s = Ok tt s.
Proof. intros Hq. unfold schedule. rewrite (bind_Ok _ _ _ (scheduler s) s) by done. by rewrite Hq. Qed.

(** The current thread has blocked: the next one of the queue runs. *)
Lemma schedule_blocked s x t y ty xs :
  requested (scheduler s) = true → current_proc s = x → heap s !! x = Some (OTcb t) →
  status (value t) = Blocked → rq_rep s (y :: xs) → heap s !! y = Some (OTcb ty) → next ty = head xs → x ≠ y →
  schedule s = Ok tt (switch_to y (vspace_satp ty)
    (s <| heap := <[y := OTcb (ty <| value ::= λ v, set_timeout v TASK_QUANTUM |>)]> (heap s) |>
       <| scheduler := (scheduler s) <| runqueue := {| ll_head := head xs; ll_last := last xs |} |> |>)).
Proof.
  intros Hq Hcur Ht Hb [_ Hh Hla _] Hy Hn Hne. simpl in Hh. set (ty' := ty <| value ::= _ |>).
  assert (last (y :: xs) = last xs ∨ xs = []) as Hlast by (destruct xs; [by right|by left]).
  refine (schedule_switch s y _ ty' Hq _ (lookup_insert_eq _ _ _)).
  unfold schedule_pick. rewrite (bind_Ok _ _ _ _ _ (sched_Ok _ _ _ (ll_pop_Ok _ _ _ _ Hh Hy))). rewrite Hn, Hla.
  replace (match head xs with None => None | Some _ => last (y :: xs) end) with (last xs)
    by (destruct Hlast as [->| ->]; [by destruct xs|done]).
  set (s1 := s <| scheduler := _ |>).
  rewrite (bind_Ok _ _ _ _ _ (modify_tcb_Ok y ty _ s1 Hy)). set (s2 := s1 <| heap := _ |>).
  rewrite (bind_Ok _ _ _ x s2) by by unfold gets; rewrite <- Hcur.
  assert (heap s2 !! x = Some (OTcb t)) as Ht2 by (subst s2; rewrite heap_set, lookup_insert_ne by done; exact Ht).
  rewrite (bind_Ok _ _ _ _ _ (read_tcb_Ok _ _ _ Ht2)).
  unfold is_runnable. by rewrite bool_decide_eq_false_2 by congruence.
Qed.

Lemma switch_blocked s x t y ty xs :
  requested (scheduler s) = true → current_proc s = x → heap s !! x = Some (OTcb t) →
  status (value t) = Blocked → rq_rep s (y :: xs) → heap s !! y = Some (OTcb ty) → next ty = head xs → x ≠ y →
  ∃ s', schedule s = Ok tt s' ∧ current_proc s' = y ∧ reg_base_ok s' ∧ requested (scheduler s') = false ∧
    rq_rep s' xs ∧ heap s' = <[y := OTcb (ty <| value ::= λ v, set_timeout v TASK_QUANTUM |>)]> (heap s) ∧
    satp s' = vspace_satp ty.
Proof.
  intros Hq Hcur Ht Hb Hrq Hy Hn Hne. rewrite (schedule_blocked s x t y ty xs) by done.
  eexists. split; [reflexivity|]. split_and!; try done.
  destruct Hrq as [[Hnd1 Hnd]%NoDup_cons _ _ [_ Hl]]. split; try done. simpl. by apply links_value.
Qed.

(** ** The trap of a party's call *)

Section Call.
Context (tmp : Z) (st : EndpointState) (Hst : st ≠ EpStIdel).

Lemma call_trap_answers req s x t v s2 t2 :
  current_proc s = x → reg_base_ok s → heap s !! x = Some (OTcb t) →
  let r := req (registers (value t)) in
  syscall_body tmp (a7 r) r (requesting s x t req) = Ok v s2 →
  heap s2 !! x = Some (OTcb t2) → sepc (registers (value t2)) + 4 < W →
  call_trap tmp req s =
    schedule (s2 <| heap := <[x := OTcb (t2 <| value ::= λ w, w <| registers ::= answered v |> |>)]> (heap s2) |>).
Proof.
  intros Hcur Hreg Ht r Hb Ht2 Hpc. unfold call_trap.
  rewrite (bind_Ok _ _ _ x s) by by unfold get_current_tcb, gets; rewrite Hcur.
  rewrite (bind_Ok _ _ _ _ _ (modify_tcb_Ok _ _ _ _ Ht)). set (t1 := t <| value ::= _ |>).
  fold (requesting s x t req). set (s1 := requesting s x t req) in *.
  assert (heap s1 !! x = Some (OTcb t1)) as Ht1 by apply lookup_insert_eq.
  unfold handle_trap. change (Z.shiftr ECALLUSER 63 =? 1) with false.
  change (Z.land ECALLUSER (usize_not (Z.shiftl 1 63)) =? ECALLUSER) with true. cbv iota.
  rewrite bind_assoc, (bind_Ok _ _ _ (cpu_var s1) s1) by done.
  assert (cur_reg_base (cpu_var s1) = x) as -> by (change (cur_reg_base (cpu_var s) = x); by rewrite Hreg).
  rewrite bind_assoc, (bind_Ok _ _ _ _ _ (read_tcb_Ok _ _ _ Ht1)).
  assert (try_ (E' := KernelError) (syscall_body tmp (a7 r) r) s1 = Ok (inl v) s2) as Htry by (unfold try_; by rewrite Hb).
  exact (bind_Ok _ _ _ _ _ (handle_syscall_ends tmp (a7 r) x s1 t1 (inl v) s2 t2 Ht1 Htry Ht2 Hpc)).
Qed.

(** A handler that panics takes the kernel with it. *)
Lemma call_trap_panics req s x t k :
  current_proc s = x → reg_base_ok s → heap s !! x = Some (OTcb t) →
  let r := req (registers (value t)) in
  syscall_body tmp (a7 r) r (requesting s x t req) = Panic k → call_trap tmp req s = Panic k.
Proof.
  intros Hcur Hreg Ht r Hb. unfold call_trap.
  rewrite (bind_Ok _ _ _ x s) by by unfold get_current_tcb, gets; rewrite Hcur.
  rewrite (bind_Ok _ _ _ _ _ (modify_tcb_Ok _ _ _ _ Ht)). set (t1 := t <| value ::= _ |>).
  fold (requesting s x t req). set (s1 := requesting s x t req) in *.
  assert (heap s1 !! x = Some (OTcb t1)) as Ht1 by apply lookup_insert_eq.
  unfold handle_trap. change (Z.shiftr ECALLUSER 63 =? 1) with false.
  change (Z.land ECALLUSER (usize_not (Z.shiftl 1 63)) =? ECALLUSER) with true. cbv iota.
  rewrite bind_assoc, (bind_Ok _ _ _ (cpu_var s1) s1) by done.
  assert (cur_reg_base (cpu_var s1) = x) as -> by (change (cur_reg_base (cpu_var s) = x); by rewrite Hreg).
  rewrite bind_assoc, (bind_Ok _ _ _ _ _ (read_tcb_Ok _ _ _ Ht1)). apply bind_Panic.
  unfold handle_syscall. rewrite (bind_Ok _ _ _ _ _ (read_tcb_Ok _ _ _ Ht1)). apply bind_Panic.
  unfold try_. change (registers (value t1)) with r. by rewrite Hb.
Qed.

(** The trap of a call through a capability, up to the scheduler. *)
Lemma caller_traps {K} ct s x t (u : UserCap K) c l x3 x4 x5 x6 n v s2 t2 :
  let req := ecall (cap_ptr u) (cap_depth u) l x3 x4 x5 x6 n in
  n ≠ SysCallNo.Print → current_proc s = x → reg_base_ok s → radix_pos (heap s) → caller (heap s) ct x t u c →
  (∀ root a, holds (heap (requesting s x t req)) root u ct a c →
     dispatch tmp ct root a x l (ipc_buffer_ref (value t)) (req (registers (value t))) (requesting s x t req) = Ok v s2) →
  heap s2 !! x = Some (OTcb t2) → sepc (registers (value t2)) = sepc (registers (value t)) →
  call_trap tmp req s =
    schedule (s2 <| heap := <[x := OTcb (t2 <| value ::= λ w, w <| registers ::= answered v |> |>)]> (heap s2) |>).
Proof.
  intros req Hprint Hcur Hreg Hp [Ht (er & a & Her & Hr & Hho) Hpc] Hd Ht2 Hpc2.
  apply (call_trap_answers _ s x t); [done|done|done| |done|by rewrite Hpc2].
  assert (runs_in s x t (cap_replicate er.(cap))) as Hrun by (split; eauto).
  refine (eq_trans (ecall_dispatch (cap_ptr u) (cap_depth u) l x3 x4 x5 x6 n _ tmp _ Hprint) _).
  refine (eq_trans (handle_held tmp s x t _ u ct a c req l _ Hrun Hp Hr Hho) (Hd _ _ _)).
  revert Hho. apply holds_slots. intros b. by apply requesting_slots.
Qed.
Lemma caller_panics {K} ct s x t (u : UserCap K) c l x3 x4 x5 x6 n k :
  let req := ecall (cap_ptr u) (cap_depth u) l x3 x4 x5 x6 n in
  n ≠ SysCallNo.Print → current_proc s = x → reg_base_ok s → radix_pos (heap s) → caller (heap s) ct x t u c →
  (∀ root a, holds (heap (requesting s x t req)) root u ct a c →
     dispatch tmp ct root a x l (ipc_buffer_ref (value t)) (req (registers (value t))) (requesting s x t req) = Panic k) →
  call_trap tmp req s = Panic k.
Proof.
  intros req Hprint Hcur Hreg Hp [Ht (er & a & Her & Hr & Hho) Hpc] Hd.
  apply (call_trap_panics _ s x t); [done|done|done|].
  assert (runs_in s x t (cap_replicate er.(cap))) as Hrun by (split; eauto).
  refine (eq_trans (ecall_dispatch (cap_ptr u) (cap_depth u) l x3 x4 x5 x6 n _ tmp _ Hprint) _).
  refine (eq_trans (handle_held tmp s x t _ u ct a c req l _ Hrun Hp Hr Hho) (Hd _ _ _)).
  revert Hho. apply holds_slots. intros b. by apply requesting_slots.
Qed.

(** A party that is linked to another thread panics the kernel when it has to
    wait. *)
Lemma party_panics s x t u c n :
  current_proc s = x → reg_base_ok s → radix_pos (heap s) → party (heap s) x t u c → next t = Some n →
  ep_rep (heap s) (cap_kva c) AIdle → call_trap tmp (ep_request st u) s = Panic PAssert.
Proof.
  intros Hcur Hreg Hp [Hca _] Hn Hep. pose proof (ca_tcb _ _ _ _ _ _ Hca) as Ht.
  assert (∀ t', next t' = Some n →
    ep_op st (cap_kva c) x (s <| heap := <[x := OTcb t']> (heap s) |>) = Panic PAssert) as Hop.
  { intros t' Hn'. eapply (ep_op_linked st _ _ AIdle []); [done|by eapply ep_rep_idle_tcb|done|apply lookup_insert_eq|exact Hn']. }
  assert (∀ root a, holds (heap (requesting s x t (ep_request st u))) root u CapabilityType.EndPoint a c →
    invoke_endpoint a x (ep_label st) (requesting s x t (ep_request st u)) = Panic PAssert) as Hi.
  { intros root a Hho. set (s1 := requesting _ _ _ _) in *. unfold invoke_endpoint.
    rewrite (bind_Ok _ _ _ _ _ (slot_cap_Ok _ _ _ _ _ _ Hho)).
    assert (heap s1 !! x = Some (OTcb (t <| value ::= λ v, v <| registers ::= ep_request st u |> |>))) as Ht1
      by apply lookup_insert_eq.
    destruct st; [| |by destruct Hst]; cbn [ep_label]; apply bind_Panic.
    - unfold ep_cap_send. rewrite (bind_Ok _ _ _ _ _ (modify_tcb_Ok _ _ _ _ Ht1)).
      unfold s1, requesting. rewrite heap_set, heap_set_set, insert_insert_eq. by apply (Hop (_ <| value ::= _ |>)).
    - by apply (Hop (_ <| value ::= _ |>)). }
  clear -Hst Hcur Hreg Hp Hca Hi. destruct st; [| |by destruct Hst].
  - exact (caller_panics _ s x t u c InvLabel.EpSend 0 0 0 0 SysCallNo.Send _ ltac:(done) Hcur Hreg Hp Hca Hi).
  - exact (caller_panics _ s x t u c InvLabel.EpRecv 0 0 0 0 SysCallNo.Recv _ ltac:(done) Hcur Hreg Hp Hca Hi).
Qed.
Lemma party_call s x t u c wait s2 t2 :
  current_proc s = x → reg_base_ok s → radix_pos (heap s) → party (heap s) x t u c →
  ep_op st (cap_kva c) x (s <| heap := <[x := OTcb (at_kernel st u c t)]> (heap s) |>) = Ok wait s2 →
  heap s2 !! x = Some (OTcb t2) → sepc (registers (value t2)) = sepc (registers (value t)) →
  call_trap tmp (ep_request st u) s =
    schedule ((waiting wait s2)
      <| heap := <[x := OTcb (t2 <| value ::= λ w, w <| registers ::= answered None |> |>)]> (heap s2) |>).
Proof.
  intros Hcur Hreg Hp [Hca _] Hop Ht2 Hpc2. assert (heap (waiting wait s2) = heap s2) as Hh by by destruct wait.
  rewrite <- Hh in Ht2 |- *.
  assert (∀ root a, holds (heap (requesting s x t (ep_request st u))) root u CapabilityType.EndPoint a c →
    invoke_endpoint a x (ep_label st) (requesting s x t (ep_request st u)) = Ok None (waiting wait s2)) as Hi.
  { intros root a Hho. apply (invoke_endpoint_Ok st a _ x (t <| value ::= λ v, v <| registers ::= ep_request st u |> |>) root u c);
      [done|done|apply lookup_insert_eq|].
    unfold requesting. rewrite heap_set, heap_set_set, insert_insert_eq. exact Hop. }
  clear -Hst Hcur Hreg Hp Hca Hi Ht2 Hpc2. destruct st; [| |by destruct Hst].
  - exact (caller_traps _ s x t u c InvLabel.EpSend 0 0 0 0 SysCallNo.Send None _ t2 ltac:(done) Hcur Hreg Hp Hca Hi Ht2 Hpc2).
  - exact (caller_traps _ s x t u c InvLabel.EpRecv 0 0 0 0 SysCallNo.Recv None _ t2 ltac:(done) Hcur Hreg Hp Hca Hi Ht2 Hpc2).
Qed.

(** ** The first thread waits *)

(** What the call leaves of the thread that waits. *)
Definition waited (u : UserCap EndpointData) (c : CapabilityData) (t : ThreadControlBlock) : ThreadControlBlock :=
  (at_kernel st u c t) <| value ::= λ v, (thread_suspend v) <| registers ::= answered None |> |>.

Lemma entering_keeps c v :
  registers (entering st c v) = registers v ∧ status (entering st c v) = status v ∧
  root_cnode (entering st c v) = root_cnode v ∧ ipc_buffer (entering st c v) = ipc_buffer v.
Proof. by destruct st. Qed.
Lemma ep_request_pc u r : sepc (ep_request st u r) = sepc r.
Proof. by destruct st. Qed.
Lemma at_kernel_pc u c t : sepc (registers (value (at_kernel st u c t))) = sepc (registers (value t)).
Proof. unfold at_kernel. simpl. rewrite (proj1 (entering_keeps _ _)). apply ep_request_pc. Qed.

Lemma wait_step s x t u c y ty xs :
  current_proc s = x → reg_base_ok s → radix_pos (heap s) → party (heap s) x t u c → next t = None →
  ep_rep (heap s) (cap_kva c) AIdle → rq_rep s (y :: xs) → x ∉ y :: xs →
  heap s !! y = Some (OTcb ty) → next ty = head xs →
  ∃ s', call_trap tmp (ep_request st u) s = Ok tt s' ∧
    current_proc s' = y ∧ reg_base_ok s' ∧ requested (scheduler s') = false ∧
    ep_rep (heap s') (cap_kva c) (AWait st [x]) ∧ rq_rep s' xs ∧
    heap s' !! x = Some (OTcb (waited u c t)) ∧
    heap s' !! y = Some (OTcb (ty <| value ::= λ v, set_timeout v TASK_QUANTUM |>)) ∧
    (∀ a, a ≠ cap_kva c → a ≠ x → a ≠ y → heap s' !! a = heap s !! a).
Proof.
  intros Hcur Hreg Hp Hpa Hn Hep Hrq Hx Hy Hny. pose proof (pa_tcb _ _ _ _ _ Hpa) as Ht.
  pose proof Hep as (e0 & He0 & _). apply not_elem_of_cons in Hx as [Hxy Hxs].
  set (t1 := at_kernel st u c t). set (s1 := s <| heap := <[x := OTcb t1]> (heap s) |>).
  destruct (ep_waits st s1 (cap_kva c) AIdle [] x t1) as (h2 & Hop & Hrep & Ht2 & Hfr);
    [done|by eapply ep_rep_idle_tcb|done|set_solver|apply lookup_insert_eq|done|].
  simpl in Hrep. set (t2 := t1 <| value ::= thread_suspend |>) in *.
  assert (∀ a, a ≠ cap_kva c → a ≠ x → h2 !! a = heap s !! a) as Hfr2.
  { intros a Ha Hax. rewrite Hfr by set_solver. unfold s1. rewrite heap_set. by rewrite lookup_insert_ne. }
  rewrite (party_call s x t u c true (s1 <| heap := h2 |>) t2 Hcur Hreg Hp Hpa Hop Ht2 (at_kernel_pc u c t)).
  set (t3 := t2 <| value ::= _ |>). set (s3 := _ <| heap := _ |>).
  set (h3 := <[x := OTcb t3]> h2).
  assert (heap s3 = h3) as Hh3 by done.
  assert (ep_rep h3 (cap_kva c) (AWait st [x])) as Hrep3 by by apply ep_rep_value.
  assert (y ≠ cap_kva c) as Hyc by congruence.
  assert (h3 !! y = Some (OTcb ty)) as Hy3 by (unfold h3; rewrite lookup_insert_ne by done; by rewrite Hfr2).
  assert (rq_rep s3 (y :: xs)) as Hrq3.
  { destruct Hrq as [Hnd Hh Hla Hl]. split; [done..|]. rewrite Hh3. revert Hl. apply links_mono.
    intros a ta Ha Hta. exists ta. assert (a ≠ x) by set_solver. unfold h3. rewrite lookup_insert_ne by done.
    rewrite Hfr2 by congruence. done. }
  destruct (switch_blocked s3 x t3 y ty xs) as (s' & Hs & Hcur' & Hreg' & Hq' & Hrq' & Hh' & _);
    [done|done|by rewrite Hh3; apply lookup_insert_eq|done|done|by rewrite Hh3|done|done|].
  exists s'. rewrite Hh', Hh3. set (ty' := ty <| value ::= _ |>). split_and!; try done.
  - by apply ep_rep_value.
  - rewrite lookup_insert_ne by done. unfold h3. by rewrite lookup_insert_eq.
  - by rewrite lookup_insert_eq.
  - intros a Ha Hax Hay. rewrite lookup_insert_ne by done. unfold h3. rewrite lookup_insert_ne by done. by apply Hfr2.
Qed.

(** ** The second thread finds it *)

Definition badge_of (c : CapabilityData) (tx : ThreadControlBlock) : Z :=
  match st with EpStRecv => badge (value tx) | _ => cap_dep_val c end.
(** The badge goes to the receiver. *)
Definition if_recv {A} (f g : A) : A := match st with EpStRecv => f | _ => g end.

Lemma if_recv_pc b v : sepc (registers (if_recv (set_a1 b) id v)) = sepc (registers v).
Proof. unfold if_recv. by destruct st. Qed.

Lemma deliver_step st' s y ty u c x tx xs :
  st' ≠ st → current_proc s = y → reg_base_ok s → radix_pos (heap s) → party (heap s) y ty u c →
  requested (scheduler s) = false → ep_rep (heap s) (cap_kva c) (AWait st' [x]) → rq_rep s xs → y ∉ xs → x ≠ y →
  heap s !! x = Some (OTcb tx) → is_buffer (heap s) (ipc_buffer_ref (value tx)) →
  ∃ s' tx' ty', call_trap tmp (ep_request st u) s = Ok tt s' ∧
    current_proc s' = y ∧ ep_rep (heap s') (cap_kva c) AIdle ∧ rq_rep s' (xs ++ [x]) ∧
    heap s' !! x = Some (OTcb tx') ∧ heap s' !! y = Some (OTcb ty') ∧
    value tx' = thread_resume (if_recv id (set_a1 (badge_of c tx)) (value tx)) ∧ next tx' = next tx ∧
    registers (value ty') = answered None (if_recv (λ r, r <| a1 := badge_of c tx |>) id (ep_request st u (registers (value ty)))) ∧
    status (value ty') = status (value ty) ∧ next ty' = next ty ∧
    (∀ d p, ipc_buffer_ref (if_recv (value ty) (value tx)) = Some d →
            ipc_buffer_ref (if_recv (value tx) (value ty)) = Some p → page_at (heap s') d = page_at (heap s) p).
Proof.
  intros Hst' Hcur Hreg Hp Hpa Hq Hep Hrq Hy Hne Hx Hbx. pose proof (pa_tcb _ _ _ _ _ Hpa) as Ht.
  pose proof (pa_buffer _ _ _ _ _ Hpa) as Hby.
  set (t1 := at_kernel st u c ty). set (s1 := s <| heap := <[y := OTcb t1]> (heap s) |>).
  assert (∀ b, is_buffer (heap s) b → is_buffer (heap s1) b) as Hbuf by (intros b; by apply is_buffer_tcb with ty).
  assert (heap s1 !! y = Some (OTcb t1)) as Ht1 by apply lookup_insert_eq.
  assert (heap s1 !! x = Some (OTcb tx)) as Hx1 by (unfold s1; rewrite heap_set; by rewrite lookup_insert_ne).
  assert (∀ v, status (entering st c (v <| registers ::= ep_request st u |>)) = status v) as Hstat
    by (intros v; by destruct st).
  assert (ipc_buffer_ref (value t1) = ipc_buffer_ref (value ty)) as Hb1 by (unfold t1, at_kernel; by destruct st).
  assert (x ∉ xs) as Hxs.
  { destruct Hep as (e & _ & _ & _ & _ & _ & Hb). apply Forall_singleton in Hb as (tb & Htb & Hb).
    exact (blocked_notin _ _ _ _ Hrq Htb Hb). }
  destruct (ep_op_delivers st st' s1 (cap_kva c) x xs y (if_recv t1 tx) (if_recv tx t1))
    as (s2 & Hop & Hidle & Hrq2 & Hq2 & Htcb & Hmsg).
  { done. }
  { done. }
  { by apply ep_rep_value. }
  { by apply rq_rep_value. }
  1-2: unfold receiver, sender, if_recv; by destruct st.
  1-2: apply Hbuf; unfold if_recv; destruct st; by rewrite ?Hb1.
  destruct (Htcb _ _ Ht1) as (t2 & Ht2 & Hv2 & Hn2). destruct (Htcb _ _ Hx1) as (tx2 & Htx2 & Hvx2 & Hnx2).
  assert (value t2 = if_recv (set_a1 (badge_of c tx)) id (value t1)) as Hv.
  { rewrite Hv2. unfold delivered_value, if_recv, receiver, badge_of. rewrite decide_False by done.
    destruct st; [by rewrite decide_False by done|by rewrite decide_True by done|done]. }
  assert (sepc (registers (value t2)) = sepc (registers (value ty))) as Hpc.
  { rewrite Hv, if_recv_pc. apply at_kernel_pc. }
  rewrite (party_call s y ty u c false s2 t2 Hcur Hreg Hp Hpa Hop Ht2 Hpc). cbn [waiting].
  set (t3 := t2 <| value ::= _ |>). set (s3 := s2 <| heap := _ |>).
  rewrite (schedule_unrequested s3) by (unfold s3; rewrite <- Hq; exact Hq2).
  assert (same_cpu s1 s2) as (_ & Hc2 & _) by (eapply keeps_Ok, Hop; clear; destruct st; keeps).
  exists s3, tx2, t3. unfold s3. rewrite heap_set. split; [done|]. split; [by rewrite <- Hcur|].
  split; [by eapply ep_rep_idle_tcb|]. split; [by apply rq_rep_value|].
  split; [by rewrite lookup_insert_ne by done|]. split; [apply lookup_insert_eq|].
  split_and!.
  - rewrite Hvx2. clear -Hne Hst. unfold delivered_value, if_recv, receiver, badge_of. rewrite decide_True by done.
    destruct st; [by rewrite decide_True by done|by rewrite decide_False by done|by destruct Hst].
  - apply Hnx2. intros Hl%last_elem_of. done.
  - change (registers (value t3)) with (answered None (registers (value t2))). f_equal. rewrite Hv.
    clear. unfold t1, at_kernel, if_recv. by destruct st.
  - change (status (value t3)) with (status (value t2)). rewrite Hv. clear. unfold t1, at_kernel, if_recv. by destruct st.
  - change (next t3) with (next t2). apply Hn2. intros Hl%last_elem_of. done.
  - intros d p Hd Hsrc.
    assert (is_buffer (heap s) (Some p)) as [b Hb].
    { rewrite <- Hsrc. clear -Hbx Hby. unfold if_recv. by destruct st. }
    assert (page_at (heap s2) d = Some b) as Hd2.
    { rewrite (Hmsg d p).
      - unfold s1. rewrite heap_set, <- Hb. exact (page_at_insert_tcb _ _ _ _ _ Ht (buffer_ne _ _ _ _ _ Ht Hb)).
      - rewrite <- Hd. clear -Hb1. unfold if_recv. by destruct st.
      - rewrite <- Hsrc. clear -Hb1. unfold if_recv. by destruct st. }
    rewrite Hb, <- Hd2. exact (page_at_insert_tcb _ _ _ _ _ Ht2 (buffer_ne _ _ _ _ _ Ht2 Hd2)).
Qed.
End Call.

(** ** The meeting *)

(** [x] runs and [y] is first in the run queue; both hold capabilities to the
    same endpoint, at which nobody waits. [y] is linked to the thread behind it
    in the queue or, when it is alone there, to nothing. *)
Record meeting (s : KState) (x : Z) (tx : ThreadControlBlock) (ux : UserCap EndpointData) (cx : CapabilityData)
    (y : Z) (ty : ThreadControlBlock) (uy : UserCap EndpointData) (cy : CapabilityData) (xs : list Z) : Prop := {
  me_current : current_proc s = x;
  me_base : reg_base_ok s;
  me_radix : radix_pos (heap s);
  me_first : party (heap s) x tx ux cx;
  me_second : party (heap s) y ty uy cy;
  me_ep : cap_kva cx = cap_kva cy;
  me_idle : ep_rep (heap s) (cap_kva cx) AIdle;
  me_queue : rq_rep s (y :: xs);
  me_other : x ∉ y :: xs;
  me_next : next ty = head xs;
}.

(** Memory that differs only in what is neither a slot nor a page: a control
    block, an endpoint, a notification. *)
Definition ipc_object (o : kobject) : Prop :=
  match o with OTcb _ | OEndpoint _ | ONotification _ => True | _ => False end.
Definition same_but (ep x y : Z) (h h' : gmap Z kobject) : Prop :=
  (∀ a, a ∈ [ep; x; y] → ∃ o o', h !! a = Some o ∧ h' !! a = Some o' ∧ ipc_object o ∧ ipc_object o') ∧
  ∀ a, a ≠ ep → a ≠ x → a ≠ y → h' !! a = h !! a.
Lemma same_but_at ep x y h h' a : same_but ep x y h h' → slot_at h' a = slot_at h a ∧ page_at h' a = page_at h a.
Proof.
  intros [Hin Hfr]. unfold slot_at, page_at. destruct (decide (a ∈ [ep; x; y])) as [Ha|Ha].
  - destruct (Hin a Ha) as (o & o' & -> & -> & Ho & Ho'). by destruct o, o'.
  - rewrite Hfr by set_solver. done.
Qed.
Lemma same_but_3 ep x y h h' o o' t1 t1' t2 t2' :
  h !! ep = Some o → h' !! ep = Some o' → ipc_object o → ipc_object o' →
  h !! x = Some (OTcb t1) → h' !! x = Some (OTcb t1') → h !! y = Some (OTcb t2) → h' !! y = Some (OTcb t2') →
  (∀ a, a ≠ ep → a ≠ x → a ≠ y → h' !! a = h !! a) → same_but ep x y h h'.
Proof.
  intros He He' Ho Ho' H1 H1' H2 H2' Hfr. split; [|done]. intros a Ha. rewrite !elem_of_cons in Ha.
  destruct Ha as [->|[->|[->|Ha%elem_of_nil]]]; try done; do 2 eexists; by split_and!.
Qed.
Lemma same_but_buffer ep x y h h' b : same_but ep x y h h' → is_buffer h b → is_buffer h' b.
Proof. intros Hs. destruct b as [a|]; [|done]. unfold is_buffer. by rewrite (proj2 (same_but_at _ _ _ _ _ a Hs)). Qed.
Lemma same_but_radix ep x y h h' : same_but ep x y h h' → radix_pos h → radix_pos h'.
Proof. intros Hs Hp a e. rewrite (proj1 (same_but_at _ _ _ _ _ a Hs)). apply Hp. Qed.
Lemma same_but_caller {K} ep x y h h' ct z t f (u : UserCap K) c :
  same_but ep x y h h' → caller h ct z t u c → h' !! z = Some (OTcb (t <| value ::= f |>)) →
  (∀ v, registers (f v) = registers v ∧ root_cnode (f v) = root_cnode v) →
  caller h' ct z (t <| value ::= f |>) u c.
Proof.
  intros Hs [Ht (er & a & Her & Hr & Hho) Hpc] Hz Hf.
  destruct (Hf (value t)) as (Hf1 & Hf2). split; [done| |simpl; by rewrite Hf1].
  exists er, a. simpl. rewrite Hf2. split_and!; try done.
  revert Hho. apply holds_slots. intros b. apply (same_but_at _ _ _ _ _ b Hs).
Qed.
Lemma same_but_party ep x y h h' z t f u c :
  same_but ep x y h h' → party h z t u c → h' !! z = Some (OTcb (t <| value ::= f |>)) →
  (∀ v, registers (f v) = registers v ∧ root_cnode (f v) = root_cnode v ∧ ipc_buffer (f v) = ipc_buffer v) →
  party h' z (t <| value ::= f |>) u c.
Proof.
  intros Hs [Hc Hb] Hz Hf. split.
  - eapply same_but_caller; [done..|]. intros v. by destruct (Hf v) as (? & ? & _).
  - apply (same_but_buffer _ _ _ _ _ _ Hs). unfold ipc_buffer_ref in *. simpl. by rewrite (proj2 (proj2 (Hf _))).
Qed.

Lemma ring_of s y ty x tx xs :
  current_proc s = y → NoDup (y :: xs ++ [x]) → rq_rep s (xs ++ [x]) →
  heap s !! y = Some (OTcb ty) → status (value ty) = Runnable → next ty = head xs →
  heap s !! x = Some (OTcb tx) → status (value tx) = Runnable → next tx = None → ring s y (xs ++ [x]).
Proof.
  intros Hcur Hnd [_ Hh Hla Hl] Hy Hsy Hny Hx Hsx Hnx. split; try done; [by exists ty|].
  destruct xs as [|z [|]]; [|done..]. simpl. split; [exists ty|exists tx]; auto.
Qed.

(** The two calls, whoever sends. *)
Lemma meet tmp st st' s x tx ux cx y ty uy cy xs :
  st ≠ EpStIdel → st' ≠ EpStIdel → st ≠ st' → meeting s x tx ux cx y ty uy cy xs → next tx = None →
  ∃ s1 s2 tx' ty', call_trap tmp (ep_request st ux) s = Ok tt s1 ∧ current_proc s1 = y ∧
    call_trap tmp (ep_request st' uy) s1 = Ok tt s2 ∧
    ring s2 y (xs ++ [x]) ∧ ep_rep (heap s2) (cap_kva cx) AIdle ∧
    heap s2 !! x = Some (OTcb tx') ∧ heap s2 !! y = Some (OTcb ty') ∧
    registers (value tx') =
      registers (if_recv st' id (set_a1 (badge_of st' cy (waited st ux cx tx))) (value (waited st ux cx tx))) ∧
    registers (value ty') =
      answered None (if_recv st' (λ r, r <| a1 := badge_of st' cy (waited st ux cx tx) |>) id
        (ep_request st' uy (registers (value ty)))) ∧
    (∀ d p, ipc_buffer_ref (if_recv st' (value ty) (value tx)) = Some d →
            ipc_buffer_ref (if_recv st' (value tx) (value ty)) = Some p → page_at (heap s2) d = page_at (heap s) p).
Proof.
  intros Hst Hst' Hne [Hcur Hreg Hrad Hpx Hpy Hcc Hidle Hrq Hoth Hny] Hnx.
  pose proof (pa_tcb _ _ _ _ _ Hpx) as Hx. pose proof (pa_tcb _ _ _ _ _ Hpy) as Hy.
  destruct (wait_step tmp st Hst s x tx ux cx y ty xs) as (s1 & Hc1 & Hcur1 & Hreg1 & Hq1 & Hep1 & Hrq1 & Hx1 & Hy1 & Hfr1);
    [done..|].
  set (ty1 := ty <| value ::= _ |>) in *. set (tx1 := waited st ux cx tx) in *.
  assert (same_but (cap_kva cx) x y (heap s) (heap s1)) as Hsame.
  { pose proof Hidle as (e & He & _). pose proof Hep1 as (e' & He' & _). by eapply (same_but_3 _ _ _ _ _ (OEndpoint e) (OEndpoint e')). }
  assert (NoDup (y :: xs)) as [Hyxs Hnd]%NoDup_cons by apply Hrq.
  apply not_elem_of_cons in Hoth as [Hxy Hxxs].
  assert (ipc_buffer_ref (value tx1) = ipc_buffer_ref (value tx)) as Hbx by (unfold tx1, waited, at_kernel; by destruct st).
  rewrite Hcc in Hep1.
  destruct (deliver_step tmp st' Hst' st s1 y ty1 uy cy x tx1 xs)
    as (s2 & tx2 & ty2 & Hc2 & Hcur2 & Hidle2 & Hrq2 & Hx2 & Hy2 & Hvx & Hnx2 & Hry & Hsy & Hny2 & Hmsg); try done.
  { by eapply same_but_radix. }
  { by apply (same_but_party _ _ _ _ _ _ _ _ _ _ Hsame Hpy). }
  { rewrite Hbx. apply (same_but_buffer _ _ _ _ _ _ Hsame), Hpx. }
  exists s1, s2, tx2, ty2. rewrite Hcc. split_and!; try done.
  - apply (ring_of s2 y ty2 x tx2 xs); try done.
    + apply NoDup_cons. split; [set_solver|]. apply NoDup_app. split; [done|]. split; [set_solver|apply NoDup_singleton].
    + rewrite Hsy. destruct (links_tcb _ _ _ (rq_links _ _ Hrq) (list_elem_of_here _ _)) as (u & Hu & Hs).
      simplify_eq. exact Hs.
    + by rewrite Hny2.
    + by rewrite Hvx.
    + by rewrite Hnx2.
  - by rewrite Hvx.
  - intros d p Hd Hp. rewrite (Hmsg d p).
    + apply (same_but_at _ _ _ _ _ _ Hsame).
    + rewrite <- Hd. clear -Hbx. unfold if_recv. by destruct st'.
    + rewrite <- Hp. clear -Hbx. unfold if_recv. by destruct st'.
Qed.

Lemma meeting_panics tmp st s x tx ux cx y ty uy cy xs n :
  st ≠ EpStIdel → meeting s x tx ux cx y ty uy cy xs → next tx = Some n →
  call_trap tmp (ep_request st ux) s = Panic PAssert.
Proof. intros Hst [Hcur Hreg Hrad Hpx _ _ Hidle _ _ _] Hn. by eapply party_panics. Qed.

(** ** In the system *)

Section Steps.
Context (tmp : Z) (entry : Z → Z → Registers → option (Prog unit)).

(** Two calls in a row, the second by the thread the first one lets run, and
    the answer to the second. *)
Lemma two_calls sy x y rx kx ry ky s1 s2 ty :
  current_proc (kern sy) = x → x ≠ y →
  code sy !! x = Some (Running (PCall rx kx)) → code sy !! y = Some (Running (PCall ry ky)) →
  call_trap tmp rx (kern sy) = Ok tt s1 → current_proc s1 = y → call_trap tmp ry s1 = Ok tt s2 →
  current_proc s2 = y → heap s2 !! y = Some (OTcb ty) →
  rtc (sys_step tmp entry) sy {| kern := s2; code := <[y := Running (ky (syscall_result (registers (value ty))))]>
    (<[y := Awaiting ky]> (<[x := Awaiting kx]> (code sy))) |}.
Proof.
  intros Hcur Hne Hx Hy H1 Hc1 H2 Hc2 Ht. set (sy1 := with_code sy s1 (Awaiting kx)).
  set (sy2 := with_code sy1 s2 (Awaiting ky)).
  assert (code sy2 = <[y := Awaiting ky]> (<[x := Awaiting kx]> (code sy))) as Hcode
    by (cbn [sy2 sy1 with_code kern code]; by rewrite Hc1, Hcur).
  rewrite <- Hcode. replace {| kern := s2; code := _ |}
    with (with_code sy2 s2 (Running (ky (syscall_result (registers (value ty))))))
    by (unfold with_code; cbn [sy2 with_code kern]; by rewrite Hc2).
  eapply rtc_l; [|eapply rtc_l; [|apply rtc_once]].
  - by apply (step_call tmp entry sy rx kx s1); [rewrite Hcur|].
  - apply (step_call tmp entry sy1 ry ky s2); [|exact H2]. cbn [sy1 with_code kern code].
    by rewrite Hc1, lookup_insert_ne by congruence.
  - apply (step_answer tmp entry sy2 ky ty); cbn [sy2 with_code kern]; rewrite Hc2; [|exact Ht].
    change (code sy2 !! y = Some (Awaiting ky)). rewrite Hcode. apply lookup_insert_eq.
Qed.

(** C5: a message passes from a sender to a receiver that is already there. A
    thread receives through the library at an endpoint where nobody waits. If
    its control block is not linked to another thread, the kernel blocks it and
    runs the next thread of the queue, which sends through its own capability
    to the same endpoint. After these steps the sender goes on with its
    program, the receiver is runnable and last in the queue with the sender's
    message in its buffer, the endpoint is idle, and when the receiver runs
    again its program goes on with the badge of the capability that was used to
    send. If the receiver is still linked to another thread, as one that was
    scheduled with others queued behind it is, its call panics the kernel
    instead. The sender is linked to the thread behind it in the queue, or to
    nothing when it is alone there. *)
Theorem rendezvous sy r tr ur cr x tx ux cx xs kr kx :
  meeting (kern sy) r tr ur cr x tx ux cx xs →
  code sy !! r = Some (Running (let! b := ep_user_recive ur in kr b)) →
  code sy !! x = Some (Running (ep_user_send ux ;; kx)) →
  match next tr with
  | Some _ => call_trap tmp (recv_ipc (cap_ptr ur) (cap_depth ur)) (kern sy) = Panic PAssert
  | None =>
      ∃ sy' t' k, rtc (sys_step tmp entry) sy sy' ∧
        code sy' !! x = Some (Running kx) ∧ ring (kern sy') x (xs ++ [r]) ∧
        ep_rep (heap (kern sy')) (cap_kva cr) AIdle ∧
        code sy' !! r = Some (Awaiting k) ∧ heap (kern sy') !! r = Some (OTcb t') ∧
        k (syscall_result (registers (value t'))) = kr (cap_dep_val cx) ∧
        (∀ d p, ipc_buffer_ref (value tr) = Some d → ipc_buffer_ref (value tx) = Some p →
           page_at (heap (kern sy')) d = page_at (heap (kern sy)) p)
  end.
Proof.
  intros Hme Hr Hx. assert (r ≠ x) as Hne by (pose proof (me_other _ _ _ _ _ _ _ _ _ _ Hme); set_solver).
  destruct (next tr) as [z|] eqn:Hn; [by apply (meeting_panics tmp EpStRecv _ _ _ _ _ _ _ _ _ _ z ltac:(done) Hme)|].
  destruct (meet tmp EpStRecv EpStSend _ _ _ _ _ _ _ _ _ _ ltac:(done) ltac:(done) ltac:(done) Hme Hn)
    as (s1 & s2 & t' & tx' & H1 & Hc1 & H2 & Hring & Hidle & Ht' & Htx' & Hrr & Hrx & Hmsg).
  pose proof (two_calls sy r x _ _ _ _ s1 s2 tx' (me_current _ _ _ _ _ _ _ _ _ _ Hme) Hne Hr Hx H1 Hc1 H2
    (ring_current _ _ _ Hring) Htx') as Hsteps.
  eexists _, t', _. split; [exact Hsteps|]. cbn [kern code]. split_and!; try done.
  - rewrite lookup_insert_eq, Hrx. reflexivity.
  - rewrite !lookup_insert_ne by done. apply lookup_insert_eq.
  - rewrite Hrr. reflexivity.
Qed.

(** C25: and the other way round: the sender comes first, at an endpoint where
    nobody waits. If its control block is not linked to another thread it is
    blocked and the next thread of the queue runs, which receives the message
    and the badge at once; the sender, last in the queue, goes on when it runs
    again. If the sender is still linked to another thread, its call panics the
    kernel instead. The receiver is linked to the thread behind it in the
    queue, or to nothing when it is alone there. *)
Theorem rendezvous_sender_first sy x tx ux cx r tr ur cr xs kr kx :
  meeting (kern sy) x tx ux cx r tr ur cr xs →
  code sy !! x = Some (Running (ep_user_send ux ;; kx)) →
  code sy !! r = Some (Running (let! b := ep_user_recive ur in kr b)) →
  match next tx with
  | Some _ => call_trap tmp (send_ipc (cap_ptr ux) (cap_depth ux)) (kern sy) = Panic PAssert
  | None =>
      ∃ sy' t' k, rtc (sys_step tmp entry) sy sy' ∧
        code sy' !! r = Some (Running (kr (cap_dep_val cx))) ∧ ring (kern sy') r (xs ++ [x]) ∧
        ep_rep (heap (kern sy')) (cap_kva cx) AIdle ∧
        code sy' !! x = Some (Awaiting k) ∧ heap (kern sy') !! x = Some (OTcb t') ∧
        k (syscall_result (registers (value t'))) = kx ∧
        (∀ d p, ipc_buffer_ref (value tr) = Some d → ipc_buffer_ref (value tx) = Some p →
           page_at (heap (kern sy')) d = page_at (heap (kern sy)) p)
  end.
Proof.
  intros Hme Hx Hr. assert (x ≠ r) as Hne by (pose proof (me_other _ _ _ _ _ _ _ _ _ _ Hme); set_solver).
  destruct (next tx) as [z|] eqn:Hn; [by apply (meeting_panics tmp EpStSend _ _ _ _ _ _ _ _ _ _ z ltac:(done) Hme)|].
  destruct (meet tmp EpStSend EpStRecv _ _ _ _ _ _ _ _ _ _ ltac:(done) ltac:(done) ltac:(done) Hme Hn)
    as (s1 & s2 & t' & tr' & H1 & Hc1 & H2 & Hring & Hidle & Ht' & Htr' & Hrx & Hrr & Hmsg).
  pose proof (two_calls sy x r _ _ _ _ s1 s2 tr' (me_current _ _ _ _ _ _ _ _ _ _ Hme) Hne Hx Hr H1 Hc1 H2
    (ring_current _ _ _ Hring) Htr') as Hsteps.
  eexists _, t', _. split; [exact Hsteps|]. cbn [kern code]. split_and!; try done.
  - rewrite lookup_insert_eq, Hrr. reflexivity.
  - rewrite !lookup_insert_ne by done. apply lookup_insert_eq.
  - rewrite Hrx. reflexivity.
Qed.
End Steps.
End Layout.
