(* ===== verification/Signals.v ===== *)
(** * A signal reaches the thread that waits for it

    The whole path of a signal, through the library, the traps and the
    scheduler: a wait that blocks and the signal that ends it, and signals that
    are collected until somebody waits. *)

From S2P Require Import Prelude Shared Address Objects Riscv LinkedList Capability PageTable CNode.
From S2P Require Import Thread RoundRobin Ipc Untyped Syscall SyscallProps Trap TrapProps UserLib UserProg CapLib CapLibProps.
From S2P Require Import BootRun System Rendezvous.

Section Layout.
Context `{KernelLayout}.
Notation wait_request u := (recv_signal (cap_ptr u) (cap_depth u)).
Notation signal_request u := (user_send_signal (cap_ptr u) (cap_depth u)).

(** ** Registers change no notification *)

Lemma nt_rep_bits_tcb h n v x t t' :
  h !! x = Some (OTcb t) → nt_rep h n (NBits v) → nt_rep (<[x := OTcb t']> h) n (NBits v).
Proof. intros Ht (o & Ho & Hrep). exists o. by rewrite lookup_insert_ne by congruence. Qed.
Lemma nt_rep_wait_value h n q x t f :
  h !! x = Some (OTcb t) → (∀ v, status (f v) = status v) → nt_rep h n (NWait q) →
  nt_rep (<[x := OTcb (t <| value ::= f |>)]> h) n (NWait q).
Proof.
  intros Ht Hf (o & Ho & Hb & Hv & Hq & Hrep & Hbl). exists o. rewrite lookup_insert_ne by congruence.
  split_and!; try done; [by apply list_rep_value|].
  rewrite Forall_forall in Hbl |- *. intros a Ha. destruct (Hbl a Ha) as (ta & Hta & Hsa).
  unfold blocked_at. destruct (decide (x = a)) as [->|]; [|rewrite lookup_insert_ne by done; by exists ta].
  rewrite lookup_insert_eq. eexists. split; [done|]. simplify_eq. simpl. by rewrite Hf.
Qed.

(** ** The thread that waits *)

(** What the wait leaves of the thread. *)
Definition at_wait (u : UserCap NotificaitonData) (t : ThreadControlBlock) : ThreadControlBlock :=
  t <| value ::= λ v, (thread_suspend (v <| registers ::= wait_request u |>)) <| registers ::= answered None |> |>.

Lemma signal_wait_step tmp s x t u c y ty xs :
  current_proc s = x → reg_base_ok s → radix_pos (heap s) → caller (heap s) CapabilityType.Notification x t u c →
  next t = None → nt_rep (heap s) (cap_kva c) (NBits None) → rq_rep s (y :: xs) → x ∉ y :: xs →
  heap s !! y = Some (OTcb ty) → next ty = head xs →
  ∃ s', call_trap tmp (wait_request u) s = Ok tt s' ∧
    current_proc s' = y ∧ reg_base_ok s' ∧ requested (scheduler s') = false ∧
    nt_rep (heap s') (cap_kva c) (NWait [x]) ∧ rq_rep s' xs ∧ heap s' !! x = Some (OTcb (at_wait u t)) ∧
    heap s' !! y = Some (OTcb (ty <| value ::= λ v, set_timeout v TASK_QUANTUM |>)) ∧
    (∀ a, a ≠ cap_kva c → a ≠ x → a ≠ y → heap s' !! a = heap s !! a) ∧ satp s' = vspace_satp ty.
Proof.
  intros Hcur Hreg Hp Hca Hn Hnt Hrq Hx Hy Hny. pose proof (ca_tcb _ _ _ _ _ _ Hca) as Ht.
  pose proof Hnt as (o0 & Ho0 & _). apply not_elem_of_cons in Hx as [Hxy Hxs].
  assert (y ≠ cap_kva c) as Hyc by congruence. assert (x ≠ cap_kva c) as Hxc by congruence.
  set (s1 := requesting s x t (wait_request u)). set (t1 := t <| value ::= λ v, v <| registers ::= wait_request u |> |>).
  assert (heap s1 !! x = Some (OTcb t1)) as Ht1 by apply lookup_insert_eq.
  destruct (wait_signal_blocks s1 (cap_kva c) x t1) as (o & Hw & Hnt1 & _); [by eapply nt_rep_bits_tcb|done|done|].
  set (h2 := <[cap_kva c := _]> _) in Hw, Hnt1. set (t2 := t1 <| value ::= thread_suspend |>) in *.
  assert (h2 !! x = Some (OTcb t2)) as Ht2 by (unfold h2; by rewrite lookup_insert_ne, lookup_insert_eq by done).
  rewrite (caller_traps tmp CapabilityType.Notification s x t u c InvLabel.NotifyWait 0 0 0 0 SysCallNo.Recv None
    (waiting true (s1 <| heap := h2 |>)) t2); try done.
  2: { intros root a Hho. cbn [dispatch]. unfold invoke_notification.
       rewrite (bind_Ok _ _ _ _ _ (slot_cap_Ok _ _ _ _ _ _ Hho)). by rewrite (bind_Ok _ _ _ _ _ Hw). }
  set (t3 := t2 <| value ::= _ |>). set (s3 := _ <| heap := _ |>). set (h3 := <[x := OTcb t3]> h2).
  assert (heap s3 = h3) as Hh3 by done.
  assert (∀ a, a ≠ cap_kva c → a ≠ x → h3 !! a = heap s !! a) as Hfr.
  { intros a Ha Hax. unfold h3, h2, s1, requesting. rewrite heap_set, !lookup_insert_ne by done. done. }
  destruct (switch_blocked s3 x t3 y ty xs) as (s' & Hs & Hcur' & Hreg' & Hq' & Hrq' & Hh' & Hsatp');
    [done|done|by rewrite Hh3; apply lookup_insert_eq|done| |by rewrite Hh3, Hfr by done|done|done|].
  { destruct Hrq as [Hnd Hh Hla Hl]. split; [done..|]. rewrite Hh3. revert Hl. apply links_mono.
    intros a ta Ha Hta. exists ta. rewrite Hfr by (congruence || set_solver). done. }
  exists s'. rewrite Hh', Hh3. split_and!; try done.
  - apply nt_rep_wait_value; [by rewrite Hfr|done|]. by apply nt_rep_wait_value.
  - rewrite lookup_insert_ne by done. unfold h3. by rewrite lookup_insert_eq.
  - by rewrite lookup_insert_eq.
  - intros a Ha Hax Hay. rewrite lookup_insert_ne by done. by apply Hfr.
Qed.

(** A thread that is linked to another one panics the kernel when it has to
    wait for a signal. *)
Lemma signal_wait_panics tmp s x t (u : UserCap NotificaitonData) c z :
  current_proc s = x → reg_base_ok s → radix_pos (heap s) → caller (heap s) CapabilityType.Notification x t u c →
  nt_rep (heap s) (cap_kva c) (NBits None) → next t = Some z →
  call_trap tmp (wait_request u) s = Panic PAssert.
Proof.
  intros Hcur Hreg Hp Hca Hnt Hn. pose proof (ca_tcb _ _ _ _ _ _ Hca) as Ht.
  refine (caller_panics tmp _ s x t u c InvLabel.NotifyWait 0 0 0 0 SysCallNo.Recv _ ltac:(done) Hcur Hreg Hp Hca _).
  intros root a Hho. cbn [dispatch]. unfold invoke_notification.
  rewrite (bind_Ok _ _ _ _ _ (slot_cap_Ok _ _ _ _ _ _ Hho)). apply bind_Panic. unfold notify_cap_wait.
  eapply wait_signal_linked; [by eapply nt_rep_bits_tcb|apply lookup_insert_eq|exact Hn].
Qed.

(** ** The thread that signals *)

Lemma signal_step tmp s y ty (u : UserCap NotificaitonData) c x tx xs :
  current_proc s = y → reg_base_ok s → radix_pos (heap s) → caller (heap s) CapabilityType.Notification y ty u c →
  requested (scheduler s) = false → nt_rep (heap s) (cap_kva c) (NWait [x]) → rq_rep s xs → y ∉ xs → x ≠ y →
  heap s !! x = Some (OTcb tx) →
  ∃ s', call_trap tmp (signal_request u) s = Ok tt s' ∧
    current_proc s' = y ∧ nt_rep (heap s') (cap_kva c) (NBits None) ∧ rq_rep s' (xs ++ [x]) ∧
    heap s' !! x = Some (OTcb (tx <| value ::= λ v, thread_resume (set_a1 (cap_dep_val c) v) |>)) ∧
    heap s' !! y = Some (OTcb (after_call (signal_request u) (inl None) ty)).
Proof.
  intros Hcur Hreg Hp Hca Hq Hnt Hrq Hy Hne Hx. pose proof (ca_tcb _ _ _ _ _ _ Hca) as Ht.
  assert (x ∉ xs) as Hxs.
  { destruct Hnt as (o & _ & _ & _ & _ & _ & Hb). apply Forall_singleton in Hb as (tb & Htb & Hb).
    exact (blocked_notin _ _ _ _ Hrq Htb Hb). }
  assert (y ≠ cap_kva c) as Hyc by (destruct Hnt as (o & Ho & _); congruence).
  set (s1 := requesting s y ty (signal_request u)).
  set (t1 := ty <| value ::= λ v, v <| registers ::= signal_request u |> |>).
  destruct (send_signal_wakes s1 (cap_kva c) x tx (cap_dep_val c) xs) as (s2 & Hs & Hnt2 & Hrq2 & Hq2 & Hx2 & Hfr).
  { by apply nt_rep_wait_value. }
  { by apply rq_rep_value. }
  { done. }
  { unfold s1, requesting. rewrite heap_set. by rewrite lookup_insert_ne. }
  assert (heap s2 !! y = Some (OTcb t1)) as Ht2 by (rewrite Hfr by done; apply lookup_insert_eq).
  rewrite (caller_traps tmp CapabilityType.Notification s y ty u c InvLabel.NotifySend 0 0 0 0 SysCallNo.Send None s2 t1);
    try done.
  2: { intros root a Hho. cbn [dispatch]. unfold invoke_notification.
       rewrite (bind_Ok _ _ _ _ _ (slot_cap_Ok _ _ _ _ _ _ Hho)). by rewrite (bind_Ok _ _ _ _ _ Hs). }
  set (s3 := s2 <| heap := _ |>). rewrite (schedule_unrequested s3) by (unfold s3; rewrite <- Hq; exact Hq2).
  assert (same_cpu s1 s2) as (_ & Hc2 & _) by (eapply keeps_Ok, Hs; clear; keeps).
  exists s3. unfold s3. rewrite heap_set. split_and!; try done.
  - by rewrite <- Hcur.
  - by eapply nt_rep_bits_tcb.
  - by apply rq_rep_value.
  - by rewrite lookup_insert_ne by done.
  - apply lookup_insert_eq.
Qed.

(** ** In the system *)

(** [x] runs and [y] is first in the run queue; both hold capabilities to the
    same notification, with no signal pending. [y] is linked to the thread
    behind it in the queue or, when it is alone there, to nothing. *)
Record signalling (s : KState) (x : Z) (tx : ThreadControlBlock) (ux : UserCap NotificaitonData) (cx : CapabilityData)
    (y : Z) (ty : ThreadControlBlock) (uy : UserCap NotificaitonData) (cy : CapabilityData) (xs : list Z) : Prop := {
  sg_current : current_proc s = x;
  sg_base : reg_base_ok s;
  sg_radix : radix_pos (heap s);
  sg_first : caller (heap s) CapabilityType.Notification x tx ux cx;
  sg_second : caller (heap s) CapabilityType.Notification y ty uy cy;
  sg_notification : cap_kva cx = cap_kva cy;
  sg_none : nt_rep (heap s) (cap_kva cx) (NBits None);
  sg_queue : rq_rep s (y :: xs);
  sg_other : x ∉ y :: xs;
  sg_next : next ty = head xs;
}.

(** C23: a signal reaches the thread that waits for it. A thread waits through
    the library on a notification without pending signals. If its control block
    is not linked to another thread, the kernel blocks it and runs the next
    thread of the queue, which signals through its own capability to the same
    notification. After these steps the signaller goes on with its program, the
    waiting thread is runnable and last in the queue, no signal is left, and
    when the waiting thread runs again its program goes on with the badge of
    the capability that was used to signal. If the thread is still linked to
    another one, as one that was scheduled with others queued behind it is, its
    wait panics the kernel instead. The signaller is linked to the thread
    behind it in the queue, or to nothing when it is alone there. *)
Theorem signal_wakes_waiter tmp entry sy x tx ux cx y ty uy cy xs kx ky :
  signalling (kern sy) x tx ux cx y ty uy cy xs →
  code sy !! x = Some (Running (let! b := notify_user_wait ux in kx b)) →
  code sy !! y = Some (Running (notify_user_send uy ;; ky)) →
  match next tx with
  | Some _ => call_trap tmp (wait_request ux) (kern sy) = Panic PAssert
  | None =>
      ∃ sy' t' k, rtc (sys_step tmp entry) sy sy' ∧
        code sy' !! y = Some (Running ky) ∧ ring (kern sy') y (xs ++ [x]) ∧
        nt_rep (heap (kern sy')) (cap_kva cx) (NBits None) ∧
        code sy' !! x = Some (Awaiting k) ∧ heap (kern sy') !! x = Some (OTcb t') ∧
        k (syscall_result (registers (value t'))) = kx (cap_dep_val cy)
  end.
Proof.
  intros [Hcur Hreg Hrad Hcx Hcy Hcc Hnt Hrq Hoth Hny] Hx Hy.
  destruct (next tx) as [z|] eqn:Hnx; [by eapply signal_wait_panics|].
  pose proof (ca_tcb _ _ _ _ _ _ Hcx) as Htx. pose proof (ca_tcb _ _ _ _ _ _ Hcy) as Hty.
  destruct (signal_wait_step tmp (kern sy) x tx ux cx y ty xs)
    as (s1 & H1 & Hcur1 & Hreg1 & Hq1 & Hnt1 & Hrq1 & Hx1 & Hy1 & Hfr1 & _); [done..|].
  set (ty1 := ty <| value ::= _ |>) in *.
  assert (same_but (cap_kva cx) x y (heap (kern sy)) (heap s1)) as Hsame.
  { pose proof Hnt as (o & Ho & _). pose proof Hnt1 as (o' & Ho' & _).
    by eapply (same_but_3 _ _ _ _ _ (ONotification o) (ONotification o')). }
  assert (NoDup (y :: xs)) as [Hyxs Hnd]%NoDup_cons by apply Hrq.
  apply not_elem_of_cons in Hoth as [Hxy Hxxs]. rewrite Hcc in Hnt1.
  destruct (signal_step tmp s1 y ty1 uy cy x (at_wait ux tx) xs) as (s2 & H2 & Hcur2 & Hnt2 & Hrq2 & Hx2 & Hy2); try done.
  { by eapply same_but_radix. }
  { by apply (same_but_caller _ _ _ _ _ _ _ _ _ _ _ Hsame Hcy). }
  pose proof (two_calls tmp entry sy x y _ _ _ _ s1 s2 _ Hcur Hxy Hx Hy H1 Hcur1 H2 Hcur2 Hy2) as Hsteps.
  eexists _, _, _. split; [exact Hsteps|]. cbn [kern code]. rewrite Hcc. split_and!; try done.
  - by rewrite lookup_insert_eq.
  - eapply (ring_of s2 y _ x); try done.
    + apply NoDup_cons. split; [set_solver|]. apply NoDup_app. split; [done|]. split; [set_solver|apply NoDup_singleton].
    + destruct (links_tcb _ _ _ (rq_links _ _ Hrq) (list_elem_of_here _ _)) as (t & Ht & Hs). by simplify_eq.
  - rewrite !lookup_insert_ne by done. apply lookup_insert_eq.
  - reflexivity.
Qed.

(** ** Signals that nobody waits for yet *)

(** A loop over capabilities that signals through each. *)
Fixpoint signal_all (us : list (UserCap NotificaitonData)) : Prog unit :=
  match us with [] => PRet tt | u :: us => notify_user_send u ;; signal_all us end.

Section Direct.
Context (tmp x : Z) (root : CapabilityData) (Hr : 0 < radix root).

(** What stays the same over the calls of [x] on the notification [n]. *)
Definition calls_on (n : Z) (s s' : KState) : Prop :=
  same_but n x x (heap s) (heap s') ∧ current_proc s' = current_proc s.

(** One call: the handler's effect and the answer. *)
Lemma notify_direct s t (u : UserCap NotificaitonData) c a l no v s2 t2 :
  let req := ecall (cap_ptr u) (cap_depth u) l 0 0 0 0 no in
  no ≠ SysCallNo.Print → runs_in s x t root → radix_pos (heap s) → holds (heap s) root u CapabilityType.Notification a c →
  (holds (heap (requesting s x t req)) root u CapabilityType.Notification a c →
   invoke_notification a x l (requesting s x t req) = Ok v s2) →
  heap s2 !! x = Some (OTcb t2) → sepc (registers (value t2)) + 4 < W →
  let t3 := t2 <| value ::= λ w, w <| registers ::= answered v |> |> in
  run_direct tmp (call req) s =
    Ok (default (a1 (registers (value t2))) v) (s2 <| heap := <[x := OTcb t3]> (heap s2) |>).
Proof.
  intros req Hno Hrun Hp Hho Hi Ht2 Hpc t3. apply run_direct_call. pose proof Hrun as [Hcur Ht _ _].
  set (s1 := requesting s x t req) in *. set (r := req (registers (value t))).
  assert (syscall_body tmp (a7 r) r s1 = Ok v s2) as Hb.
  { refine (eq_trans (ecall_dispatch (cap_ptr u) (cap_depth u) l 0 0 0 0 no _ tmp s1 Hno) _).
    refine (eq_trans (handle_held tmp s x t _ u _ a c req l _ Hrun Hp Hr Hho) (Hi _)).
    revert Hho. apply holds_slots. intros b. by apply requesting_slots. }
  assert (try_ (E' := KernelError) (syscall_body tmp (a7 r) r) s1 = Ok (inl v) s2) as Htry by (unfold try_; by rewrite Hb).
  rewrite (direct_call_returns tmp req s x t (inl v) s2 t2 Hcur Ht Htry Ht2 Hpc).
  change (ended (inl v)) with (answered v). by rewrite answered_result.
Qed.

Lemma signal_direct s t u c a v :
  runs_in s x t root → radix_pos (heap s) → holds (heap s) root u CapabilityType.Notification a c →
  nt_rep (heap s) (cap_kva c) (NBits v) →
  ∃ s', run_direct tmp (notify_user_send u) s = Ok tt s' ∧
    nt_rep (heap s') (cap_kva c) (NBits (Some (Z.lor (default 0 v) (cap_dep_val c)))) ∧
    heap s' !! x = Some (OTcb (after_call (signal_request u) (inl None) t)) ∧ calls_on (cap_kva c) s s'.
Proof.
  intros Hrun Hp Hho Hnt. pose proof Hrun as [Hcur Ht _ Hpc]. pose proof Hnt as (o0 & Ho0 & _).
  assert (cap_kva c ≠ x) as Hne by congruence. set (s1 := requesting s x t (signal_request u)).
  destruct (send_signal_bits s1 (cap_kva c) v (cap_dep_val c)) as (o & Hs & Hrep); [by eapply nt_rep_bits_tcb|].
  set (h2 := <[cap_kva c := _]> _) in Hs, Hrep.
  set (t1 := t <| value ::= λ w, w <| registers ::= signal_request u |> |>).
  assert (h2 !! x = Some (OTcb t1)) as Ht2 by (unfold h2; rewrite lookup_insert_ne by done; apply lookup_insert_eq).
  assert (holds (heap s1) root u CapabilityType.Notification a c →
    invoke_notification a x InvLabel.NotifySend s1 = Ok None (s1 <| heap := h2 |>)) as Hi.
  { intros Hho1. unfold invoke_notification. rewrite (bind_Ok _ _ _ _ _ (slot_cap_Ok _ _ _ _ _ _ Hho1)).
    by rewrite (bind_Ok _ _ _ _ _ Hs). }
  pose proof (notify_direct s t u c a InvLabel.NotifySend SysCallNo.Send None _ t1 ltac:(done) Hrun Hp Hho Hi Ht2 Hpc) as Hcall.
  eexists. split; [|split; [|split]].
  - unfold notify_user_send. rewrite run_direct_bind. by rewrite (bind_Ok _ _ _ _ _ Hcall).
  - rewrite heap_set. by eapply nt_rep_bits_tcb.
  - rewrite heap_set, lookup_insert_eq. reflexivity.
  - split; [|done]. rewrite heap_set. destruct Hrep as (o' & Ho' & _).
    eapply (same_but_3 _ _ _ _ _ (ONotification o0) (ONotification o')); try done; try apply lookup_insert_eq.
    + by rewrite lookup_insert_ne by done.
    + intros b Hb Hbx _. rewrite lookup_insert_ne by done. change (h2 !! b = heap s !! b). unfold h2, s1, requesting.
      by rewrite lookup_insert_ne, heap_set, lookup_insert_ne by done.
Qed.

(** A wait with signals pending does not block. *)
Lemma wait_direct s t u c a v :
  runs_in s x t root → radix_pos (heap s) → holds (heap s) root u CapabilityType.Notification a c →
  nt_rep (heap s) (cap_kva c) (NBits (Some v)) →
  ∃ s', run_direct tmp (notify_user_wait u) s = Ok v s' ∧ nt_rep (heap s') (cap_kva c) (NBits None) ∧
    calls_on (cap_kva c) s s'.
Proof.
  intros Hrun Hp Hho Hnt. pose proof Hrun as [Hcur Ht _ Hpc]. pose proof Hnt as (o0 & Ho0 & _).
  assert (cap_kva c ≠ x) as Hne by congruence. set (s1 := requesting s x t (wait_request u)).
  set (t1 := t <| value ::= λ w, w <| registers ::= wait_request u |> |>).
  assert (heap s1 !! x = Some (OTcb t1)) as Ht1 by apply lookup_insert_eq.
  destruct (wait_signal_bits s1 (cap_kva c) v x t1) as (o & Hs & Hrep); [by eapply nt_rep_bits_tcb|done|].
  set (h2 := <[cap_kva c := _]> _) in Hs, Hrep. set (t2 := t1 <| value ::= set_a1 v |>) in *.
  assert (h2 !! x = Some (OTcb t2)) as Ht2 by (unfold h2; rewrite lookup_insert_ne by done; apply lookup_insert_eq).
  assert (holds (heap s1) root u CapabilityType.Notification a c →
    invoke_notification a x InvLabel.NotifyWait s1 = Ok None (s1 <| heap := h2 |>)) as Hi.
  { intros Hho1. unfold invoke_notification. rewrite (bind_Ok _ _ _ _ _ (slot_cap_Ok _ _ _ _ _ _ Hho1)).
    by rewrite (bind_Ok _ _ _ _ _ Hs). }
  pose proof (notify_direct s t u c a InvLabel.NotifyWait SysCallNo.Recv None _ t2 ltac:(done) Hrun Hp Hho Hi Ht2 Hpc) as Hcall.
  eexists. split; [|split].
  - unfold notify_user_wait. exact Hcall.
  - rewrite heap_set. by eapply nt_rep_bits_tcb.
  - split; [|done]. rewrite heap_set. destruct Hrep as (o' & Ho' & _).
    eapply (same_but_3 _ _ _ _ _ (ONotification o0) (ONotification o')); try done; try apply lookup_insert_eq.
    + by rewrite lookup_insert_ne by done.
    + intros b Hb Hbx _. rewrite lookup_insert_ne by done. change (h2 !! b = heap s !! b). unfold h2, s1, requesting.
      by rewrite !lookup_insert_ne, heap_set, lookup_insert_ne by done.
Qed.

(** The thread goes on in the same capability space. *)
Lemma calls_on_runs n s s' t req :
  runs_in s x t root → (∀ r, sepc (req r) = sepc r) → sepc (registers (value t)) + 8 < W →
  calls_on n s s' → heap s' !! x = Some (OTcb (after_call req (inl None) t)) →
  runs_in s' x (after_call req (inl None) t) root.
Proof.
  intros [Hcur Ht Hroot _] Hreq Hpc [_ Hc] Hx. split; [congruence|done|done|].
  change (sepc (req (registers (value t))) + 4 + 4 < W). rewrite Hreq. lia.
Qed.
Lemma calls_on_holds {K} n s s' (u : UserCap K) ct a c :
  calls_on n s s' → holds (heap s) root u ct a c → holds (heap s') root u ct a c.
Proof. intros [Hs _]. apply holds_slots. intros b. apply (same_but_at _ _ _ _ _ b Hs). Qed.
Lemma calls_on_trans n s s' s'' : calls_on n s s' → calls_on n s' s'' → calls_on n s s''.
Proof.
  intros [[H1 F1] C1] [[H2 F2] C2]. split; [|congruence]. split.
  - intros a Ha. destruct (H1 a Ha) as (o1 & o2 & E1 & E2 & ? & ?). destruct (H2 a Ha) as (o3 & o4 & E3 & E4 & ? & ?). eauto 7.
  - intros a ? ? ?. by rewrite F2, F1.
Qed.

(** [u] is a capability of badge [b] to the notification [n]. *)
Definition signals_as (s : KState) (n : Z) (u : UserCap NotificaitonData) (b : Z) : Prop :=
  ∃ a c, holds (heap s) root u CapabilityType.Notification a c ∧ cap_kva c = n ∧ cap_dep_val c = b.

Lemma calls_on_signals n s s' us bs :
  calls_on n s s' → Forall2 (signals_as s n) us bs → Forall2 (signals_as s' n) us bs.
Proof.
  intros Hc Hus. eapply Forall2_impl; [exact Hus|]. intros u b (a & c & Hho & ? & ?). exists a, c.
  split; [by eapply calls_on_holds|done].
Qed.

Lemma signal_all_direct n us bs s t v :
  runs_in s x t root → sepc (registers (value t)) + 4 * Z.of_nat (S (length us)) < W → radix_pos (heap s) →
  Forall2 (signals_as s n) us bs → nt_rep (heap s) n (NBits (Some v)) →
  ∃ s' t', run_direct tmp (signal_all us) s = Ok tt s' ∧ runs_in s' x t' root ∧
    nt_rep (heap s') n (NBits (Some (or_all v bs))) ∧ calls_on n s s'.
Proof.
  intros Hrun Hpc Hp Hall. revert s t v Hrun Hpc Hp Hall.
  induction us as [|u us IH] in bs |- *; intros s t v Hrun Hpc Hp Hall Hnt; inversion Hall as [|? b ? bs' Hu Hus]; subst.
  { exists s, t. split_and!; try done. pose proof Hrun as [_ Ht _ _]. pose proof Hnt as (o & Ho & _). split; [|done].
    by eapply (same_but_3 _ _ _ _ _ (ONotification o) (ONotification o)). }
  destruct Hu as (a & c & Hho & <- & <-). cbn [length] in Hpc.
  destruct (signal_direct s t u c a (Some v) Hrun Hp Hho Hnt) as (s1 & H1 & Hnt1 & Hx1 & Hc1).
  assert (runs_in s1 x (after_call (signal_request u) (inl None) t) root) as Hrun1
    by (eapply calls_on_runs; [done|done|lia|done|done]).
  destruct (IH bs' s1 _ (Z.lor v (cap_dep_val c)) Hrun1) as (s2 & t2 & H2 & Hrun2 & Hnt2 & Hc2); try done.
  - change (sepc (registers (value t)) + 4 + 4 * Z.of_nat (S (length us)) < W). lia.
  - eapply same_but_radix; [apply Hc1|done].
  - by eapply calls_on_signals.
  - exists s2, t2. split; [|split_and!; [done|done|by eapply calls_on_trans]].
    cbn [signal_all]. by rewrite run_direct_bind, (bind_Ok _ _ _ _ _ H1).
Qed.
End Direct.

(** C22: signals are never lost while nobody waits. A thread signals through the
    library over any number of capabilities to a notification and then waits
    on it: no call blocks, the wait returns the bitwise or of the badges of
    all the capabilities used, and no signal is left pending. Nothing but the
    thread and the notification changes. *)
Theorem library_signals_collected tmp s x t root n u us b bs w cw aw :
  runs_in s x t root → radix_pos (heap s) → 0 < radix root →
  sepc (registers (value t)) + 4 * Z.of_nat (S (S (length us))) < W →
  Forall2 (signals_as root s n) (u :: us) (b :: bs) →
  holds (heap s) root w CapabilityType.Notification aw cw → cap_kva cw = n → nt_rep (heap s) n (NBits None) →
  ∃ s', run_direct tmp (signal_all (u :: us) ;; notify_user_wait w) s = Ok (or_all b bs) s' ∧
    nt_rep (heap s') n (NBits None) ∧ current_proc s' = x ∧ (∀ a, a ≠ n → a ≠ x → heap s' !! a = heap s !! a).
Proof.
  intros Hrun Hp Hr Hpc Hall Hw <- Hnt. apply Forall2_cons in Hall as [(a & c & Hho & Hn & <-) Hus].
  rewrite <- Hn in Hnt, Hus |- *.
  destruct (signal_direct tmp x root Hr s t u c a None Hrun Hp Hho Hnt) as (s1 & H1 & Hnt1 & Hx1 & Hc1).
  assert (runs_in s1 x (after_call (signal_request u) (inl None) t) root) as Hrun1
    by (eapply calls_on_runs; [done|done|lia|done|done]).
  destruct (signal_all_direct tmp x root Hr (cap_kva c) us bs s1 _ (Z.lor 0 (cap_dep_val c)) Hrun1)
    as (s2 & t2 & H2 & Hrun2 & Hnt2 & Hc2); try done.
  { change (sepc (registers (value t)) + 4 + 4 * Z.of_nat (S (length us)) < W). lia. }
  { eapply same_but_radix; [apply Hc1|done]. }
  { by eapply calls_on_signals. }
  rewrite Z.lor_0_l, Hn in Hnt2. pose proof (calls_on_trans _ _ _ _ _ Hc1 Hc2) as Hc.
  destruct (wait_direct tmp x root Hr s2 t2 w cw aw (or_all (cap_dep_val c) bs)) as (s3 & H3 & Hnt3 & Hc3); try done.
  { eapply same_but_radix; [apply Hc|done]. }
  { by eapply calls_on_holds. }
  rewrite <- Hn in Hc3. pose proof (calls_on_trans _ _ _ _ _ Hc Hc3) as [[_ Hfr] Hcur].
  exists s3. split_and!; [|by rewrite Hn|rewrite Hcur; apply Hrun|intros; by apply Hfr].
  cbn [signal_all]. rewrite run_direct_bind. rewrite (bind_Ok _ _ _ tt s2).
  - exact H3.
  - by rewrite run_direct_bind, (bind_Ok _ _ _ _ _ H1).
Qed.
End Layout.
