(* ===== verification/Spawn.v ===== *)
(** * A new thread runs

    A thread is configured, given its registers and resumed through the library,
    and runs when its parent waits: from the calls of the parent to the first
    instruction of the child, through kernel and scheduler. *)

From S2P Require Import Prelude Shared Address Objects Riscv LinkedList Capability PageTable CNode.
From S2P Require Import Thread RoundRobin Ipc Untyped Syscall SyscallProps Trap TrapProps UserLib UserProg CapLib CapLibProps.
From S2P Require Import LibMap LibThread LibConfigure BootRun System Direct Rendezvous Signals.

(** ** Memory that keeps its tables *)

Lemma pte_at_tables h h' t i pte :
  (∀ a o, h !! a = Some (OPageTable o) → h' !! a = Some (OPageTable o)) →
  pte_at h t i = Some pte → pte_is_valid pte = true → pte_at h' t i = Some pte.
Proof.
  intros Hk (o & Ho & Hi)%bind_Some Hv. unfold table_at in Ho. destruct (h !! t) as [[]|] eqn:Ht; simplify_eq.
  - unfold pte_at, table_at. by rewrite (Hk _ _ Ht).
  - exfalso. apply list_elem_of_lookup_2 in Hi. unfold PageTable_new in Hi. apply elem_of_replicate in Hi as [-> _]. done.
Qed.
Lemma walk_at_tables h h' ls t v t' i pte :
  (∀ a o, h !! a = Some (OPageTable o) → h' !! a = Some (OPageTable o)) → Forall (λ l, l ≠ 0) ls →
  walk_at h ls t v = Some (0, (t', i)) → pte_at h t' i = Some pte → pte_is_valid pte = true →
  walk_at h' ls t v = Some (0, (t', i)).
Proof.
  intros Hk Hls. induction Hls as [|l ls Hl _ IH] in t |- *; cbn [walk_at]; intros Hw Hp Hv.
  - apply bind_Some in Hw as (p & _ & [= <- <-]). by rewrite (pte_at_tables _ _ _ _ _ Hk Hp Hv).
  - apply bind_Some in Hw as (p & Hp' & Hw). destruct (pte_is_valid p) eqn:Hpv; [|by simplify_eq].
    rewrite (pte_at_tables _ _ _ _ _ Hk Hp' Hpv). cbn [mbind option_bind]. rewrite Hpv. by apply IH.
Qed.
Lemma translate_tables h h' root v pte :
  (∀ a o, h !! a = Some (OPageTable o) → h' !! a = Some (OPageTable o)) →
  translate h root v = Some pte → translate h' root v = Some pte.
Proof.
  intros Hk. unfold translate at 1. destruct (walk_at h [3; 2; 1] root v) as [[[] [t i]]|] eqn:Hw; try done.
  intros (p & Hp & Hif)%bind_Some. destruct (pte_is_valid p) eqn:Hv; simplify_eq.
  apply (translate_at _ _ _ t i); [|by eapply pte_at_tables|done].
  eapply walk_at_tables; try done. by repeat constructor.
Qed.
Lemma user_frame_tables s s' v fl d :
  (∀ a o, heap s !! a = Some (OPageTable o) → heap s' !! a = Some (OPageTable o)) → satp s' = satp s →
  user_frame s v fl = Some d → user_frame s' v fl = Some d.
Proof.
  intros Hk Hs. unfold user_frame. rewrite Hs. intros (p & Hp & Hd)%bind_Some.
  by rewrite (translate_tables _ _ _ _ _ Hk Hp).
Qed.

Lemma linked_object xs h h' a o :
  linked xs h h' → h !! a = Some o → a ∉ xs → (if o is OSlot _ then False else True) → h' !! a = Some o.
Proof.
  intros Hl Ha Hx Ho. rewrite (ln_other _ _ _ Hl a Hx); [done|]. unfold entry_at, slot_at. rewrite Ha. by destruct o.
Qed.
Lemma frame_linked xs h h' : (∀ a, a ∉ xs → h' !! a = h !! a) → linked xs h h'.
Proof.
  intros Hf. split; intros a; [|by intros ? _; apply Hf]. intros e Ha He. exists e. split; [|done].
  unfold entry_at, slot_at in *. by rewrite Hf.
Qed.

Section Layout.
Context `{KernelLayout}.

(** ** The parent *)

(** The calls that start a thread. *)
Definition launch (u : UserCap TcbData) (uc : UserCap CNodeData) (uv : UserCap PageTableData) (regs : Registers) (v : Z)
    : Prog unit :=
  tcb_cap_configure u uc uv ;; tcb_cap_write_regs u regs v ;; tcb_cap_resume u.

(** The parent [x] holds capabilities to a thread without spaces, to the spaces
    for it and to a notification without signals; it is the only thread that
    can run. *)
Record can_launch (s : KState) (tmp x : Z) (t : ThreadControlBlock) (root : CapabilityData)
    (u : UserCap TcbData) (slot : Z) (c : CapabilityData) (ty : ThreadControlBlock)
    (uc : UserCap CNodeData) (csrc : Z) (ec : CNodeEntry) (uv : UserCap PageTableData) (vsrc : Z) (ev : CNodeEntry)
    (v d : Z) (b : IPCBuffer) : Prop := {
  pt_runs : runs_in s x t root;
  pt_pc : sepc (registers (value t)) + 16 < W;
  pt_radix : radix_pos (heap s) ∧ 0 < radix root;
  pt_child : holds (heap s) root u CapabilityType.Tcb slot c;
  pt_cspace : holds (heap s) root uc CapabilityType.CNode csrc ec.(cap);
  pt_vspace : holds (heap s) root uv CapabilityType.PageTable vsrc ev.(cap);
  pt_places : config_places s tmp (cap_kva c) csrc ec vsrc ev;
  pt_tcb : heap s !! cap_kva c = Some (OTcb ty) ∧ cap_kva c ≠ x;
  pt_new : root_cnode (value ty) = None ∧ vspace (value ty) = None ∧ next ty = None;
  pt_buffer : own_buffer s t v d b;
  pt_stack : heap s !! tmp = None ∧ tmp ≠ d;
  pt_alone : rq_rep s [];
}.

Section Launch.
Context (s : KState) (tmp x : Z) (t : ThreadControlBlock) (root : CapabilityData).
Context (u : UserCap TcbData) (slot : Z) (c : CapabilityData) (ty : ThreadControlBlock).
Context (uc : UserCap CNodeData) (csrc : Z) (ec : CNodeEntry) (uv : UserCap PageTableData) (vsrc : Z) (ev : CNodeEntry).
Context (v d : Z) (b : IPCBuffer).
Context (Hpt : can_launch s tmp x t root u slot c ty uc csrc ec uv vsrc ev v d b).
Notation y := (cap_kva c).

(** None of the places written holds a capability. *)
Lemma parent_places a : a ∈ [tmp; y; x; d] → entry_at (heap s) a = None.
Proof.
  destruct Hpt as [[_ Ht _ _] _ _ _ _ _ _ [Hy _] _ [_ _ _ _ Hd _] [Htm _] _]. intros Ha.
  assert (a = tmp ∨ a = y ∨ a = x ∨ a = d) as [->|[->|[->| ->]]] by set_solver; unfold entry_at, slot_at;
    rewrite ?Htm, ?Hy, ?Ht; [done..|]. unfold page_at in Hd. by destruct (heap s !! d) as [[]|].
Qed.

(** After the first call. *)
Lemma parent_buffer h1 f :
  linked [tmp; y; x] (heap s) h1 → let t1 := t <| value ::= λ w, w <| registers ::= f |> |> in
  own_buffer (s <| heap := h1 |>) t1 v d b.
Proof.
  intros Hl t1. destruct Hpt as [[_ Ht _ _] _ _ _ _ _ _ [Hy _] _ [Ha Hrd Hwr Hk Hd Hlen] [Htm Htd] _].
  assert (∀ a o, heap s !! a = Some (OPageTable o) → h1 !! a = Some (OPageTable o)) as Htab.
  { intros a o Hao. apply (linked_object _ _ _ _ _ Hl Hao); [|done]. rewrite !not_elem_of_cons. split_and!; try set_solver; congruence. }
  assert (d ≠ x) as Hdx by by eapply buffer_ne. assert (d ≠ y) as Hdy by by eapply buffer_ne.
  split; try done.
  - by apply (user_frame_tables s).
  - by apply (user_frame_tables s).
  - unfold page_at in *. rewrite heap_set, (ln_other _ _ _ Hl d); [done|set_solver|]. apply parent_places. set_solver.
Qed.

(** The three calls. *)
Lemma launch_call regs :
  ∃ s' f ec' ev', run_direct tmp (launch u uc uv regs v) s = Ok tt s' ∧
    ec'.(cap) = ec.(cap) ∧ ev'.(cap) = ev.(cap) ∧
    heap s' !! y = Some (OTcb ((configured ec' ev' ty) <| value ::= λ w, thread_resume (w <| registers := regs |>) |>)) ∧
    heap s' !! x = Some (OTcb (t <| value ::= λ w, w <| registers ::= f |> |>)) ∧ (∀ r, sepc (f r) = sepc r + 12) ∧
    rq_rep s' [y] ∧ requested (scheduler s') = requested (scheduler s) ∧
    linked [tmp; y; x; d] (heap s) (heap s') ∧ radix_pos (heap s').
Proof.
  pose proof Hpt as [Hrun Hpc [Hp Hr] Hu Huc Huv Hcp [Hy Hyx] (Hc0 & Hv0 & _) Hob [Htm Htd] Hrq].
  pose proof Hrun as [Hcur Ht Hroot _]. pose proof (ob_page _ _ _ _ _ Hob) as Hd. assert (tmp ≠ x) as Htx by congruence.
  destruct (configure_call s tmp x t root u slot c ty uc csrc ec uv vsrc ev) as (h1 & ec' & ev' & H1 & Hec & Hev & Hy1 & Hx1 & Hl1 & Hp1);
    [done..|]. set (s1 := s <| heap := h1 |>) in *. set (t1 := after_call _ _ t) in Hx1.
  assert (runs_in s1 x t1 root) as Hrun1.
  { split; [done|done|done|]. change (sepc (registers (value t)) + 4 + 4 < W). lia. }
  assert (keeps_caps (heap s) h1) as Hk1.
  { eapply linked_keeps_caps; [done|]. intros a Ha. apply parent_places. set_solver. }
  destruct (start_thread_call tmp s1 x t1 root u slot c v d b regs (configured ec' ev' ty) [])
    as (s2 & f & b' & H2 & Hy2 & Hx2 & Hf & Hrq2 & Hcur2 & Hd2 & Hq2 & _ & Hfr2); try done.
  { change (sepc (registers (value t)) + 4 + 8 < W). lia. }
  { by eapply holds_keeps. }
  { exact (parent_buffer h1 _ Hl1). }
  { destruct Hrq. by split. }
  { set_solver. }
  { set_solver. }
  assert (linked [tmp; y; x; d] h1 (heap s2)) as Hl2.
  { apply frame_linked. intros a Ha. rewrite Hfr2; [done|set_solver]. }
  exists s2, (λ r, f (ended (inl None) (configure_tcb (cap_ptr u) (cap_depth u) (cap_ptr uc) (cap_depth uc) (cap_ptr uv) (cap_depth uv) r))), ec', ev'.
  split_and!; try done.
  - unfold launch. by rewrite run_direct_bind, (bind_Ok _ _ _ _ _ H1).
  - intros r. rewrite Hf. change (sepc r + 4 + 8 = sepc r + 12). lia.
  - apply (linked_trans _ _ h1); [|done]. eapply linked_mono, Hl1. set_solver.
  - eapply linked_radix_pos; [by apply frame_linked, Hfr2| |done]. intros a e Ha.
    assert (a = y ∨ a = x ∨ a = d) as [->|[->| ->]] by set_solver; unfold entry_at, slot_at; by rewrite ?Hy2, ?Hx2, ?Hd2.
Qed.

(** Other objects, and the capabilities the parent holds, are as before. *)
Lemma launch_keeps_notification h' n :
  linked [tmp; y; x; d] (heap s) h' → nt_rep (heap s) n (NBits None) → nt_rep h' n (NBits None).
Proof.
  destruct Hpt as [[_ Ht _ _] _ _ _ _ _ _ [Hy _] _ [_ _ _ _ Hd _] [Htm _] _].
  intros Hl (o & Ho & Hrest). exists o. split; [|done]. apply (linked_object _ _ _ _ _ Hl Ho); [|done].
  assert (n ≠ d). { intros ->. unfold page_at in Hd. by rewrite Ho in Hd. }
  rewrite !not_elem_of_cons. split_and!; [congruence|congruence|congruence|done|apply not_elem_of_nil].
Qed.
Lemma launch_keeps_holds {K} h' (w : UserCap K) ct a cw :
  linked [tmp; y; x; d] (heap s) h' → holds (heap s) root w ct a cw → holds h' root w ct a cw.
Proof. intros Hl. apply holds_keeps. eapply linked_keeps_caps; [done|]. exact parent_places. Qed.
End Launch.

(** ** The child *)

(** C9: a thread that is launched runs. A parent, the only thread that can run,
    configures a new thread with a capability space and an address space,
    gives it its registers, resumes it and waits for a signal, all through the
    library. The system can then take steps until the new thread runs: in the
    address space it was given, with exactly the registers it was given, at
    the program its entry point names there, and with capabilities to both
    spaces in its control block. The parent waits at the notification, and goes
    on with its program when the call returns. *)
Theorem launched_thread_runs tmp entry sy x t root u slot c ty uc csrc ec uv vsrc ev v d b regs
    (w : UserCap NotificaitonData) aw cw kx p :
  can_launch (kern sy) tmp x t root u slot c ty uc csrc ec uv vsrc ev v d b →
  reg_base_ok (kern sy) → requested (scheduler (kern sy)) = false → next t = None →
  holds (heap (kern sy)) root w CapabilityType.Notification aw cw →
  nt_rep (heap (kern sy)) (cap_kva cw) (NBits None) →
  code sy !! x = Some (Running (launch u uc uv regs v ;; let! b := notify_user_wait w in kx b)) →
  code sy !! cap_kva c = None → is_root ev.(cap) = true →
  entry (satp_of ev.(cap)) (sepc regs) regs = Some p →
  ∃ sy' ty' ec' ev' k, rtc (sys_step tmp entry) sy sy' ∧
    current_proc (kern sy') = cap_kva c ∧ satp (kern sy') = satp_of ev.(cap) ∧
    code sy' !! cap_kva c = Some (Running p) ∧ heap (kern sy') !! cap_kva c = Some (OTcb ty') ∧
    registers (value ty') = regs ∧ status (value ty') = Runnable ∧
    root_cnode (value ty') = Some ec' ∧ ec'.(cap) = ec.(cap) ∧
    vspace (value ty') = Some ev' ∧ ev'.(cap) = ev.(cap) ∧
    nt_rep (heap (kern sy')) (cap_kva cw) (NWait [x]) ∧
    code sy' !! x = Some (Awaiting k) ∧ (∀ r, k (inr r) = kx r).
Proof.
  intros Hpt Hreg Hq Hn Hw Hnt Hc Hcy Hir Hp. set (y := cap_kva c).
  pose proof Hpt as [[Hcur Ht (er & Her & Hroot) _] Hpc [_ Hr] _ _ _ _ [Hy Hyx] (_ & _ & Hny) _ _ _].
  destruct (launch_call _ _ _ _ _ _ _ _ _ _ _ _ _ _ _ _ _ _ Hpt regs)
    as (s1 & f & ec' & ev' & H1 & Hec & Hev & Hy1 & Hx1 & Hf & Hrq1 & Hq1 & Hl1 & Hp1). fold y in Hy1, Hrq1, Hl1.
  set (t1 := t <| value ::= _ |>) in Hx1. set (ty1 := (configured ec' ev' ty) <| value ::= _ |>) in Hy1.
  pose proof (keeps_run_direct tmp (launch u uc uv regs v) (kern sy)) as Hs1. rewrite H1 in Hs1.
  assert (current_proc s1 = x) as Hcur1 by (destruct Hs1 as (_ & -> & _); done).
  assert (caller (heap s1) CapabilityType.Notification x t1 w cw) as Hca.
  { split; [done| |change (sepc (f (registers (value t))) + 4 < W); rewrite Hf; lia].
    exists er, aw. rewrite Hroot. split_and!; try done. by eapply launch_keeps_holds. }
  assert (nt_rep (heap s1) (cap_kva cw) (NBits None)) as Hnt1 by by eapply launch_keeps_notification.
  destruct (signal_wait_step tmp s1 x t1 w cw y ty1 []) as (s2 & H2 & Hcur2 & _ & _ & Hnt2 & _ & _ & Hy2 & _ & Hsatp2); try done.
  { by eapply same_cpu_ok. }
  { set_solver. }
  assert (satp s2 = satp_of ev.(cap)) as Hsatp.
  { rewrite Hsatp2. change (vspace_satp ty1) with (if is_root ev'.(cap) then satp_of ev'.(cap) else
      Z.lor SATP_SV48 (Z.shiftr (Z.land KERNEL_VM_ROOT (usize_not KERNEL_CODE_PFX)) 12)). by rewrite Hev, Hir. }
  set (ty2 := ty1 <| value ::= _ |>) in Hy2.
  set (kw := λ r : SysCallFailed + Z, pbind (match r with inl e => PThrow e | inr v => PRet v end) kx).
  set (sy1 := {| kern := s1; code := <[x := Running (let! b := notify_user_wait w in kx b)]> (code sy) |}).
  assert (rtc (sys_step tmp entry) sy sy1) as R1.
  { rewrite <- Hcur in Hc. pose proof (run_direct_steps tmp entry _ _ sy (inl tt) s1 Hreg Hc) as Hd1. rewrite Hcur in Hd1.
    apply Hd1; [unfold try_; by rewrite H1|by rewrite Hq1]. }
  eexists (with_code (with_code sy1 s2 (Awaiting kw)) s2 (Running p)), ty2, ec', ev', kw.
  assert (x ≠ y) as Hxy by done.
  split.
  { etrans; [exact R1|]. eapply rtc_l; [eapply (step_call tmp entry sy1 _ kw s2)|apply rtc_once].
    - unfold sy1. cbn [kern code]. rewrite Hcur1. apply lookup_insert_eq.
    - exact H2.
    - apply (step_start tmp entry (with_code sy1 s2 (Awaiting kw)) ty2 p); unfold with_code, sy1; cbn [kern code].
      + by rewrite Hcur1, Hcur2, !lookup_insert_ne.
      + by rewrite Hcur2.
      + by rewrite Hsatp. }
  unfold with_code, sy1. cbn [kern code]. rewrite Hcur1, Hcur2. split_and!; try done.
  - apply lookup_insert_eq.
  - rewrite lookup_insert_ne by done. apply lookup_insert_eq.
Qed.
End Layout.
