(* ===== verification/SystemTyped.v ===== *)
(** * The running system stays well typed

    User programs are well typed when the registers of every call they make and
    every buffer they write hold words, for all well-typed answers. The programs
    of the repository are, and kernel and threads together never leave the
    well-typed states. *)

From Stdlib Require Import String Ascii.
From S2P Require Import Prelude Shared Address Objects Riscv LinkedList Capability PageTable CNode.
From S2P Require Import Thread RoundRobin Ipc Untyped Syscall Trap TrapProps WellTyped Boot Elf RootServer BootTyped.
From S2P Require Import BootRun UserLib UserProg CapLib RootProg System.
Open Scope prog_scope.

(** ** Programs *)

Definition answer_ok (r : SysCallFailed + Z) : Prop := match r with inr v => is_usize v | inl _ => True end.
Fixpoint prog_ok {A} (P : A → Prop) (p : Prog A) : Prop :=
  match p with
  | PRet a => P a
  | PThrow _ | PPanic _ | PUndef | POutOfFuel => True
  | PCall req k => (∀ r, regs_ok r → regs_ok (req r)) ∧ ∀ r, answer_ok r → prog_ok P (k r)
  | PReadBuffer _ k => ∀ b, buffer_ok b → prog_ok P (k b)
  | PWriteBuffer _ b k => buffer_ok b ∧ prog_ok P k
  | PReadBootInfo _ k => ∀ b, boot_ok b → prog_ok P (k b)
  | PCopy _ _ _ k => prog_ok P k
  end.
Definition code_ok (c : Code) : Prop :=
  match c with
  | Running p => prog_ok (λ _, True) p
  | Awaiting k => ∀ r, answer_ok r → prog_ok (λ _, True) (k r)
  end.
Record sys_ok (sy : Sys) : Prop := {
  sk_kern : well_typed (kern sy);
  sk_code : map_Forall (λ _, code_ok) (code sy);
}.

Lemma syscall_result_ok r : regs_ok r → answer_ok (syscall_result r).
Proof. intros Hr. unfold syscall_result. destruct (_ =? _); [exact (Hr Register.A1)|done]. Qed.

(** ** Steps *)

(** Accesses to user memory. *)
Lemma with_frame_inv {A} v flags (f : Z → M KState SysCallFailed A) s a s' :
  with_frame v flags f s = Ok a s' → ∃ fr, f fr s = Ok a s'.
Proof. unfold with_frame, bind, gets. destruct (user_frame s v flags) as [fr|]; [by exists fr|done]. Qed.
Lemma at_start_inv {A} v (m : M KState SysCallFailed A) s a s' : at_start v m s = Ok a s' → m s = Ok a s'.
Proof. unfold at_start. by destruct (_ =? _). Qed.
Lemma typed_Ok {A} (P : A → Prop) (m : K A) s a s' : typed P m → well_typed s → m s = Ok a s' → P a ∧ well_typed s'.
Proof. intros Hm Hs Hr. specialize (Hm s Hs). by rewrite Hr in Hm. Qed.
Lemma read_buffer_typed v s b s' : read_buffer v s = Ok b s' → well_typed s → buffer_ok b ∧ well_typed s'.
Proof.
  intros [fr Hr]%at_start_inv%with_frame_inv Hs. apply unwrap_res_inv in Hr.
  exact (typed_Ok _ _ _ _ _ (typed_read_page fr) Hs Hr).
Qed.
Lemma write_buffer_typed v b s u s' : write_buffer v b s = Ok u s' → buffer_ok b → well_typed s → well_typed s'.
Proof.
  intros [fr Hr]%at_start_inv%with_frame_inv Hb Hs. apply unwrap_res_inv in Hr.
  exact (proj2 (typed_Ok _ _ _ _ _ (typed_write_page fr b Hb) Hs Hr)).
Qed.
Lemma read_boot_info_typed v s b s' : read_boot_info v s = Ok b s' → well_typed s → boot_ok b ∧ well_typed s'.
Proof.
  intros [fr Hr]%at_start_inv%with_frame_inv Hs. revert Hr. unfold bind, gets.
  destruct (heap s !! fr) as [[]|] eqn:Hb; try done. intros [= <- <-]. split; [|done].
  exact (wt_heap _ Hs _ _ Hb).
Qed.
Lemma copy_bytes_typed src dst n s u s' : copy_bytes src dst n s = Ok u s' → well_typed s → well_typed s'.
Proof.
  unfold copy_bytes. intros Hr []. apply with_frame_inv in Hr as [fr Hr].
  revert Hr. destruct (_ <? _); [done|]. intros [= <- <-]. by split.
Qed.

Lemma access_ok p m s p' s' :
  access p = Some m → prog_ok (λ _, True) p → well_typed s → m s = Ok p' s' →
  prog_ok (λ _, True) p' ∧ well_typed s'.
Proof.
  intros Hm Hp Hs Hr. destruct p as [| | | | | |v k|v b k|v k|src dst n k]; try discriminate;
    injection Hm as <-; cbn [prog_ok] in Hp; inv_bind Hr; injection Hr as <- <-.
  - apply read_buffer_typed in Hm as [Hb Hs']; auto.
  - destruct Hp as [Hb Hp]. split; [done|]. by eapply write_buffer_typed.
  - apply read_boot_info_typed in Hm as [Hb Hs']; auto.
  - split; [done|]. by eapply copy_bytes_typed.
Qed.

Section System.
Context `{KernelLayout} (tmp : Z) (entry : Z → Z → Registers → option (Prog unit)).
Context (entry_ok : ∀ satp pc r p, regs_ok r → entry satp pc r = Some p → prog_ok (λ _, True) p).

Lemma with_code_ok sy s c : sys_ok sy → well_typed s → code_ok c → sys_ok (with_code sy s c).
Proof. intros [_ Hc] Hs Hcode. split; [done|]. by apply map_Forall_insert_2. Qed.
Lemma thread_typed_at s a t : well_typed s → heap s !! a = Some (OTcb t) → regs_ok (registers (value t)).
Proof. intros Hs Ht. apply (wt_heap _ Hs _ _ Ht). Qed.
Lemma call_trap_typed req s s' :
  (∀ r, regs_ok r → regs_ok (req r)) → well_typed s → call_trap tmp req s = Ok tt s' → well_typed s'.
Proof.
  intros Hreq Hs Hr. unfold call_trap in Hr. inv_bind Hr. injection Hm as <- <-. inv_bind Hr.
  eapply typed_Ok in Hm as [_ Hs0]; [|apply typed_modify_tcb|done].
  - by eapply trap_well_typed.
  - intros v Hv. apply thread_regs_ok; [done|]. apply Hreq, Hv.
Qed.
Lemma sys_step_ok sy sy' : sys_step tmp entry sy sy' → sys_ok sy → sys_ok sy'.
Proof.
  intros Hs Hok. pose proof Hok as [Hk Hcode].
  destruct Hs as [req k s' Hc Ht|k t Hc Ht|t p Hc Ht Hp|p m p' s' Hc Hp Hm|s' Ht].
  - destruct (Hcode _ _ Hc) as [Hreq Hans]. apply with_code_ok; [done|by eapply call_trap_typed|done].
  - apply with_code_ok; [done..|]. apply (Hcode _ _ Hc), syscall_result_ok. by eapply thread_typed_at.
  - apply with_code_ok; [done..|]. eapply entry_ok; [|done]. by eapply thread_typed_at.
  - destruct (access_ok _ _ _ _ _ Hp (Hcode _ _ Hc) Hk Hm). by apply with_code_ok.
  - split; [by eapply trap_well_typed|done].
Qed.
Lemma sys_steps_ok sy sy' : rtc (sys_step tmp entry) sy sy' → sys_ok sy → sys_ok sy'.
Proof. induction 1; [done|]. intros. by eauto using sys_step_ok. Qed.
End System.

(** ** The library *)

Lemma prog_ok_bind {A B} (P : A → Prop) (Q : B → Prop) (p : Prog A) (f : A → Prog B) :
  prog_ok P p → (∀ a, P a → prog_ok Q (f a)) → prog_ok Q (pbind p f).
Proof. induction p; simpl; intros Hp Hf; try (by auto); destruct Hp; auto. Qed.
Lemma prog_ok_weaken {A} (P Q : A → Prop) (p : Prog A) : prog_ok P p → (∀ a, P a → Q a) → prog_ok Q p.
Proof. induction p; simpl; intros Hp Hf; try (by auto); destruct Hp; auto. Qed.
Lemma prog_ok_try {A} (P : A → Prop) (p : Prog A) :
  prog_ok P p → prog_ok (λ r, match r with inl a => P a | inr _ => True end) (ptry p).
Proof. induction p; simpl; intros Hp; try (by auto); destruct Hp; auto. Qed.
Lemma prog_ok_call req : (∀ r, regs_ok r → regs_ok (req r)) → prog_ok is_usize (call req).
Proof. intros Hr. split; [done|]. by intros [] ?. Qed.
Lemma prog_ok_pure {A} (P : A → Prop) (m : M unit SysCallFailed A) :
  (∀ a, m tt = Ok a tt → P a) → prog_ok P (pure_ m).
Proof. intros Hm. unfold pure_. destruct (m tt) as [a []| | | |]; try done. by apply Hm. Qed.

Lemma ecall_ok p d l x3 x4 x5 x6 n :
  is_usize p → is_usize d → is_usize x3 → is_usize x4 → is_usize x5 → is_usize x6 →
  ∀ r, regs_ok r → regs_ok (ecall p d l x3 x4 x5 x6 n r).
Proof.
  intros. unfold ecall.
  apply (regs_mut_ok _ Register.A7); [|by destruct n]. apply (regs_mut_ok _ Register.A6); [|done].
  apply (regs_mut_ok _ Register.A5); [|done]. apply (regs_mut_ok _ Register.A4); [|done].
  apply (regs_mut_ok _ Register.A3); [|done]. apply (regs_mut_ok _ Register.A2); [|by destruct l].
  apply (regs_mut_ok _ Register.A1); [|done]. by apply (regs_mut_ok _ Register.A0).
Qed.
Lemma usize_of_u32 a : is_u32 a → is_usize a.
Proof. unfold is_u32, is_usize, W. lia. Qed.
Lemma pack32_ok hi lo : is_u32 lo → is_usize (pack32 hi lo).
Proof. intros. apply usize_lor; [apply usize_shl64|by apply usize_of_u32]. Qed.

(** Capabilities and slots of the library. *)
Record ucap_ok {K} (c : UserCap K) : Prop := { uc_ptr : is_usize (cap_ptr c); uc_depth : is_u32 (cap_depth c) }.
Record unode_ok (c : UserCap CNodeData) : Prop := {
  un_cap : ucap_ok c;
  un_radix : is_u32 (cn_radix (cap_data c));
  un_cursor : is_usize (cursor (cap_data c));
}.
Record uslot_ok (sl : UserSlot) : Prop := {
  us_ptr : is_usize (us_pptr sl); us_dep : is_u32 (us_depth sl); us_rad : is_u32 (us_radix sl);
  us_idx : is_u32 (us_index sl);
}.
Lemma get_cap_ptr_ok sl :
  uslot_ok sl → prog_ok (λ r, is_usize (fst r) ∧ is_u32 (snd r)) (pure_ (get_cap_ptr sl)).
Proof.
  intros [Hp Hd Hr Hi]. apply prog_ok_pure. intros [p d]. unfold get_cap_ptr, u32_add, usize_shl, usize_add, bind.
  destruct (Z.ltb_spec (us_depth sl + us_radix sl) (2 ^ 32)); [|done]. cbn [ret].
  destruct (_ <? 64); [|done]. cbn [ret].
  destruct (Z.ltb_spec (Z.shiftl (us_pptr sl) (us_radix sl) mod W + us_index sl) W); [|done].
  intros [= <- <-]. pose proof (Z.mod_pos_bound (Z.shiftl (us_pptr sl) (us_radix sl)) W).
  unfold is_u32, is_usize, W in *. simpl. lia.
Qed.
Lemma get_slot_ok self :
  unode_ok self → prog_ok (λ r, uslot_ok (fst r) ∧ unode_ok (snd r)) (pure_ (get_slot self)).
Proof.
  intros [[Hp Hd] Hr Hc]. apply prog_ok_pure. intros [sl c]. unfold get_slot, get_size, usize_pow2, usize_add, bind.
  destruct (_ <? 64); [|done]. cbn [ret]. destruct (_ <=? _); [done|].
  destruct (Z.ltb_spec (cursor (cap_data self) + 1) W) as [Hw|]; [|done]. intros [= <- <-].
  split; split; simpl; try done; [apply Z.mod_pos_bound; lia|]. unfold is_usize in *. lia.
Qed.

(** The words of a request. *)
Lemma page_flags_ok f : is_usize (page_flags_usize f).
Proof. unfold page_flags_usize. by destruct (pg_writable f), (pg_readable f), (pg_executable f). Qed.
Lemma as_u32_ok v : is_u32 (as_u32 v).
Proof. apply Z.mod_pos_bound. lia. Qed.
Lemma cap_type_ok t : is_usize (CapabilityType.cap_type_as_u8 t).
Proof. by destruct t. Qed.
Lemma u32_1 : is_u32 1.
Proof. done. Qed.
Create HintDb words.
#[export] Hint Resolve page_flags_ok as_u32_ok cap_type_ok usize_of_u32 pack32_ok usize_0 u32_1 uc_ptr uc_depth
  un_cap un_radix un_cursor us_ptr us_dep us_rad us_idx : words.

(** A single call, made with words. *)
Create HintDb progs.
Ltac call_ok :=
  apply prog_ok_call;
  lazymatch goal with |- ∀ r, _ → regs_ok (?f r) => let h := head_of f in unfold h end;
  cbv zeta; apply ecall_ok; first [done|by eauto 6 with words].

Lemma retype_single_ok (T : Type) `{KernelObject T} ut sl n :
  ucap_ok ut → uslot_ok sl → prog_ok (λ c : UserCap T, ucap_ok c ∧ ∃ d, cap_data c = from_retype n d) (retype_single_ut T ut sl n).
Proof.
  intros Hu Hs. unfold retype_single_ut. eapply prog_ok_bind; [call_ok|]. intros _ _.
  eapply prog_ok_bind; [by apply get_cap_ptr_ok|]. intros [p d] [Hp Hd]. split; [by split|]. by eexists.
Qed.
Lemma retype_fixed_ok (T : Type) `{FixedSizeObject T} ut sl :
  ucap_ok ut → uslot_ok sl → prog_ok (@ucap_ok T) (retype_single_with_fixed_size T ut sl).
Proof.
  intros Hu Hs. eapply prog_ok_weaken; [by apply retype_single_ok|]. by intros c [Hc _].
Qed.
Lemma copy_ok {K : Type} `{Copyable K} self (c : UserCap K) :
  unode_ok self → ucap_ok c →
  prog_ok (λ r, unode_ok (snd r) ∧ ∀ c', fst r = inl c' → ucap_ok c') (cnode_cap_copy self c).
Proof.
  intros Hs Hc. unfold cnode_cap_copy. eapply prog_ok_bind; [by apply prog_ok_try, get_slot_ok|].
  intros [[sl self']|e]; [intros [Hsl Hs']|intros _; by split]. cbn [fst snd] in *.
  eapply prog_ok_bind; [by apply get_cap_ptr_ok|]. intros [p d] [Hp Hd]. cbn beta iota zeta.
  eapply prog_ok_bind; [eapply prog_ok_try; call_ok|]. intros [v|e] _; [|by split].
  split; [done|]. intros c' [= <-]. by split.
Qed.
Lemma mint_ok {K : Type} `{Mintable K} self (c : UserCap K) v :
  unode_ok self → ucap_ok c → is_usize v →
  prog_ok (λ r, unode_ok (snd r) ∧ ∀ c', fst r = inl c' → ucap_ok c') (cnode_cap_mint self c v).
Proof.
  intros Hs Hc Hv. unfold cnode_cap_mint. eapply prog_ok_bind; [by apply prog_ok_try, get_slot_ok|].
  intros [[sl self']|e]; [intros [Hsl Hs']|intros _; by split]. cbn [fst snd] in *.
  eapply prog_ok_bind; [by apply get_cap_ptr_ok|]. intros [p d] [Hp Hd]. cbn beta iota zeta.
  eapply prog_ok_bind; [eapply prog_ok_try; call_ok|]. intros [u|e] _; [|by split].
  split; [done|]. intros c' [= <-]. by split.
Qed.
Lemma table_map_ok t root v : ucap_ok t → ucap_ok root → is_usize v → prog_ok is_usize (table_cap_map t root v).
Proof. intros. unfold table_cap_map. call_ok. Qed.
Lemma table_root_ok t : ucap_ok t → prog_ok ucap_ok (table_cap_make_as_root t).
Proof. intros []. unfold table_cap_make_as_root. eapply prog_ok_bind; [call_ok|]. by intros. Qed.
Lemma page_map_ok c root v f :
  ucap_ok c → ucap_ok root → is_usize v → prog_ok ucap_ok (page_cap_map_user c root v f).
Proof. intros [] []. intros. unfold page_cap_map_user. eapply prog_ok_bind; [call_ok|]. by intros. Qed.
Lemma page_unmap_ok c root : ucap_ok c → ucap_ok root → prog_ok ucap_ok (page_cap_unmap_user c root).
Proof. intros [] []. unfold page_cap_unmap_user. eapply prog_ok_bind; [call_ok|]. by intros. Qed.
Lemma set_ipc_buffer_ok t (c : UserCap PageData) : ucap_ok t → ucap_ok c → prog_ok (λ _, True) (tcb_cap_set_ipc_buffer t c).
Proof. intros [] []. unfold tcb_cap_set_ipc_buffer. eapply prog_ok_bind; [call_ok|done]. Qed.
Lemma configure_ok t (c : UserCap CNodeData) (v : UserCap PageTableData) :
  ucap_ok t → ucap_ok c → ucap_ok v → prog_ok (λ _, True) (tcb_cap_configure t c v).
Proof. intros [] [] []. unfold tcb_cap_configure. eapply prog_ok_bind; [call_ok|done]. Qed.
Lemma resume_ok t : ucap_ok t → prog_ok (λ _, True) (tcb_cap_resume t).
Proof. intros []. unfold tcb_cap_resume. eapply prog_ok_bind; [call_ok|done]. Qed.
Lemma ep_send_ok c : ucap_ok c → prog_ok (λ _, True) (ep_user_send c).
Proof. intros []. unfold ep_user_send. eapply prog_ok_bind; [call_ok|done]. Qed.
Lemma ep_recive_ok c : ucap_ok c → prog_ok is_usize (ep_user_recive c).
Proof. intros []. unfold ep_user_recive. call_ok. Qed.
Lemma notify_send_ok c : ucap_ok c → prog_ok (λ _, True) (notify_user_send c).
Proof. intros []. unfold notify_user_send. eapply prog_ok_bind; [call_ok|done]. Qed.
Lemma notify_wait_ok c : ucap_ok c → prog_ok is_usize (notify_user_wait c).
Proof. intros []. unfold notify_user_wait. call_ok. Qed.
Lemma registers_words_ok r : regs_ok r → Forall is_usize (registers_words r).
Proof.
  intros Hr. assert (∃ l, registers_words r = regs_index r <$> l) as [l ->].
  { exists [
      Register.Ra; Register.Sp; Register.Gp; Register.Tp; Register.T0; Register.T1; Register.T2;
      Register.T3; Register.T4; Register.T5; Register.T6; Register.A0; Register.A1; Register.A2;
      Register.A3; Register.A4; Register.A5; Register.A6; Register.A7; Register.S0; Register.S1;
      Register.S2; Register.S3; Register.S4; Register.S5; Register.S6; Register.S7; Register.S8;
      Register.S9; Register.S10; Register.S11; Register.SCause; Register.SStatus; Register.SEpc].
    reflexivity. }
  apply Forall_fmap, Forall_true. intros i. apply Hr.
Qed.
Lemma write_as_ok b r b' : buffer_ok b → regs_ok r → write_as b r = inr b' → buffer_ok b'.
Proof.
  intros [Ht Hl Hw Hd] Hr. unfold write_as. cbn [to_words Registers_image].
  destruct (_ <=? _); [|done]. intros [= <-].
  assert (length (registers_words r) = 34%nat) as H34 by done.
  split; [done| | |done];
    change (message _) with (registers_words r ++ drop (length (registers_words r)) (message b)).
  - rewrite length_app, length_drop, Hl, H34. reflexivity.
  - apply Forall_app_2; [by apply registers_words_ok|by apply Forall_drop].
Qed.
Lemma write_regs_ok t r a : ucap_ok t → regs_ok r → prog_ok (λ _, True) (tcb_cap_write_regs t r a).
Proof.
  intros [] Hr b Hb. unfold write_reg. destruct (write_as b r) as [|b'] eqn:Hw; [done|].
  split; [by eapply write_as_ok|]. eapply prog_ok_bind; [|done]. apply prog_ok_call. apply ecall_ok; auto with words.
Qed.

(** ** Output *)

Lemma text_ok s : Forall is_u8 (text s).
Proof.
  unfold text. apply Forall_fmap, Forall_true. intros c. pose proof (N_ascii_bounded c). unfold is_u8. simpl. lia.
Qed.
Lemma usize_of_u8 v : is_u8 v → is_usize v.
Proof. unfold is_u8, is_usize, W. lia. Qed.
#[export] Hint Resolve usize_of_u8 : words.
Lemma write_str_ok l : Forall is_u8 l → prog_ok (λ _, True) (write_str l).
Proof.
  induction 1 as [|c l Hc _ IH]; cbn [write_str]; [done|].
  eapply prog_ok_bind; [eapply prog_ok_try; call_ok|]. by intros [].
Qed.
Lemma println_ok l : Forall is_u8 l → prog_ok (λ _, True) (println l).
Proof.
  intros Hl. unfold println. eapply prog_ok_bind; [apply write_str_ok|done].
  apply Forall_app_2; [done|]. by apply Forall_singleton.
Qed.
Lemma texts_ok s l : Forall is_u8 l → Forall is_u8 (text s ++ l).
Proof. intros. by apply Forall_app_2; [apply text_ok|]. Qed.
#[export] Hint Resolve text_ok texts_ok println_ok : progs.

(** ** The loader *)

Record mapper_ok (m : ElfProgramMapper) : Prop := {
  mo_cnode : unode_ok (em_cnode m);
  mo_ut : ucap_ok (em_ut m);
  mo_root : ucap_ok (em_root_table m);
  mo_target : ucap_ok (em_target_root_vspace m);
  mo_free : is_usize (em_free_address m);
}.
#[export] Hint Resolve mo_cnode mo_ut mo_root mo_target mo_free : words.
Lemma mapper_with_cnode_ok self c : mapper_ok self → unode_ok c → mapper_ok (self <| em_cnode := c |>).
Proof. by intros [] ?. Qed.
Lemma mapper_slot_ok self :
  mapper_ok self → prog_ok (λ r, uslot_ok (fst r) ∧ mapper_ok (snd r)) (mapper_get_slot self).
Proof.
  intros Hm. unfold mapper_get_slot. eapply prog_ok_bind; [apply get_slot_ok, Hm|].
  intros [sl c] [Hsl Hc]. split; [done|]. by apply mapper_with_cnode_ok.
Qed.
Lemma mapper_tables_ok n self v :
  mapper_ok self → is_usize v → prog_ok mapper_ok (user_map_page_tables n self v).
Proof.
  revert self. induction n as [|n IH]; intros self Hm Hv; cbn [user_map_page_tables]; [done|].
  eapply prog_ok_bind; [by apply mapper_slot_ok|]. intros [sl m] [Hsl Hm'].
  eapply prog_ok_bind; [apply retype_fixed_ok; [apply Hm'|done]|]. intros t Ht.
  eapply prog_ok_bind; [apply prog_ok_try, table_map_ok; [done|apply Hm'|done]|].
  intros [l|e] _; [|by apply IH]. destruct (l =? 0); [done|by apply IH].
Qed.
Lemma mapper_page_ok self v f :
  mapper_ok self → is_usize v →
  prog_ok (λ r, ucap_ok (fst r) ∧ mapper_ok (snd r)) (map_page_with_tables self v f).
Proof.
  intros Hm Hv. unfold map_page_with_tables.
  eapply prog_ok_bind; [by apply mapper_slot_ok|]. intros [sl m] [Hsl Hm'].
  eapply prog_ok_bind; [apply retype_fixed_ok; [apply Hm'|done]|]. intros c Hc.
  eapply prog_ok_bind; [apply prog_ok_try, page_map_ok; [done|apply Hm'|done]|].
  intros [c'|[[] ?]] Hc'; try done.
  eapply prog_ok_bind; [by apply mapper_tables_ok|]. intros m' Hm1.
  eapply prog_ok_bind; [apply page_map_ok; [done|apply Hm1|done]|]. by intros.
Qed.
Lemma mapper_bytes_ok self v start f rem off :
  mapper_ok self → is_usize v → prog_ok (λ r, mapper_ok (fst r)) (user_map_page_bytes self v start f rem off).
Proof.
  intros Hm Hv. unfold user_map_page_bytes.
  eapply prog_ok_bind; [by apply mapper_page_ok|]. intros [c m] [Hc Hm']. cbn [fst snd] in *.
  destruct (rem =? 0); [done|].
  eapply prog_ok_bind; [apply copy_ok; [apply Hm'|done]|]. intros [r cn] [Hcn Hr]. cbn [fst snd] in *.
  pose proof (mapper_with_cnode_ok _ _ Hm' Hcn) as Hm2. cbv zeta. destruct r as [c2|e]; [|done].
  eapply prog_ok_bind; [apply page_map_ok; [by apply Hr|apply Hm2..]|]. intros c3 Hc3. cbn [prog_ok].
  eapply prog_ok_bind; [apply page_unmap_ok; [done|apply Hm2]|]. intros c4 Hc4.
  by eapply (prog_ok_bind (λ _, True)).
Qed.
Lemma mapper_pages_ok v start f pages self rem :
  mapper_ok self → is_usize v → Forall (λ i, 0 ≤ i) pages → prog_ok mapper_ok (user_map_pages v start f pages self rem).
Proof.
  intros Hm Hv Hp. revert self rem Hm.
  induction Hp as [|i pages Hi _ IH]; intros self rem Hm; cbn [user_map_pages]; [done|].
  eapply (prog_ok_bind is_usize).
  { apply prog_ok_pure. intros a. unfold usize_mul. destruct (Z.ltb_spec (PAGE_SIZE * i) W); [|done].
    intros [= <-]. unfold is_usize, PAGE_SIZE in *. lia. }
  intros off Hoff. eapply (prog_ok_bind is_usize).
  { apply prog_ok_pure. intros a. unfold usize_add. destruct (Z.ltb_spec (v + off) W); [|done].
    intros [= <-]. unfold is_usize in *. lia. }
  intros vn Hvn. eapply prog_ok_bind; [by apply mapper_bytes_ok|]. intros [m r] Hm'. by apply IH.
Qed.
Lemma mapper_program_ok self v start mem file f :
  mapper_ok self → is_usize v → prog_ok mapper_ok (user_map_program self v start mem file f).
Proof.
  intros Hm Hv. unfold user_map_program. eapply (prog_ok_bind (λ _, True)); [by apply prog_ok_pure|].
  intros up _. apply mapper_pages_ok; [done..|]. apply Forall_forall. intros i. rewrite elem_of_seqZ. lia.
Qed.
Lemma mapper_headers_ok bytes n it st :
  (∀ a, is_u8 (bytes a)) → mapper_ok st → prog_ok mapper_ok (map_headers UserMapper bytes n it st).
Proof.
  intros Hb. revert it st. induction n as [|n IH]; intros it st Hm; cbn [map_headers]; [done|].
  destruct (pheaders_next bytes it) as [[[p start] it']|] eqn:Hp; [|done].
  apply (prog_ok_bind mapper_ok); [|intros; by apply IH].
  unfold hdr_map_program. destruct (program_type_of _); [|done]. destruct (negb _); [done|].
  apply mapper_program_ok; [done|]. revert Hp. unfold pheaders_next. destruct (_ <=? _); [done|].
  intros [= <- _ _]. exact (read_le_bound bytes 8 _ Hb).
Qed.
Lemma try_new_ok c ut root v :
  unode_ok c → ucap_ok ut → ucap_ok root → is_usize v → prog_ok mapper_ok (try_new c ut root v).
Proof.
  intros Hc Hu Hr Hv. unfold try_new.
  eapply prog_ok_bind; [by apply get_slot_ok|]. intros [sl cn] [Hsl Hcn].
  eapply prog_ok_bind; [by apply retype_fixed_ok|]. intros t Ht.
  eapply prog_ok_bind; [by apply table_root_ok|]. intros t' Ht'. by split.
Qed.

(** ** The programs *)

(** What the formatter prints are bytes; what the linker places are bytes and
    addresses. *)
Record formatter_ok (fmt : Formatter) : Prop := {
  fo_boot : ∀ b, Forall is_u8 (fmt_boot_info fmt b);
  fo_usize : ∀ v, Forall is_u8 (fmt_usize fmt v);
  fo_failed : ∀ e, Forall is_u8 (fmt_failed fmt e);
  fo_not : ∀ c, Forall is_u8 (fmt_notification fmt c);
  fo_ep : ∀ c, Forall is_u8 (fmt_endpoint fmt c);
  fo_panic : ∀ k, Forall is_u8 (fmt_panic fmt k);
}.
Record image_ok (image : RootImage) : Prop := {
  io_bytes : ∀ a, is_u8 (ri_bytes image a);
  io_stack : is_usize (ri_stack_bottom image);
  io_children : is_usize (ri_children image);
}.
#[export] Hint Resolve fo_boot fo_usize fo_failed fo_not fo_ep fo_panic : progs.

Lemma next_ok (T : Type) `{FixedSizeObject T} ut c :
  ucap_ok ut → unode_ok c → prog_ok (λ r : UserCap T * _, ucap_ok (fst r) ∧ unode_ok (snd r)) (retype_next T ut c).
Proof.
  intros Hu Hc. unfold retype_next. eapply prog_ok_bind; [by apply get_slot_ok|]. intros [sl cn] [Hsl Hcn].
  eapply prog_ok_bind; [by apply retype_fixed_ok|]. intros t Ht. by split.
Qed.
Lemma question_ok {A B} (P : A → Prop) (Q : B → Prop) (r : (A + SysCallFailed) * B) :
  Q (snd r) ∧ (∀ a, fst r = inl a → P a) → prog_ok (λ r, P (fst r) ∧ Q (snd r)) (question r).
Proof. destruct r as [[a|e] b]; intros [Hq Hp]; [|done]. by split; [apply Hp|]. Qed.
Lemma get_untyped_ok b : boot_ok b → prog_ok ucap_ok (get_untyped b).
Proof.
  intros Hb. unfold get_untyped. destruct (_ !! _) as [i|] eqn:Hi; [|done].
  by split; [apply (Forall_lookup_1 _ _ _ _ (ok_infos _ Hb) Hi)|].
Qed.
Lemma root_cnode_ok b : boot_ok b → unode_ok (get_root_cnode b).
Proof. intros []. by split; [split| |]. Qed.
Lemma root_vspace_ok b : boot_ok b → ucap_ok (get_root_vspace b).
Proof. intros []. by split. Qed.

Section Programs.
Context (fmt : Formatter) (image : RootImage) (Hfmt : formatter_ok fmt) (Himage : image_ok image).
Hint Resolve Hfmt Himage : progs.

Record objects_ok (o : RootObjects) : Prop := {
  oo_cnode : unode_ok (ro_cnode o);
  oo_vspace : ucap_ok (ro_vspace o);
  oo_tcb : ucap_ok (ro_child_tcb o);
  oo_notify : ucap_ok (ro_notify o);
  oo_endpoint : ucap_ok (ro_endpoint o);
  oo_mapper : mapper_ok (ro_mapper o);
}.

Ltac say := eapply prog_ok_bind; [by eauto with progs|intros _ _].
Lemma children_ok r : regs_ok r → prog_ok (λ _, True) (children fmt r).
Proof.
  intros Hr. unfold children. cbv zeta. assert (∀ i, is_usize (regs_index r i)) as Hi by exact Hr.
  set (not := {| cap_ptr := a0 r; cap_depth := as_u32 (a1 r); cap_data := NotificaitonUnit |}).
  set (ep := {| cap_ptr := a2 r; cap_depth := as_u32 (a3 r); cap_data := EndpointUnit |}).
  assert (ucap_ok not) as Hn by (split; [exact (Hi Register.A0)|apply as_u32_ok]).
  assert (ucap_ok ep) as He by (split; [exact (Hi Register.A2)|apply as_u32_ok]).
  do 2 say. eapply prog_ok_bind; [by apply prog_ok_try, notify_send_ok|]. intros [?|e] _; [|by say].
  do 2 say. eapply prog_ok_bind; [by apply prog_ok_try, ep_recive_ok|]. intros [?|e] _; [|by say].
  do 2 say. eapply prog_ok_bind; [by apply prog_ok_try, ep_send_ok|]. intros [?|e] _; [|by say].
  do 2 say. eapply prog_ok_bind; [by apply prog_ok_try, ep_send_ok|]. intros [?|e] _; [by eauto with progs|by say].
Qed.
Lemma simple_ok : prog_ok (λ _, True) simple_start.
Proof. unfold simple_start, simple_main. say. by eauto with progs. Qed.
Lemma panic_handler_ok p : prog_ok (λ _, True) p → prog_ok (λ _, True) (panic_handler fmt p).
Proof.
  induction p; intros Hp; try done; cbn [panic_handler].
  - by eauto with progs.
  - destruct Hp. split; auto.
  - intros ? ?. auto.
  - destruct Hp. split; auto.
  - intros ? ?. auto.
  - auto.
Qed.
Lemma lv2_ok ut sl : ucap_ok ut → uslot_ok sl → prog_ok unode_ok (retype_single_ut CNodeData ut sl 18).
Proof.
  intros. eapply prog_ok_weaken; [by apply retype_single_ok|]. intros c [Hc [d Hd]].
  split; rewrite ?Hd; done.
Qed.
Ltac next sl c := eapply prog_ok_bind; [by apply next_ok|intros [sl c] [? ?]; cbn [fst snd] in *].
Lemma root_setup_ok b : boot_ok b → prog_ok objects_ok (root_setup fmt image b).
Proof.
  intros Hb. unfold root_setup. cbv zeta.
  pose proof (root_cnode_ok b Hb) as Hc0. pose proof (root_vspace_ok b Hb) as Hv.
  eapply prog_ok_bind; [by apply get_untyped_ok|]. intros ut Hut. say.
  next tcb c1. next notify c2.
  eapply prog_ok_bind; [by apply get_slot_ok|intros [sl c3] [? ?]; cbn [fst snd] in *].
  eapply prog_ok_bind; [by apply lv2_ok|intros lv2 Hlv2].
  next page c4. next table c5. next ep c6.
  eapply prog_ok_bind; [by apply table_map_ok|intros _ _].
  eapply prog_ok_bind; [by apply page_map_ok|intros page1 Hp1].
  intros buf [Ht Hl Hw Hd]. split; [by split|].
  eapply prog_ok_bind; [by apply set_ipc_buffer_ok|intros _ _].
  next page2 c7. eapply prog_ok_bind; [by apply page_map_ok|intros page3 Hp3].
  eapply prog_ok_bind; [by apply page_unmap_ok|intros page4 Hp4].
  eapply prog_ok_bind; [by apply try_new_ok|intros m Hm].
  eapply prog_ok_bind; [by apply mapper_headers_ok; [apply Himage|]|intros m' Hm'].
  do 2 say. by split.
Qed.
Lemma child_regs_ok x d y e :
  is_usize x → is_usize d → is_usize y → is_usize e →
  regs_ok (Registers_null <| sp := ri_stack_bottom image |> <| sepc := ri_children image |>
    <| a0 := x |> <| a1 := d |> <| a2 := y |> <| a3 := e |>).
Proof.
  intros. apply (regs_mut_ok _ Register.A3); [|done]. apply (regs_mut_ok _ Register.A2); [|done].
  apply (regs_mut_ok _ Register.A1); [|done]. apply (regs_mut_ok _ Register.A0); [|done].
  apply (regs_mut_ok _ Register.SEpc); [|apply Himage]. apply (regs_mut_ok _ Register.Sp); [|apply Himage].
  apply regs_null_ok.
Qed.
Lemma entry_regs_ok a : regs_ok (Registers_null <| sepc := e_entry (hdr_at (ri_bytes image) a) |>).
Proof.
  apply (regs_mut_ok _ Register.SEpc); [apply regs_null_ok|].
  exact (read_le_bound (ri_bytes image) 8 _ (io_bytes _ Himage)).
Qed.

Ltac minted c n :=
  eapply prog_ok_bind; [by apply mint_ok|intros ? ?];
  eapply prog_ok_bind; [by apply (question_ok ucap_ok unode_ok)|intros [c n] [? ?]; cbn [fst snd] in *].
Lemma try_main_ok b : boot_ok b → prog_ok (λ _, True) (try_main fmt image b).
Proof.
  intros Hb. unfold try_main. cbv zeta. eapply prog_ok_bind; [by apply root_setup_ok|].
  intros o [Hc Hv Ht Hn He []]. unfold mapper_finalize.
  next proc lv2.
  eapply prog_ok_bind; [by apply copy_ok|intros ? ?].
  eapply prog_ok_bind; [by apply (question_ok ucap_ok unode_ok)|intros [? lv2'] [? ?]; cbn [fst snd] in *].
  minted n1 c1. minted n2 c2. minted ep c3.
  eapply prog_ok_bind; [by apply configure_ok; [|apply un_cap|]|intros _ _].
  eapply prog_ok_bind; [apply write_regs_ok; [done|apply child_regs_ok; by auto with words]|intros _ _].
  eapply prog_ok_bind; [by call_ok|intros _ _].
  eapply prog_ok_bind; [by apply resume_ok|intros _ _]. say.
  eapply prog_ok_bind; [by apply notify_wait_ok|intros v _]. say.
  eapply prog_ok_bind; [by apply notify_send_ok|intros _ _]. say.
  eapply prog_ok_bind; [by apply ep_send_ok|intros _ _]. do 2 say.
  eapply prog_ok_bind; [by apply ep_recive_ok|intros _ _]. do 2 say.
  eapply prog_ok_bind; [by apply ep_recive_ok|intros _ _]. say.
  eapply prog_ok_bind; [by apply configure_ok; [|apply un_cap|]|intros _ _].
  eapply prog_ok_bind; [by apply write_regs_ok; [|apply entry_regs_ok]|intros _ _].
  eapply prog_ok_bind; [by apply resume_ok|intros _ _]. by eauto with progs.
Qed.
Lemma root_start_ok r : prog_ok (λ _, True) (root_start fmt image r).
Proof.
  apply panic_handler_ok. eapply (prog_ok_bind (λ _, True)); [|done]. intros b Hb.
  eapply prog_ok_bind; [by apply prog_ok_try, try_main_ok|].
  intros [?|e] _; [by eauto with progs|]. say. by eauto with progs.
Qed.
End Programs.

(** C13: the running system stays well typed. From well-typed static variables
    the kernel boots; then root server, child and second program run, on any
    image and with any formatter of bytes, and the timer fires at any time:
    every object of the heap, every register, every capability word and every
    buffer holds a value of its declared type and width in every state that is
    reached. *)
Theorem system_well_typed `{KernelLayout} bytes sym tmp elf ram ram_end fmt image entry s s' sy :
  (∀ a, 0 ≤ bytes a < 256) → is_usize idle_entry → is_usize (sym_stack_top sym) → is_usize ram → is_usize ram_end →
  formatter_ok fmt → image_ok image →
  (∀ satp pc r p, entry satp pc r = Some p → p ∈ [root_start fmt image r; children fmt r; simple_start]) →
  well_typed s → init_kernel sym tmp bytes elf ram ram_end s = Ok tt s' →
  rtc (sys_step tmp entry) {| kern := s'; code := ∅ |} sy → well_typed (kern sy).
Proof.
  intros Hb Hi Hsp Hr He Hfmt Him Hentry Hs Hinit Hsteps.
  assert (sys_ok sy) as [Hk _]; [|exact Hk]. eapply sys_steps_ok; [|exact Hsteps|].
  - intros satp pc r p Hregs Hp. apply Hentry in Hp. rewrite !elem_of_cons, elem_of_nil in Hp.
    destruct Hp as [-> | [-> | [-> | []]]]; [by apply root_start_ok|by apply children_ok|apply simple_ok].
  - split; [|apply map_Forall_empty]. exact (boot_well_typed bytes Hb Hi sym tmp elf ram ram_end s s' Hsp Hr He Hs Hinit).
Qed.
