(* ===== verification/Witnesses.v ===== *)
(** * The theorems at work

    Concrete kernel states on which the theorems of the other files apply: each
    [_witness] instantiates one theorem and discharges its hypotheses by
    evaluation. *)

From S2P Require Import Prelude Shared Address Objects Riscv LinkedList Capability PageTable CNode.
From S2P Require Import Thread RoundRobin Ipc Untyped Syscall SyscallAtomic SyscallProps Trap.
From S2P Require Import TrapProps Boot UserLib.

(** ** A small machine *)

Definition kbase : Z := 0xffff800080000000.
Definition demo_layout : KernelLayout := {|
  IDLE_THREAD := 0xffffffff80201000;
  KERNEL_VM_ROOT := 0xffffffff80202000;
  LV2TABLE := 0xffffffff80203000;
  CPU_VAR := 0xffffffff80204000;
  idle_entry := 0xffffffff80200400;
  size_of_tcb := 408; align_of_tcb := 8;
  size_of_endpoint := 24; align_of_endpoint := 8;
  size_of_notification := 32; align_of_notification := 8;
|}.
#[local] Existing Instance demo_layout.

Definition boot_state (h : gmap Z kobject) : KState := {|
  heap := h; scheduler := Scheduler_new; current_proc := IDLE_THREAD;
  cpu_var := {| sptop := 0xffffffff80300000; sscratch := 0; cur_reg_base := IDLE_THREAD |};
  tcbidx := 0; satp := 0; time := 0; timer := 0; console := [];
  stvec := 0; sie := 0; csr_sscratch := 0; loads := [];
|}.

Definition thread (st : ThreadState) (slice : Z) (id : Z) : ThreadControlBlock :=
  ListItem_new (ThreadInfo_default <| status := st |> <| time_slice := slice |> <| tid := id |>).

Definition tA : Z := kbase + 0x1000.
Definition tB : Z := kbase + 0x2000.
Definition tC : Z := kbase + 0x3000.
Definition epA : Z := kbase + 0x8000.
Definition ntA : Z := kbase + 0x9000.

Ltac evalr := vm_compute; reflexivity.
(** Decide a closed proposition by evaluating its decision procedure. *)
Ltac evald := apply (bool_decide_eq_true_1 _); vm_compute; reflexivity.

(** ** Lists and the scheduler *)

(** [tA] runs; [tB] and [tC] are queued. *)
Definition ring_state : KState :=
  (boot_state (list_to_map [
     (tA, OTcb (thread Runnable 1 1));
     (tB, OTcb ((thread Runnable 20 2) <| next := Some tC |>));
     (tC, OTcb (thread Runnable 20 3));
     (IDLE_THREAD, OTcb (ListItem_new ThreadInfo_idle_init));
     (epA, OEndpoint Endpoint_new); (ntA, ONotification Notification_new)]))
  <| scheduler := {| runqueue := {| ll_head := Some tB; ll_last := Some tC |}; requested := false |} |>
  <| current_proc := tA |>.

Ltac tcb_at := eexists; split; [evalr|]; repeat split; try evalr.

Lemma ring_state_ring : ring ring_state tA [tB; tC].
Proof.
  split; [evalr|evald|evalr|evalr| |tcb_at|done].
  split; [tcb_at|]. split; [tcb_at|done].
Qed.

Lemma round_robin_witness :
  ring ring_state tA [tB; tC] ∧
  ∃ s' c' xs', preemptions 4 ring_state = Ok tt s' ∧ ring s' c' xs' ∧ c' :: xs' = rotate 4 [tA; tB; tC].
Proof. split; [exact ring_state_ring|]. apply (round_robin 4). exact ring_state_ring. Defined.

(** The same with seven ticks left and a request pending. *)
Definition pending_state : KState :=
  ring_state <| heap ::= <[tA := OTcb (thread Runnable 7 1)]> |>
             <| scheduler ::= λ c, c <| requested := true |> |>.

Lemma quantum_round_witness :
  (∃ s', ticks 1 ring_state = Ok tt s' ∧ running s' tB [tC; tA] TASK_QUANTUM ∧
         requested (scheduler s') = false) ∧
  (∃ s', ticks 1 pending_state = Ok tt s' ∧ running s' tB [tC; tA] TASK_QUANTUM ∧
         requested (scheduler s') = false).
Proof.
  assert (running ring_state tA [tB; tC] 1) as Hr.
  { split; [exact ring_state_ring|tcb_at|done]. }
  assert (running pending_state tA [tB; tC] 7) as Hp.
  { split; [|tcb_at|done]. split; [evalr|evald|evalr|evalr| |tcb_at|done].
    split; [tcb_at|]. split; [tcb_at|done]. }
  pose proof (proj2 (quantum_round ring_state tA tB [tC] 1 Hr ltac:(lia) ltac:(done))) as H1.
  pose proof (proj2 (quantum_round pending_state tA tB [tC] 7 Hp ltac:(lia) ltac:(done))) as H2.
  assert (Z.to_nat (ticks_left ring_state 1) = 1%nat) as E1 by evalr.
  assert (Z.to_nat (ticks_left pending_state 7) = 1%nat) as E2 by evalr.
  rewrite E1 in H1. rewrite E2 in H2. split; [exact H1|exact H2].
Defined.

Lemma schedule_no_switch_witness :
  ∃ ti, schedule (boot_state (list_to_map [(IDLE_THREAD, OTcb ti)])) =
        Ok tt (boot_state (list_to_map [(IDLE_THREAD, OTcb ti)])).
Proof.
  exists (ListItem_new ThreadInfo_idle_init).
  apply (schedule_no_switch (boot_state _) IDLE_THREAD (ListItem_new ThreadInfo_idle_init)
           (ListItem_new ThreadInfo_idle_init)); evalr.
Defined.

Lemma ll_fifo_refines_witness :
  ∃ q' h', run_ops [QPush tB; QPush tC; QPop; QPop; QPop]
             {| ll_head := Some tA; ll_last := Some tA |}
             (boot_state (list_to_map [(tA, OTcb (thread Runnable 0 1)); (tB, OTcb (thread Runnable 0 2));
                                       (tC, OTcb (thread Runnable 0 3))]))
           = Ok ([Some tA; Some tB; Some tC], q')
               ((boot_state (list_to_map [(tA, OTcb (thread Runnable 0 1)); (tB, OTcb (thread Runnable 0 2));
                                       (tC, OTcb (thread Runnable 0 3))])) <| heap := h' |>) ∧
           list_rep h' q' [].
Proof.
  apply (ll_fifo_refines [QPush tB; QPush tC; QPop; QPop; QPop] (boot_state _) _ [tA]).
  - split; [evald|evalr|evalr|]. split; [tcb_at|done].
  - evald.
  - repeat constructor; tcb_at.
Defined.

(** ** IPC *)

(** [tB] waits in a receive; [tA] runs; [tC] is queued. Both have buffers. *)
Definition bufA : Z := kbase + 0x10000.
Definition bufB : Z := kbase + 0x11000.
Definition buf_slot (a : Z) : CSlot :=
  Some (new_with_rawcap (cap_new CapabilityType.Page (phys_of_kva a) 0)).
Definition with_buf (a : Z) (t : ThreadControlBlock) : ThreadControlBlock :=
  t <| value ::= λ v, v <| ipc_buffer := buf_slot a |> <| badge := 7 |> |>.
Definition msgA : IPCBuffer := IPCBuffer_zero <| tag := 42 |>.

Definition ipc_state (st : EndpointState) (waiting : list Z) : KState :=
  (boot_state (list_to_map [
     (tA, OTcb (with_buf bufA (thread Runnable 5 1)));
     (tB, OTcb ((with_buf bufB (thread Blocked 5 2)) <| next := head (tail waiting) |>));
     (tC, OTcb (thread (if decide (tC ∈ waiting) then Blocked else Runnable) 5 3));
     (bufA, OPage msgA); (bufB, OPage IPCBuffer_zero);
     (epA, OEndpoint {| ep_state := st;
                        queue := {| ll_head := head waiting; ll_last := last waiting |} |})]))
  <| current_proc := tA |>.

Lemma ipc_state_waits st : st ≠ EpStIdel → ep_rep (heap (ipc_state st [tB])) epA (AWait st [tB]).
Proof.
  intros Hst. eexists. split; [evalr|]. split; [done|]. split; [done|]. split; [done|]. split.
  - split; [evald|evalr|evalr|]. split; [tcb_at|done].
  - repeat constructor. tcb_at.
Qed.

Lemma ipc_state_rq st q : rq_rep (ipc_state st q) [].
Proof. split; [constructor|evalr..|done]. Qed.

Lemma ep_waits_witness :
  ∃ h', ep_op EpStSend epA tA (ipc_state EpStIdel []) = Ok true ((ipc_state EpStIdel []) <| heap := h' |>) ∧
    ep_rep h' epA (AWait EpStSend [tA]) ∧
    h' !! tA = Some (OTcb ((with_buf bufA (thread Runnable 5 1)) <| value ::= thread_suspend |>)) ∧
    (∀ a, a ≠ epA → a ≠ tA → a ∉ [] → h' !! a = heap (ipc_state EpStIdel []) !! a).
Proof.
  apply (ep_waits EpStSend (ipc_state EpStIdel []) epA AIdle []).
  - done.
  - eexists. split; [evalr|]. split; [evalr|]. apply list_rep_new.
  - done.
  - set_solver.
  - evalr.
  - evalr.
Defined.

Lemma ep_send_delivers_witness :
  ∃ s', ep_send epA tA (ipc_state EpStRecv [tB]) = Ok false s' ∧ rq_rep s' [tB] ∧
        page_at (heap s') bufB = Some msgA.
Proof.
  destruct (ep_send_delivers (ipc_state EpStRecv [tB]) epA tB [] tA
              (with_buf bufA (thread Runnable 5 1)) (with_buf bufB (thread Blocked 5 2)))
    as (s' & Hrun & _ & Hrq & _ & Hmsg).
  - by apply ipc_state_waits.
  - apply ipc_state_rq.
  - evalr.
  - evalr.
  - eexists. evalr.
  - eexists. evalr.
  - exists s'. split; [exact Hrun|]. split; [exact Hrq|]. rewrite (Hmsg bufB bufA); [evalr|evalr|evalr].
Defined.

Lemma ep_recv_delivers_witness :
  ∃ s', ep_recv epA tA (ipc_state EpStSend [tB]) = Ok false s' ∧ rq_rep s' [tB] ∧
        page_at (heap s') bufA = Some IPCBuffer_zero.
Proof.
  destruct (ep_recv_delivers (ipc_state EpStSend [tB]) epA tB [] tA
              (with_buf bufA (thread Runnable 5 1)) (with_buf bufB (thread Blocked 5 2)))
    as (s' & Hrun & _ & Hrq & _ & Hmsg).
  - by apply ipc_state_waits.
  - apply ipc_state_rq.
  - done.
  - evalr.
  - evalr.
  - eexists. evalr.
  - eexists. evalr.
  - exists s'. split; [exact Hrun|]. split; [exact Hrq|]. rewrite (Hmsg bufA bufB); [evalr|evalr|evalr].
Defined.

Lemma badge_reaches_receiver_witness :
  ∃ s' tr', ep_cap_send (cap_new CapabilityType.EndPoint (phys_of_kva epA) 99) tA
              (ipc_state EpStRecv [tB]) = Ok false s' ∧
    heap s' !! tB = Some (OTcb tr') ∧ a1 (registers (value tr')) = 99 ∧
    status (value tr') = Runnable ∧ rq_rep s' [tB].
Proof.
  apply (badge_reaches_receiver (ipc_state EpStRecv [tB])
           (cap_new CapabilityType.EndPoint (phys_of_kva epA) 99) tB [] tA
           (with_buf bufA (thread Runnable 5 1)) (with_buf bufB (thread Blocked 5 2))).
  - change (cap_kva _) with epA. by apply ipc_state_waits.
  - apply ipc_state_rq.
  - done.
  - set_solver.
  - evalr.
  - evalr.
  - eexists. evalr.
  - eexists. evalr.
Defined.

Lemma ep_two_waiters_panic_witness :
  ep_op EpStSend epA tA (ipc_state EpStRecv [tB; tC]) = Panic PAssert.
Proof.
  apply (ep_two_waiters_panic EpStSend EpStRecv _ epA tB tC [] tA
           (with_buf bufA (thread Runnable 5 1))
           ((with_buf bufB (thread Blocked 5 2)) <| next := Some tC |>)).
  - done.
  - done.
  - eexists. split; [evalr|]. split; [done|]. split; [done|]. split; [done|]. split.
    + split; [evald|evalr|evalr|]. split; [tcb_at|]. split; [tcb_at|done].
    + repeat constructor; tcb_at.
  - evalr.
  - evalr.
  - eexists. evalr.
  - eexists. evalr.
Defined.

Lemma scheduled_thread_cannot_block_witness :
  ∃ s', schedule (ring_state <| scheduler ::= λ c, c <| requested := true |> |>) = Ok tt s' ∧
        current_proc s' = tB ∧ ep_op EpStRecv epA (current_proc s') s' = Panic PAssert.
Proof.
  eexists. split; [vm_compute; reflexivity|]. split; [reflexivity|].
  apply (scheduled_thread_cannot_block EpStRecv
           (ring_state <| scheduler ::= λ c, c <| requested := true |> |>) tA tB tC [] _ epA AIdle []).
  - destruct ring_state_ring. by split.
  - evalr.
  - evalr.
  - done.
  - eexists. split; [evalr|]. split; [evalr|]. apply list_rep_new.
  - done.
Defined.

(** Two threads are queued one after the other and run in turn: the first one,
    which waits again, is still linked to the second one. *)
Definition two_queued : K unit := sched_push tA ;;; sched_push tB ;;; preempt ;;; preempt.
Definition pair_init : KState :=
  boot_state (list_to_map [
    (tA, OTcb (thread Runnable 0 1)); (tB, OTcb (thread Runnable 0 2));
    (IDLE_THREAD, OTcb (ListItem_new ThreadInfo_idle_init)); (epA, OEndpoint Endpoint_new)]).
Definition pair_state : KState :=
  match two_queued pair_init with Ok _ s => s | _ => pair_init end.

Lemma pair_state_ring : ring pair_state tB [tA].
Proof.
  split; [evalr|evald|evalr|evalr| |tcb_at|].
  - split; [tcb_at|done].
  - split; (eexists; split; [evalr|]; split; [evalr|]); [by left|by right].
Qed.

Lemma blocked_thread_scheduled_witness :
  two_queued pair_init = Ok tt pair_state ∧
  ∃ s1 s2 s3 t, ep_op EpStRecv epA tB pair_state = Ok true s1 ∧
    ep_rep (heap s1) epA (AWait EpStRecv [tB]) ∧
    preempt s1 = Ok tt s2 ∧ current_proc s2 = tA ∧
    preempt s2 = Ok tt s3 ∧ current_proc s3 = tB ∧ cur_reg_base (cpu_var s3) = tB ∧
    heap s3 !! tB = Some (OTcb t) ∧ status (value t) = Blocked.
Proof.
  split; [evalr|]. eapply (blocked_thread_scheduled EpStRecv pair_state tB tA _ _ epA AIdle []).
  - exact pair_state_ring.
  - evalr.
  - evalr.
  - evalr.
  - evalr.
  - done.
  - eexists. split; [evalr|]. split; [evalr|]. apply list_rep_new.
  - done.
Defined.

Lemma signals_accumulate_witness :
  ∃ s', (send_signals ntA [1; 4; 8] ;;; wait_signal ntA tA) ring_state = Ok false s' ∧
    nt_rep (heap s') ntA (NBits None) ∧
    heap s' !! tA = Some (OTcb ((thread Runnable 1 1) <| value ::= set_a1 13 |>)) ∧
    (∀ a, a ≠ ntA → a ≠ tA → heap s' !! a = heap ring_state !! a).
Proof.
  apply (signals_accumulate ring_state ntA 1 [4; 8] tA (thread Runnable 1 1)).
  - eexists. split; [evalr|]. done.
  - evalr.
Defined.

Lemma wait_then_signal_witness :
  ∃ s1 s2, wait_signal ntA tA ring_state = Ok true s1 ∧
    nt_rep (heap s1) ntA (NWait [tA]) ∧ blocked_at (heap s1) tA ∧
    send_signal ntA 5 s1 = Ok tt s2 ∧ nt_rep (heap s2) ntA (NBits None) ∧
    rq_rep s2 ([tB; tC] ++ [tA]) ∧
    heap s2 !! tA = Some (OTcb ((thread Runnable 1 1) <| value ::= λ v, thread_resume (set_a1 5 v) |>)).
Proof.
  apply (wait_then_signal ring_state ntA tA (thread Runnable 1 1) 5 [tB; tC]).
  - eexists. split; [evalr|]. done.
  - destruct ring_state_ring as [_ Hnd Hh Hl Hk _ _]. split; [evald|done..].
  - evald.
  - evalr.
  - evalr.
Defined.

(** ** Untyped memory *)

(** Two pages of untyped memory, unused. *)
Definition ut_base : Z := 0x80100000.
Definition ut_cap : CapabilityData := cap_new CapabilityType.Untyped ut_base (ut_base * 2 ^ 16 + 13).
Lemma ut_cap_at : untyped_at ut_cap ut_base ut_base 13.
Proof. split; vm_compute; repeat split; congruence. Qed.
Lemma page_layout : object_layout PageCap 0 4096 4096.
Proof. split; [done|lia|done|by exists 12|lia|done]. Qed.
Lemma endpoint_layout_demo : object_layout EndPointCap 0 24 8.
Proof. split; [done|lia|done|by exists 3|lia|done]. Qed.

Lemma retype_single_witness :
  untyped_at ut_cap ut_base ut_base 13 ∧ object_layout PageCap 0 4096 4096 ∧
  ∃ g c', retype PageCap ut_cap 0 1 ring_state = Ok (g, c') ring_state ∧
          untyped_at c' ut_base (ut_base + 4096) 13.
Proof.
  split; [exact ut_cap_at|]. split; [exact page_layout|].
  destruct (retype_single PageCap ut_cap 0 4096 4096 ut_base ut_base 13 ring_state ut_cap_at page_layout)
    as [_ Hok].
  destruct Hok as (g & c' & Hr & Hu & _); [by vm_compute|]. by exists g, c'.
Defined.

Lemma retypes_disjoint_witness :
  ∃ rs c', retypes [(EndPointCap, 0); (PageCap, 0)] ut_cap ring_state = Ok (rs, c') ring_state ∧
    rs = [(kva_of_phys ut_base, 24); (kva_of_phys ut_base + 4096, 4096)] ∧
    (∀ i j a n a' n', rs !! i = Some (a, n) → rs !! j = Some (a', n') → i ≠ j →
       a + n ≤ a' ∨ a' + n' ≤ a).
Proof.
  eexists _, _. split; [vm_compute; reflexivity|]. split; [evalr|].
  apply (retypes_disjoint [(EndPointCap, 0); (PageCap, 0)] ut_cap ut_base ut_base 13 ring_state
           _ (ut_cap <| cap_dep_val := (ut_base + 8192) * 2 ^ 16 + 13 |>) ring_state).
  - exact ut_cap_at.
  - repeat constructor; [exists 24, 8; exact endpoint_layout_demo|exists 4096, 4096; exact page_layout].
  - evalr.
Defined.

Lemma retype_many_overruns_witness :
  ∃ g c' cs, retype PageCap ut_cap 0 2 ring_state = Ok (g, c') ring_state ∧
    cap_generator_caps (Z.to_nat 2) PageCap g ring_state = Ok cs ring_state ∧ length cs = Z.to_nat 2 ∧
    (∀ i o, cs !! i = Some o →
       cap_kva o = get_free_index ut_cap + Z.of_nat i * (2 * 4096) ∧
       cap_type o = CapabilityType.cap_type_as_u8 CapabilityType.Page ∧
       ((0 < i)%nat → cap_kva ut_cap + 2 ^ 13 ≤ cap_kva o)).
Proof.
  apply (retype_many_overruns PageCap ut_cap 0 2 4096 4096 ut_base ut_base 13 ring_state);
    [exact ut_cap_at|exact page_layout|done|lia|evalr|by vm_compute|].
  intros a s. by exists 0.
Defined.

(** The untyped capability in a slot, a free slot next to it. *)
Definition nodeA : Z := kbase + 0x20000.
Definition tmpA : Z := kbase + 0x30000.
Definition ut_state : KState :=
  boot_state (list_to_map [(nodeA, OSlot (Some (new_with_rawcap ut_cap)))]).
Lemma no_next h src tmp e : mdb_get_node e.(mdb) true = None → next_live h src tmp e.
Proof. intros Hn pn. by rewrite Hn. Qed.

Lemma retype_creates_object_witness :
  ∃ h' ed es, retype_and_insert tmpA nodeA (nodeA + 32) EndPointCap 0 1 ut_state =
                Ok tt (ut_state <| tcbidx := 0 |> <| heap := h' |>) ∧
    h' !! (KERNEL_V_ADDR_PFX + ut_base) = Some (OEndpoint Endpoint_new) ∧
    entry_at h' (nodeA + 32) = Some ed ∧ cap_kva ed.(cap) = KERNEL_V_ADDR_PFX + ut_base ∧
    entry_at h' nodeA = Some es ∧ untyped_at es.(cap) ut_base (ut_base + 24) 13.
Proof.
  destruct (retype_creates_object tmpA nodeA (nodeA + 32) CapabilityType.EndPoint EndPointCap 0 24 8 ut_base ut_base 13 ut_state
              (new_with_rawcap ut_cap))
    as (h' & ed & es & Hrun & Ho & Hd & Hk & _ & _ & Hs & Hu & _).
  - done.
  - done.
  - evalr.
  - exact ut_cap_at.
  - exact endpoint_layout_demo.
  - by vm_compute.
  - split; [by vm_compute|evald|by apply no_next|done].
  - exists h', ed, es. split; [exact Hrun|]. split; [exact Ho|]. split; [exact Hd|]. split; [exact Hk|].
    split; [exact Hs|exact Hu].
Defined.

(** ** Capability nodes *)

(** A node of four slots: slot 1 holds a capability to a second node of four
    slots, slot 2 an endpoint capability with badge 5. *)
Definition nodeB : Z := kbase + 0x21000.
Definition capA : CapabilityData := cap_new CapabilityType.CNode (phys_of_kva nodeA) 2.
Definition capB : CapabilityData := cap_new CapabilityType.CNode (phys_of_kva nodeB) 2.
Definition ep_cap (badge : Z) : CapabilityData := cap_new CapabilityType.EndPoint (phys_of_kva epA) badge.
Definition cspace : gmap Z kobject := list_to_map [
  (slot_addr capA 1, OSlot (Some (new_with_rawcap capB)));
  (slot_addr capA 2, OSlot (Some (new_with_rawcap (ep_cap 5))))].
Definition cspace_state : KState := boot_state cspace.

Lemma cspace_slot a e :
  slot_at cspace a = Some (Some e) → e = new_with_rawcap capB ∨ e = new_with_rawcap (ep_cap 5).
Proof.
  unfold slot_at, cspace. cbn [list_to_map foldr uncurry].
  destruct (decide (slot_addr capA 1 = a)) as [<-|].
  { rewrite lookup_insert_eq. naive_solver. }
  rewrite lookup_insert_ne by done. destruct (decide (slot_addr capA 2 = a)) as [<-|].
  { rewrite lookup_insert_eq. naive_solver. }
  rewrite lookup_insert_ne by done. rewrite lookup_empty. naive_solver.
Qed.

Lemma lookup_terminates_witness :
  ∃ out, out ≠ OutOfFuel ∧
    ∀ fuel, (LOOKUP_FUEL ≤ fuel)%nat → lookup_entry_mut fuel capA 7 4 cspace_state = out.
Proof.
  apply (lookup_terminates cspace_state capA 7 4).
  - intros a e [->| ->]%cspace_slot; [by vm_compute|]. intros Hc. by vm_compute in Hc.
  - by vm_compute.
  - lia.
Defined.

Lemma lookup_in_bounds_witness :
  cspace_state = cspace_state ∧
  ∃ c' i, slot_addr capB 3 = slot_addr c' i ∧ 0 ≤ i < 2 ^ radix c' ∧ (c' = capA ∨ node_in (heap cspace_state) c').
Proof. apply (lookup_in_bounds 65 cspace_state capA 7 4). evalr. Defined.

Lemma lookup_path_extend_witness :
  ∃ n, ∀ fuel, (n ≤ fuel)%nat →
    lookup_entry_mut fuel capA (1 * 2 ^ radix capB + 3) (2 + radix capB) cspace_state =
      Ok (slot_addr capB 3) cspace_state.
Proof.
  apply (lookup_path_extend cspace_state capA 1 2 (slot_addr capA 1) (new_with_rawcap capB) 3 None).
  - exact (resolves_here (heap cspace_state) capA 1 ltac:(by vm_compute)).
  - evalr.
  - evalr.
  - by vm_compute.
  - by vm_compute.
  - by vm_compute.
  - evalr.
Defined.

Lemma lookup_radix0_diverges_witness :
  let c := cap_new CapabilityType.CNode (phys_of_kva nodeA) 0 in
  lookup_entry_mut 1000 c 0 1 (boot_state (list_to_map [(nodeA, OSlot (Some (new_with_rawcap c)))])) = OutOfFuel.
Proof.
  intros c. apply (lookup_radix0_diverges (boot_state _) c 0 1 (new_with_rawcap c) 1000);
    [evalr|lia|evalr|evalr|evalr].
Defined.

Lemma write_slot_lookup_witness :
  ∃ s', write_slot capA (ep_cap 9) 3 cspace_state = Ok tt s' ∧
    slot_at (heap s') (slot_addr capA 3) = Some (Some (new_with_rawcap (ep_cap 9))).
Proof.
  eexists. split; [vm_compute; reflexivity|].
  apply (write_slot_lookup cspace_state capA (ep_cap 9) 3); [evalr|lia].
Defined.

Lemma insert_cap_stores_witness :
  ∃ h' e, insert_cap tmpA nodeA (slot_addr capA 2) (ep_cap 5) 3 cspace_state =
            Ok tt (cspace_state <| heap := h' |>) ∧
    entry_at h' (nodeA + 3 * size_of_CNodeEntry) = Some e ∧ e.(cap) = ep_cap 5 ∧
    next_of h' (slot_addr capA 2) = Some tmpA.
Proof.
  destruct (insert_cap_stores cspace_state tmpA nodeA (slot_addr capA 2) (ep_cap 5) 3
              (new_with_rawcap (ep_cap 5))) as (h' & e & Hr & He & Hc & _ & Hn & _).
  - by vm_compute.
  - by vm_compute.
  - by vm_compute.
  - by vm_compute.
  - by vm_compute.
  - evalr.
  - by apply no_next.
  - exists h', e. split; [exact Hr|]. split; [exact He|]. split; [exact Hc|exact Hn].
Defined.

Lemma cap_new_roundtrip_witness :
  cap_kva (ep_cap 5) = epA ∧ cap_dep_val (ep_cap 5) = 5 ∧
  try_ref_as CapabilityType.CNode (ep_cap 5) cspace_state =
    Err (kerr ErrKind.UnexpectedCapType) cspace_state.
Proof.
  apply (cap_new_roundtrip CapabilityType.EndPoint epA 5 cspace_state CapabilityType.CNode). by vm_compute.
Defined.

(** ** System calls *)

(** Copy slot 2 of the first node (an endpoint capability) to slot 0 of the second. *)
Definition copy_regs (v : Z) : Registers :=
  cnode_mint 1 2 0 2 2 2 v Registers_null.
Lemma copy_args v :
  cnode_args cspace_state capA (slot_addr capA 1) (copy_regs v) (slot_addr capA 2)
    (new_with_rawcap (ep_cap 5)) (slot_addr capB 0).
Proof. split; [exists capB; split; evalr|evalr|evalr|evalr]. Qed.
Lemma copy_local :
  local_ok cspace_state tmpA (slot_addr capA 2) (slot_addr capB 0) (new_with_rawcap (ep_cap 5)).
Proof. split; [by vm_compute|by vm_compute|by apply no_next]. Qed.

Lemma cnode_copy_derives_witness :
  ∃ h' e', invoke_cnode tmpA capA (slot_addr capA 1) InvLabel.CNodeCopy (copy_regs 0) cspace_state =
             Ok None (cspace_state <| heap := h' |>) ∧
    entry_at h' (slot_addr capB 0) = Some e' ∧ e'.(cap) = ep_cap 0.
Proof.
  destruct (cnode_copy_derives tmpA capA (slot_addr capA 1) (copy_regs 0) cspace_state (slot_addr capA 2)
              (new_with_rawcap (ep_cap 5)) (slot_addr capB 0) (ep_cap 0))
    as (h' & e' & Hr & He & Hc & _); [exact (copy_args 0)|exact copy_local|evalr|].
  exists h', e'. split; [exact Hr|]. split; [exact He|exact Hc].
Defined.

(** Minting an endpoint capability, and one to an untyped block. *)
Lemma cnode_mint_sets_word_witness :
  (∃ h' e', invoke_cnode tmpA capA (slot_addr capA 1) InvLabel.CNodeMint (copy_regs 77) cspace_state =
              Ok None (cspace_state <| heap := h' |>) ∧
     entry_at h' (slot_addr capB 0) = Some e' ∧ cap_kva e'.(cap) = epA ∧ cap_dep_val e'.(cap) = 77) ∧
  (let s := cspace_state <| heap ::= <[slot_addr capA 2 := OSlot (Some (new_with_rawcap ut_cap))]> |> in
   invoke_cnode tmpA capA (slot_addr capA 1) InvLabel.CNodeMint (copy_regs 77) s = Err (kerr ErrKind.CanNotDerivable) s).
Proof.
  split.
  - destruct (cnode_mint_sets_word tmpA capA (slot_addr capA 1) (copy_regs 77) cspace_state (slot_addr capA 2)
                (new_with_rawcap (ep_cap 5)) (slot_addr capB 0) CapabilityType.EndPoint)
      as (h' & e' & Hr & He & Hk & _ & Hd & _); [exact (copy_args 77)|exact copy_local|evalr|].
    exists h', e'. split; [exact Hr|]. split; [exact He|]. split; [exact Hk|exact Hd].
  - intros s. apply (cnode_mint_sets_word tmpA capA (slot_addr capA 1) (copy_regs 77) s (slot_addr capA 2)
      (new_with_rawcap ut_cap) (slot_addr capB 0) CapabilityType.Untyped).
    + split; [exists capB; split; evalr|evalr|evalr|evalr].
    + split; [by vm_compute|by vm_compute|by apply no_next].
    + evalr.
Defined.

(** A thread sends through slot 3 of its node, which is empty. *)
Definition caller : ThreadControlBlock :=
  (thread Runnable 5 1) <| value ::= λ v,
    v <| root_cnode := Some (new_with_rawcap capA) |>
      <| registers := (send_ipc 3 2 Registers_null) <| sepc := 0x1000 |> |> |>.
Definition caller_state : KState :=
  (boot_state (<[tA := OTcb caller]> cspace)) <| current_proc := tA |>.
Lemma failed_syscall_atomic_witness :
  handle_syscall tmpA 2 tA caller_state =
    Ok tt (caller_state <| heap :=
      <[tA := OTcb (caller <| value ::= return_regs (inr (kerr ErrKind.SlotIsEmpty)) |>)]>
        (heap caller_state) |>).
Proof.
  apply (failed_syscall_atomic tmpA 2 tA caller_state caller (kerr ErrKind.SlotIsEmpty) caller_state);
    [evalr|by vm_compute|evalr].
Defined.

Lemma retype_request_roundtrip_witness :
  let r' := untyped_retype 3 2 1 2 0 4 1 CapabilityType.EndPoint Registers_null in
  syscall_body tmpA (a7 r') r' caller_state =
    handle_invocation tmpA 3 2 InvLabel.UntypedRetype r' caller_state.
Proof.
  intros r'.
  apply (retype_request_roundtrip tmpA capA nodeA caller_state Registers_null 3 2 1 2 0 4 1
           CapabilityType.EndPoint); by vm_compute.
Defined.

Lemma syscall_result_roundtrip_witness :
  syscall_result (set_result (inr (kerr_val ErrKind.PageTableNotMappedYet 2)) Registers_null) =
    inl (ErrKind.PageTableNotMappedYet, 2).
Proof.
  apply (syscall_result_roundtrip (inr (kerr_val ErrKind.PageTableNotMappedYet 2)) Registers_null).
  intros e [= <-]. by vm_compute.
Defined.

Lemma write_reg_roundtrip_witness :
  ∃ buffer' req, write_reg 3 2 (copy_regs 9) IPCBuffer_zero = inr (buffer', req) ∧
    read_as Registers buffer' = inr (copy_regs 9) ∧ tag buffer' = 0 ∧
    length (message buffer') = Z.to_nat MESSAGE_LEN.
Proof. apply (write_reg_roundtrip 3 2 (copy_regs 9) IPCBuffer_zero). evalr. Defined.

(** ** Traps *)

Definition cpuA : Z := 0xffffffff80204000.
Definition saveA : Z := tA + 64.
Definition user_machine : machine := {|
  file := copy_regs 5;
  m_sscratch := cpuA;
  mem := λ a, if a =? cpuA + 16 then saveA else if a =? cpuA then 0xffffffff80300000 else 0;
|}.
Lemma user_machine_ready : trap_ready user_machine cpuA saveA.
Proof. split; [evalr|evalr|by vm_compute|by vm_compute|by right; vm_compute]. Qed.

Lemma trap_return_roundtrip_witness :
  let m := run return_to_user (run trap_entry user_machine) in
  reg_of m Register.T0 = reg_of user_machine Register.T0 ∧
  reg_of m Register.Tp = reg_of user_machine Register.Tp ∧
  reg_of m Register.SEpc = reg_of user_machine Register.SEpc.
Proof.
  assert (∀ r, r ≠ Register.SCause →
    reg_of (run return_to_user (run trap_entry user_machine)) r = reg_of user_machine r) as Hr.
  { apply (trap_return_roundtrip user_machine cpuA saveA (run trap_entry user_machine) user_machine_ready);
      [reflexivity|evalr]. }
  split; [|split]; apply Hr; discriminate.
Defined.

Definition trap_state : KState := ring_state <| cpu_var ::= λ c, c <| cur_reg_base := tA |> |>.
(** ** Boot *)

Lemma allocations_disjoint_witness :
  ∃ rs b', allocations [64; 1; 1] {| start_addr := 0x80400000; end_addr := 0x88000000 |} ring_state =
             Ok (rs, b') ring_state ∧
    ascending 0x80400000 rs ∧ Forall (λ '(p, n), p + n ≤ 0x88000000) rs.
Proof.
  exists [(0x80400000, 0x40000); (0x80440000, 0x1000); (0x80441000, 0x1000)],
    {| start_addr := 0x80442000; end_addr := 0x88000000 |}.
  split; [evalr|].
  destruct (allocations_disjoint [64; 1; 1] {| start_addr := 0x80400000; end_addr := 0x88000000 |} ring_state
    [(0x80400000, 0x40000); (0x80440000, 0x1000); (0x80441000, 0x1000)]
    {| start_addr := 0x80442000; end_addr := 0x88000000 |} ring_state) as (Hasc & Hin & _).
  - repeat constructor.
  - evalr.
  - exact (conj Hasc Hin).
Defined.

Definition boot_mgr : RootServerResourceManager := {|
  bump_allocator := {| start_addr := 0x80c52000; end_addr := 0x88000000 |};
  cnode_satrt_idx := 20; cnode_idx_max := 2 ^ 18 - 1 |}.
Lemma untyped_blocks_tile_witness :
  ∃ xs, untyped_caps 47 (finalize boot_mgr) ring_state = Ok xs ring_state ∧ (length xs ≤ 46)%nat ∧
    tiles (KERNEL_V_ADDR_PFX + 0x80c52000) (KERNEL_V_ADDR_PFX + 0x88000000) 20 xs.
Proof.
  apply (untyped_blocks_tile boot_mgr ring_state); [by vm_compute|evalr|by vm_compute|by vm_compute|by vm_compute].
Defined.

(** ** Address spaces *)

(** [levelled], decided entry by entry. *)
Definition entry_ok (lv : gmap Z Z) (l : Z) (vpn : nat) (pte : Z) : bool :=
  (l <=? 0) || ((l =? 3) && (256 <=? Z.of_nat vpn)) || negb (pte_is_valid pte) ||
  bool_decide (lv !! pte_as_page_table pte = Some (l - 1)).
Definition table_ok (h : gmap Z kobject) (lv : gmap Z Z) (x : Z * Z) : bool :=
  match table_at h x.1 with
  | Some t => forallb id (imap (entry_ok lv x.2) t)
  | None => true
  end.
Lemma levelled_decided h lv :
  forallb (table_ok h lv) (map_to_list lv) = true → levelled h lv.
Proof.
  intros Hall table l vpn pte Hl H1 Hv H3 Hp Hval.
  rewrite forallb_forall in Hall.
  specialize (Hall (table, l)). rewrite <- list_elem_of_In in Hall.
  specialize (Hall (proj2 (elem_of_map_to_list _ _ _) Hl)).
  unfold table_ok in Hall. simpl in Hall. unfold pte_at in Hp.
  destruct (table_at h table); [|done]. simpl in Hp.
  rewrite forallb_forall in Hall. specialize (Hall (entry_ok lv l (Z.to_nat vpn) pte)).
  rewrite <- list_elem_of_In in Hall.
  assert (entry_ok lv l (Z.to_nat vpn) pte = true) as He.
  { apply Hall. apply list_elem_of_lookup. exists (Z.to_nat vpn).
    by rewrite list_lookup_imap, Hp. }
  unfold entry_ok in He. rewrite Hval in He.
  rewrite (proj2 (Z.leb_gt l 0)) in He by lia. simpl in He.
  apply orb_true_iff in He as [He|He%bool_decide_eq_true]; [|done].
  rewrite orb_false_r in He. apply andb_true_iff in He as [He1 He2].
  apply Z.eqb_eq in He1. apply Z.leb_le in He2. specialize (H3 He1). lia.
Qed.

(** One path of tables, from the root [rtA] down to [pt0]; [rtB] is an empty
    root and [ptN] an empty table that no address space uses. *)
Definition rtA : Z := kbase + 0x20000.
Definition pt2 : Z := kbase + 0x21000.
Definition pt1 : Z := kbase + 0x22000.
Definition pt0 : Z := kbase + 0x23000.
Definition rtB : Z := kbase + 0x24000.
Definition ptN : Z := kbase + 0x25000.
Definition uv : Z := 0x12345000.
Definition table_with (l : Z) (below : Z) : kobject :=
  OPageTable (<[Z.to_nat (get_vpn uv l) := pte_write (phys_of_kva below) PAGE_V]> PageTable_new).
Definition space_state : KState := boot_state (list_to_map [
  (rtA, table_with 3 pt2); (pt2, table_with 2 pt1); (pt1, table_with 1 pt0);
  (pt0, OPageTable PageTable_new); (rtB, OPageTable PageTable_new); (ptN, OPageTable PageTable_new)]).
Definition space_levels : gmap Z Z := list_to_map [(rtA, 3); (pt2, 2); (pt1, 1); (pt0, 0); (rtB, 3)].
Definition pageA : Z := kbase + 0x30000.
Definition page_capA : CapabilityData := cap_new CapabilityType.Page (phys_of_kva pageA) 0.
Definition root_cap (r : Z) : CapabilityData := cap_new CapabilityType.PageTable (phys_of_kva r) 0.

Lemma demo_space_levelled : levelled (heap space_state) space_levels.
Proof. apply levelled_decided. evalr. Qed.

Lemma page_cap_map_correct_witness :
  ∃ h', page_cap_map page_capA (root_cap rtA) uv 0x16 space_state =
          Ok (set_mapped page_capA uv) (space_state <| heap := h' |>) ∧
        ∃ pte', translate h' (cap_kva (root_cap rtA)) uv = Some pte' ∧
                pte_as_page_table pte' = cap_kva page_capA ∧ pte' mod 2 ^ 10 = 0x17.
Proof.
  destruct (page_cap_map_correct space_state space_levels page_capA (root_cap rtA) uv 0x16 pt0
              (get_vpn uv 0) 0 demo_space_levelled) as (h' & Hm & _ & Ht & _ & _);
    [evalr|by vm_compute|by vm_compute|evalr|lia|evalr|evalr|evalr|evalr|].
  exists h'. split; [exact Hm|exact Ht].
Defined.

Lemma page_cap_map_unmap_witness :
  (let* c' := page_cap_map page_capA (root_cap rtA) uv 0x16 in page_cap_unmap c' (root_cap rtA)) space_state =
    Ok page_capA space_state.
Proof.
  apply (page_cap_map_unmap space_state space_levels page_capA (root_cap rtA) uv 0x16 pt0
           (get_vpn uv 0) PageTable_new demo_space_levelled);
    [evalr|by vm_compute|by vm_compute|by vm_compute|evalr|lia|evalr|evalr|evalr|evalr].
Defined.

(** In the empty address space [rtB] three tables are missing. *)
Lemma page_cap_map_branches_witness :
  page_cap_map page_capA (root_cap rtB) uv 0x16 space_state =
    Err (kerr_val ErrKind.PageTableNotMappedYet 3) space_state.
Proof.
  rewrite (page_cap_map_branches space_state page_capA (root_cap rtB) uv 0x16 3 rtB (get_vpn uv 3) 0);
    [reflexivity|evalr|evalr|lia].
Defined.

Lemma pt_cap_map_progress_witness :
  ∃ h', pt_cap_map (root_cap ptN) (root_cap rtB) uv space_state =
          Ok (2, set_mapped (root_cap ptN) uv) (space_state <| heap := h' |>) ∧
        walk_at h' [3; 2; 1] (cap_kva (root_cap rtB)) uv = Some (2, (cap_kva (root_cap ptN), get_vpn uv 2)).
Proof.
  destruct (pt_cap_map_progress space_state space_levels (root_cap ptN) (root_cap rtB) uv 3 rtB
              (get_vpn uv 3) demo_space_levelled) as (h' & Hm & Hw & _);
    [evalr|by vm_compute|by vm_compute|evalr|evalr|evalr| |evalr|lia|].
  - exists PageTable_new. split; [evalr|]. split; [evalr|]. by apply Forall_replicate.
  - exists h'. exact (conj Hm Hw).
Defined.
