(* ===== verification/BootWitnesses.v ===== *)
(** * A boot, evaluated

    A small ELF image with one loadable segment, and the boot sequence run on
    it: the theorems on loading and on starting the root server apply there. *)

From S2P Require Import Prelude Shared Address Objects Riscv LinkedList Capability PageTable CNode.
From S2P Require Import Thread RoundRobin Ipc Untyped Trap Boot Elf RootServer BootSpace VSpace BootRun.
From S2P Require Import BootAsm Witnesses.

#[local] Existing Instance demo_layout.

(** ** The image *)

(** The [n] little-endian bytes of [v]. *)
Fixpoint le (n : nat) (v : Z) : list Z :=
  match n with O => [] | S n => v mod 256 :: le n (v / 256) end.

(** 5000 bytes of file and 9000 bytes of memory at 0x10000, readable and
    executable; entry point 0x10040; a second header of type [Null]. *)
Definition demo_image : list Z :=
  [0x7f; 0x45; 0x4c; 0x46; 2; 1; 1] ++ replicate 9 0 ++ le 2 2 ++ le 2 243 ++ le 4 1 ++
  le 8 0x10040 ++ le 8 64 ++ le 8 0 ++ le 4 0 ++ le 2 64 ++ le 2 56 ++ le 2 2 ++ le 2 0 ++
  le 2 0 ++ le 2 0 ++
  (le 4 1 ++ le 4 5 ++ le 8 0x1000 ++ le 8 0x10000 ++ le 8 0x10000 ++ le 8 5000 ++ le 8 9000 ++ le 8 4096) ++
  (le 4 0 ++ replicate 52 0).
Definition demo_elf : Z := 0xffffffff80310000.
Definition demo_bytes (a : Z) : Z := default 0 (demo_image !! Z.to_nat (a - demo_elf)).

Lemma demo_bytes_u8 a : 0 ≤ demo_bytes a < 256.
Proof.
  unfold demo_bytes. destruct (demo_image !! _) as [v|] eqn:Hv; [|simpl; lia].
  assert (Forall (λ v, 0 ≤ v < 256) demo_image) as Hall by evald.
  by apply (Forall_lookup_1 _ _ _ _ Hall Hv).
Qed.

Definition demo_boot : KState := boot_state (list_to_map [
  (KERNEL_VM_ROOT, OPageTable PageTable_new); (LV2TABLE, OPageTable PageTable_new);
  (IDLE_THREAD, OTcb (ListItem_new ThreadInfo_idle_init))]).

(** ** An empty address space *)

Definition demo_root : CapabilityData := cap_new CapabilityType.PageTable 0x80500000 0.
Definition demo_cnode : CapabilityData := cap_new CapabilityType.CNode 0x81000000 18.
Definition demo_mgr : RootServerResourceManager := {|
  bump_allocator := {| start_addr := 0x82000000; end_addr := 0x83000000 |};
  cnode_satrt_idx := 6; cnode_idx_max := 2 ^ 18 - 1 |}.
Definition demo_tables : gmap Z (Z * Z) := {[ cap_kva demo_root := (3, 0) ]}.
Definition demo_mapper : RootServerElfMapper := RootServerElfMapper_new demo_mgr demo_root demo_cnode.
Definition demo_empty : KState := boot_state ∅.

Lemma demo_slot i : slot_addr demo_cnode i = 0xffff800081000000 + i * 32.
Proof. reflexivity. Qed.
Lemma demo_tables_ne a : a ≠ 0xffff800080500000 → demo_tables !! a = None.
Proof. intros Ha. apply lookup_singleton_ne. by intros <-. Qed.

Lemma demo_boot_inv : boot_inv (heap demo_empty) demo_tables demo_root demo_cnode demo_mgr.
Proof.
  split.
  - split.
    + apply lookup_singleton_eq.
    + intros a lp _. exists PageTable_new. done.
    + intros table l p vpn pte _ _ _ _ Hpte Hval.
      destruct (zero_table_empty (heap demo_empty) table eq_refl) as (t & Ht & _ & Hf).
      unfold pte_at in Hpte. rewrite Ht in Hpte. apply (Forall_lookup_1 _ _ _ _ Hf) in Hpte. congruence.
  - vm_compute. done.
  - done.
  - vm_compute. done.
  - intros a Ha. split; [done|]. apply demo_tables_ne.
    unfold in_free, first_free, last_free, KERNEL_V_ADDR_PFX in Ha. simpl in Ha. lia.
  - intros i Hi. rewrite demo_slot. simpl in Hi. split; [done|]. split.
    + apply demo_tables_ne. lia.
    + unfold in_free, first_free, last_free, KERNEL_V_ADDR_PFX. simpl. lia.
Qed.

Lemma create_mapped_page_maps_witness :
  ∃ k h' pte,
    create_mapped_page_cap demo_cnode demo_root demo_mgr (kbase + 0x600000) 0x10000 0x16 demo_empty =
      Ok (set_mapped (fresh_cap CapabilityType.Page (kbase + 0x600000)) 0x10000, spend demo_mgr k k)
         (demo_empty <| heap := h' |>) ∧
    translate h' (cap_kva demo_root) 0x10000 = Some pte ∧ pte_as_page_table pte = kbase + 0x600000.
Proof.
  destruct (create_mapped_page_maps demo_empty demo_tables demo_root demo_cnode demo_mgr
    (kbase + 0x600000) 0x10000 0x16) as (k & h' & pf' & pte & _ & Hrun & _ & Htr & Hp & _).
  - exact demo_boot_inv.
  - done.
  - evalr.
  - done.
  - evalr.
  - done.
  - done.
  - by exists k, h', pte.
Defined.

Lemma map_program_maps_witness :
  ∃ frames h' mp',
    map_program demo_mapper 0x10000 0x80311000 9000 5000 0x1a demo_empty =
      Ok mp' (demo_empty <| heap := h' |> <| loads := [] ++ segment_copies 0x80311000 5000 0 frames |>) ∧
    length frames = 3%nat ∧ NoDup frames.
Proof.
  destruct (map_program_maps demo_empty demo_tables demo_mapper 0x10000 0x80311000 9000 5000 0x1a)
    as (frames & h' & pf' & mp' & Hrun & _ & Hlen & Hnd & _).
  - exact demo_boot_inv.
  - done.
  - done.
  - done.
  - done.
  - change ((9000 + 4095) / 4096) with 3. intros i Hi.
    assert (i = 0 ∨ i = 1 ∨ i = 2) as [->|[->| ->]] by lia; (split; [done|evalr]).
  - done.
  - exists frames, h', mp'. split; [exact Hrun|]. split; [|done].
    change ((9000 + 4095) / 4096) with 3 in Hlen. lia.
Defined.

(** ** An address space and its requests *)

Definition pool_cap (n : Z) : CapabilityData := cap_new CapabilityType.PageTable (0x80500000 + n * 4096) 0.
Definition space_root : CapabilityData := set_root (set_mapped (pool_cap 0) (cap_kva (pool_cap 0))).
Definition user_page : CapabilityData := cap_new CapabilityType.Page 0x80600000 0.
Definition other_page : CapabilityData := cap_new CapabilityType.Page 0x80601000 0.
Definition vspace_state : KState := boot_state {[KERNEL_VM_ROOT := OPageTable PageTable_new]}.
Definition vspace_fresh (ns : list Z) : VState := {|
  va_pages := ∅; va_tables := ∅; va_pool := list_to_set (map (λ n, cap_kva (pool_cap n)) ns) |}.
Definition vspace_empty : VState := vspace_fresh [0; 1; 2; 3].

(** A root, a page for which tables are missing, the three tables, the page, a
    second page at the same address, and the page taken away twice. *)
Definition vspace_reqs : list VReq :=
  [VMakeRoot (pool_cap 0); VMapPage user_page space_root uv 0x16;
   VMapTable (pool_cap 1) space_root uv; VMapTable (pool_cap 2) space_root uv;
   VMapTable (pool_cap 3) space_root uv; VMapPage user_page space_root uv 0x16;
   VMapPage other_page space_root uv 0x16; VUnmapPage (set_mapped other_page uv) space_root;
   VUnmapPage (set_mapped user_page uv) space_root; VUnmapPage (set_mapped user_page uv) space_root].

Lemma vspace_fresh_vrep ns :
  KERNEL_VM_ROOT ∉ va_pool (vspace_fresh ns) → vrep (heap vspace_state) ∅ (vspace_fresh ns).
Proof.
  intros Hk. split; try done.
  - intros k. simpl. split; [set_solver|]. by intros [x Hx].
  - intros x Hx. split; [|done]. apply zero_table_empty.
    apply lookup_singleton_ne. by intros <-.
  - split_and!; [|done|done]. exists PageTable_new. split; [done|]. split; [done|].
    intros i pte _ Hp. apply lookup_replicate in Hp as [-> _]. done.
Qed.
Lemma vspace_empty_vrep : vrep (heap vspace_state) ∅ vspace_empty.
Proof. apply vspace_fresh_vrep. by vm_compute. Qed.

Lemma vspace_reqs_ok : reqs_ok vspace_reqs vspace_empty.
Proof.
  cbn [reqs_ok vspace_reqs req_ok]. split_and!; try done; try (unfold is_vroot; evald); try (split; evald); try evald.
  all: intros _; evald.
Qed.
Lemma vspace_refines_witness :
  ∃ h' tb',
    exec_reqs vspace_reqs vspace_state =
      Ok [inr (None, space_root); inl (kerr_val ErrKind.PageTableNotMappedYet 3);
          inr (Some 2, set_mapped (pool_cap 1) uv); inr (Some 1, set_mapped (pool_cap 2) uv);
          inr (Some 0, set_mapped (pool_cap 3) uv); inr (None, set_mapped user_page uv);
          inl (kerr ErrKind.VaddressAlreadyMapped); inl (kerr ErrKind.InvalidOperation);
          inr (None, set_unmapped (set_mapped user_page uv)); inl (kerr ErrKind.PageNotMappedYet)]
         (vspace_state <| heap := h' |>) ∧
    vrep h' tb' (snd (spec_reqs vspace_reqs vspace_empty)).
Proof.
  destruct (vspace_refines vspace_reqs vspace_state ∅ vspace_empty vspace_empty_vrep vspace_reqs_ok)
    as (h' & tb' & He & Hrep & _).
  exists h', tb'. split; [|exact Hrep]. by rewrite He.
Defined.

(** The kernel's root table, whose last entry names its second-level table. *)
Definition kv : Z := 0xffffff8000000000.
Definition shared_root : PageTable := <[511%nat := pte_write 0x80203000 PAGE_V]> PageTable_new.
Definition shared_state : KState := boot_state {[KERNEL_VM_ROOT := OPageTable shared_root]}.

Lemma kernel_half_shared_witness :
  ∃ s1 h' pte, make_roots [pool_cap 0; pool_cap 4] shared_state = Ok [as_root (pool_cap 0); as_root (pool_cap 4)] s1 ∧
    translate (heap s1) (cap_kva (pool_cap 4)) kv = None ∧
    map_below (pool_cap 1) (pool_cap 2) user_page (as_root (pool_cap 0)) kv 0x16 s1
      = Ok (set_mapped (pool_cap 1) kv, set_mapped (pool_cap 2) kv, set_mapped user_page kv) (s1 <| heap := h' |>) ∧
    pte_as_page_table pte = cap_kva user_page ∧ pte mod 2 ^ 10 = 0x17 ∧
    translate h' (cap_kva (pool_cap 4)) kv = Some pte ∧ translate h' KERNEL_VM_ROOT kv = Some pte.
Proof.
  destruct (kernel_half_shared shared_state kv shared_root (pte_write 0x80203000 PAGE_V) (kva_of_phys 0x80203000)
    (pool_cap 0) [pool_cap 4] (pool_cap 1) (pool_cap 2) user_page 0x16)
    as (s1 & h' & pte & H1 & Hno & Hrun & Hp & Hf & Hall).
  - evalr.
  - evalr.
  - evalr.
  - evalr.
  - repeat constructor; evalr.
  - evald.
  - exists 0. split; evalr.
  - apply zero_table_empty. evalr.
  - apply zero_table_empty. evalr.
  - evald.
  - repeat constructor; evald.
  - evalr.
  - evalr.
  - evalr.
  - split; done.
  - split; done.
  - split; done.
  - done.
  - exists s1, h', pte. split; [exact H1|]. split; [apply Hno; evald|]. split; [exact Hrun|]. split; [exact Hp|].
    split; [exact Hf|]. split; apply Hall; evald.
Defined.

(** Two address spaces in which only the last-level table for [uv] is missing. *)
Definition second_root : CapabilityData := as_root (pool_cap 4).
Definition pair_reqs : list VReq :=
  [VMakeRoot (pool_cap 0); VMapTable (pool_cap 1) space_root uv; VMapTable (pool_cap 2) space_root uv;
   VMakeRoot (pool_cap 4); VMapTable (pool_cap 5) second_root uv; VMapTable (pool_cap 6) second_root uv].
Definition pair_fresh : VState := vspace_fresh [0; 1; 2; 3; 4; 5; 6].
Definition pair_abs : VState := snd (spec_reqs pair_reqs pair_fresh).
Definition pair_space : KState := match exec_reqs pair_reqs vspace_state with Ok _ s => s | _ => vspace_state end.
Lemma pair_reqs_ok : reqs_ok pair_reqs pair_fresh.
Proof.
  cbn [reqs_ok pair_reqs req_ok]. split_and!; try done; try (unfold is_vroot; evald); try (split; evald); try evald.
  all: intros _; evald.
Qed.
Lemma pair_vrep : ∃ tb, vrep (heap pair_space) tb pair_abs.
Proof.
  destruct (reqs_refine pair_reqs vspace_state ∅ pair_fresh) as (h' & He & Hrep & _);
    [apply vspace_fresh_vrep; by vm_compute|exact pair_reqs_ok|].
  eexists. unfold pair_space. rewrite He. exact Hrep.
Qed.

Lemma copied_table_shared_witness :
  translate (heap pair_space) (cap_kva second_root) uv = None ∧
  ∃ h' pte,
    (let* c' := page_table_derive (pool_cap 3) in
     pt_cap_map (pool_cap 3) space_root uv ;;; pt_cap_map c' second_root uv ;;;
     page_cap_map user_page space_root uv 0x16) pair_space
      = Ok (set_mapped user_page uv) (pair_space <| heap := h' |>) ∧
    pte_as_page_table pte = cap_kva user_page ∧ translate h' (cap_kva second_root) uv = Some pte.
Proof.
  destruct pair_vrep as [tb Hrep].
  destruct (copied_table_shared pair_space tb pair_abs space_root second_root (pool_cap 3) user_page uv 0x16 Hrep)
    as (Hno & h' & pte & Hrun & Hp & _ & _ & Ht).
  - unfold is_vroot. evald.
  - unfold is_vroot. evald.
  - by vm_compute.
  - split; by vm_compute.
  - evalr.
  - evalr.
  - evalr.
  - split; done.
  - evald.
  - evalr.
  - split; done.
  - done.
  - split; [exact Hno|]. exists h', pte. split; [exact Hrun|]. split; [exact Hp|exact Ht].
Defined.

(** ** Loading and booting *)

Lemma map_self_loads_witness :
  length (load_headers demo_bytes demo_elf) = 1%nat ∧
  map_self RootServerMapper demo_bytes demo_elf demo_mapper demo_empty =
    map_segments RootServerMapper demo_elf (load_headers demo_bytes demo_elf) demo_mapper demo_empty.
Proof.
  split; [evalr|].
  exact (map_self_loads RootServerMapper demo_bytes demo_elf demo_mapper demo_bytes_u8 ltac:(evald) demo_empty).
Defined.

Definition demo_allocator : BumpAllocator := {| start_addr := 0x80400000; end_addr := 0x88000000 |}.
Definition demo_init : outcome KState KernelError unit :=
  init_root_server 0xffffffff802fff00 0xffffffff80300000 demo_allocator demo_bytes demo_elf demo_boot.

Definition returns {S E A} (r : outcome S E A) : bool := match r with Ok _ _ => true | _ => false end.
Lemma returns_Ok {S E A} (r : outcome S E A) : returns r = true → ∃ a s, r = Ok a s.
Proof. destruct r; try done. eauto. Qed.

(** ** The boot assembly and the tables *)

Definition demo_symbols : BootSymbols := {|
  abs_start := 0x82000010; page_kernel_level_3 := 0x82001000; page_init_id_lvl2 := 0x82002000; page_kernel_lvl2 := 0x82003000;
  free_ram := 0x82400000; free_ram_end := 0x86400000; global_pointer := 0xffffffff82100800;
  stack_top := 0xffffffff82300000; main := 0xffffffff82006000 |}.
(** What the firmware leaves: the hart and the device tree in the arguments. *)
Definition demo_hart : hart := {|
  regs := Registers_null <| a0 := 0 |> <| a1 := 0x87e00000 |> <| s3 := 77 |> <| ra := 0x80000f00 |>;
  words := λ _, 0; h_satp := 0; h_sie := 0x222; h_sip := 0; pc := 0x82000000 |}.
Lemma demo_symbols_layout : boot_layout demo_symbols.
Proof. split; [by vm_compute|by vm_compute|by vm_compute|evald]. Qed.

Lemma demo_zeroed a : in_tables demo_symbols a → words demo_hart a = 0 ∧ ¬ 0x82200000 ≤ a < 0x82280000.
Proof.
  intros (p & i & Hp & Hi & ->). split; [done|]. rewrite !elem_of_cons, elem_of_nil in Hp. cbn in Hp.
  destruct Hp as [->|[->|[->|[]]]]; lia.
Qed.

Lemma boot_code_maps_witness :
  let m' := boot_run demo_symbols demo_hart in
  pc m' = 0xffffffff82006000 ∧ a2 (regs m') = 0x82400000 ∧
  sv48 (read_words (words m')) (h_satp m') 0xffffffff82006123 = Some (0x82006123, PTE_LEAF) ∧
  sv48 (read_words (words m')) (h_satp m') 0x82000010 = Some (0x82000010, PTE_LEAF) ∧
  sv48 (read_words (words m')) (h_satp m') 0x10000000 = None.
Proof.
  intros m'. destruct (boot_code_maps demo_symbols demo_hart 0x82200000 0x82280000 demo_symbols_layout demo_zeroed)
    as (Hp & Hr & _ & _ & _ & Hm).
  fold m' in Hp, Hr, Hm. split; [exact Hp|]. split; [by rewrite Hr|].
  split; [rewrite Hm by (done || by left); evalr|]. split; [rewrite Hm by (done || by left); evalr|rewrite Hm by (done || by left); evalr].
Defined.

Definition vm_state : KState := boot_state (list_to_map [
  (KERNEL_VM_ROOT, OPageTable PageTable_new); (LV2TABLE, OPageTable PageTable_new)]).
Lemma kernel_tables_map_witness :
  ∃ s', kernel_vm_init 0xffffffff82004000 0xffffffff82400000 0x88000000 vm_state = Ok tt s' ∧
    sv48 (image_tables (heap s')) (satp s') 0xffffffff82006123 = Some (0x82006123, flag true) ∧
    sv48 (image_tables (heap s')) (satp s') (kva_of_phys 0x83000000) = Some (0x83000000, flag true).
Proof.
  destruct (kernel_tables_map 0xffffffff82004000 0xffffffff82400000 0x88000000 vm_state PageTable_new PageTable_new)
    as (s' & Hr & Hw & Hi); [split; [by vm_compute|by vm_compute|done]|evalr|evalr|evalr|evalr|by vm_compute|by vm_compute|by vm_compute|done|].
  exists s'. split; [exact Hr|]. split; [apply Hi; by vm_compute|apply Hw; by vm_compute].
Defined.
