(* ===== verification/SystemWitnesses.v ===== *)
(** * The whole system, evaluated

    The kernel boots into the root server of the repository, which loads a
    second program, starts a child thread and talks to it; and the theorems on
    the library and the root server at concrete inputs. *)

From Stdlib Require Import String.
From stdpp Require Import pretty.
From S2P Require Import Prelude Shared Address Objects Riscv LinkedList Capability PageTable CNode.
From S2P Require Import Thread RoundRobin Ipc Untyped Syscall Trap TrapProps Boot Elf RootServer BootSpace BootRun Entry.
From S2P Require Import SyscallProps UserLib UserProg CapLib CapLibProps VSpace LibMap LibRetype RootProg RootProps System Rendezvous WellTyped BootTyped SystemTyped Witnesses BootWitnesses.

#[local] Existing Instance demo_layout.

(** ** The programs *)

(** The image of the second program: 5000 bytes at 0x20000, entry 0x20040. *)
Definition simple_elf : list Z :=
  [0x7f; 0x45; 0x4c; 0x46; 2; 1; 1] ++ replicate 9 0 ++ le 2 2 ++ le 2 243 ++ le 4 1 ++
  le 8 0x20040 ++ le 8 64 ++ le 8 0 ++ le 4 0 ++ le 2 64 ++ le 2 56 ++ le 2 1 ++ le 2 0 ++
  le 2 0 ++ le 2 0 ++
  (le 4 1 ++ le 4 5 ++ le 8 0x1000 ++ le 8 0x20000 ++ le 8 0x20000 ++ le 8 5000 ++ le 8 5000 ++ le 8 4096).
Definition simple_at : Z := 0x11000.
Definition user_bytes (a : Z) : Z := default 0 (simple_elf !! Z.to_nat (a - simple_at)).
Definition root_image : RootImage :=
  {| ri_bytes := user_bytes; ri_simple := simple_at; ri_stack_bottom := 0x12ff8; ri_children := 0x10100 |}.

(** Numbers are printed in decimal, and of the other values the path. *)
Definition show_path (p d : Z) : list Z := text (pretty p) ++ text "/" ++ text (pretty d).
Definition show : Formatter := {|
  fmt_boot_info := λ b, text (pretty (firtst_empty_idx b));
  fmt_usize := λ v, text (pretty v);
  fmt_failed := λ e, text (pretty (ErrKind.errkind_as_usize (fst e)));
  fmt_notification := λ c, show_path (cap_ptr c) (cap_depth c);
  fmt_endpoint := λ c, show_path (cap_ptr c) (cap_depth c);
  fmt_panic := λ _, text "panicked";
|}.
Definition booted : KState := match demo_init with Ok _ s => s | _ => demo_boot end.
(** The root server and its children run in the address space the boot made,
    the second program in another one. *)
Definition root_satp : Z := Eval vm_compute in satp booted.
Definition programs (satp pc : Z) (r : Registers) : option (Prog unit) :=
  if satp =? root_satp then
    if pc =? 0x10040 then Some (root_start show root_image r)
    else if pc =? 0x10100 then Some (children show r)
    else None
  else if pc =? 0x20040 then Some simple_start
  else None.
Definition boot_tmp : Z := 0xffffffff802fff00.

(** ** The run *)

Definition lines (l : list string) : list Z := l ≫= λ s, text s ++ [10].
Definition transcript : list Z := lines [
  "boot info: 23";
  "[TEST][PASS] ROOTSERVER_MAPPED_SIMPLE";
  "mapping was done";
  "parnet: wait";
  "children: notification is 524318/36";
  "children: ep is 524320/36";
  "children: send signal";
  "child: call recv";
  "parent: wake up 4";
  "parent: call send";
  "parnet: send done";
  "parent: call recv";
  "child: recv done";
  "child: call send";
  "child: send done";
  "child: call send";
  "parnet: recv done";
  "parent: call recv";
  "parnet: recv done";
  "[TEST][PASS] ROOTSERVER_RESUMED_SIMPLE";
  "[TEST][PASS] ROOTSERVER_DONE";
  "panicked";
  "child: send done";
  "[TEST][PASS] SIMPLE_MAIN";
  "Hello, world, from, simple!"]%string.

Definition started : Sys := {| kern := booted; code := ∅ |}.
Lemma booted_Ok : demo_init = Ok tt booted.
Proof. destruct (returns_Ok demo_init) as ([] & s & Hr); [evalr|]. unfold booted. by rewrite Hr. Qed.

(** Enough steps for the programs to end; they then only wait for the timer. *)
Definition RUN_STEPS : nat := Z.to_nat 2500.
Definition shows (c : list Z) (r : option Sys) : bool :=
  match r with Some sy => bool_decide (console (kern sy) = c) | None => false end.
Lemma run_shows : shows transcript (sys_run boot_tmp programs RUN_STEPS started) = true.
Proof. vm_compute. reflexivity. Qed.

(** An evaluated run of the system: the machine boots into the root server, and
    kernel and threads step by step reach a state in which the console shows
    what the programs of the repository print: the root server maps and loads
    the second program from its ELF image, starts a child and is woken with the
    badge of its signal (4), the two exchange three messages, the root server
    ends (its [exit] is a panic), and the second program starts in an address
    space of its own. *)
Lemma root_server_completes :
  ∃ s sy, demo_init = Ok tt s ∧
    rtc (sys_step boot_tmp programs) {| kern := s; code := ∅ |} sy ∧ console (kern sy) = transcript.
Proof.
  pose proof run_shows as Hr. unfold shows in Hr.
  destruct (sys_run boot_tmp programs RUN_STEPS started) as [sy|] eqn:Hs; [|done].
  exists booted, sy. split; [exact booted_Ok|]. split; [by eapply sys_run_steps|].
  by apply bool_decide_eq_true_1 in Hr.
Qed.

Lemma booted_running : root_running booted (current_proc booted) 0xffff800080c00000 0x10040.
Proof. split; [reflexivity|evalr|evalr|evalr|]. eexists. split; [evalr|]. split_and!; evalr. Qed.

(** After 260 steps another thread than the root server runs. *)
Definition now (r : option Sys) : option bool :=
  (λ sy, bool_decide (current_proc (kern sy) ≠ current_proc booted)) <$> r.
Lemma system_reg_base_witness :
  ∃ sy, sys_run boot_tmp programs 260 started = Some sy ∧
    current_proc (kern sy) ≠ current_proc booted ∧
    cur_reg_base (cpu_var (kern sy)) = current_proc (kern sy).
Proof.
  assert (now (sys_run boot_tmp programs 260 started) = Some true) as Hn by evalr.
  destruct (sys_run boot_tmp programs 260 started) as [sy|] eqn:Hs; [|discriminate Hn].
  exists sy. split; [reflexivity|]. split; [by injection Hn as Hn%bool_decide_eq_true_1|].
  apply (system_reg_base boot_tmp programs booted (current_proc booted) 0xffff800080c00000 0x10040 sy);
    [exact booted_running|exact (sys_run_steps _ _ _ _ _ Hs)].
Defined.

Lemma user_bytes_u8 a : 0 ≤ user_bytes a < 256.
Proof.
  unfold user_bytes. destruct (simple_elf !! _) as [v|] eqn:Hv; [|simpl; lia].
  assert (Forall (λ v, 0 ≤ v < 256) simple_elf) as Hall by evald.
  by apply (Forall_lookup_1 _ _ _ _ Hall Hv).
Qed.
Lemma root_server_ends_witness : ends (root_start show root_image Registers_null).
Proof. exact (root_server_ends show root_image Registers_null user_bytes_u8). Defined.

(** ** The library *)

(** A root node of four slots: itself, a second node, a notification and a free
    slot. *)
Definition nt_cap (badge : Z) : CapabilityData := cap_new CapabilityType.Notification (phys_of_kva ntA) badge.
Definition lib_space : gmap Z kobject := list_to_map [
  (slot_addr capA 0, OSlot (Some (new_with_rawcap capA)));
  (slot_addr capA 1, OSlot (Some (new_with_rawcap capB)));
  (slot_addr capA 2, OSlot (Some (new_with_rawcap (nt_cap 5))))].
Definition lib_thread : ThreadControlBlock :=
  (thread Runnable 5 1) <| value ::= λ v, v <| root_cnode := Some (new_with_rawcap capA) |> |>.
Definition lib_state : KState := (boot_state (<[tA := OTcb lib_thread]> lib_space)) <| current_proc := tA |>.
Definition lib_node (p c : Z) : UserCap CNodeData :=
  {| cap_ptr := p; cap_depth := 2; cap_data := {| cn_radix := 2; cursor := c |} |}.
Definition lib_nt : UserCap NotificaitonData := {| cap_ptr := 2; cap_depth := 2; cap_data := NotificaitonUnit |}.

Lemma lib_slot a e :
  slot_at (heap lib_state) a = Some (Some e) →
  e = new_with_rawcap capA ∨ e = new_with_rawcap capB ∨ e = new_with_rawcap (nt_cap 5).
Proof.
  unfold lib_state, lib_space, slot_at, boot_state. cbn -[insert lookup slot_addr tA].
  repeat (match goal with |- context[<[?k := _]> _ !! a] =>
    destruct (decide (k = a)) as [<-|]; [rewrite lookup_insert_eq; naive_solver|rewrite lookup_insert_ne by done] end).
  rewrite lookup_empty. naive_solver.
Qed.
Lemma lib_radix_pos : radix_pos (heap lib_state).
Proof. intros a e [->|[->| ->]]%lib_slot Hc; [by vm_compute|by vm_compute|by vm_compute in Hc]. Qed.
Lemma lib_runs : runs_in lib_state tA lib_thread capA.
Proof. split; [done|evalr|by eexists|by vm_compute]. Qed.
Lemma capA_resolves h p : 0 ≤ p < 4 → resolves h capA p 2 (slot_addr capA p).
Proof.
  intros Hp. replace (slot_addr capA p) with (slot_addr capA (slot_index p (radix capA) 0)).
  - change 2 with (radix capA). by apply resolves_here.
  - f_equal. change (radix capA) with 2. unfold slot_index. rewrite Z.pow_0_r, Z.div_1_r, Z.mod_small; lia.
Qed.
Lemma lib_named (p c : Z) (k : CapabilityData) :
  0 ≤ p < 4 → 0 ≤ c → slot_at (heap lib_state) (slot_addr capA p) = Some (Some (new_with_rawcap k)) →
  is_cnode k → radix k = 2 → node_rep (heap lib_state) capA (lib_node p c) k.
Proof.
  intros Hp Hc Hs Hk Hr. split; [|done|done|by split|done|].
  - exists (slot_addr capA p), (new_with_rawcap k). split; [|done]. by apply capA_resolves.
  - simpl. unfold W. lia.
Qed.
Lemma lib_places dest :
  slot_at (heap lib_state) dest = Some None → dest ≠ tmpA →
  insert_places lib_state tmpA tA capA lib_nt (slot_addr capA 2) (new_with_rawcap (nt_cap 5)) dest.
Proof.
  intros Hd Ht. split; [exact (resolves_here (heap lib_state) capA 2 ltac:(by vm_compute))|simpl; lia|evalr|done| |].
  - split; [split; [by vm_compute|split; [by vm_compute|congruence]]|by vm_compute|by apply no_next].
  - split; [by vm_compute|]. intros e He. by vm_compute in He.
Qed.
Lemma lib_derives s : entry_derive (new_with_rawcap (nt_cap 5)) s = Ok (nt_cap 0) s.
Proof. reflexivity. Qed.

(** No node in memory has radix 0. *)
Definition radix_check (o : kobject) : bool :=
  match o with
  | OSlot (Some e) => negb (bool_decide (is_cnode e.(cap))) || (0 <? radix e.(cap))
  | _ => true
  end.
Lemma radix_pos_decided h : forallb radix_check (snd <$> map_to_list h) = true → radix_pos h.
Proof.
  intros Hall a e He Hc. rewrite forallb_forall in Hall. specialize (Hall (OSlot (Some e))).
  rewrite <- list_elem_of_In in Hall. unfold radix_check in Hall. rewrite bool_decide_eq_true_2 in Hall by done.
  apply Z.ltb_lt, Hall. apply list_elem_of_fmap. exists (a, OSlot (Some e)). split; [done|].
  apply elem_of_map_to_list. by apply slot_at_occupied.
Qed.

(** A notification capability is copied; one to an untyped block is not. *)
Definition ut_space : KState :=
  lib_state <| heap ::= <[slot_addr capA 2 := OSlot (Some (new_with_rawcap ut_cap))]> |>.
Lemma library_copy_witness :
  (∃ c' s' ed, run_direct tmpA (cnode_cap_copy (lib_node 1 0) lib_nt) lib_state = Ok (inl c', next_slot (lib_node 1 0)) s' ∧
     names (heap s') capA c' (slot_addr capB 0) ∧
     slot_at (heap s') (slot_addr capB 0) = Some (Some ed) ∧ ed.(cap) = nt_cap 0) ∧
  (∃ s', run_direct tmpA (cnode_cap_copy (lib_node 1 0) lib_nt) ut_space =
           Ok (inr (ErrKind.CanNotDerivable, 0), next_slot (lib_node 1 0)) s').
Proof.
  split.
  - destruct (library_copy lib_state tmpA tA lib_thread capA (lib_node 1 0) capB lib_nt (slot_addr capA 2)
                (new_with_rawcap (nt_cap 5)) CapabilityType.Notification) as (c' & s' & ed & Hr & Hn & He & Hc & _).
    + exact lib_runs.
    + exact lib_radix_pos.
    + by vm_compute.
    + by apply lib_named.
    + by vm_compute.
    + by apply lib_places.
    + evalr.
    + exists c', s', ed. split; [exact Hr|]. split; [exact Hn|]. split; [exact He|exact Hc].
  - destruct (library_copy ut_space tmpA tA lib_thread capA (lib_node 1 0) capB lib_nt (slot_addr capA 2)
                (new_with_rawcap ut_cap) CapabilityType.Untyped) as (s' & Hr & _).
    + split; [done|evalr|by eexists|by vm_compute].
    + apply radix_pos_decided. evalr.
    + by vm_compute.
    + split; [|done|done|by split|done|simpl; unfold W; lia].
      exists (slot_addr capA 1), (new_with_rawcap capB). split; [by apply capA_resolves|]. split; [evalr|done].
    + by vm_compute.
    + split; [by apply capA_resolves|simpl; lia|evalr|evalr| |].
      * split; [by vm_compute|by vm_compute|by apply no_next].
      * split; [by vm_compute|]. intros e He. by vm_compute in He.
    + evalr.
    + exists s'. exact Hr.
Defined.

Lemma library_mint_witness :
  ∃ c' self' s' ed, run_direct tmpA (cnode_cap_mint (lib_node 0 3) lib_nt 8) lib_state = Ok (inl c', self') s' ∧
    names (heap s') capA c' (slot_addr capA 3) ∧
    slot_at (heap s') (slot_addr capA 3) = Some (Some ed) ∧ ed.(cap) = nt_cap 8.
Proof.
  destruct (library_mint lib_state tmpA tA lib_thread capA (lib_node 0 3) lib_nt (slot_addr capA 2)
              (new_with_rawcap (nt_cap 5)) (nt_cap 0) 8) as (c' & self' & s' & ed & Hr & Hn & He & Hc & _).
  - exact lib_runs.
  - exact lib_radix_pos.
  - by apply lib_named.
  - by vm_compute.
  - by apply lib_places.
  - exact lib_derives.
  - exists c', self', s', ed. split; [exact Hr|]. split; [exact Hn|]. split; [exact He|exact Hc].
Defined.

Lemma library_mint_astray_witness :
  ∃ c' self' s', run_direct tmpA (cnode_cap_mint (lib_node 1 0) lib_nt 8) lib_state = Ok (inl c', self') s' ∧
    names (heap s') capA c' (slot_addr capB 0) ∧ slot_at (heap s') (slot_addr capB 0) = Some None.
Proof.
  destruct (library_mint_astray lib_state tmpA tA lib_thread capA (lib_node 1 0) capB lib_nt (slot_addr capA 2)
              (new_with_rawcap (nt_cap 5)) (nt_cap 0) 8) as (c' & self' & s' & ed & Hr & Hn & He & _).
  - exact lib_runs.
  - exact lib_radix_pos.
  - by vm_compute.
  - by apply lib_named.
  - by vm_compute.
  - by apply lib_places.
  - exact lib_derives.
  - evalr.
  - by vm_compute.
  - by vm_compute.
  - exists c', self', s'. split; [exact Hr|]. split; [exact Hn|exact He].
Defined.

(** ** Well-typed states *)

Lemma boot_state_typed l : Forall (λ x, object_ok (snd x)) l → well_typed (boot_state (list_to_map l)).
Proof.
  intros Hl. split; try done. induction Hl as [|[a o] l Ho _ IH]; [apply map_Forall_empty|].
  by apply map_Forall_insert_2.
Qed.
Lemma thread_typed t :
  is_usize (time_slice t) → is_usize (tid t) → is_usize (badge t) → registers t = Registers_null →
  root_cnode t = None → vspace t = None → ipc_buffer t = None → thread_ok t.
Proof. intros ??? Hr Hc Hv Hb. split; rewrite ?Hr, ?Hc, ?Hv, ?Hb; auto using regs_null_ok, slot_none_ok. Qed.
Lemma trap_state_typed : well_typed trap_state.
Proof.
  assert (well_typed ring_state) as []; [|by split].
  unfold ring_state. match goal with |- well_typed (upd _ _ (upd _ _ (boot_state (list_to_map ?l)))) =>
    assert (well_typed (boot_state (list_to_map l))) as [] end; [|by split].
  apply boot_state_typed. repeat apply Forall_cons_2; (apply Forall_nil_2 || by apply thread_typed || done).
Qed.
Definition demo_sym : LinkerSymbols := {|
  sym_text := 0xffffffff80200000; sym_data_end := 0xffffffff80400000; sym_stack_top := 0xffffffff80300000;
  sym_trap_entry := 0xffffffff80200100 |}.
Definition demo_kernel : outcome KState KernelError unit :=
  init_kernel demo_sym boot_tmp demo_bytes demo_elf 0x80400000 0x88000000 demo_boot.
Lemma demo_boot_typed : well_typed demo_boot.
Proof.
  apply boot_state_typed. repeat apply Forall_cons_2;
    (apply Forall_nil_2 || by apply thread_typed || apply table_new_ok).
Qed.
Lemma demo_idle_usize : is_usize idle_entry.
Proof. done. Qed.
Lemma show_ok : formatter_ok show.
Proof. split; intros; apply text_ok || (apply Forall_app_2; [apply text_ok|]; apply Forall_app_2; apply text_ok). Qed.
Lemma root_image_ok : image_ok root_image.
Proof. split; [exact user_bytes_u8|done..]. Qed.
Lemma programs_of satp pc r p :
  programs satp pc r = Some p → p ∈ [root_start show root_image r; children show r; simple_start].
Proof.
  unfold programs. rewrite !elem_of_cons.
  repeat destruct (_ =? _); (intros [= <-]; auto) || done.
Qed.
Definition after_boot (n : nat) (o : outcome KState KernelError unit) : option Sys :=
  match o with Ok _ s => sys_run boot_tmp programs n {| kern := s; code := ∅ |} | _ => None end.
(** The whole run, from the first instruction of [init_kernel]. *)
Lemma system_well_typed_witness :
  ∃ s' sy, demo_kernel = Ok tt s' ∧ rtc (sys_step boot_tmp programs) {| kern := s'; code := ∅ |} sy ∧
    console (kern sy) = transcript ∧ well_typed (kern sy).
Proof.
  assert (shows transcript (after_boot RUN_STEPS demo_kernel) = true) as Hsh by (vm_compute; reflexivity).
  destruct demo_kernel as [[] s'| | | |] eqn:Hr; try discriminate Hsh. cbn [after_boot] in Hsh.
  destruct (sys_run boot_tmp programs RUN_STEPS {| kern := s'; code := ∅ |}) as [sy|] eqn:Hs; [|discriminate Hsh].
  apply sys_run_steps in Hs. apply bool_decide_eq_true_1 in Hsh.
  exists s', sy. split; [reflexivity|]. split; [exact Hs|]. split; [exact Hsh|].
  refine (system_well_typed demo_bytes demo_sym boot_tmp demo_elf 0x80400000 0x88000000 show root_image programs
    demo_boot s' sy demo_bytes_u8 demo_idle_usize _ _ _ show_ok root_image_ok programs_of demo_boot_typed Hr Hs);
    clear; done.
Defined.

(** ** Into user mode and back *)

Definition kernel_booted : KState := match demo_kernel with Ok _ s => s | _ => demo_boot end.
Lemma kernel_booted_Ok : demo_kernel = Ok tt kernel_booted.
Proof. destruct (returns_Ok demo_kernel) as ([] & s & Hr); [evalr|]. unfold kernel_booted. by rewrite Hr. Qed.
Lemma kernel_booted_placed : placed 64 kernel_booted.
Proof. apply placed_threads; evald. Qed.
Definition kernel_machine (f : Registers) : machine :=
  {| file := f; m_sscratch := CPU_VAR; mem := image_of 64 kernel_booted |}.

Lemma kernel_main_Ok :
  kernel_main 64 demo_sym boot_tmp demo_bytes demo_elf 0x80400000 0x88000000 demo_boot =
    Ok (return_from 64 kernel_booted) kernel_booted.
Proof. unfold kernel_main. by rewrite (bind_Ok _ _ _ _ _ kernel_booted_Ok). Qed.

Lemma kernel_main_enters_root_server_witness :
  ∃ enter, kernel_main 64 demo_sym boot_tmp demo_bytes demo_elf 0x80400000 0x88000000 demo_boot = Ok enter kernel_booted ∧
    stvec kernel_booted = 0xffffffff80200100 ∧
    reg_of (enter (kernel_machine Registers_null)) Register.SEpc = e_entry (hdr_at demo_bytes demo_elf).
Proof.
  exists (return_from 64 kernel_booted). split; [exact kernel_main_Ok|].
  destruct (kernel_main_enters_root_server 64 demo_sym boot_tmp demo_bytes demo_elf 0x80400000 0x88000000 demo_boot
    (ListItem_new ThreadInfo_idle_init) (return_from 64 kernel_booted) kernel_booted)
    as (_ & _ & _ & _ & _ & _ & Hv & _ & _ & Hm);
    [done|done|done|reflexivity|evalr|reflexivity|done|done|exact kernel_main_Ok|].
  split; [exact Hv|].
  exact (proj1 (Hm (kernel_machine Registers_null) kernel_booted_placed (image_of_ok _ _ kernel_booted_placed))).
Defined.

Lemma user_cycle_refines_witness :
  ∃ s', modify_tcb (current_proc kernel_booted) (λ v, v <| registers := copy_regs 9 |>) kernel_booted = Ok tt s' ∧
    in_memory 64 s' (mem (run trap_entry (kernel_machine (copy_regs 9)))).
Proof.
  assert (∃ t, heap kernel_booted !! current_proc kernel_booted = Some (OTcb t)) as [t Ht] by (eexists; evalr).
  pose proof (image_of_ok _ _ kernel_booted_placed) as Him.
  destruct (user_cycle_refines 64 kernel_booted t (kernel_machine Registers_null) (kernel_machine (copy_regs 9)))
    as (_ & s' & Hs' & Hin & _); [exact Ht|evalr|exact kernel_booted_placed|exact Him|reflexivity|reflexivity|exact Him|].
  exists s'. split; [exact Hs'|exact Hin].
Defined.

(** ** Two threads at an endpoint *)

(** [tA] runs and [tB] is queued; they share a capability space with two
    capabilities to [epA], of badges 5 and 9, and each has a buffer. *)
Definition meet_thread (buf id : Z) : ThreadControlBlock :=
  (thread Runnable 5 id) <| value ::= λ v,
    v <| root_cnode := Some (new_with_rawcap capA) |> <| ipc_buffer := buf_slot buf |> |>.
Definition meet_state : KState :=
  (boot_state (list_to_map [
     (tA, OTcb (meet_thread bufA 1)); (tB, OTcb (meet_thread bufB 2));
     (bufA, OPage IPCBuffer_zero); (bufB, OPage msgA); (epA, OEndpoint Endpoint_new);
     (slot_addr capA 0, OSlot (Some (new_with_rawcap (ep_cap 5))));
     (slot_addr capA 1, OSlot (Some (new_with_rawcap (ep_cap 9))))]))
  <| current_proc := tA |> <| cpu_var ::= λ c, c <| cur_reg_base := tA |> |>
  <| scheduler := {| runqueue := {| ll_head := Some tB; ll_last := Some tB |}; requested := false |} |>.
Definition meet_ep (p : Z) : UserCap EndpointData := {| cap_ptr := p; cap_depth := 2; cap_data := EndpointUnit |}.

Lemma meet_radix_pos : radix_pos (heap meet_state).
Proof.
  intros a e. unfold meet_state, boot_state, slot_at. cbn -[insert lookup slot_addr tA tB bufA bufB epA].
  repeat (match goal with |- context[<[?k := _]> _ !! a] =>
    destruct (decide (k = a)) as [<-|]; [rewrite lookup_insert_eq; intros Hs Hc; simplify_eq; by vm_compute in Hc|
                                        rewrite lookup_insert_ne by done] end).
  by rewrite lookup_empty.
Qed.
Lemma meet_party x buf id p b :
  heap meet_state !! x = Some (OTcb (meet_thread buf id)) → 0 ≤ p < 4 →
  slot_at (heap meet_state) (slot_addr capA p) = Some (Some (new_with_rawcap (ep_cap b))) →
  is_Some (page_at (heap meet_state) (cap_kva (cap_new CapabilityType.Page (phys_of_kva buf) 0))) →
  party (heap meet_state) x (meet_thread buf id) (meet_ep p) (ep_cap b).
Proof.
  intros Hx Hp Hs Hb. split; [|done]. split; [done| |done].
  exists (new_with_rawcap capA), (slot_addr capA p). split; [done|].
  split; [by vm_compute|]. split; [|done|by eexists|done]. by apply capA_resolves.
Qed.
Lemma meet_meeting :
  meeting meet_state tA (meet_thread bufA 1) (meet_ep 0) (ep_cap 5) tB (meet_thread bufB 2) (meet_ep 1) (ep_cap 9) [].
Proof.
  split; [done|done|exact meet_radix_pos| | |done| | | |done].
  - apply meet_party; [evalr|lia|evalr|by eexists; evalr].
  - apply meet_party; [evalr|lia|evalr|by eexists; evalr].
  - eexists. split; [evalr|]. split; [evalr|]. apply list_rep_new.
  - split; [evald|evalr|evalr|]. split; [tcb_at|done].
  - evald.
Qed.
Definition meet_sys (p q : Prog unit) : Sys :=
  {| kern := meet_state; code := <[tB := Running q]> {[tA := Running p]} |}.
Definition show_badge (b : Z) : Prog unit := call (put_char b) ;; PRet tt.

Lemma rendezvous_witness :
  let sy := meet_sys (let! b := ep_user_recive (meet_ep 0) in show_badge b) (ep_user_send (meet_ep 1) ;; PRet tt) in
  ∃ sy' t' k, rtc (sys_step tmpA programs) sy sy' ∧ code sy' !! tA = Some (Awaiting k) ∧
    heap (kern sy') !! tA = Some (OTcb t') ∧ k (syscall_result (registers (value t'))) = show_badge 9 ∧
    page_at (heap (kern sy')) bufA = Some msgA.
Proof.
  intros sy. destruct (rendezvous tmpA programs sy tA (meet_thread bufA 1) (meet_ep 0) (ep_cap 5) tB
    (meet_thread bufB 2) (meet_ep 1) (ep_cap 9) [] show_badge (PRet tt) meet_meeting)
    as (sy' & t' & k & Hr & _ & _ & _ & Hk & Ht & Hres & Hmsg).
  - unfold sy, meet_sys. cbn [code]. rewrite lookup_insert_ne by done. apply lookup_singleton_eq.
  - unfold sy, meet_sys. cbn [code]. apply lookup_insert_eq.
  - exists sy', t', k. split; [exact Hr|]. split; [exact Hk|]. split; [exact Ht|]. split; [exact Hres|].
    rewrite (Hmsg bufA bufB); evalr.
Defined.
Lemma rendezvous_sender_first_witness :
  let sy := meet_sys (ep_user_send (meet_ep 0) ;; PRet tt) (let! b := ep_user_recive (meet_ep 1) in show_badge b) in
  ∃ sy', rtc (sys_step tmpA programs) sy sy' ∧ code sy' !! tB = Some (Running (show_badge 5)) ∧
    page_at (heap (kern sy')) bufB = Some IPCBuffer_zero.
Proof.
  intros sy. destruct (rendezvous_sender_first tmpA programs sy tA (meet_thread bufA 1) (meet_ep 0) (ep_cap 5) tB
    (meet_thread bufB 2) (meet_ep 1) (ep_cap 9) [] show_badge (PRet tt) meet_meeting)
    as (sy' & t' & k & Hr & Hk & _ & _ & _ & _ & _ & Hmsg).
  - unfold sy, meet_sys. cbn [code]. rewrite lookup_insert_ne by done. apply lookup_singleton_eq.
  - unfold sy, meet_sys. cbn [code]. apply lookup_insert_eq.
  - exists sy'. split; [exact Hr|]. split; [exact Hk|]. rewrite (Hmsg bufB bufA); evalr.
Defined.

(** ** Mapping a page *)

(** [tA] holds a page and the root of its address space, whose tables are made
    by the first requests. *)
Definition map_objects : gmap Z kobject :=
  <[tA := OTcb lib_thread]> (<[slot_addr capA 0 := OSlot (Some (new_with_rawcap user_page))]>
  (<[slot_addr capA 1 := OSlot (Some (new_with_rawcap space_root))]> (heap vspace_state))).
Definition map_start : KState :=
  (boot_state map_objects) <| current_proc := tA |> <| satp := satp_of space_root |>.
Definition map_tables : list VReq :=
  [VMakeRoot (pool_cap 0); VMapTable (pool_cap 1) space_root uv; VMapTable (pool_cap 2) space_root uv;
   VMapTable (pool_cap 3) space_root uv].
Definition map_places : gmap Z (Z * Z * Z) := tables_reqs map_tables ∅ vspace_empty.
Definition map_abs : VState := snd (spec_reqs map_tables vspace_empty).

Lemma map_start_vrep : vrep (heap map_start) ∅ vspace_empty.
Proof.
  unfold map_start, map_objects, boot_state. cbn -[insert tA slot_addr vspace_state].
  repeat (apply vrep_insert; [|split_and!; [done|evald|done]]). exact vspace_empty_vrep.
Qed.
Lemma map_tables_ok : reqs_ok map_tables vspace_empty.
Proof.
  cbn [reqs_ok map_tables req_ok]. split_and!; try done; try (unfold is_vroot; evald); try (split; evald); try evald.
  all: intros _; evald.
Qed.

Definition map_state : KState := match exec_reqs map_tables map_start with Ok _ s => s | _ => map_start end.
Lemma map_state_vrep : vrep (heap map_state) map_places map_abs.
Proof.
  destruct (reqs_refine map_tables map_start ∅ vspace_empty map_start_vrep map_tables_ok) as (h1 & He & Hrep & _).
  unfold map_state. rewrite He. exact Hrep.
Qed.

Definition lib_cap {K} `{KernelObject K} (p : Z) : UserCap K :=
  {| cap_ptr := p; cap_depth := 2; cap_data := from_retype 0 false |}.
Lemma map_holds {K} `{KernelObject K} p c ct :
  0 ≤ p < 4 → slot_at (heap map_state) (slot_addr capA p) = Some (Some (new_with_rawcap c)) →
  CapabilityType.cap_type_try_from (cap_type c) = inr ct →
  holds (heap map_state) capA (lib_cap (K := K) p) ct (slot_addr capA p) c.
Proof.
  intros Hp Hs Hc. split; [|done|by eexists|done]. by apply capA_resolves.
Qed.
Lemma map_mappable : mappable (heap map_state) map_places map_abs user_page space_root uv.
Proof. split; [exact map_state_vrep|unfold is_vroot; evald|done|done|split; done|evalr|evalr|evalr]. Qed.
Lemma map_runs : runs_in map_state tA lib_thread capA.
Proof. split; [evalr|evalr|by eexists|by vm_compute]. Qed.

Lemma library_map_access_witness :
  ∃ u' s', run_direct tmpA (let! u' := page_cap_map_user (lib_cap 0) (lib_cap 1) uv flags_readandwrite in
                            PWriteBuffer uv msgA (PReadBuffer uv (λ b', PRet (u', b')))) map_state = Ok (u', msgA) s' ∧
    page_at (heap s') (cap_kva user_page) = Some msgA.
Proof.
  destruct (library_map_access map_state tmpA tA lib_thread capA (lib_cap 0) user_page (slot_addr capA 0)
    (lib_cap 1) space_root (slot_addr capA 1) map_places map_abs uv flags_readandwrite msgA)
    as (u' & s' & Hrun & _ & _ & Hpage & _).
  - exact map_runs.
  - apply radix_pos_decided. evalr.
  - by vm_compute.
  - apply map_holds; [lia|evalr|done].
  - apply map_holds; [lia|evalr|done].
  - exact map_mappable.
  - by split.
  - evalr.
  - eexists. evalr.
  - split_and!; [evalr|evald|done].
  - done.
  - done.
  - exists u', s'. split; [exact Hrun|exact Hpage].
Defined.

(** ** Creating an object *)

(** A root node with a capability to itself, an untyped block, and two free
    slots. *)
Definition new_state : KState := (boot_state (list_to_map [
  (tA, OTcb lib_thread);
  (slot_addr capA 0, OSlot (Some (new_with_rawcap capA)));
  (slot_addr capA 1, OSlot (Some (new_with_rawcap ut_cap)))])) <| current_proc := tA |>.
Definition lib_ut : UserCap UntypedData :=
  {| cap_ptr := 1; cap_depth := 2; cap_data := {| ut_is_device := false; ut_size_bits := 13 |} |}.
Lemma new_runs : runs_in new_state tA lib_thread capA.
Proof. split; [evalr|evalr|by eexists|by vm_compute]. Qed.
Lemma new_holds : holds (heap new_state) capA lib_ut CapabilityType.Untyped (slot_addr capA 1) ut_cap.
Proof. split; [by apply capA_resolves|done|eexists; split; [evalr|done]|done]. Qed.
Lemma new_node c : 0 ≤ c → node_rep (heap new_state) capA (lib_node 0 c) capA.
Proof.
  intros Hc. split; [|done|done|by split|done|simpl; unfold W; lia].
  exists (slot_addr capA 0), (new_with_rawcap capA). split; [by apply capA_resolves|]. split; [evalr|done].
Qed.

(** An endpoint is made from the block; then, with the slot emptied again, a
    page from the rest of the same block, whose derivation link is now the
    kernel's local entry. *)
Definition made_state : KState :=
  match run_direct tmpA (retype_single_ut EndpointData lib_ut (user_slot (lib_node 0 2)) 0) new_state with
  | Ok _ s => s <| heap ::= <[slot_addr capA 2 := OSlot None]> |>
  | _ => new_state
  end.
Definition made_thread : ThreadControlBlock :=
  match heap made_state !! tA with Some (OTcb t) => t | _ => lib_thread end.
Definition made_ut : CNodeEntry := default (new_with_rawcap ut_cap) (entry_at (heap made_state) (slot_addr capA 1)).

Lemma library_retype_witness :
  (∃ (c' : UserCap EndpointData) s' ed,
    run_direct tmpA (retype_single_ut EndpointData lib_ut (user_slot (lib_node 0 2)) 0) new_state = Ok c' s' ∧
    names (heap s') capA c' (slot_addr capA 2) ∧ slot_at (heap s') (slot_addr capA 2) = Some (Some ed) ∧
    cap_kva ed.(cap) = KERNEL_V_ADDR_PFX + ut_base ∧
    heap s' !! (KERNEL_V_ADDR_PFX + ut_base) = Some (OEndpoint Endpoint_new)) ∧
  (mdb_get_node made_ut.(mdb) true = Some tmpA ∧
   ∃ (c' : UserCap PageData) s' ed,
    run_direct tmpA (retype_single_ut PageData lib_ut (user_slot (lib_node 0 2)) 0) made_state = Ok c' s' ∧
    slot_at (heap s') (slot_addr capA 2) = Some (Some ed) ∧
    cap_kva ed.(cap) = KERNEL_V_ADDR_PFX + round_up (ut_base + 24) 4096).
Proof.
  split; [|split; [evalr|]].
  - destruct (library_retype (T := EndpointData) new_state tmpA tA lib_thread capA lib_ut (slot_addr capA 1)
      (new_with_rawcap ut_cap) (lib_node 0 2) capA 0 EndPointCap 24 8 ut_base ut_base 13)
      as (c' & s' & ed & es & Hrun & Hn & _ & Hed & Hk & _ & _ & Ho & _).
    + exact new_runs.
    + apply radix_pos_decided. evalr.
    + by vm_compute.
    + exact new_holds.
    + evalr.
    + by apply new_node.
    + done.
    + done.
    + evalr.
    + done.
    + done.
    + exact ut_cap_at.
    + exact endpoint_layout_demo.
    + by vm_compute.
    + split; [by vm_compute|evald|by apply no_next|evalr].
    + evald.
    + intros e He. by vm_compute in He.
    + exists c', s', ed. split; [exact Hrun|]. split; [exact Hn|]. split; [exact Hed|]. split; [exact Hk|exact Ho].
  - destruct (library_retype (T := PageData) made_state tmpA tA made_thread capA lib_ut (slot_addr capA 1)
      made_ut (lib_node 0 2) capA 0 PageCap 4096 4096 ut_base (ut_base + 24) 13)
      as (c' & s' & ed & es & Hrun & _ & _ & Hed & Hk & _).
    + split; [evalr|evalr| |by vm_compute]. eexists. split; evalr.
    + apply radix_pos_decided. evalr.
    + by vm_compute.
    + split; [by apply capA_resolves|done|eexists; split; evalr|evalr].
    + evalr.
    + split; [|done|done|by split|done|simpl; unfold W; lia].
      eexists (slot_addr capA 0), _. split; [by apply capA_resolves|]. split; evalr.
    + done.
    + done.
    + evalr.
    + done.
    + done.
    + split; [evalr|evalr|done|by vm_compute|split; [evalr|by vm_compute]|by vm_compute].
    + exact page_layout.
    + by vm_compute.
    + split; [by vm_compute|evald| |evalr]. intros pn Hpn. vm_compute in Hpn. injection Hpn as <-.
      split; [by vm_compute|]. split; [by vm_compute|by left].
    + evald.
    + intros e He Hc. vm_compute in He. injection He as <-. by vm_compute in Hc.
    + exists c', s', ed. split; [exact Hrun|]. split; [exact Hed|exact Hk].
Defined.
Lemma library_retype_last_slot_witness :
  ∃ s', run_direct tmpA (retype_single_ut EndpointData lib_ut (user_slot (lib_node 0 3)) 0) new_state =
          Err (ErrKind.InvalidOperation, 0) s'.
Proof.
  destruct (library_retype_last_slot (T := EndpointData) new_state tmpA tA lib_thread capA lib_ut (slot_addr capA 1)
    (new_with_rawcap ut_cap) (lib_node 0 3) capA 0) as (_ & s' & Hrun & _).
  - exact new_runs.
  - apply radix_pos_decided. evalr.
  - by vm_compute.
  - exact new_holds.
  - by apply new_node.
  - done.
  - done.
  - evalr.
  - exists s'. exact Hrun.
Defined.
