(* ===== verification/LibWitnesses.v ===== *)
(** * Threads and signals through the library, evaluated

    The theorems of [LibThread], [LibConfigure], [Direct], [Signals] and [Spawn]
    at concrete inputs. *)

From S2P Require Import Prelude Shared Address Objects Riscv LinkedList Capability PageTable CNode.
From S2P Require Import Thread RoundRobin Ipc Untyped Syscall Trap TrapProps BootSpace BootRun Entry.
From S2P Require Import SyscallProps UserLib UserProg CapLib CapLibProps VSpace LibMap LibRetype LibThread System.
From S2P Require Import LibConfigure Direct Rendezvous Signals Spawn RootProg Witnesses BootWitnesses SystemWitnesses.

#[local] Existing Instance demo_layout.

(** ** Two threads at a notification *)

(** [tA] runs and [tB] is queued; they share a capability space with two
    capabilities to [ntA], of badges 5 and 9. *)
Definition sig_state : KState :=
  (boot_state (list_to_map [
     (tA, OTcb (meet_thread bufA 1)); (tB, OTcb (meet_thread bufB 2)); (ntA, ONotification Notification_new);
     (slot_addr capA 0, OSlot (Some (new_with_rawcap (nt_cap 5))));
     (slot_addr capA 1, OSlot (Some (new_with_rawcap (nt_cap 9))))]))
  <| current_proc := tA |> <| cpu_var ::= λ c, c <| cur_reg_base := tA |> |>
  <| scheduler := {| runqueue := {| ll_head := Some tB; ll_last := Some tB |}; requested := false |} |>.
Definition sig_nt (p : Z) : UserCap NotificaitonData := lib_cap p.

Lemma sig_holds p b :
  0 ≤ p < 4 → slot_at (heap sig_state) (slot_addr capA p) = Some (Some (new_with_rawcap (nt_cap b))) →
  holds (heap sig_state) capA (sig_nt p) CapabilityType.Notification (slot_addr capA p) (nt_cap b).
Proof. intros Hp Hs. split; [by apply capA_resolves|done|by eexists|done]. Qed.
Lemma sig_caller x buf id p b :
  heap sig_state !! x = Some (OTcb (meet_thread buf id)) → 0 ≤ p < 4 →
  slot_at (heap sig_state) (slot_addr capA p) = Some (Some (new_with_rawcap (nt_cap b))) →
  Rendezvous.caller (heap sig_state) CapabilityType.Notification x (meet_thread buf id) (sig_nt p) (nt_cap b).
Proof.
  intros Hx Hp Hs. split; [done| |done]. exists (new_with_rawcap capA), (slot_addr capA p). split; [done|].
  split; [by vm_compute|]. by apply sig_holds.
Qed.
Lemma sig_signalling :
  signalling sig_state tA (meet_thread bufA 1) (sig_nt 0) (nt_cap 5) tB (meet_thread bufB 2) (sig_nt 1) (nt_cap 9) [].
Proof.
  split; [done|done|apply radix_pos_decided; evalr| | |done| | | |done].
  - apply sig_caller; [evalr|lia|evalr].
  - apply sig_caller; [evalr|lia|evalr].
  - eexists. split; [evalr|done].
  - split; [evald|evalr|evalr|]. split; [tcb_at|done].
  - evald.
Qed.
Definition sig_sys (p q : Prog unit) : Sys :=
  {| kern := sig_state; code := <[tB := Running q]> {[tA := Running p]} |}.

Lemma signal_wakes_waiter_witness :
  let sy := sig_sys (let! b := notify_user_wait (sig_nt 0) in show_badge b) (notify_user_send (sig_nt 1) ;; PRet tt) in
  ∃ sy' t' k, rtc (sys_step tmpA programs) sy sy' ∧ code sy' !! tA = Some (Awaiting k) ∧
    heap (kern sy') !! tA = Some (OTcb t') ∧ k (syscall_result (registers (value t'))) = show_badge 9.
Proof.
  intros sy. destruct (signal_wakes_waiter tmpA programs sy tA (meet_thread bufA 1) (sig_nt 0) (nt_cap 5) tB
    (meet_thread bufB 2) (sig_nt 1) (nt_cap 9) [] show_badge (PRet tt) sig_signalling)
    as (sy' & t' & k & Hr & _ & _ & _ & Hk & Ht & Hres).
  - unfold sy, sig_sys. cbn [code]. rewrite lookup_insert_ne by done. apply lookup_singleton_eq.
  - unfold sy, sig_sys. cbn [code]. apply lookup_insert_eq.
  - exists sy', t', k. split; [exact Hr|]. split; [exact Hk|]. split; [exact Ht|exact Hres].
Defined.

Lemma library_signals_collected_witness :
  ∃ s', run_direct tmpA (signal_all [sig_nt 0; sig_nt 1] ;; notify_user_wait (sig_nt 0)) sig_state = Ok 13 s' ∧
    nt_rep (heap s') ntA (NBits None).
Proof.
  destruct (library_signals_collected tmpA sig_state tA (meet_thread bufA 1) capA ntA (sig_nt 0) [sig_nt 1] 5 [9]
    (sig_nt 0) (nt_cap 5) (slot_addr capA 0)) as (s' & Hrun & Hnt & _).
  - split; [evalr|evalr|by eexists|by vm_compute].
  - apply radix_pos_decided. evalr.
  - by vm_compute.
  - by vm_compute.
  - repeat constructor; [exists (slot_addr capA 0), (nt_cap 5)|exists (slot_addr capA 1), (nt_cap 9)];
      (split; [apply sig_holds; [lia|evalr]|done]).
  - apply sig_holds; [lia|evalr].
  - done.
  - eexists. split; [evalr|done].
  - exists s'. split; [exact Hrun|exact Hnt].
Defined.

(** ** Starting a thread *)

(** [tA], whose buffer is mapped at [uv], holds the control block of [tB]. *)
Definition parent : ThreadControlBlock :=
  lib_thread <| value ::= λ v, v <| ipc_buffer := Some (new_with_rawcap (set_mapped user_page uv)) |> |>.
Definition child : ThreadControlBlock := thread Inactive 0 7.
Definition tcb_cap : CapabilityData := cap_new CapabilityType.Tcb (phys_of_kva tB) 0.
Definition start_objects : gmap Z kobject :=
  <[tA := OTcb parent]> (<[tB := OTcb child]>
  (<[slot_addr capA 0 := OSlot (Some (new_with_rawcap tcb_cap))]>
  (heap match exec_reqs (map_tables ++ [VMapPage user_page space_root uv (user_flags flags_readandwrite)]) map_start
        with Ok _ s => s | _ => map_start end))).
Definition child_regs : Registers := Registers_null <| sepc := 0x10100 |> <| sp := 0x12ff8 |> <| a0 := 30 |>.

(** ** Launching a thread *)

(** [tA] alone, with capabilities to [tB], to a notification, to its own node and
    to the root of its address space. *)
Definition launch_objects : gmap Z kobject :=
  <[ntA := ONotification Notification_new]> (<[slot_addr capA 1 := OSlot (Some (new_with_rawcap (nt_cap 5)))]>
  (<[slot_addr capA 2 := OSlot (Some (new_with_rawcap capA))]>
  (<[slot_addr capA 3 := OSlot (Some (new_with_rawcap space_root))]> start_objects))).
Definition launch_state : KState :=
  (boot_state launch_objects) <| current_proc := tA |> <| satp := satp_of space_root |>
  <| cpu_var ::= λ c, c <| cur_reg_base := tA |> |>
  <| scheduler := {| runqueue := LinkedList_new; requested := false |} |>.

Lemma launch_holds {K} `{KernelObject K} p c ct :
  0 ≤ p < 4 → slot_at (heap launch_state) (slot_addr capA p) = Some (Some (new_with_rawcap c)) →
  CapabilityType.cap_type_try_from (cap_type c) = inr ct →
  holds (heap launch_state) capA (lib_cap p : UserCap K) ct (slot_addr capA p) c.
Proof. intros Hp Hs Hc. split; [by apply capA_resolves|done|by eexists|done]. Qed.
Lemma launch_places :
  config_places launch_state tmpA tB (slot_addr capA 2) (new_with_rawcap capA) (slot_addr capA 3) (new_with_rawcap space_root).
Proof.
  split.
  - split; [evald|]. split; [evald|evalr].
  - split; [evald|]. split; [evald|by vm_compute].
  - split; [evalr|by apply no_next].
  - split; [evalr|by apply no_next].
Qed.
Lemma launch_ready :
  can_launch launch_state tmpA tA parent capA (lib_cap 0) (slot_addr capA 0) tcb_cap child
    (lib_cap 2) (slot_addr capA 2) (new_with_rawcap capA) (lib_cap 3) (slot_addr capA 3) (new_with_rawcap space_root)
    uv (cap_kva user_page) IPCBuffer_zero.
Proof.
  split.
  - split; [evalr|evalr|by eexists|by vm_compute].
  - by vm_compute.
  - split; [apply radix_pos_decided; evalr|by vm_compute].
  - apply launch_holds; [lia|evalr|done].
  - apply launch_holds; [lia|evalr|done].
  - apply launch_holds; [lia|evalr|done].
  - exact launch_places.
  - split; [evalr|by vm_compute].
  - done.
  - split; [evalr|evalr|evalr|evalr|evalr|evalr].
  - split; [evalr|by vm_compute].
  - split; [evald|evalr|evalr|done].
Qed.

Lemma library_configure_twice_witness :
  run_direct tmpA (tcb_cap_configure (lib_cap 0) (lib_cap 2) (lib_cap 3) ;;
    tcb_cap_configure (lib_cap 0) (lib_cap 2) (lib_cap 3)) launch_state = Panic PAssert.
Proof.
  pose proof launch_ready as [Hrun _ [Hp Hr] Hu Huc Huv Hcp [Hy Hyx] (Hc0 & Hv0 & _) _ _ _].
  apply (library_configure_twice launch_state tmpA tA parent capA (lib_cap 0) (slot_addr capA 0) tcb_cap child
    (lib_cap 2) (slot_addr capA 2) (new_with_rawcap capA) (lib_cap 3) (slot_addr capA 3) (new_with_rawcap space_root));
    try assumption; by vm_compute.
Defined.

Definition launch_sys (p : Prog unit) : Sys := {| kern := launch_state; code := {[tA := Running p]} |}.

Lemma direct_run_steps_witness :
  let p := launch (lib_cap 0) (lib_cap 2) (lib_cap 3) child_regs uv in
  ∃ sy', rtc (sys_step tmpA programs) (launch_sys (p ;; PRet tt)) sy' ∧ code sy' !! tA = Some (Running (PRet tt)).
Proof.
  intros p. destruct (launch_call _ _ _ _ _ _ _ _ _ _ _ _ _ _ _ _ _ _ launch_ready child_regs)
    as (s1 & f & ec & ev & H1 & _ & _ & _ & _ & _ & _ & Hq & _). fold p in H1.
  destruct (direct_run_steps tmpA programs p (λ _, PRet tt) (launch_sys (p ;; PRet tt)) (inl tt) s1)
    as (sy' & Hsteps & Hk & Hcur & Hcode & _).
  - done.
  - apply lookup_singleton_eq.
  - unfold try_. cbn [launch_sys kern]. by rewrite H1.
  - by rewrite Hq.
  - exists sy'. split; [exact Hsteps|]. rewrite Hcur in Hcode. exact Hcode.
Defined.

(** The child's code, in its own address space. *)
Definition launch_programs (satp pc : Z) (r : Registers) : option (Prog unit) :=
  if (satp =? satp_of space_root) && (pc =? sepc child_regs) then Some (children show r) else None.
Lemma launched_thread_runs_witness :
  let p := launch (lib_cap 0) (lib_cap 2) (lib_cap 3) child_regs uv ;; let! b := notify_user_wait (lib_cap 1) in show_badge b in
  ∃ sy' ty', rtc (sys_step tmpA launch_programs) (launch_sys p) sy' ∧ current_proc (kern sy') = tB ∧
    code sy' !! tB = Some (Running (children show child_regs)) ∧ satp (kern sy') = satp_of space_root ∧
    heap (kern sy') !! tB = Some (OTcb ty') ∧ registers (value ty') = child_regs.
Proof.
  intros p. destruct (launched_thread_runs tmpA launch_programs (launch_sys p) _ _ _ _ _ _ _ _ _ _ _ _ _ _ _ _ child_regs
    (lib_cap 1) (slot_addr capA 1) (nt_cap 5) show_badge (children show child_regs) launch_ready)
    as (sy' & ty' & _ & _ & _ & Hr & Hcur & Hsatp & Hcode & Hty & Hregs & _).
  - done.
  - done.
  - done.
  - apply launch_holds; [lia|evalr|done].
  - eexists. split; [evalr|done].
  - apply lookup_singleton_eq.
  - by apply lookup_singleton_ne.
  - by vm_compute.
  - done.
  - exists sy', ty'. split; [exact Hr|]. split; [exact Hcur|]. split; [exact Hcode|]. split; [exact Hsatp|].
    split; [exact Hty|exact Hregs].
Defined.
